(** * Lottery draw extraction: a model of the layer-2 scripts

    The development embeds the decision logic of
    [layer2/extract_from_snaps.py] (module [Snaps]; [Lanes] for the JSON
    lane, the vision lane, the deduplication and [main] on dictionaries as
    [json.loads] returns them, with the dictionary operations in [Dyn]) and
    of [layer2/parse_and_classify.py] (module [Classify]; [Dataset] for the
    records that its [main] writes, [Harvest] for its helpers that read
    dates and numbers in a text, [Rows] for the date of a row) and states
    the properties of the written specification, and further properties of
    the code, over these embeddings.

    Conventions.
    - Python text is modelled by [string]; the inputs considered are ASCII
      text, so the character predicates below are the ASCII restrictions of
      Python's ([str.isspace], [\d], [\w], [str.lower]).
    - A Python value is a [Py.pyval].  The instances of [int] (plain integers
      and the booleans, [bool] being a subclass of [int]) are one constructor,
      so that [isinstance(x, int)] is a pattern match.
    - Code that can raise returns an [outcome]; [Raise] is an exception that
      leaves the function.
    - Library calls whose behaviour is not part of the repository
      ([dateutil.parser.parse], BeautifulSoup, [json.loads] and
      [json.dumps], the answer of the vision script, the wall clock) are
      variables of the sections that use them. *)

From Stdlib Require Import ZArith NArith Arith Bool List Lia.
From Stdlib Require Import Ascii String.
From Stdlib Require Decimal DecimalString DecimalZ.
From Stdlib Require Permutation Sorted OrderedTypeEx.
Import ListNotations.

Local Open Scope string_scope.
Local Open Scope Z_scope.

(* ===================================================================== *)
(** * Exceptions *)

Inductive outcome (A : Type) : Type :=
| Ret (a : A)
| Raise.
Arguments Ret {A} a.
Arguments Raise {A}.

Definition obind {A B} (o : outcome A) (k : A -> outcome B) : outcome B :=
  match o with
  | Ret a => k a
  | Raise => Raise
  end.

Notation "x <- c ;; k" := (obind c (fun x => k))
  (at level 61, c at next level, right associativity).

(* ===================================================================== *)
(** * Text *)

Module Text.

Definition code (c : ascii) : N := N_of_ascii c.

Definition between (lo hi : N) (c : ascii) : bool :=
  ((lo <=? code c) && (code c <=? hi))%N.

(** [\d] and [str.isdigit] on ASCII. *)
Definition is_digit (c : ascii) : bool := between 48 57 c.

Definition is_upper (c : ascii) : bool := between 65 90 c.
Definition is_lower (c : ascii) : bool := between 97 122 c.
Definition is_alpha (c : ascii) : bool := is_upper c || is_lower c.

(** [\w] on ASCII: letters, digits and the underscore. *)
Definition is_word (c : ascii) : bool :=
  is_alpha c || is_digit c || (code c =? 95)%N.

(** [str.isspace] and [\s] on ASCII: TAB, LF, VT, FF, CR, the four
    separators FS, GS, RS, US and the space. *)
Definition is_space (c : ascii) : bool :=
  between 9 13 c || between 28 32 c.

Definition lower_char (c : ascii) : ascii :=
  if is_upper c then ascii_of_N (code c + 32) else c.

Definition upper_char (c : ascii) : ascii :=
  if is_lower c then ascii_of_N (code c - 32) else c.

Definition chars (s : string) : list ascii := list_ascii_of_string s.
Definition text (l : list ascii) : string := string_of_list_ascii l.

(** [s.lower()] *)
Definition lower (s : string) : string := text (map lower_char (chars s)).

Fixpoint starts_with (p s : list ascii) : bool :=
  match p, s with
  | [], _ => true
  | a :: p', b :: s' => Ascii.eqb a b && starts_with p' s'
  | _ :: _, [] => false
  end.

Fixpoint contains_chars (p s : list ascii) : bool :=
  starts_with p s ||
  match s with
  | [] => false
  | _ :: s' => contains_chars p s'
  end.

(** [p in s] *)
Definition contains (p s : string) : bool := contains_chars (chars p) (chars s).

(** [s[:n]] *)
Definition prefix (n : nat) (s : string) : string := text (firstn n (chars s)).

(** [s[a:b]] for [0 <= a <= b] *)
Definition slice (a b : nat) (l : list ascii) : list ascii :=
  firstn (b - a) (skipn a l).

(** [sep.join(parts)] *)
Fixpoint join (sep : string) (parts : list string) : string :=
  match parts with
  | [] => ""
  | [p] => p
  | p :: rest => p ++ sep ++ join sep rest
  end.

(** [s.split()]: the maximal runs of non-whitespace characters.  [cur] is
    the run being read, reversed. *)
Fixpoint split_ws_aux (cur : list ascii) (s : list ascii) : list string :=
  match s with
  | [] => match cur with [] => [] | _ => [text (rev cur)] end
  | c :: s' =>
      if is_space c
      then match cur with
           | [] => split_ws_aux [] s'
           | _ => text (rev cur) :: split_ws_aux [] s'
           end
      else split_ws_aux (c :: cur) s'
  end.

Definition split_ws (s : string) : list string := split_ws_aux [] (chars s).

(** [s.split(sep)[0]] for a one-character separator *)
Fixpoint before_char (sep : ascii) (s : list ascii) : list ascii :=
  match s with
  | [] => []
  | c :: s' => if Ascii.eqb c sep then [] else c :: before_char sep s'
  end.

Fixpoint lstrip_by (sp : ascii -> bool) (s : list ascii) : list ascii :=
  match s with
  | c :: s' => if sp c then lstrip_by sp s' else s
  | [] => []
  end.

Definition strip_by (sp : ascii -> bool) (s : list ascii) : list ascii :=
  rev (lstrip_by sp (rev (lstrip_by sp s))).

(** The whitespace that [int] skips around an ASCII literal: TAB, LF, VT,
    FF, CR and the space (the separators FS to US are not skipped). *)
Definition is_c_space (c : ascii) : bool :=
  between 9 13 c || (code c =? 32)%N.

(** [str(z)] for an integer *)
Definition str_of_Z (z : Z) : string := DecimalString.NilEmpty.string_of_int (Z.to_int z).

(** [f"{n:0>w}"] on a string and [f"{z:0wd}"] on a non-negative integer: pad
    with zeros on the left up to the width. *)
Definition zfill (w : nat) (s : string) : string :=
  text (repeat "0"%char (w - String.length s)) ++ s.

Definition fmt0 (w : nat) (z : Z) : string :=
  if z <? 0 then "-" ++ zfill (w - 1) (str_of_Z (- z)) else zfill w (str_of_Z z).

(** [int(s)] for a string: surrounding whitespace is skipped, one sign is
    allowed, and the digits may be grouped by single underscores. *)
Fixpoint digits_grouped (prev_digit : bool) (s : list ascii) : bool :=
  match s with
  | [] => prev_digit
  | c :: s' =>
      if is_digit c then digits_grouped true s'
      else if (code c =? 95)%N then prev_digit && digits_grouped false s'
      else false
  end.

Definition unsigned_of_chars (s : list ascii) : option Z :=
  if digits_grouped false s
  then option_map Z.of_uint
         (DecimalString.NilEmpty.uint_of_string (text (filter is_digit s)))
  else None.

Definition int_of_chars (s : list ascii) : option Z :=
  match strip_by is_c_space s with
  | c :: r =>
      if Ascii.eqb c "-" then option_map Z.opp (unsigned_of_chars r)
      else if Ascii.eqb c "+" then unsigned_of_chars r
      else unsigned_of_chars (c :: r)
  | [] => None
  end.

Definition int_of_str (s : string) : option Z := int_of_chars (chars s).

End Text.

(* ===================================================================== *)
(** * Python values *)

Module Py.

(** The instances of [int]: [isinstance(x, int)] holds of an integer and of
    a boolean, and [True] and [False] behave as [1] and [0] in comparisons
    and arithmetic. *)
Inductive pyint : Type :=
| IInt (z : Z)
| IBool (b : bool).

Definition int_val (i : pyint) : Z :=
  match i with
  | IInt z => z
  | IBool true => 1
  | IBool false => 0
  end.

(** The instances of [float]: a finite one is [m * 2^e]. *)
Inductive pyfloat : Type :=
| Finite (m e : Z)
| Nan
| Inf (negative : bool).

(** The values that the scripts handle: what [json.loads] returns ([None],
    booleans, integers, floats, strings, lists and dictionaries, whose keys
    are strings) and tuples.  A dictionary is the list of its items in
    insertion order. *)
#[warnings="-register-all"]
Inductive pyval : Type :=
| PNone
| PNum (i : pyint)
| PFloat (f : pyfloat)
| PStr (s : string)
| PList (xs : list pyval)
| PTuple (xs : list pyval)
| PDict (items : list (string * pyval)).

Definition PInt (z : Z) : pyval := PNum (IInt z).
Definition PBool (b : bool) : pyval := PNum (IBool b).

(** [int(x)]: [None] when the call raises ([TypeError], [ValueError] or
    [OverflowError]). *)
Definition py_int (x : pyval) : option Z :=
  match x with
  | PNum i => Some (int_val i)
  | PFloat (Finite m e) =>
      Some (if 0 <=? e then m * 2 ^ e else Z.quot m (2 ^ (- e)))
  | PFloat _ => None
  | PStr s => Text.int_of_str s
  | PNone | PList _ | PTuple _ | PDict _ => None
  end.

(** [str(i)] for an instance of [int] *)
Definition str_of_int (i : pyint) : string :=
  match i with
  | IInt z => Text.str_of_Z z
  | IBool true => "True"
  | IBool false => "False"
  end.

(** [lo <= x <= hi] *)
Definition in_range (lo hi x : Z) : bool := (lo <=? x) && (x <=? hi).

End Py.

(* ===================================================================== *)
(** * Regular expressions

    The patterns of the two scripts are written in the abstract syntax
    below and run by a backtracking matcher that tries alternatives in the
    order of Python's [re]: the left branch of an alternation first, the
    longest repetition first.  Repetition applies to a character class;
    the bounded repetitions of a group that the scripts use are unfolded
    by [times] and [upto]. *)

Module Re.

Inductive atom : Type :=
| AChar (c : ascii)
| ARange (lo hi : ascii)
| ADigit
| ASpace
| AWord.

(** A bracketed class, possibly negated, or the dot. *)
Inductive cls : Type :=
| Cls (negated : bool) (atoms : list atom)
| Dot.

Inductive re : Type :=
| Eps
| One (c : cls)
| Rep (c : cls) (lo : nat) (hi : option nat)
| Bnd
| Bol
| Cat (a b : re)
| Alt (a b : re)
| Grp (n : nat) (a : re).

Record flags : Type := { ignorecase : bool; dotall : bool }.

Definition no_flags : flags := {| ignorecase := false; dotall := false |}.
Definition flag_i : flags := {| ignorecase := true; dotall := false |}.
Definition flag_is : flags := {| ignorecase := true; dotall := true |}.

Definition atom_matches (a : atom) (x : ascii) : bool :=
  match a with
  | AChar c => Ascii.eqb c x
  | ARange lo hi => Text.between (Text.code lo) (Text.code hi) x
  | ADigit => Text.is_digit x
  | ASpace => Text.is_space x
  | AWord => Text.is_word x
  end.

Definition atoms_match (fl : flags) (atoms : list atom) (x : ascii) : bool :=
  existsb (fun a =>
             atom_matches a x ||
             (ignorecase fl &&
              (atom_matches a (Text.lower_char x) ||
               atom_matches a (Text.upper_char x)))) atoms.

Definition cls_matches (fl : flags) (c : cls) (x : ascii) : bool :=
  match c with
  | Cls negated atoms => xorb negated (atoms_match fl atoms x)
  | Dot => dotall fl || negb (Ascii.eqb x "010"%char)
  end.

(** The matcher's position: the offset in the subject, the character just
    before it, the text still to read and the spans of the groups closed so
    far (the latest first). *)
Record mstate : Type := {
  pos : nat;
  prev : option ascii;
  rest : list ascii;
  caps : list (nat * (nat * nat))
}.

Definition is_word_opt (c : option ascii) : bool :=
  match c with
  | Some x => Text.is_word x
  | None => false
  end.

(** Greedy repetition of a class: take one more character when allowed and
    go on; when that fails, stop here if the lower bound is reached. *)
Fixpoint rep_cls (fl : flags) (c : cls) (lo : nat) (hi : option nat)
    (p : nat) (pv : option ascii) (s : list ascii)
    (k : nat -> option ascii -> list ascii -> option mstate) {struct s}
    : option mstate :=
  let stop := match lo with
              | O => k p pv s
              | S _ => None
              end in
  match hi with
  | Some O => stop
  | _ =>
      match s with
      | [] => stop
      | x :: s' =>
          if cls_matches fl c x
          then match rep_cls fl c (Nat.pred lo) (option_map Nat.pred hi)
                             (S p) (Some x) s' k with
               | Some r => Some r
               | None => stop
               end
          else stop
      end
  end.

Fixpoint run (fl : flags) (r : re) (st : mstate)
    (k : mstate -> option mstate) {struct r} : option mstate :=
  match r with
  | Eps => k st
  | One c =>
      match rest st with
      | x :: s' =>
          if cls_matches fl c x
          then k {| pos := S (pos st); prev := Some x; rest := s';
                    caps := caps st |}
          else None
      | [] => None
      end
  | Rep c lo hi =>
      rep_cls fl c lo hi (pos st) (prev st) (rest st)
        (fun p pv s => k {| pos := p; prev := pv; rest := s;
                            caps := caps st |})
  | Bnd =>
      if xorb (is_word_opt (prev st)) (is_word_opt (hd_error (rest st)))
      then k st else None
  | Bol => if Nat.eqb (pos st) 0 then k st else None
  | Cat a b => run fl a st (fun st' => run fl b st' k)
  | Alt a b =>
      match run fl a st k with
      | Some res => Some res
      | None => run fl b st k
      end
  | Grp n a =>
      run fl a st
        (fun st' => k {| pos := pos st'; prev := prev st'; rest := rest st';
                         caps := (n, (pos st, pos st')) :: caps st' |})
  end.

(** A match object: the subject, the span of the whole match and the
    groups. *)
Record mobj : Type := {
  subject : list ascii;
  m_start : nat;
  m_end : nat;
  m_caps : list (nat * (nat * nat))
}.

(** The leftmost match at or after the current position. *)
Fixpoint search_from (fl : flags) (r : re) (subj : list ascii)
    (p : nat) (pv : option ascii) (s : list ascii) {struct s} : option mobj :=
  match run fl r {| pos := p; prev := pv; rest := s; caps := [] |} Some with
  | Some st =>
      Some {| subject := subj; m_start := p; m_end := pos st;
              m_caps := caps st |}
  | None =>
      match s with
      | [] => None
      | x :: s' => search_from fl r subj (S p) (Some x) s'
      end
  end.

(** [re.search(r, s)] *)
Definition search (fl : flags) (r : re) (s : string) : option mobj :=
  search_from fl r (Text.chars s) 0 None (Text.chars s).

Fixpoint lookup_cap (n : nat) (l : list (nat * (nat * nat)))
    : option (nat * nat) :=
  match l with
  | [] => None
  | (i, span) :: l' => if Nat.eqb i n then Some span else lookup_cap n l'
  end.

(** [m.group(0)] *)
Definition group0 (m : mobj) : string :=
  Text.text (Text.slice (m_start m) (m_end m) (subject m)).

(** [m.group(n)] for a group of the pattern: [None] when the group took no
    part in the match. *)
Definition group (n : nat) (m : mobj) : option string :=
  match lookup_cap n (m_caps m) with
  | Some (a, b) => Some (Text.text (Text.slice a b (subject m)))
  | None => None
  end.

(** Does the pattern have a group numbered [n]?  ([m.group(n)] raises
    [IndexError] otherwise.) *)
Fixpoint has_group (n : nat) (r : re) : bool :=
  match r with
  | Cat a b | Alt a b => has_group n a || has_group n b
  | Grp i a => Nat.eqb i n || has_group n a
  | _ => false
  end.

(** The non-overlapping matches from left to right, as [re.finditer]
    yields them; after an empty match the scan moves on by one character. *)
Fixpoint finditer_fuel (fuel : nat) (fl : flags) (r : re) (subj : list ascii)
    (p : nat) : list mobj :=
  match fuel with
  | O => []
  | S fuel' =>
      let pv := match p with
                | O => None
                | S q => nth_error subj q
                end in
      match search_from fl r subj p pv (skipn p subj) with
      | None => []
      | Some m =>
          m :: finditer_fuel fuel' fl r subj
                 (if Nat.eqb (m_end m) (m_start m) then S (m_end m)
                  else m_end m)
      end
  end.

(** [re.findall(r, s)] for a pattern without groups *)
Definition findall (fl : flags) (r : re) (s : string) : list string :=
  map group0
      (finditer_fuel (S (String.length s)) fl r (Text.chars s) 0).

(** ** Writing patterns *)

Definition chr (c : ascii) : re := One (Cls false [AChar c]).

Fixpoint lit_chars (l : list ascii) : re :=
  match l with
  | [] => Eps
  | [c] => chr c
  | c :: l' => Cat (chr c) (lit_chars l')
  end.

(** A literal word *)
Definition lit (s : string) : re := lit_chars (Text.chars s).

Fixpoint seq (l : list re) : re :=
  match l with
  | [] => Eps
  | [r] => r
  | r :: l' => Cat r (seq l')
  end.

Fixpoint alts (l : list re) : re :=
  match l with
  | [] => Eps
  | [r] => r
  | r :: l' => Alt r (alts l')
  end.

(** [r?] *)
Definition opt (r : re) : re := Alt r Eps.

(** [r{n}] *)
Fixpoint times (n : nat) (r : re) : re :=
  match n with
  | O => Eps
  | S n' => Cat r (times n' r)
  end.

(** [r{0,n}], the longest first *)
Fixpoint upto (n : nat) (r : re) : re :=
  match n with
  | O => Eps
  | S n' => opt (Cat r (upto n' r))
  end.

Definition digit : cls := Cls false [ADigit].
Definition space : cls := Cls false [ASpace].
Definition digits (lo hi : nat) : re := Rep digit lo (Some hi).

End Re.

(* ===================================================================== *)
(** * Dates and times ([datetime]) *)

Module Clock.

Record date : Type := mkDate { year : Z; month : Z; day : Z }.

(** [tzinfo] is the UTC offset in microseconds, [None] for a naive value. *)
Record datetime : Type := mkDatetime {
  on : date;
  hour : Z;
  minute : Z;
  second : Z;
  microsecond : Z;
  tzinfo : option Z
}.

Definition is_leap (y : Z) : bool :=
  (y mod 4 =? 0) && (negb (y mod 100 =? 0) || (y mod 400 =? 0)).

Definition days_before_year (y : Z) : Z :=
  (y - 1) * 365 + (y - 1) / 4 - (y - 1) / 100 + (y - 1) / 400.

Definition DAYS_BEFORE_MONTH : list Z :=
  [0; 31; 59; 90; 120; 151; 181; 212; 243; 273; 304; 334].

Definition days_before_month (y m : Z) : Z :=
  nth (Z.to_nat (m - 1)) DAYS_BEFORE_MONTH 0
  + (if (2 <? m) && is_leap y then 1 else 0).

(** [d.toordinal()] *)
Definition toordinal (d : date) : Z :=
  days_before_year (year d) + days_before_month (year d) (month d) + day d.

Definition US_PER_SECOND : Z := 1000000.
Definition US_PER_DAY : Z := 86400 * US_PER_SECOND.

(** The point in time of a value, in microseconds; a naive value is read as
    UTC. *)
Definition instant (t : datetime) : Z :=
  (((toordinal (on t) * 24 + hour t) * 60 + minute t) * 60 + second t)
    * US_PER_SECOND
  + microsecond t
  - match tzinfo t with
    | Some off => off
    | None => 0
    end.

(** [(a - b).days]: the difference in whole days, rounded down. *)
Definition delta_days (a b : datetime) : Z := (instant a - instant b) / US_PER_DAY.

(** [d.isoformat()] *)
Definition date_isoformat (d : date) : string :=
  Text.fmt0 4 (year d) ++ "-" ++ Text.fmt0 2 (month d) ++ "-"
    ++ Text.fmt0 2 (day d).

(** [t.isoformat()] for a naive value *)
Definition datetime_isoformat (t : datetime) : string :=
  date_isoformat (on t) ++ "T" ++ Text.fmt0 2 (hour t) ++ ":"
    ++ Text.fmt0 2 (minute t) ++ ":" ++ Text.fmt0 2 (second t)
    ++ (if microsecond t =? 0 then "" else "." ++ Text.fmt0 6 (microsecond t)).

End Clock.

(* ===================================================================== *)
(** * [layer2/extract_from_snaps.py] *)

Module Snaps.

Import Py Clock.

Definition LAST_N_DAYS : Z := 14.

(** A rule of [GAME_RULES]: [(count, lo, hi)] for the main balls and for
    the bonus ball, and the name of the bonus ball. *)
Record game_rule : Type := {
  main : nat * Z * Z;
  bonus : nat * Z * Z;
  bonus_name : string
}.

Definition main_count (r : game_rule) : nat := fst (fst (main r)).
Definition main_lo (r : game_rule) : Z := snd (fst (main r)).
Definition main_hi (r : game_rule) : Z := snd (main r).
Definition bonus_lo (r : game_rule) : Z := snd (fst (bonus r)).
Definition bonus_hi (r : game_rule) : Z := snd (bonus r).

Definition GAME_RULES : list (string * game_rule) :=
  [ ("Powerball",
      {| main := (5%nat, 1, 69); bonus := (1%nat, 1, 26); bonus_name := "Powerball" |});
    ("Mega Millions",
      {| main := (5%nat, 1, 70); bonus := (1%nat, 1, 25); bonus_name := "Mega Ball" |});
    ("Lucky for Life",
      {| main := (5%nat, 1, 48); bonus := (1%nat, 1, 18); bonus_name := "Lucky Ball" |});
    ("Cash4Life",
      {| main := (5%nat, 1, 60); bonus := (1%nat, 1, 4); bonus_name := "Cash Ball" |});
    ("Lotto America",
      {| main := (5%nat, 1, 52); bonus := (1%nat, 1, 10); bonus_name := "Star Ball" |}) ].

Definition GAME_HINTS : list (string * list string) :=
  [ ("Powerball", ["powerball"; "double play"]);
    ("Mega Millions", ["mega"; "megamillions"; "mega millions"]);
    ("Lucky for Life", ["lucky for life"; "luckyforlife"]);
    ("Cash4Life", ["cash4life"; "cash for life"; "cash 4 life"]);
    ("Lotto America", ["lotto america"; "lottoamerica"]) ].

(** [d.get(k)] on a dictionary with string keys *)
Fixpoint dict_get {V : Type} (d : list (string * V)) (k : string) : option V :=
  match d with
  | [] => None
  | (k', v) :: d' => if String.eqb k' k then Some v else dict_get d' k
  end.

Section SaneDate.

(** [NOW], read once when the script starts (an aware UTC value), and
    [dateutil.parser.parse(s, fuzzy=True)], [None] when it raises. *)
Variable NOW : datetime.
Variable dateparse : string -> option datetime.

Definition THIS_YEAR : Z := year (on NOW).

Definition sane_date (date_str : string) : option string :=
  match dateparse date_str with
  | None => None
  | Some dt0 =>
      let dt := match tzinfo dt0 with
                | None => mkDatetime (on dt0) (hour dt0) (minute dt0)
                            (second dt0) (microsecond dt0) (Some 0)
                | Some _ => dt0
                end in
      if (year (on dt) <? THIS_YEAR - 1) || (THIS_YEAR <? year (on dt))
      then None
      else
        let days := delta_days NOW dt in
        if (days <? 0) || (LAST_N_DAYS <? days)
        then None
        else Some (date_isoformat (on dt))
  end.

End SaneDate.

Definition is_int_in (lo hi : Z) (x : pyval) : bool :=
  match x with
  | PNum i => in_range lo hi (int_val i)
  | _ => false
  end.

Definition validate_numbers (game : string) (nums : list pyval)
    (bonus_ball : pyval) : bool :=
  match dict_get GAME_RULES game with
  | None => false
  | Some rule =>
      let '(main_count, lo, hi) := main rule in
      let '(_, blo, bhi) := bonus rule in
      if negb (Nat.eqb (List.length nums) main_count) then false
      else if negb (forallb (is_int_in lo hi) nums) then false
      else
        match bonus_ball with
        | PNone => false
        | PNum i => in_range blo bhi (int_val i)
        | PList [PNum i] => in_range blo bhi (int_val i)
        | PTuple [PNum i] => in_range blo bhi (int_val i)
        | _ => false
        end
  end.

Definition or_empty (s : option string) : string :=
  match s with
  | Some x => x
  | None => ""
  end.

Fixpoint first_hint (ctx : string) (hints : list (string * list string))
    : option string :=
  match hints with
  | [] => None
  | (g, hs) :: rest =>
      if existsb (fun h => Text.contains h ctx) hs then Some g
      else first_hint ctx rest
  end.

Definition detect_game (context_text : option string) (url : option string)
    : option string :=
  let ctx := Text.lower (or_empty context_text ++ " " ++ or_empty url) in
  first_hint ctx GAME_HINTS.

(** A record as [to_record] builds it.  [numbers] holds instances of
    [int]: the main balls are passed through [int], the bonus ball is
    appended as it is when it is an instance of [int]. *)
Record record : Type := {
  date : string;
  game : string;
  numbers : list pyint;
  jackpot_usd : pyval;
  winners : pyval;
  source_url : option string;
  fetched_at : string;
  extraction_method : string;
  confidence : pyval
}.

(** [list(map(int, nums))] *)
Fixpoint map_int (nums : list pyval) : outcome (list Z) :=
  match nums with
  | [] => Ret []
  | x :: rest =>
      match py_int x with
      | None => Raise
      | Some z => zs <- map_int rest ;; Ret (z :: zs)
      end
  end.

(** [utcnow] is the reading of [datetime.utcnow()] taken by the call. *)
Definition to_record (utcnow : datetime) (game iso_date : string)
    (nums : list pyval) (bonus_ball jackpot : pyval)
    (source_url : option string) (method : string) (confidence : pyval)
    : outcome record :=
  nums' <- map_int nums ;;
  let bonus' := match bonus_ball with
                | PNum _ => bonus_ball
                | PList (b0 :: _) => b0
                | PTuple (b0 :: _) => b0
                | _ => bonus_ball
                end in
  Ret {| date := iso_date;
         game := game;
         numbers := map IInt nums'
                    ++ match bonus' with
                       | PNum i => [i]
                       | _ => []
                       end;
         jackpot_usd := jackpot;
         winners := PNone;
         source_url := source_url;
         fetched_at := datetime_isoformat utcnow ++ "Z";
         extraction_method := method;
         confidence := confidence |}.

(** ** Deduplication *)

Definition rank (method : string) : nat :=
  if String.eqb method "json" then 3
  else if String.eqb method "html" then 2
  else if String.eqb method "vision" then 1
  else 0.

(** The key [(game, date, tuple(numbers))].  Python compares and hashes
    the instances of [int] by value, [True] as [1]. *)
Definition key : Type := string * string * list Z.

Definition key_of (r : record) : key :=
  (game r, date r, map int_val (numbers r)).

Fixpoint nums_eqb (a b : list Z) : bool :=
  match a, b with
  | [], [] => true
  | x :: a', y :: b' => Z.eqb x y && nums_eqb a' b'
  | _, _ => false
  end.

Definition key_eqb (a b : key) : bool :=
  let '(g1, d1, n1) := a in
  let '(g2, d2, n2) := b in
  String.eqb g1 g2 && String.eqb d1 d2 && nums_eqb n1 n2.

(** The step of the loop on the dictionary [seen], kept in insertion
    order: a new key is appended; the value of a key already there is
    replaced, in place, by a record of strictly higher rank. *)
Fixpoint upsert (seen : list (key * record)) (k : key) (r : record)
    : list (key * record) :=
  match seen with
  | [] => [(k, r)]
  | (k', r') :: rest =>
      if key_eqb k k'
      then (if Nat.ltb (rank (extraction_method r'))
                       (rank (extraction_method r))
            then (k', r) :: rest
            else (k', r') :: rest)
      else (k', r') :: upsert rest k r
  end.

Definition dedupe_keep_best (records : list record) : list record :=
  map snd (fold_left (fun seen r => upsert seen (key_of r) r) records []).

(** ** The rendered-HTML lane *)

Definition letters : Re.cls := Re.Cls false [Re.ARange "A" "Z"; Re.ARange "a" "z"].
Definition maybe_dot : Re.re := Re.Rep (Re.Cls false [Re.AChar "."]) 0 (Some 1%nat).
Definition spaces0 : Re.re := Re.Rep Re.space 0 None.
Definition spaces1 : Re.re := Re.Rep Re.space 1 None.

(** [(?i)(?:draw|date|drawing)[^\n]{0,20}\b([A-Za-z]{3,9}\.? \d{1,2}(?:, \d{2,4})?|\d{1,2}/\d{1,2}/\d{2,4}|[A-Za-z]{3}\.? \d{1,2})] *)
Definition DATE_RX : Re.re :=
  Re.seq
    [ Re.alts [Re.lit "draw"; Re.lit "date"; Re.lit "drawing"];
      Re.Rep (Re.Cls true [Re.AChar "010"]) 0 (Some 20%nat);
      Re.Bnd;
      Re.Grp 1
        (Re.alts
           [ Re.seq [ Re.Rep letters 3 (Some 9%nat); maybe_dot; Re.chr " ";
                      Re.digits 1 2;
                      Re.opt (Re.seq [Re.lit ", "; Re.digits 2 4]) ];
             Re.seq [ Re.digits 1 2; Re.chr "/"; Re.digits 1 2; Re.chr "/";
                      Re.digits 2 4 ];
             Re.seq [ Re.Rep letters 3 (Some 3%nat); maybe_dot; Re.chr " ";
                      Re.digits 1 2 ] ]) ].

(** One item of [NUMS_RX]: [(\b\d{1,2}\b(?:\s*[,\-...]\s*|\s+))].  Of
    the separators of the class only the comma and the hyphen are ASCII. *)
Definition NUMS_ITEM : Re.re :=
  Re.Grp 1
    (Re.seq
       [ Re.Bnd; Re.digits 1 2; Re.Bnd;
         Re.Alt
           (Re.seq [ spaces0; Re.One (Re.Cls false [Re.AChar ","; Re.AChar "-"]);
                     spaces0 ])
           spaces1 ]).

(** [(...){4,6}\b] *)
Definition NUMS_RX : Re.re :=
  Re.seq [Re.times 4 NUMS_ITEM; Re.upto 2 NUMS_ITEM; Re.Bnd].

(** [(?i)(powerball|mega\s*ball|lucky\s*ball|cash\s*ball|star\s*ball|bonus)[^\d]{0,6}(\d{1,2})] *)
Definition BONUS_RX : Re.re :=
  Re.seq
    [ Re.Grp 1
        (Re.alts
           [ Re.lit "powerball";
             Re.seq [Re.lit "mega"; spaces0; Re.lit "ball"];
             Re.seq [Re.lit "lucky"; spaces0; Re.lit "ball"];
             Re.seq [Re.lit "cash"; spaces0; Re.lit "ball"];
             Re.seq [Re.lit "star"; spaces0; Re.lit "ball"];
             Re.lit "bonus" ]);
      Re.Rep (Re.Cls true [Re.ADigit]) 0 (Some 6%nat);
      Re.Grp 2 (Re.digits 1 2) ].

(** [(?i)\b(404|not found|page wasn.t a winner)\b] *)
Definition SOFT_404_RX : Re.re :=
  Re.seq
    [ Re.Bnd;
      Re.Grp 1
        (Re.alts
           [ Re.lit "404";
             Re.lit "not found";
             Re.seq [Re.lit "page wasn"; Re.One Re.Dot; Re.lit "t a winner"] ]);
      Re.Bnd ].

(** [^https?://] *)
Definition SCHEME_RX : Re.re :=
  Re.seq [ Re.Bol; Re.lit "http";
           Re.Rep (Re.Cls false [Re.AChar "s"]) 0 (Some 1%nat); Re.lit "://" ].

(** [[int(x) for x in re.findall(r'\d{1,2}', s)]] *)
Definition ints_in (s : string) : outcome (list Z) :=
  map_int (map PStr (Re.findall Re.no_flags (Re.digits 1 2) s)).

(** [re.sub(r'^https?://', '', url).split('/')[0].lower()] *)
Definition host_of (url : string) : string :=
  let rest := match Re.search Re.no_flags SCHEME_RX url with
              | Some m => skipn (Re.m_end m) (Text.chars url)
              | None => Text.chars url
              end in
  Text.lower (Text.text (Text.before_char "/" rest)).

(** A rule of the adapter store, as loaded from its YAML file; the
    patterns are given in abstract syntax. *)
Record adapter : Type := {
  rule_game : option string;
  scope_contains : list string;
  css_scope : option string;
  date_regex : option Re.re;
  numbers_regex : option Re.re;
  bonus_regex : option Re.re;
  jackpot_regex : option Re.re
}.

Definition truthy_str (s : option string) : bool :=
  match s with
  | Some x => negb (String.eqb x "")
  | None => false
  end.

Definition opt_int (z : option Z) : pyval :=
  match z with
  | Some v => PInt v
  | None => PNone
  end.

Section HtmlLane.

Variable NOW : datetime.
Variable dateparse : string -> option datetime.

(** The reading of [datetime.utcnow()] by the call of [to_record]. *)
Variable utcnow : datetime.

(** BeautifulSoup: the parsed document, the texts
    [el.get_text(" ", strip=True)] of the elements that
    [find_all(['section', ..., 'main'])] returns, the text of the whole
    page, and the texts of the elements that [select(css)] returns. *)
Variable Soup : Type.
Variable BeautifulSoup : string -> Soup.
Variable find_all_text : Soup -> list string.
Variable get_text : Soup -> string.
Variable select_text : Soup -> string -> outcome (list string).

(** The adapter store, and whether [yaml] could be imported. *)
Variable HAVE_YAML : bool.
Variable ADAPTERS : list (string * list adapter).

(** The jackpot parsers: they end in [int(float(x))]. *)
Variable parse_money_html : string -> option Z.
Variable parse_money_general : string -> option Z.

(** [sane_date(m.group(1))]: the call raises inside [sane_date] on [None],
    which returns [None]. *)
Definition sane_date_opt (s : option string) : option string :=
  match s with
  | Some x => sane_date NOW dateparse x
  | None => None
  end.

Definition html_text_blocks (soup : Soup) : list string :=
  let blocks :=
    filter (fun t => Nat.ltb 40 (String.length t)) (find_all_text soup) in
  let page_txt := get_text soup in
  if negb (String.eqb page_txt "")
     && forallb (fun b => negb (String.eqb page_txt b)) blocks
  then blocks ++ [page_txt]
  else blocks.

(** The body of the loop over the scopes of a rule: [Ret None] is
    [continue], [Ret (Some r)] is the record appended to [out]. *)
Definition adapt_scope (rule : adapter) (url : option string) (text : string)
    : outcome (option record) :=
  let low := Text.lower text in
  let scope_any := map Text.lower (scope_contains rule) in
  if negb (Nat.eqb (List.length scope_any) 0)
     && negb (existsb (fun k => Text.contains k low) scope_any)
  then Ret None
  else
    iso1 <- match date_regex rule with
            | Some rx =>
                match Re.search Re.flag_is rx text with
                | Some dm =>
                    if Re.has_group 1 rx
                    then Ret (sane_date_opt (Re.group 1 dm))
                    else Raise
                | None => Ret None
                end
            | None => Ret None
            end ;;
    let iso2 := match iso1 with
                | Some i => Some i
                | None =>
                    match Re.search Re.flag_i DATE_RX text with
                    | Some dm => sane_date_opt (Re.group 1 dm)
                    | None => None
                    end
                end in
    match iso2 with
    | None => Ret None
    | Some iso =>
        nums1 <- match numbers_regex rule with
                 | Some rx =>
                     match Re.search Re.flag_is rx text with
                     | Some nm => ints_in (Re.group0 nm)
                     | None => Ret []
                     end
                 | None => Ret []
                 end ;;
        nums2 <- match nums1 with
                 | [] =>
                     match Re.search Re.no_flags NUMS_RX text with
                     | Some nm => ints_in (Re.group0 nm)
                     | None => Ret []
                     end
                 | _ => Ret nums1
                 end ;;
        if Nat.ltb (List.length nums2) 5 then Ret None
        else
          let nums := firstn 5 nums2 in
          bval1 <- match bonus_regex rule with
                   | Some rx =>
                       match Re.search Re.flag_is rx text with
                       | Some bm =>
                           bb <- ints_in (Re.group0 bm) ;;
                           Ret (hd_error bb)
                       | None => Ret None
                       end
                   | None => Ret None
                   end ;;
          bval <- match bval1 with
                  | Some b => Ret (Some b)
                  | None =>
                      match Re.search Re.flag_i BONUS_RX text with
                      | Some bm =>
                          match Re.group 2 bm with
                          | Some g =>
                              match Text.int_of_str g with
                              | Some b => Ret (Some b)
                              | None => Raise
                              end
                          | None => Raise
                          end
                      | None => Ret None
                      end
                  end ;;
          let jackpot1 := match jackpot_regex rule with
                          | Some rx =>
                              match Re.search Re.flag_is rx text with
                              | Some jm => parse_money_general (Re.group0 jm)
                              | None => None
                              end
                          | None => None
                          end in
          let jackpot := match jackpot1 with
                         | Some j => Some j
                         | None => parse_money_html text
                         end in
          match rule_game rule with
          | Some game =>
              if negb (String.eqb game "")
                 && validate_numbers game (map PInt nums) (opt_int bval)
              then
                r <- to_record utcnow game iso (map PInt nums) (opt_int bval)
                       (opt_int jackpot) url "html" PNone ;;
                Ret (Some r)
              else Ret None
          | None => Ret None
          end
    end.

Fixpoint scan_scopes (rule : adapter) (url : option string)
    (scopes : list string) : outcome (option record) :=
  match scopes with
  | [] => Ret None
  | text :: rest =>
      r <- adapt_scope rule url text ;;
      match r with
      | Some rec => Ret (Some rec)
      | None => scan_scopes rule url rest
      end
  end.

Fixpoint scan_rules (soup : Soup) (blocks : list string) (url : option string)
    (rules : list adapter) : outcome (list record) :=
  match rules with
  | [] => Ret []
  | rule :: rest =>
      selected <- (if truthy_str (css_scope rule)
                   then select_text soup (or_empty (css_scope rule))
                   else Ret []) ;;
      let scopes := match selected with
                    | [] => blocks
                    | _ => selected
                    end in
      r <- scan_scopes rule url scopes ;;
      match r with
      | Some rec => Ret [rec]
      | None => scan_rules soup blocks url rest
      end
  end.

Definition apply_adapter_html (html : string) (url : option string)
    : outcome (list record) :=
  if negb HAVE_YAML then Ret []
  else
    match url with
    | None => Ret []
    | Some u =>
        match dict_get ADAPTERS (host_of u) with
        | None | Some [] => Ret []
        | Some rules =>
            let soup := BeautifulSoup html in
            scan_rules soup (html_text_blocks soup) url rules
        end
    end.

Definition extract_from_html (html : string) (url : option string)
    : outcome (list record) :=
  recs <- apply_adapter_html html url ;;
  match recs with
  | _ :: _ => Ret recs
  | [] =>
      let text := get_text (BeautifulSoup html) in
      match Re.search Re.flag_i SOFT_404_RX text with
      | Some _ => Ret []
      | None =>
          match detect_game (Some text) url with
          | None => Ret []
          | Some game =>
              match Re.search Re.no_flags NUMS_RX text with
              | None => Ret []
              | Some nums_hit =>
                  all_nums <- ints_in (Re.group0 nums_hit) ;;
                  let nums := firstn 5 all_nums in
                  b <- match Re.search Re.flag_i BONUS_RX text with
                       | Some m =>
                           match Re.group 2 m with
                           | Some g =>
                               match Text.int_of_str g with
                               | Some v => Ret (Some v)
                               | None => Raise
                               end
                           | None => Raise
                           end
                       | None => Ret None
                       end ;;
                  let date_txt := match Re.search Re.flag_i DATE_RX text with
                                  | Some dm => Re.group 1 dm
                                  | None => None
                                  end in
                  let iso := if truthy_str date_txt
                             then sane_date_opt date_txt
                             else None in
                  match iso with
                  | None => Ret []
                  | Some iso_date =>
                      if negb (validate_numbers game (map PInt (firstn 5 nums))
                                 (opt_int b))
                      then Ret []
                      else
                        let jackpot := parse_money_html text in
                        r <- to_record utcnow game iso_date
                               (map PInt (firstn 5 nums)) (opt_int b)
                               (opt_int jackpot) url "html" PNone ;;
                        Ret [r]
                  end
              end
          end
      end
  end.

End HtmlLane.

(** ** The driver *)

(** The lanes in the order in which [main] tries them: the clean body file,
    the network JSON captured by the snapshotter, the rendered HTML and the
    screenshot. *)
Inductive lane : Type := LaneA0 | LaneA | LaneB | LaneC.

Definition lane_index (l : lane) : nat :=
  match l with
  | LaneA0 => 0
  | LaneA => 1
  | LaneB => 2
  | LaneC => 3
  end.

(** The files of one capture, as [main] finds them beside a readable
    [.meta.json] holding a JSON object: [None] when the file does not exist,
    [Raise] when reading or decoding it raises.  The entries of the network
    file are the values [n.get("body", "")], [Raise] where that call
    raises. *)
Record capture : Type := {
  url : option string;
  body_json : option (outcome string);
  network_json : option (outcome (list (outcome pyval)));
  html_file : option (outcome string);
  full_png : option string
}.

Section Driver.

(** The records are opaque to the driver: it only asks whether a lane
    returned any.  Every lane is a variable, so what is proved of the driver
    holds whatever the lanes compute. *)
Variable R : Type.
Variable extract_from_network_json : pyval -> option string -> outcome (list R).
Variable extract_from_html : string -> option string -> outcome (list R).
Variable extract_with_vision : string -> option string -> list R.

(** [if recs:] under [try: ... except Exception: pass] *)
Definition nonempty (o : outcome (list R)) : option (list R) :=
  match o with
  | Ret (r :: rs) => Some (r :: rs)
  | _ => None
  end.

(** The loop of lane A over the entries, with the lanes it invokes: it
    stops at the first entry that yields records, and an exception leaves
    the lane. *)
Fixpoint scan_nets (u : option string) (nets : list (outcome pyval))
    : list lane * option (list R) :=
  match nets with
  | [] => ([], None)
  | Raise :: _ => ([], None)
  | Ret body :: rest =>
      match extract_from_network_json body u with
      | Raise => ([LaneA], None)
      | Ret [] => let '(log, res) := scan_nets u rest in (LaneA :: log, res)
      | Ret recs => ([LaneA], Some recs)
      end
  end.

Definition run_A0 (c : capture) : list lane * option (list R) :=
  match body_json c with
  | Some (Ret body) =>
      ([LaneA0], nonempty (extract_from_network_json (PStr body) (url c)))
  | _ => ([], None)
  end.

Definition run_A (c : capture) : list lane * option (list R) :=
  match network_json c with
  | Some (Ret nets) => scan_nets (url c) nets
  | _ => ([], None)
  end.

Definition run_B (c : capture) : list lane * option (list R) :=
  match html_file c with
  | Some (Ret html) => ([LaneB], nonempty (extract_from_html html (url c)))
  | _ => ([], None)
  end.

Definition run_C (c : capture) : list lane * option (list R) :=
  match full_png c with
  | Some img_path =>
      ([LaneC], nonempty (Ret (extract_with_vision img_path (url c))))
  | None => ([], None)
  end.

(** One turn of the loop of [main]: the lanes invoked, in order, and the
    records added to [records]. *)
Definition process_capture (c : capture) : list lane * list R :=
  let '(log0, r0) := run_A0 c in
  match r0 with
  | Some recs => (log0, recs)
  | None =>
      let '(log1, r1) := run_A c in
      match r1 with
      | Some recs => ((log0 ++ log1)%list, recs)
      | None =>
          let '(log2, r2) := run_B c in
          match r2 with
          | Some recs => ((log0 ++ log1 ++ log2)%list, recs)
          | None =>
              let '(log3, r3) := run_C c in
              match r3 with
              | Some recs => ((log0 ++ log1 ++ log2 ++ log3)%list, recs)
              | None => ((log0 ++ log1 ++ log2 ++ log3)%list, [])
              end
          end
      end
  end.

(** [records] after the loop over the captures; a capture whose
    [.meta.json] cannot be loaded is skipped. *)
Definition collect (snaps : list (outcome capture)) : list R :=
  flat_map (fun s => match s with
                     | Ret c => snd (process_capture c)
                     | Raise => []
                     end) snaps.

Definition run_lane (l : lane) (c : capture) : list lane * option (list R) :=
  match l with
  | LaneA0 => run_A0 c
  | LaneA => run_A c
  | LaneB => run_B c
  | LaneC => run_C c
  end.

(** What a lane gives for a capture when it is run on its own. *)
Definition lane_yield (l : lane) (c : capture) : list R :=
  match snd (run_lane l c) with
  | Some recs => recs
  | None => []
  end.

End Driver.

(** The [numbers] column of the CSV row: [" ".join(map(str, numbers))]. *)
Definition csv_numbers (r : record) : string :=
  Text.join " " (map str_of_int (numbers r)).

End Snaps.

(* ===================================================================== *)
(** * [layer2/parse_and_classify.py] *)

Module Classify.

Import Py Clock.

Definition MONTHS : list string :=
  ["jan"; "feb"; "mar"; "apr"; "may"; "jun";
   "jul"; "aug"; "sep"; "oct"; "nov"; "dec"].

(** [to_int_list]: the values that [int] accepts, converted *)
Fixpoint to_int_list (maybe_iter : list pyval) : list Z :=
  match maybe_iter with
  | [] => []
  | x :: rest =>
      match py_int x with
      | Some z => z :: to_int_list rest
      | None => to_int_list rest
      end
  end.

Definition SEP : Re.cls := Re.Cls false [Re.AChar "-"; Re.AChar "/"].

(** [(\d{4})[-/](\d{2})[-/](\d{2})] *)
Definition ISO_RX : Re.re :=
  Re.seq [ Re.Grp 1 (Re.digits 4 4); Re.One SEP; Re.Grp 2 (Re.digits 2 2);
           Re.One SEP; Re.Grp 3 (Re.digits 2 2) ].

(** [\b(\d{1,2})/(\d{1,2})/(\d{2,4})\b] *)
Definition MDY_RX : Re.re :=
  Re.seq [ Re.Bnd; Re.Grp 1 (Re.digits 1 2); Re.chr "/";
           Re.Grp 2 (Re.digits 1 2); Re.chr "/"; Re.Grp 3 (Re.digits 2 4);
           Re.Bnd ].

(** [\b(jan|...|dec)[a-z]*\s+(\d{1,2}),\s*(\d{4})], ignoring case *)
Definition MONTH_RX : Re.re :=
  Re.seq [ Re.Bnd; Re.Grp 1 (Re.alts (map Re.lit MONTHS));
           Re.Rep (Re.Cls false [Re.ARange "a" "z"]) 0 None;
           Re.Rep Re.space 1 None; Re.Grp 2 (Re.digits 1 2); Re.chr ",";
           Re.Rep Re.space 0 None; Re.Grp 3 (Re.digits 4 4) ].

(** [draw\s*date[^0-9]{0,8}(\d{1,2}/\d{1,2}/\d{2,4})], ignoring case *)
Definition DRAW_DATE_RX : Re.re :=
  Re.seq [ Re.lit "draw"; Re.Rep Re.space 0 None; Re.lit "date";
           Re.Rep (Re.Cls true [Re.ARange "0" "9"]) 0 (Some 8%nat);
           Re.Grp 1 (Re.seq [ Re.digits 1 2; Re.chr "/"; Re.digits 1 2;
                              Re.chr "/"; Re.digits 2 4 ]) ].

(** [l.index(x)] *)
Fixpoint index_of (x : string) (l : list string) : option nat :=
  match l with
  | [] => None
  | y :: l' => if String.eqb y x then Some O
               else option_map S (index_of x l')
  end.

(** [m.group(n)] of a group that took part in the match *)
Definition grp (n : nat) (m : Re.mobj) : outcome string :=
  match Re.group n m with
  | Some g => Ret g
  | None => Raise
  end.

(** [int(s)] *)
Definition int_of (s : string) : outcome Z :=
  match Text.int_of_str s with
  | Some z => Ret z
  | None => Raise
  end.

(** [normalize_date], with the date [today] that [datetime.date.today()]
    returns.  The function calls itself on the group of the "Draw Date"
    pattern; [fuel] bounds the depth of these calls, and the result is
    [None] when it is used up. *)
Fixpoint normalize_date_fuel (fuel : nat) (today : date)
    (any_text : option string) : option (outcome string) :=
  match fuel with
  | O => None
  | S fuel' =>
      match any_text with
      | None | Some EmptyString => Some (Ret (date_isoformat today))
      | Some s =>
          match Re.search Re.no_flags ISO_RX s with
          | Some m =>
              Some (g1 <- grp 1 m ;; g2 <- grp 2 m ;; g3 <- grp 3 m ;;
                    Ret (g1 ++ "-" ++ g2 ++ "-" ++ g3))
          | None =>
          match Re.search Re.no_flags MDY_RX s with
          | Some m =>
              Some (mm <- grp 1 m ;; dd <- grp 2 m ;; yy <- grp 3 m ;;
                    let yyyy := if Nat.eqb (String.length yy) 4 then yy
                                else "20" ++ Text.zfill 2 yy in
                    y <- int_of yyyy ;; mo <- int_of mm ;; d <- int_of dd ;;
                    Ret (Text.fmt0 4 y ++ "-" ++ Text.fmt0 2 mo ++ "-"
                           ++ Text.fmt0 2 d))
          | None =>
          match Re.search Re.flag_i MONTH_RX s with
          | Some m =>
              Some (mon_txt <- grp 1 m ;; dd <- grp 2 m ;; yyyy <- grp 3 m ;;
                    match index_of (Text.prefix 3 (Text.lower mon_txt)) MONTHS with
                    | None => Raise
                    | Some i =>
                        y <- int_of yyyy ;; d <- int_of dd ;;
                        Ret (Text.fmt0 4 y ++ "-"
                               ++ Text.fmt0 2 (Z.of_nat i + 1) ++ "-"
                               ++ Text.fmt0 2 d)
                    end)
          | None =>
          match Re.search Re.flag_i DRAW_DATE_RX s with
          | Some m => normalize_date_fuel fuel' today (Re.group 1 m)
          | None => Some (Ret (Text.prefix 10 s))
          end end end end
      end
  end.

Definition normalize_date (today : date) (any_text : option string)
    : option (outcome string) :=
  normalize_date_fuel (S (String.length (Snaps.or_empty any_text))) today
    any_text.

(** A record as [make_record] builds it. *)
Record record : Type := {
  date : string;
  game : string;
  numbers : list Z;
  jackpot_usd : option pyint;
  winners : option pyint;
  source_url : option string;
  fetched_at : option string
}.

Definition int_or_none (x : pyval) : option pyint :=
  match x with
  | PNum i => Some i
  | _ => None
  end.

Definition make_record (date game : string) (numbers : list pyval)
    (jackpot_usd winners : pyval) (source_url fetched_at : option string)
    : record :=
  {| date := date;
     game := game;
     numbers := to_int_list numbers;
     jackpot_usd := int_or_none jackpot_usd;
     winners := int_or_none winners;
     source_url := source_url;
     fetched_at := fetched_at |}.

(** The [numbers] column of the CSV row: [" ".join(map(str, numbers))]. *)
Definition csv_numbers (r : record) : string :=
  Text.join " " (map Text.str_of_Z (numbers r)).

End Classify.

(* ===================================================================== *)
(** * Reading the numbers column back *)

Fixpoint all_some {A : Type} (l : list (option A)) : option (list A) :=
  match l with
  | [] => Some []
  | Some a :: l' => option_map (cons a) (all_some l')
  | None :: _ => None
  end.

(** Modelled from the spec: no script of the repository reads the CSV file
    back; the reader is the one the round-trip property describes, which
    splits the column on whitespace and parses every piece as an integer
    ([None] when a piece is no integer). *)
Definition read_numbers (column : string) : option (list Z) :=
  all_some (map Text.int_of_str (Text.split_ws column)).


(* ===================================================================== *)
(** * Sample inputs *)

Module Sample.

Import Py Clock Snaps.

(** The script starts on 14 September 2025 at noon, UTC. *)
Definition noon : datetime := mkDatetime (mkDate 2025 9 14) 12 0 0 0 (Some 0).

(** A reading of [datetime.utcnow()] during that run, and one a second
    later. *)
Definition reading : datetime := mkDatetime (mkDate 2025 9 14) 12 30 5 0 None.
Definition reading_later : datetime := mkDatetime (mkDate 2025 9 14) 12 30 6 0 None.

(** A date parser that reads every text as the given day, at midnight. *)
Definition parse_as (d : Clock.date) (_ : string) : option datetime :=
  Some (mkDatetime d 0 0 0 0 None).

Definition yesterday : Clock.date := mkDate 2025 9 13.
Definition fifteen_days_ago : Clock.date := mkDate 2025 8 30.

(** A page of plain text: BeautifulSoup wraps it in one paragraph, whose
    text is the text of the page. *)
Definition plain_soup (doc : string) : string := doc.
Definition plain_find_all (doc : string) : list string := [doc].
Definition plain_get_text (doc : string) : string := doc.
Definition plain_select (doc css : string) : outcome (list string) := Ret [].

Definition no_money (_ : string) : option Z := None.

(** The draw of 13 September 2025. *)
Definition mains : list pyval := map PInt [1; 12; 23; 34; 45].

(** A rule of the adapter store for [example.com]. *)
Definition powerball_rule : adapter :=
  {| rule_game := Some "Powerball";
     scope_contains := ["winning numbers"];
     css_scope := None;
     date_regex := None;
     numbers_regex := None;
     bonus_regex := None;
     jackpot_regex := None |}.

Definition example_url : option string := Some "https://example.com/results".

Definition page_with_404 : string :=
  "Powerball draw Sep 13, 2025 winning numbers 01 12 23 34 45 Powerball 10 - error 404".

Definition page_soft_404 : string :=
  "404 - page wasn't a winner. Powerball draw Sep 13, 2025: 01 12 23 34 45 Powerball 10".

Definition page_with_14045 : string :=
  "Powerball draw Sep 13, 2025: 01 12 23 34 45 Powerball 10 ticket 14045".

Definition no_date_text : string := "results are not available yet".

(** A capture with a network file, a page and a screenshot, and lanes that
    return one record each. *)
Definition snap : capture :=
  {| url := example_url;
     body_json := None;
     network_json := Some (Ret [Ret (PStr "[]")]);
     html_file := Some (Ret "<html></html>");
     full_png := Some "snap.full.png" |}.

Definition json_lane (_ : pyval) (_ : option string) : outcome (list nat) :=
  Ret [1%nat].
Definition html_lane (_ : string) (_ : option string) : outcome (list nat) :=
  Ret [2%nat].
Definition vision_lane (_ : string) (_ : option string) : list nat := [3%nat].

End Sample.

(* ===================================================================== *)
(** * The properties of the specification, as predicates *)

Module Spec.

Import Py Snaps.

(** "an integer within [lo, hi]": an instance of [int] whose value lies in
    the range. *)
Definition int_within (lo hi : Z) (x : pyval) : Prop :=
  exists i, x = PNum i /\ lo <= int_val i <= hi.

(** Validation as the specification words it: the game is in the table, the
    count is the game's, every number is an integer in the main range, and
    the bonus is present and in the bonus range. *)
Definition valid_as_specified (g : string) (n : list pyval) (b : pyval) : Prop :=
  exists rule,
    dict_get GAME_RULES g = Some rule /\
    List.length n = main_count rule /\
    Forall (int_within (main_lo rule) (main_hi rule)) n /\
    int_within (bonus_lo rule) (bonus_hi rule) b.

(** The bonus values the code accepts: an integer in the range, or a list
    or tuple that holds exactly one such integer. *)
Definition bonus_accepted (lo hi : Z) (b : pyval) : Prop :=
  exists i,
    (b = PNum i \/ b = PList [PNum i] \/ b = PTuple [PNum i]) /\
    lo <= int_val i <= hi.

Definition valid_as_coded (g : string) (n : list pyval) (b : pyval) : Prop :=
  exists rule,
    dict_get GAME_RULES g = Some rule /\
    List.length n = main_count rule /\
    Forall (int_within (main_lo rule) (main_hi rule)) n /\
    bonus_accepted (bonus_lo rule) (bonus_hi rule) b.

(** The record [r] with another time stamp. *)
Definition with_fetched_at (stamp : string) (r : record) : record :=
  {| date := date r;
     game := game r;
     numbers := numbers r;
     jackpot_usd := jackpot_usd r;
     winners := winners r;
     source_url := source_url r;
     fetched_at := stamp;
     extraction_method := extraction_method r;
     confidence := confidence r |}.

Definition omap {A B : Type} (f : A -> B) (o : outcome A) : outcome B :=
  match o with
  | Ret a => Ret (f a)
  | Raise => Raise
  end.

(** The time stamp that [to_record] writes at the reading [t] of the
    clock. *)
Definition stamp_at (t : Clock.datetime) : string :=
  (Clock.datetime_isoformat t ++ "Z")%string.

(** The text has none of the date shapes that [normalize_date] knows: ISO,
    month/day/year, month name with day and year, and the labelled "draw
    date" form. *)
Definition no_date_shape (s : string) : Prop :=
  Re.search Re.no_flags Classify.ISO_RX s = None /\
  Re.search Re.no_flags Classify.MDY_RX s = None /\
  Re.search Re.flag_i Classify.MONTH_RX s = None /\
  Re.search Re.flag_i Classify.DRAW_DATE_RX s = None.

(** A record that passed the two checks of [extract_from_snaps]: its date is
    a result of [sane_date], and it was assembled by [to_record] from a
    candidate that [validate_numbers] accepted. *)
Definition gated (NOW : Clock.datetime)
    (dateparse : string -> option Clock.datetime) (r : record) : Prop :=
  (exists s, sane_date NOW dateparse s = Some (date r)) /\
  (exists utcnow nums b jackpot u method conf,
      validate_numbers (game r) nums b = true /\
      to_record utcnow (game r) (date r) nums b jackpot u method conf = Ret r).

(** The matcher moves forward: from [st] to [st'] the position does not
    decrease, the end of the subject stays where it is, and every group
    closed on the way lies between the two positions. *)
Definition subject_end (st : Re.mstate) : nat :=
  (Re.pos st + List.length (Re.rest st))%nat.

Definition advanced (st st' : Re.mstate) : Prop :=
  (Re.pos st <= Re.pos st')%nat /\
  subject_end st' = subject_end st /\
  (forall n a b, In (n, (a, b)) (Re.caps st') ->
     In (n, (a, b)) (Re.caps st) \/
     (Re.pos st <= a /\ a <= b /\ b <= Re.pos st')%nat).

(** The confidence rank of a record. *)
Definition rank_of (r : record) : nat := rank (extraction_method r).

(** [r] is the best record of its key in [l]: every record of the same key
    before it has a strictly lower rank, none after it has a higher one.
    So [r] is the first record of its key that reaches the highest rank. *)
Definition best_in (l : list record) (r : record) : Prop :=
  exists before after,
    l = (before ++ r :: after)%list /\
    (forall x, In x before -> key_of x = key_of r -> (rank_of x < rank_of r)%nat) /\
    (forall x, In x after -> key_of x = key_of r -> (rank_of x <= rank_of r)%nat).

(** The dictionary [seen] after the records [processed]: its keys are
    distinct, every value is the best record of its key, and every
    processed record has its key there. *)
Definition seen_ok (processed : list record) (seen : list (key * record)) : Prop :=
  NoDup (map fst seen) /\
  (forall k r, In (k, r) seen -> key_of r = k /\ best_in processed r) /\
  (forall x, In x processed -> In (key_of x) (map fst seen)).

End Spec.

(* ===================================================================== *)
(** * The calendar, the dataset of [main] and the text helpers of
      [parse_and_classify.py]; the language of a pattern *)

Module Calendar.
Import Clock.

(** [_days_in_month(year, month)] of [datetime] *)
Definition days_in_month (y m : Z) : Z :=
  if m =? 2 then (if is_leap y then 29 else 28)
  else if (m =? 4) || (m =? 6) || (m =? 9) || (m =? 11) then 30
  else 31.

(** The values that [datetime.date] and [datetime.datetime] can hold. *)
Definition valid_date (d : date) : Prop :=
  1 <= year d <= 9999 /\ 1 <= month d <= 12
  /\ 1 <= day d <= days_in_month (year d) (month d).

Definition valid_datetime (t : datetime) : Prop :=
  valid_date (on t) /\ 0 <= hour t < 24 /\ 0 <= minute t < 60
  /\ 0 <= second t < 60 /\ 0 <= microsecond t < 1000000.

(** A value without UTC offset, or with the offset zero. *)
Definition utc_or_naive (t : datetime) : Prop :=
  tzinfo t = None \/ tzinfo t = Some 0.

End Calendar.

Module Dataset.

Import Classify.

(** The key [(r["game"], r["date"], tuple(r["numbers"]))]. *)
Definition key_of (r : record) : Snaps.key := (game r, date r, numbers r).

(** One turn of the loop over [records]: [seen] is the set of the keys met
    so far, [unique] the records kept. *)
Definition dedupe_step (st : list Snaps.key * list record) (r : record)
    : list Snaps.key * list record :=
  let '(seen, unique) := st in
  if existsb (Snaps.key_eqb (key_of r)) seen then (seen, unique)
  else (key_of r :: seen, (unique ++ [r])%list).

Definition unique_records (records : list record) : list record :=
  snd (fold_left dedupe_step records ([], [])).

(** The sort key [(r["date"], r["game"])]; tuples and strings are compared
    lexicographically, characters by their code. *)
Definition sort_key (r : record) : string * string := (date r, game r).

Definition key_ltb (a b : string * string) : bool :=
  match String.compare (fst a) (fst b) with
  | Lt => true
  | Eq => String.ltb (snd a) (snd b)
  | Gt => false
  end.

(** [unique.sort(key=..., reverse=True)].  The sort of Python is stable,
    also in reverse: records with equal keys keep their order.  The result
    of a stable sort does not depend on the algorithm; it is computed here
    by insertion, each record going before the first one whose key is not
    greater than its own. *)
Fixpoint insert_desc (r : record) (l : list record) : list record :=
  match l with
  | [] => [r]
  | x :: l' =>
      if key_ltb (sort_key r) (sort_key x) then x :: insert_desc r l'
      else r :: x :: l'
  end.

Definition sort_newest_first (l : list record) : list record :=
  fold_right insert_desc [] l.

(** The records of the dataset that [main] writes. *)
Definition dataset_records (records : list record) : list record :=
  sort_newest_first (unique_records records).

End Dataset.

Module Seq.

(** [l] is [l'] with some elements left out, the order kept. *)
Inductive subseq {A : Type} : list A -> list A -> Prop :=
| subseq_nil : subseq [] []
| subseq_skip (x : A) (l l' : list A) : subseq l l' -> subseq l (x :: l')
| subseq_keep (x : A) (l l' : list A) : subseq l l' -> subseq (x :: l) (x :: l').

End Seq.

Module Order.

Import Classify.

(** [r] is the first record of its key in [l]. *)
Definition first_of_key (l : list record) (r : record) : Prop :=
  exists before after,
    l = (before ++ r :: after)%list
    /\ forall x, In x before -> Dataset.key_of x <> Dataset.key_of r.

(** The state of the de-duplication loop after the records [processed]. *)
Definition dedupe_inv (processed : list record)
    (st : list Snaps.key * list record) : Prop :=
  (forall k, In k (fst st) <-> In k (map Dataset.key_of (snd st)))
  /\ NoDup (map Dataset.key_of (snd st))
  /\ (forall r, In r (snd st) -> first_of_key processed r)
  /\ (forall x, In x processed -> In (Dataset.key_of x) (map Dataset.key_of (snd st)))
  /\ Seq.subseq (snd st) processed.

(** [a] is not greater than [b] *)
Definition key_le (a b : string * string) : Prop := Dataset.key_ltb b a = false.

(** [l] is in descending order of the sort key: no record is followed by
    one with a greater key. *)
Definition descending (l : list record) : Prop :=
  Sorted.StronglySorted
    (fun a b => Dataset.key_ltb (Dataset.sort_key a) (Dataset.sort_key b) = false) l.

(** The records with the sort key [k] *)
Definition has_key (k : string * string) (r : record) : bool :=
  String.eqb (date r) (fst k) && String.eqb (game r) (snd k).

(** [p] holds of the [n] integers from [z] on *)
Fixpoint all_from (p : Z -> bool) (z : Z) (n : nat) : bool :=
  match n with
  | O => true
  | S n' => p z && all_from p (z + 1) n'
  end.

(** The decimal digit [n] as a character *)
Definition dg (n : Z) : ascii := ascii_of_N (48 + Z.to_N n).

Fixpoint str_of_digits (l : list Z) : string :=
  match l with
  | [] => ""
  | d :: l' => String (dg d) (str_of_digits l')
  end.

Fixpoint lex_compare (a b : list Z) : comparison :=
  match a, b with
  | x :: a', y :: b' =>
      match Z.compare x y with
      | Eq => lex_compare a' b'
      | c => c
      end
  | [], [] => Eq
  | [], _ :: _ => Lt
  | _ :: _, [] => Gt
  end.

Definition digits2 (z : Z) : list Z := [z / 10; z mod 10].
Definition digits4 (z : Z) : list Z :=
  [z / 1000; (z / 100) mod 10; (z / 10) mod 10; z mod 10].

(** The order of two dates by year, month and day *)
Definition date_compare (a b : Clock.date) : comparison :=
  match Z.compare (Clock.year a) (Clock.year b) with
  | Eq => match Z.compare (Clock.month a) (Clock.month b) with
          | Eq => Z.compare (Clock.day a) (Clock.day b)
          | c => c
          end
  | c => c
  end.

End Order.


Module ReMore.

Import Re.

(** The subject with every match replaced: the text between two matches is
    kept as it is. *)
Fixpoint sub_pieces (subj : list ascii) (p : nat) (ms : list mobj)
    (repl : list ascii) : list ascii :=
  match ms with
  | [] => skipn p subj
  | m :: ms' =>
      (Text.slice p (m_start m) subj ++ repl
       ++ sub_pieces subj (m_end m) ms' repl)%list
  end.

(** [re.sub(r, repl, s)] for a pattern that matches no empty text and a
    replacement text without group references *)
Definition sub (fl : flags) (r : re) (repl s : string) : string :=
  Text.text
    (sub_pieces (Text.chars s) 0
       (finditer_fuel (S (String.length s)) fl r (Text.chars s) 0)
       (Text.chars repl)).

(** [c{0,n}?], the reluctant repetition: the shortest first *)
Fixpoint lazy_upto (n : nat) (c : cls) : re :=
  match n with
  | O => Eps
  | S n' => Alt Eps (Cat (One c) (lazy_upto n' c))
  end.

End ReMore.

Module Lang.

Import Re.

(** The texts that a pattern can read, the anchors left aside. *)
Fixpoint lang (fl : flags) (r : re) (l : list ascii) : Prop :=
  match r with
  | Eps | Bnd | Bol => l = []
  | One c => exists x, l = [x] /\ cls_matches fl c x = true
  | Rep c lo hi =>
      forallb (cls_matches fl c) l = true
      /\ (lo <= List.length l)%nat
      /\ match hi with
         | Some h => (List.length l <= h)%nat
         | None => True
         end
  | Cat a b => exists l1 l2, l = (l1 ++ l2)%list /\ lang fl a l1 /\ lang fl b l2
  | Alt a b => lang fl a l \/ lang fl b l
  | Grp _ a => lang fl a l
  end.

(** The bodies of the groups numbered [n] *)
Fixpoint group_bodies (n : nat) (r : re) : list re :=
  match r with
  | Cat a b | Alt a b => (group_bodies n a ++ group_bodies n b)%list
  | Grp i a => ((if Nat.eqb i n then [a] else []) ++ group_bodies n a)%list
  | _ => []
  end.

(** Does every match of the pattern close a group numbered [n]? *)
Fixpoint closes (n : nat) (r : re) : bool :=
  match r with
  | Cat a b => closes n a || closes n b
  | Alt a b => closes n a && closes n b
  | Grp i a => Nat.eqb i n || closes n a
  | _ => false
  end.

(** The matcher stands in the subject [subj] at its position. *)
Definition at_subject (subj : list ascii) (st : mstate) : Prop :=
  rest st = skipn (pos st) subj.

(** The span of a closed group holds a text of the group's body. *)
Definition cap_ok (fl : flags) (subj : list ascii) (r : re)
    (c : nat * (nat * nat)) : Prop :=
  exists body,
    In body (group_bodies (fst c) r)
    /\ lang fl body (Text.slice (fst (snd c)) (snd (snd c)) subj).

(** From [st] to [st'] the matcher has read a text of the pattern [r]. *)
Definition stepped (fl : flags) (subj : list ascii) (r : re)
    (st st' : mstate) : Prop :=
  at_subject subj st'
  /\ (exists l,
        rest st = (l ++ rest st')%list
        /\ pos st' = (pos st + List.length l)%nat
        /\ lang fl r l)
  /\ (forall c, In c (caps st) -> In c (caps st'))
  /\ (forall c, In c (caps st') -> In c (caps st) \/ cap_ok fl subj r c)
  /\ (forall n, closes n r = true -> exists span, In (n, span) (caps st')).

End Lang.

Module Shape.

(** A text of ASCII characters.  On such a text the classes of the
    matcher, [Text.lower] and [Text.int_of_str] are those of Python; outside
    ASCII they are not (under [re.I] the letter s also reads the long s,
    U+017F, which [str.lower] leaves as it is). *)
Definition is_ascii (s : string) : bool :=
  forallb (fun c => (Text.code c <? 128)%N) (Text.chars s).

(** A text of [lo] to [hi] decimal digits *)
Definition digit_text (lo hi : nat) (g : string) : Prop :=
  forallb Text.is_digit (Text.chars g) = true
  /\ (lo <= String.length g <= hi)%nat.

(** A text [Y-MM-DD] written with digits: a year of four digits or more, a
    month and a day of two digits. *)
Definition iso_shaped (d : string) : Prop :=
  exists y m dd,
    0 <= y /\ 0 <= m <= 99 /\ 0 <= dd <= 99
    /\ d = Text.fmt0 4 y ++ "-" ++ Text.fmt0 2 m ++ "-" ++ Text.fmt0 2 dd.

(** The ten digits *)
Definition digit_chars : list ascii :=
  ["0"; "1"; "2"; "3"; "4"; "5"; "6"; "7"; "8"; "9"]%char.

(** Every character *)
Definition all_chars : list ascii := map ascii_of_nat (seq 0 256).

(** [f"{z:0wd}"] is [w] digits that read back as [z]. *)
Definition padded_ok (w : nat) (z : Z) : bool :=
  forallb Text.is_digit (Text.chars (Text.fmt0 w z))
  && Nat.eqb (String.length (Text.fmt0 w z)) w
  && match Text.int_of_str (Text.fmt0 w z) with
     | Some v => Z.eqb v z
     | None => false
     end.

(** [str(z)] is [lo] to [hi] digits. *)
Definition plain_ok (lo hi : nat) (z : Z) : bool :=
  forallb Text.is_digit (Text.chars (Text.str_of_Z z))
  && Nat.leb lo (String.length (Text.str_of_Z z))
  && Nat.leb (String.length (Text.str_of_Z z)) hi.

(** The texts that read as [s] when put in lower case *)
Fixpoint case_variants (s : list ascii) : list (list ascii) :=
  match s with
  | [] => [[]]
  | c :: s' =>
      flat_map (fun x => map (cons x) (case_variants s'))
        (filter (fun x => Ascii.eqb (Text.lower_char x) c) all_chars)
  end.

(** A text of three characters without any of the date shapes *)
Definition shapeless3 (l : list ascii) : bool :=
  Nat.eqb (List.length l) 3
  && match Re.search Re.no_flags Classify.ISO_RX (Text.text l),
           Re.search Re.no_flags Classify.MDY_RX (Text.text l),
           Re.search Re.flag_i Classify.MONTH_RX (Text.text l),
           Re.search Re.flag_i Classify.DRAW_DATE_RX (Text.text l) with
     | None, None, None, None => true
     | _, _, _, _ => false
     end.

End Shape.

(* ===================================================================== *)
(** * [layer2/parse_and_classify.py]: the helpers of the parsers *)

Module Harvest.

Import Py Clock.

(** [re.sub(r"[^\d]", "", s)] *)
Definition digits_only (s : string) : string :=
  ReMore.sub Re.no_flags (Re.One (Re.Cls true [Re.ADigit])) "" s.

(** [s.isdigit()] *)
Definition isdigit (s : string) : bool :=
  negb (String.eqb s "") && forallb Text.is_digit (Text.chars s).

(** [sys.int_info.default_max_str_digits]: [int] answers a text of more
    digits with a [ValueError] (CPython from 3.11 on, and the late releases
    of the versions before it). *)
Definition MAX_STR_DIGITS : nat := 4300.

(** [_coerce_int(text)]; a value that is not [None] is given by the text
    [str(text)].  When [int] reads [s], it is made of digits only. *)
Definition _coerce_int (text : option string) : outcome (option Z) :=
  match text with
  | None => Ret None
  | Some t =>
      let s := digits_only t in
      if isdigit s then
        if Nat.ltb MAX_STR_DIGITS (String.length s) then Raise
        else v <- Classify.int_of s ;; Ret (Some v)
      else Ret None
  end.

(** [Draw\s*Date[^0-9]{0,8}(\d{1,2}/\d{1,2}/\d{2,4})] *)
Definition SNIFF_DRAW_RX : Re.re :=
  Re.seq [ Re.lit "Draw"; Re.Rep Re.space 0 None; Re.lit "Date";
           Re.Rep (Re.Cls true [Re.ARange "0" "9"]) 0 (Some 8%nat);
           Re.Grp 1 (Re.seq [ Re.digits 1 2; Re.chr "/"; Re.digits 1 2;
                              Re.chr "/"; Re.digits 2 4 ]) ].

(** [\b(jan|...|dec)[a-z]*\s+\d{1,2},\s*\d{4}\b] *)
Definition SNIFF_MONTH_RX : Re.re :=
  Re.seq [ Re.Bnd; Re.Grp 1 (Re.alts (map Re.lit Classify.MONTHS));
           Re.Rep (Re.Cls false [Re.ARange "a" "z"]) 0 None;
           Re.Rep Re.space 1 None; Re.digits 1 2; Re.chr ",";
           Re.Rep Re.space 0 None; Re.digits 4 4; Re.Bnd ].

(** [\b\d{4}-\d{2}-\d{2}\b] *)
Definition SNIFF_ISO_RX : Re.re :=
  Re.seq [ Re.Bnd; Re.digits 4 4; Re.chr "-"; Re.digits 2 2; Re.chr "-";
           Re.digits 2 2; Re.Bnd ].

(** [m.lastindex]: the number of the group closed last *)
Definition lastindex (m : Re.mobj) : option nat :=
  option_map fst (hd_error (Re.m_caps m)).

(** [normalize_date(m.group(1) if m.lastindex else m.group(0))] *)
Definition date_of_match (today : date) (m : Re.mobj)
    : option (outcome string) :=
  match lastindex m with
  | Some _ => Classify.normalize_date today (Re.group 1 m)
  | None => Classify.normalize_date today (Some (Re.group0 m))
  end.

Fixpoint sniff_loop (today : date) (pats : list Re.re) (text : string)
    : option (outcome string) :=
  match pats with
  | [] => Classify.normalize_date today (Some text)
  | pat :: rest =>
      match Re.search Re.flag_i pat text with
      | Some m => date_of_match today m
      | None => sniff_loop today rest text
      end
  end.

Definition _sniff_date_from_text (today : date) (text : string)
    : option (outcome string) :=
  sniff_loop today [SNIFF_DRAW_RX; SNIFF_MONTH_RX; SNIFF_ISO_RX] text.

(** [[,\s]+] *)
Definition comma_space : Re.re :=
  Re.Rep (Re.Cls false [Re.AChar ","; Re.ASpace]) 1 None.

Definition num (n : nat) : Re.re := Re.Grp n (Re.digits 1 2).

(** The first pattern of [extract_numbers_generic]: five numbers parted by
    commas or blanks, then
    [\s*(?:[\+\-...]\s*|\s*\(|\s+)(?P<x>\d{1,2})\)?].  The groups [a] to [e]
    and [x] are numbered 1 to 6; of the signs of the class only [+] and [-]
    are ASCII. *)
Definition FIVE_AND_BONUS_RX : Re.re :=
  Re.seq [ num 1; comma_space; num 2; comma_space; num 3; comma_space;
           num 4; comma_space; num 5;
           Re.Rep Re.space 0 None;
           Re.alts [ Re.Cat (Re.One (Re.Cls false [Re.AChar "+"; Re.AChar "-"]))
                            (Re.Rep Re.space 0 None);
                     Re.Cat (Re.Rep Re.space 0 None) (Re.chr "(");
                     Re.Rep Re.space 1 None ];
           num 6;
           Re.Rep (Re.Cls false [Re.AChar ")"]) 0 (Some 1%nat) ].

(** The second pattern: six numbers parted by blanks. *)
Definition SIX_BLANK_RX : Re.re :=
  Re.seq [ num 1; Re.Rep Re.space 1 None; num 2; Re.Rep Re.space 1 None;
           num 3; Re.Rep Re.space 1 None; num 4; Re.Rep Re.space 1 None;
           num 5; Re.Rep Re.space 1 None; num 6 ].

(** [[int(m.group(k)) for k in ("a","b","c","d","e","x")]] *)
Definition six_groups (m : Re.mobj) : outcome (list Z) :=
  a <- Classify.grp 1 m ;; b <- Classify.grp 2 m ;; c <- Classify.grp 3 m ;;
  d <- Classify.grp 4 m ;; e <- Classify.grp 5 m ;; x <- Classify.grp 6 m ;;
  na <- Classify.int_of a ;; nb <- Classify.int_of b ;; nc <- Classify.int_of c ;;
  nd <- Classify.int_of d ;; ne <- Classify.int_of e ;; nx <- Classify.int_of x ;;
  Ret [na; nb; nc; nd; ne; nx].

(** [l[:n]] for an integer [n] that may be negative *)
Definition py_firstn {A : Type} (n : Z) (l : list A) : list A :=
  if n <? 0 then firstn (Z.to_nat (Z.of_nat (List.length l) + n)) l
  else firstn (Z.to_nat n) l.

(** [all(1 <= n <= 75 for n in nums[:count]) and 1 <= nums[-1] <= hi] *)
Definition plausible (count hi : Z) (nums : list Z) : bool :=
  forallb (in_range 1 75) (py_firstn count nums)
  && in_range 1 hi (last nums 0).

Fixpoint first_plausible (count_main : Z) (pats : list Re.re) (s : string)
    : outcome (option (list Z)) :=
  match pats with
  | [] => Ret None
  | pat :: rest =>
      match Re.search Re.no_flags pat s with
      | Some m =>
          nums <- six_groups m ;;
          if plausible count_main 30 nums then Ret (Some nums)
          else first_plausible count_main rest s
      | None => first_plausible count_main rest s
      end
  end.

Definition extract_numbers_generic (text : string) (count_main : Z)
    : outcome (option (list Z)) :=
  let s := ReMore.sub Re.no_flags (Re.Rep Re.space 1 None) " " text in
  first_plausible count_main [FIVE_AND_BONUS_RX; SIX_BLANK_RX] s.

(** The pattern of [_numbers_near_keyword]: five numbers,
    [.{0,40}?], the keyword as it is written ([re.escape]), [.{0,10}?] and
    the bonus number. *)
Definition NEAR_KEYWORD_RX (keyword : string) : Re.re :=
  Re.seq [ num 1; comma_space; num 2; comma_space; num 3; comma_space;
           num 4; comma_space; num 5;
           ReMore.lazy_upto 40 Re.Dot; Re.lit keyword;
           ReMore.lazy_upto 10 Re.Dot; num 6 ].

Definition _numbers_near_keyword (text keyword : string)
    : outcome (option (list Z)) :=
  let t := ReMore.sub Re.no_flags (Re.Rep Re.space 1 None) " " text in
  match Re.search Re.flag_i (NEAR_KEYWORD_RX keyword) t with
  | None => Ret None
  | Some m =>
      nums <- six_groups m ;;
      if plausible 5 30 nums then Ret (Some nums) else Ret None
  end.

(** A pattern whose groups 1 to 6 are closed by every match and hold one or
    two digits each *)
Definition six_numbers (r : Re.re) : Prop :=
  forall n, (1 <= n <= 6)%nat ->
    Lang.closes n r = true /\ Lang.group_bodies n r = [Re.digits 1 2].

(** What the two functions give back: six numbers of at most two digits,
    the first [count] of them from 1 to 75 and the last from 1 to [hi] *)
Definition number_set (count hi : Z) (nums : list Z) : Prop :=
  List.length nums = 6%nat
  /\ Forall (fun v => 0 <= v <= 99) nums
  /\ Forall (fun v => 1 <= v <= 75) (py_firstn count nums)
  /\ 1 <= last nums 0 <= hi.

End Harvest.

(* ===================================================================== *)
(** * The lanes of [extract_from_snaps.py] on dictionaries, and its [main] *)

Module Dyn.

Import Py.

(** A dictionary with string keys: its items in insertion order. *)
Definition dict : Type := list (string * pyval).

(** [bool(v)] *)
Definition truthy (v : pyval) : bool :=
  match v with
  | PNone => false
  | PNum i => negb (int_val i =? 0)
  | PFloat (Finite m _) => negb (m =? 0)
  | PFloat _ => true
  | PStr s => negb (String.eqb s "")
  | PList [] | PTuple [] | PDict [] => false
  | PList _ | PTuple _ | PDict _ => true
  end.

(** [d.get(k)] and [d.get(k, default)] *)
Definition get_default (d : dict) (k : string) (default : pyval) : pyval :=
  match Snaps.dict_get d k with
  | Some v => v
  | None => default
  end.

Definition get (d : dict) (k : string) : pyval := get_default d k PNone.

(** [a or b] *)
Definition por (a b : pyval) : pyval := if truthy a then a else b.

(** [d[k] = v]: the value of a key that is there is replaced where it
    stands, a new key goes to the end. *)
Fixpoint set (d : dict) (k : string) (v : pyval) : dict :=
  match d with
  | [] => [(k, v)]
  | (k', v') :: rest =>
      if String.eqb k' k then (k', v) :: rest else (k', v') :: set rest k v
  end.

(** [str(v)] of a string, an integer and [None]; [repr_of] gives the text
    of a float, a list, a tuple and a dictionary. *)
Definition str_of (repr_of : pyval -> string) (v : pyval) : string :=
  match v with
  | PStr s => s
  | PNum i => str_of_int i
  | PNone => "None"
  | _ => repr_of v
  end.

Definition opt_str (s : option string) : pyval :=
  match s with
  | Some x => PStr x
  | None => PNone
  end.

(** Can [hash(v)] be computed?  Lists and dictionaries have no hash, and a
    tuple has one when its elements have. *)
Fixpoint hashable (v : pyval) : bool :=
  match v with
  | PList _ | PDict _ => false
  | PTuple xs => forallb hashable xs
  | _ => true
  end.

(** Are two floats equal as keys?  The [nan] of a decoded JSON text is one
    object, which the identity test of a key comparison finds equal to
    itself. *)
Definition float_eq (f g : pyfloat) : bool :=
  match f, g with
  | Finite m1 e1, Finite m2 e2 =>
      if e1 <=? e2 then m1 =? m2 * 2 ^ (e2 - e1) else m1 * 2 ^ (e1 - e2) =? m2
  | Nan, Nan => true
  | Inf a, Inf b => Bool.eqb a b
  | _, _ => false
  end.

(** Are two values that have a hash equal as keys of a dictionary?
    Numbers are compared by value, [True] as [1]. *)
Fixpoint key_eq (a b : pyval) : bool :=
  match a, b with
  | PNone, PNone => true
  | PNum i, PNum j => int_val i =? int_val j
  | PNum i, PFloat f => float_eq (Finite (int_val i) 0) f
  | PFloat f, PNum i => float_eq f (Finite (int_val i) 0)
  | PFloat f, PFloat g => float_eq f g
  | PStr s, PStr t => String.eqb s t
  | PTuple xs, PTuple ys =>
      (fix all2 (l1 l2 : list pyval) : bool :=
         match l1, l2 with
         | [], [] => true
         | x :: l1', y :: l2' => key_eq x y && all2 l1' l2'
         | _, _ => false
         end) xs ys
  | _, _ => false
  end.

Fixpoint keys_eq (l1 l2 : list pyval) : bool :=
  match l1, l2 with
  | [], [] => true
  | x :: l1', y :: l2' => key_eq x y && keys_eq l1' l2'
  | _, _ => false
  end.

(** [tuple(v)]: the elements of a list or tuple, the characters of a
    string, the keys of a dictionary; [None] and numbers cannot be
    iterated. *)
Definition tuple_of (v : pyval) : outcome (list pyval) :=
  match v with
  | PList xs | PTuple xs => Ret xs
  | PStr s => Ret (map (fun c => PStr (String c "")) (Text.chars s))
  | PDict items => Ret (map (fun kv => PStr (fst kv)) items)
  | _ => Raise
  end.

End Dyn.

Module Lanes.

Import Py Clock Snaps Dyn.

(** The dictionary that [to_record] returns. *)
Definition as_dict (r : record) : dict :=
  [ ("date", PStr (date r));
    ("game", PStr (game r));
    ("numbers", PList (map PNum (numbers r)));
    ("jackpot_usd", jackpot_usd r);
    ("winners", winners r);
    ("source_url", opt_str (source_url r));
    ("fetched_at", PStr (fetched_at r));
    ("extraction_method", PStr (extraction_method r));
    ("confidence", confidence r) ].

(** ** Lane A: network JSON *)

Section JsonLane.

Variable NOW : datetime.
Variable dateparse : string -> option datetime.

(** The reading of [datetime.utcnow()] by the calls of [to_record]. *)
Variable utcnow : datetime.

(** [json.loads], [None] when it raises; [json.dumps]; the text [str]
    gives for a float or a container; and the jackpot parser, which ends in
    [int(float(x))]. *)
Variable json_loads : string -> option pyval.
Variable json_dumps : pyval -> string.
Variable repr_of : pyval -> string.
Variable parse_money_general : string -> option Z.

(** [int(m[0]) if m else None] for [m = re.findall(r'\d{1,2}', s)] *)
Definition first_int (s : string) : outcome pyval :=
  m <- ints_in s ;;
  Ret (match m with
       | x :: _ => PInt x
       | [] => PNone
       end).

(** [if isinstance(jp, str): jp = parse_money_general(jp)] *)
Definition money (jp : pyval) : pyval :=
  match jp with
  | PStr s => opt_int (parse_money_general s)
  | _ => jp
  end.

(** The body of the loop of [parse_powerball_recent] for an item that is a
    dictionary: [Ret None] is [continue]. *)
Definition powerball_item (it : dict) (url : option string)
    : outcome (option record) :=
  let date := por (get it "field_draw_date")
                  (por (get it "draw_date") (get it "date")) in
  if negb (truthy date) then Ret None
  else
    match sane_date NOW dateparse (str_of repr_of date) with
    | None => Ret None
    | Some iso =>
        let nums_raw := por (get it "field_winning_numbers")
                            (por (get it "winning_numbers")
                                 (por (get it "numbers") (PStr ""))) in
        tail <- ints_in (json_dumps nums_raw) ;;
        let nums := firstn 5 tail in
        let pb0 := por (get it "field_powerball") (get it "powerball") in
        pb1 <- match pb0 with
               | PStr s => first_int s
               | _ => Ret pb0
               end ;;
        let pb := match pb1 with
                  | PNone =>
                      match nth_error tail 5 with
                      | Some x => PInt x
                      | None => PNone
                      end
                  | _ => pb1
                  end in
        let jp := money (por (get it "jackpot") (get it "estimated_jackpot")) in
        if validate_numbers "Powerball" (map PInt nums) pb
        then r <- to_record utcnow "Powerball" iso (map PInt nums) pb jp url
                    "json" PNone ;;
             Ret (Some r)
        else Ret None
    end.

(** [parse_powerball_recent]: [it.get] raises on an item that is no
    dictionary, and the exception leaves the function. *)
Fixpoint parse_powerball_recent (items : list pyval) (url : option string)
    : outcome (list record) :=
  match items with
  | [] => Ret []
  | PDict it :: rest =>
      r <- powerball_item it url ;;
      out <- parse_powerball_recent rest url ;;
      Ret (match r with
           | Some x => x :: out
           | None => out
           end)
  | _ :: _ => Raise
  end.

(** The body of the loop of [parse_megamillions_asmx]. *)
Definition megamillions_item (it : dict) (url : option string)
    : outcome (option record) :=
  let date := por (get it "drawDate")
                  (por (get it "DrawDate")
                       (por (get it "draw_date") (get it "date"))) in
  let nums_raw := por (get it "winningNumbers")
                      (por (get it "WinningNumbers")
                           (por (get it "numbers") (PStr ""))) in
  let mb0 := por (get it "megaball")
                 (por (get it "MegaBall") (get it "megaBall")) in
  let jp := money (por (get it "jackpot")
                       (por (get it "Jackpot") (get it "estimatedJackpot"))) in
  if negb (truthy date) || negb (truthy nums_raw) then Ret None
  else
    match sane_date NOW dateparse (str_of repr_of date) with
    | None => Ret None
    | Some iso =>
        tail <- ints_in (json_dumps nums_raw) ;;
        let nums := firstn 5 tail in
        mb <- match mb0 with
              | PStr s => first_int s
              | _ => Ret mb0
              end ;;
        if validate_numbers "Mega Millions" (map PInt nums) mb
        then r <- to_record utcnow "Mega Millions" iso (map PInt nums) mb jp
                    url "json" PNone ;;
             Ret (Some r)
        else Ret None
    end.

Fixpoint megamillions_items (items : list pyval) (url : option string)
    : outcome (list record) :=
  match items with
  | [] => Ret []
  | PDict it :: rest =>
      r <- megamillions_item it url ;;
      out <- megamillions_items rest url ;;
      Ret (match r with
           | Some x => x :: out
           | None => out
           end)
  | _ :: _ => Raise
  end.

(** [json.loads(x)] for a value [x]: a value that is no string raises. *)
Definition loads_val (x : pyval) : option pyval :=
  match x with
  | PStr s => json_loads s
  | _ => None
  end.

Definition parse_megamillions_asmx (obj : pyval) (url : option string)
    : outcome (list record) :=
  match obj with
  | PDict d =>
      match dict_get d "d" with
      | None => Ret []
      | Some inner_text =>
          match loads_val inner_text with
          | None => Ret []
          | Some inner =>
              megamillions_items (match inner with
                                  | PList xs => xs
                                  | _ => [inner]
                                  end) url
          end
      end
  | _ => Ret []
  end.

(** [{k.lower(): k for k in o.keys()}] followed by [o[lower[dk]]]: the
    value of the last key that reads [dk] in lower case. *)
Fixpoint get_lower (o : dict) (dk : string) : option pyval :=
  match o with
  | [] => None
  | (k, v) :: rest =>
      match get_lower rest dk with
      | Some x => Some x
      | None => if String.eqb (Text.lower k) dk then Some v else None
      end
  end.

(** The loops [for dk in [...]: if dk in lower: ...; break] *)
Fixpoint first_of (o : dict) (names : list string) : option pyval :=
  match names with
  | [] => None
  | dk :: rest =>
      match get_lower o dk with
      | Some v => Some v
      | None => first_of o rest
      end
  end.

Definition REC_DATE_KEYS : list string :=
  ["draw_date"; "date"; "drawdate"; "playdate"; "drawdateformatted";
   "drawing_date"; "drawn_date"].
Definition REC_NUMBER_KEYS : list string :=
  ["winning_numbers"; "numbers"; "winningnumbers"; "field_winning_numbers";
   "winningNumbers"].
Definition REC_BONUS_KEYS : list string :=
  ["powerball"; "megaball"; "luckyball"; "cashball"; "starball"; "bonus";
   "bonus_ball"].
Definition REC_JACKPOT_KEYS : list string :=
  ["jackpot"; "estimated_jackpot"; "jackpot_amount"; "prize";
   "jackpotcashvalue"; "jackpot_value"; "estimatedjackpot"].

Definition or_none (v : option pyval) : pyval :=
  match v with
  | Some x => x
  | None => PNone
  end.

(** What [rec] does at a dictionary before it visits the values. *)
Definition rec_node (o : dict) (url : option string) : outcome (list record) :=
  let date := option_map (str_of repr_of) (first_of o REC_DATE_KEYS) in
  let nums := or_none (first_of o REC_NUMBER_KEYS) in
  let bonus0 := or_none (first_of o REC_BONUS_KEYS) in
  let jackpot0 := or_none (first_of o REC_JACKPOT_KEYS) in
  if truthy_str date && truthy nums
  then
    match sane_date NOW dateparse (or_empty date) with
    | None => Ret []
    | Some iso =>
        nums_list <- ints_in (json_dumps nums) ;;
        bonus <- match bonus0 with
                 | PStr s => first_int s
                 | PList _ =>
                     bb <- ints_in (json_dumps bonus0) ;;
                     Ret (match bb with
                          | x :: _ => PInt x
                          | [] => PNone
                          end)
                 | _ => Ret bonus0
                 end ;;
        let jackpot := money jackpot0 in
        let mains := firstn 5 nums_list in
        match detect_game (Some (json_dumps (PDict o))) url with
        | Some game =>
            if negb (String.eqb game "")
               && validate_numbers game (map PInt mains) bonus
            then r <- to_record utcnow game iso (map PInt mains) bonus
                        jackpot url "json" PNone ;;
                 Ret [r]
            else Ret []
        | None => Ret []
        end
    end
  else Ret [].

(** [rec]: the records of a node come before those of the values below
    it. *)
Fixpoint rec_walk (o : pyval) (url : option string) : outcome (list record) :=
  match o with
  | PDict items =>
      here <- rec_node items url ;;
      below <- (fix values (l : list (string * pyval)) : outcome (list record) :=
                  match l with
                  | [] => Ret []
                  | (_, v) :: l' =>
                      a <- rec_walk v url ;;
                      b <- values l' ;;
                      Ret (a ++ b)%list
                  end) items ;;
      Ret (here ++ below)%list
  | PList xs =>
      (fix elements (l : list pyval) : outcome (list record) :=
         match l with
         | [] => Ret []
         | v :: l' =>
             a <- rec_walk v url ;;
             b <- elements l' ;;
             Ret (a ++ b)%list
         end) xs
  | _ => Ret []
  end.

(** The test on the first element that sends a list to
    [parse_powerball_recent]. *)
Definition powerball_shaped (data : pyval) : bool :=
  match data with
  | PList (PDict first :: _) =>
      existsb (fun k => match dict_get first k with
                        | Some _ => true
                        | None => false
                        end)
        ["field_winning_numbers"; "winning_numbers"; "field_draw_date";
         "draw_date"]
  | _ => false
  end.

Definition extract_from_network_json (njson : pyval) (url : option string)
    : outcome (list record) :=
  match loads_val njson with
  | None => Ret []
  | Some data =>
      if powerball_shaped data
      then match data with
           | PList items => parse_powerball_recent items url
           | _ => Ret []
           end
      else
        match data with
        | PDict d =>
            match dict_get d "d" with
            | Some (PStr s) =>
                match json_loads s with
                | None => rec_walk data url
                | Some _ =>
                    match parse_megamillions_asmx (PDict [("d", PStr s)]) url with
                    | Ret out => Ret out
                    | Raise => rec_walk data url
                    end
                end
            | _ => rec_walk data url
            end
        | _ => rec_walk data url
        end
  end.

End JsonLane.

(** ** Lane C: the screenshot *)

Section VisionLane.

Variable NOW : datetime.
Variable dateparse : string -> option datetime.

(** The output of the vision script for an image, decoded by [json.loads];
    [None] when reading or decoding it raises. *)
Variable vision_output : string -> option pyval.

(** [sane_date(x)] for a value: the parser raises on what is no text, and
    [sane_date] returns [None] then. *)
Definition sane_date_val (x : pyval) : option string :=
  match x with
  | PStr s => sane_date NOW dateparse s
  | _ => None
  end.

(** [x[:5]] *)
Definition first_five (x : pyval) : outcome pyval :=
  match x with
  | PList xs => Ret (PList (firstn 5 xs))
  | PTuple xs => Ret (PTuple (firstn 5 xs))
  | PStr s => Ret (PStr (Text.prefix 5 s))
  | _ => Raise
  end.

(** [len(x)] and [x[-1]] *)
Definition len_of (x : pyval) : outcome nat :=
  match x with
  | PList xs | PTuple xs => Ret (List.length xs)
  | PStr s => Ret (String.length s)
  | PDict items => Ret (List.length items)
  | _ => Raise
  end.

Definition last_of (x : pyval) : outcome pyval :=
  match x with
  | PList (y :: ys) | PTuple (y :: ys) => Ret (last (y :: ys) PNone)
  | PStr (String c s) =>
      Ret (PStr (String (last (Text.chars (String c s)) c) ""))
  | _ => Raise
  end.

(** [validate_numbers(game, nums, bonus)] on values: a game that has no
    hash makes the look-up in [GAME_RULES] raise, a game that is no string
    is not there, and the characters of a string are no integers. *)
Definition validate_val (game nums bonus_ball : pyval) : outcome bool :=
  match game with
  | PStr g =>
      Ret (match nums with
           | PList xs | PTuple xs => validate_numbers g xs bonus_ball
           | _ => false
           end)
  | _ => if hashable game then Ret false else Raise
  end.

(** The body of the loop of [extract_with_vision]: [Ret None] is
    [continue], [Ret (Some r)] the dictionary appended to [ok], which is the
    dictionary read, with its date and two more entries set. *)
Definition vision_item (r : pyval) (url : option string)
    : outcome (option dict) :=
  match r with
  | PDict d =>
      match sane_date_val (get_default d "date" (PStr "")) with
      | None => Ret None
      | Some iso =>
          let game := get d "game" in
          nums <- first_five (get_default d "numbers" (PList [])) ;;
          n <- len_of (get_default d "numbers" (PList [])) ;;
          bonus <- (if Nat.eqb n 6
                    then last_of (get_default d "numbers" (PList [PNone]))
                    else Ret (get d "bonus")) ;;
          ok <- (if truthy game then validate_val game nums bonus
                 else Ret false) ;;
          if ok
          then
            let d1 := set d "date" (PStr iso) in
            let d2 := set d1 "source_url" (por (get d1 "source_url") (opt_str url)) in
            let d3 := set d2 "extraction_method"
                        (get_default d2 "extraction_method" (PStr "vision")) in
            Ret (Some d3)
          else Ret None
      end
  | _ => Raise
  end.

Fixpoint vision_items (data : list pyval) (url : option string)
    : outcome (list dict) :=
  match data with
  | [] => Ret []
  | r :: rest =>
      x <- vision_item r url ;;
      ok <- vision_items rest url ;;
      Ret (match x with
           | Some d => d :: ok
           | None => ok
           end)
  end.

(** Every exception ends the function with an empty list. *)
Definition extract_with_vision (img_path : string) (url : option string)
    : list dict :=
  match vision_output img_path with
  | Some (PList data) =>
      match vision_items data url with
      | Ret ok => ok
      | Raise => []
      end
  | _ => []
  end.

End VisionLane.

(** ** Deduplication of the dictionaries collected *)

(** [rank.get(method, 0)]: the look-up raises on a value without hash. *)
Definition rank_val (method : pyval) : outcome nat :=
  match method with
  | PStr s => Ret (rank s)
  | _ => if hashable method then Ret 0%nat else Raise
  end.

(** The key [(r.get("game"), r.get("date"), tuple(r.get("numbers") or []))]
    with its hash taken, which raises when a part has none. *)
Definition raw_key (r : dict) : outcome (pyval * pyval * list pyval) :=
  nums <- tuple_of (por (get r "numbers") (PList [])) ;;
  if hashable (get r "game") && hashable (get r "date")
     && forallb hashable nums
  then Ret (get r "game", get r "date", nums)
  else Raise.

Definition raw_key_eq (a b : pyval * pyval * list pyval) : bool :=
  let '(g1, d1, n1) := a in
  let '(g2, d2, n2) := b in
  key_eq g1 g2 && key_eq d1 d2 && keys_eq n1 n2.

(** The step of the loop on [seen]; the ranks are looked up only for a key
    that is there already. *)
Fixpoint upsert_raw (seen : list ((pyval * pyval * list pyval) * dict))
    (k : pyval * pyval * list pyval) (r : dict)
    : outcome (list ((pyval * pyval * list pyval) * dict)) :=
  match seen with
  | [] => Ret [(k, r)]
  | (k', r') :: rest =>
      if raw_key_eq k k'
      then
        new <- rank_val (get r "extraction_method") ;;
        old <- rank_val (get r' "extraction_method") ;;
        Ret (if Nat.ltb old new then (k', r) :: rest else (k', r') :: rest)
      else
        rest' <- upsert_raw rest k r ;;
        Ret ((k', r') :: rest')
  end.

Fixpoint dedupe_loop (seen : list ((pyval * pyval * list pyval) * dict))
    (records : list dict) : outcome (list ((pyval * pyval * list pyval) * dict)) :=
  match records with
  | [] => Ret seen
  | r :: rest =>
      k <- raw_key r ;;
      seen' <- upsert_raw seen k r ;;
      dedupe_loop seen' rest
  end.

(** [dedupe_keep_best] on the dictionaries that [main] hands to it. *)
Definition dedupe_dicts (records : list dict) : outcome (list dict) :=
  seen <- dedupe_loop [] records ;;
  Ret (map snd seen).

(** ** [main] *)

(** The sidecar of a capture: a file that cannot be read or decoded is
    skipped; one that holds no JSON object makes [meta.get] raise, which
    nothing catches. *)
Inductive sidecar : Type :=
| Unreadable
| NoObject
| Sidecar (c : capture).

Section Main.

Variable NOW : datetime.
Variable dateparse : string -> option datetime.
Variable utcnow : datetime.
Variable json_loads : string -> option pyval.
Variable json_dumps : pyval -> string.
Variable repr_of : pyval -> string.
Variable Soup : Type.
Variable BeautifulSoup : string -> Soup.
Variable find_all_text : Soup -> list string.
Variable get_text : Soup -> string.
Variable select_text : Soup -> string -> outcome (list string).
Variable HAVE_YAML : bool.
Variable ADAPTERS : list (string * list adapter).
Variable parse_money_html : string -> option Z.
Variable parse_money_general : string -> option Z.
Variable vision_output : string -> option pyval.

Definition lane_json (body : pyval) (url : option string) : outcome (list dict) :=
  recs <- extract_from_network_json NOW dateparse utcnow json_loads json_dumps
            repr_of parse_money_general body url ;;
  Ret (map as_dict recs).

Definition lane_html (html : string) (url : option string) : outcome (list dict) :=
  recs <- extract_from_html NOW dateparse utcnow Soup BeautifulSoup
            find_all_text get_text select_text HAVE_YAML ADAPTERS
            parse_money_html parse_money_general html url ;;
  Ret (map as_dict recs).

Definition lane_vision (img_path : string) (url : option string) : list dict :=
  extract_with_vision NOW dateparse vision_output img_path url.

(** [records] when the loop over the captures ends. *)
Definition collected (snaps : list sidecar) : outcome (list dict) :=
  if existsb (fun s => match s with
                       | NoObject => true
                       | _ => false
                       end) snaps
  then Raise
  else Ret (collect dict lane_json lane_html lane_vision
              (map (fun s => match s with
                             | Sidecar c => Ret c
                             | _ => Raise
                             end) snaps)).

(** [clean], the records that [main] writes. *)
Definition main_records (snaps : list sidecar) : outcome (list dict) :=
  records <- collected snaps ;;
  dedupe_dicts records.

End Main.

End Lanes.

Module LaneSpec.

Import Py Clock Snaps Dyn.

(** The date of a collected record is the day of a parsed time that is not
    after [NOW] and less than [LAST_N_DAYS + 1] days before it. *)
Definition in_window (NOW : datetime) (dateparse : string -> option datetime)
    (d : dict) : Prop :=
  exists s dt,
    dateparse s = Some dt
    /\ get d "date" = PStr (date_isoformat (on dt))
    /\ instant dt <= instant NOW < instant dt + (LAST_N_DAYS + 1) * US_PER_DAY.

(** A record with its time stamp blanked. *)
Definition unstamp (d : dict) : dict :=
  map (fun kv => if String.eqb (fst kv) "fetched_at" then (fst kv, PNone) else kv) d.

(** The same result but for the time stamps of the records. *)
Definition same_but_stamps (o1 o2 : outcome (list dict)) : Prop :=
  Spec.omap (map unstamp) o1 = Spec.omap (map unstamp) o2.

(** Two optional lists of records, the same but for the time stamps. *)
Definition same_option (a b : option (list dict)) : Prop :=
  match a, b with
  | Some x, Some y => map unstamp x = map unstamp y
  | None, None => True
  | _, _ => False
  end.

(** The uniqueness key of the specification, [(game, date, numbers)]: two
    records have the same key when the three fields agree, the numbers by
    value. *)
Definition same_key (a b : record) : Prop :=
  game a = game b /\ date a = date b
  /\ map int_val (numbers a) = map int_val (numbers b).

(** The confidence order of the specification, json above html above
    vision; a method that is none of the three is below them. *)
Definition method_confidence (method : string) : nat :=
  if string_dec method "json" then 3
  else if string_dec method "html" then 2
  else if string_dec method "vision" then 1
  else 0.

(** [r] stands in [l] as the first record of its key that reaches the
    highest confidence found for that key. *)
Definition first_of_highest (l : list record) (r : record) : Prop :=
  exists before after,
    l = (before ++ r :: after)%list
    /\ (forall x, In x before -> same_key x r ->
         (method_confidence (extraction_method x)
          < method_confidence (extraction_method r))%nat)
    /\ (forall x, In x after -> same_key x r ->
         (method_confidence (extraction_method x)
          <= method_confidence (extraction_method r))%nat).

End LaneSpec.

(* ===================================================================== *)
(** * [layer2/parse_and_classify.py]: the date of a row *)

Module Rows.

Import Py Clock Dyn.

Definition DATE_KEYS : list string :=
  ["draw_date"; "drawdate"; "date"; "field_draw_date"; "field_date";
   "post_date"; "drawDate"; "DrawDate"; "Date"; "Drawdate"].

Section RowDate.

(** [json.dumps], and the text [str] gives for a float or a container. *)
Variable json_dumps : pyval -> string.
Variable repr_of : pyval -> string.

(** [normalize_date(v)] for a value: a value that is not true is answered
    with the date of today, any other is read as [str(v)]. *)
Definition normalize_value (today : date) (v : pyval)
    : option (outcome string) :=
  if truthy v then Classify.normalize_date today (Some (str_of repr_of v))
  else Classify.normalize_date today None.

(** The first loop of [_extract_date_from_row]: the value of the first key
    in [DATE_KEYS] whose value is true. *)
Fixpoint known_date (keys : dict) (row : dict) : option pyval :=
  match keys with
  | [] => None
  | (k, _) :: rest =>
      if existsb (String.eqb k) DATE_KEYS && truthy (get row k)
      then Some (get row k)
      else known_date rest row
  end.

(** The second loop: the first true value under a key that holds "date"
    in lower case. *)
Fixpoint dated (items : dict) : option pyval :=
  match items with
  | [] => None
  | (k, v) :: rest =>
      if Text.contains "date" (Text.lower k) && truthy v then Some v
      else dated rest
  end.

Definition _extract_date_from_row (today : date) (row : dict)
    : option (outcome string) :=
  match known_date row row with
  | Some val => normalize_value today val
  | None =>
      match dated row with
      | Some v => normalize_value today v
      | None => Harvest._sniff_date_from_text today (json_dumps (PDict row))
      end
  end.

(** [normalize_date(date if date else _sniff_date_from_text(json.dumps(row)))],
    the date that [parse_powerball] and [parse_megamillions_asmx] give to a
    row whose date fields hold [date]. *)
Definition date_or_sniffed (today : date) (date : pyval) (row : dict)
    : option (outcome string) :=
  if truthy date then normalize_value today date
  else
    match Harvest._sniff_date_from_text today (json_dumps (PDict row)) with
    | Some (Ret d) => normalize_value today (PStr d)
    | other => other
    end.

Definition powerball_row_date (today : date) (row : dict)
    : option (outcome string) :=
  date_or_sniffed today
    (por (get row "field_draw_date")
         (por (get row "draw_date")
              (por (get row "date") (get row "field_date")))) row.

Definition megamillions_row_date (today : date) (row : dict)
    : option (outcome string) :=
  date_or_sniffed today
    (por (get row "DrawDate") (por (get row "draw_date") (get row "Date")))
    row.

End RowDate.

End Rows.

(* ===================================================================== *)
(** * Sample runs *)

Module Runs.

Import Py Clock Snaps Dyn Lanes.

(** A date parser that reads every text as the given time. *)
Definition parse_to (dt : datetime) (_ : string) : option datetime := Some dt.

(** The afternoon of 30 August 2025, without zone, and the first hour of
    15 September 2025 at UTC+14:00. *)
Definition old_afternoon : datetime :=
  mkDatetime (mkDate 2025 8 30) 13 0 0 0 None.
Definition tomorrow_far_east : datetime :=
  mkDatetime (mkDate 2025 9 15) 1 0 0 0 (Some (14 * 3600 * 1000000)).

(** The morning after [Sample.noon], and noon two weeks after it. *)
Definition next_morning : datetime :=
  mkDatetime (mkDate 2025 9 15) 9 0 0 0 (Some 0).
Definition noon_two_weeks_later : datetime :=
  mkDatetime (mkDate 2025 9 28) 12 0 0 0 (Some 0).

(** A capture that has a page only, and one that has a screenshot only. *)
Definition page_capture : capture :=
  {| url := Sample.example_url;
     body_json := None;
     network_json := None;
     html_file := Some (Ret Sample.page_with_14045);
     full_png := None |}.

Definition screenshot_capture : capture :=
  {| url := Sample.example_url;
     body_json := None;
     network_json := None;
     html_file := None;
     full_png := Some "snap.full.png" |}.

Definition no_loads (_ : string) : option pyval := None.
Definition no_vision (_ : string) : option pyval := None.

(** The quotation mark. *)
Definition quote : string := String (ascii_of_nat 34) "".

(** [json.dumps] of a text of ASCII letters, digits and blanks, and the
    text [str] gives for a float or a container, which no sample needs. *)
Definition dumps_text (v : pyval) : string :=
  match v with
  | PStr s => quote ++ s ++ quote
  | _ => "?"
  end.

Definition any_text (_ : pyval) : string := "?".

(** A body file that holds one draw, dated [when], as [json.loads] reads
    it. *)
Definition draw_item (when : string) : pyval :=
  PDict [ ("draw_date", PStr when);
          ("winning_numbers", PStr "01 12 23 34 45 10") ].

Definition loads_draw (when : string) (_ : string) : option pyval :=
  Some (PList [draw_item when]).

Definition body_capture : capture :=
  {| url := Sample.example_url;
     body_json := Some (Ret "[{...}]");
     network_json := None;
     html_file := None;
     full_png := None |}.

(** The vision script answers with one draw whose bonus ball is wrapped in
    a list. *)
Definition wrapped_bonus : dict :=
  [ ("date", PStr "Sep 13, 2025");
    ("game", PStr "Powerball");
    ("numbers", PList (Sample.mains ++ [PList [PInt 10]])) ].

Definition vision_wrapped_bonus (_ : string) : option pyval :=
  Some (PList [PDict wrapped_bonus]).

(** A run of [main] that starts at [NOW] and reads the clock as [utcnow],
    on pages of plain text and without adapter store: the records
    collected, and the records written. *)
Definition gathered (NOW : datetime) (dateparse : string -> option datetime)
    (utcnow : datetime) (json_loads : string -> option pyval)
    (vision_output : string -> option pyval)
    (snaps : list sidecar) : outcome (list dict) :=
  collected NOW dateparse utcnow json_loads dumps_text any_text string
    Sample.plain_soup Sample.plain_find_all Sample.plain_get_text
    Sample.plain_select false [] Sample.no_money Sample.no_money
    vision_output snaps.

Definition run (NOW : datetime) (dateparse : string -> option datetime)
    (utcnow : datetime) (json_loads : string -> option pyval)
    (vision_output : string -> option pyval)
    (snaps : list sidecar) : outcome (list dict) :=
  main_records NOW dateparse utcnow json_loads dumps_text any_text string
    Sample.plain_soup Sample.plain_find_all Sample.plain_get_text
    Sample.plain_select false [] Sample.no_money Sample.no_money
    vision_output snaps.

(** A row without any date, and its JSON text. *)
Definition dateless_row : dict :=
  [ ("winning_numbers", PStr "01 12 23 34 45 10") ].

Definition dateless_row_text : string :=
  "{" ++ quote ++ "winning_numbers" ++ quote ++ ": " ++ quote
      ++ "01 12 23 34 45 10" ++ quote ++ "}".

Definition dumps_dateless_row (_ : pyval) : string := dateless_row_text.

End Runs.

(* ===================================================================== *)
(** * Tactics *)

(** Case analysis on every [match] of the hypotheses, and the equations
    between results that it leaves. *)
Ltac break_matches :=
  repeat match goal with
         | H : context [match ?x with _ => _ end] |- _ =>
             destruct x eqn:?; try discriminate
         end.

Ltac inject_all :=
  repeat match goal with
         | H : Ret _ = Ret _ |- _ => inversion H; subst; clear H
         | H : Some _ = Some _ |- _ => inversion H; subst; clear H
         | H : (_ && _)%bool = true |- _ => apply andb_true_iff in H; destruct H
         end.

(* ===================================================================== *)
(** * Proofs *)

Import Py Clock.

(** ** Validation *)

Lemma in_range_iff (lo hi x : Z) : in_range lo hi x = true <-> lo <= x <= hi.
Proof.
  unfold in_range. rewrite andb_true_iff, !Z.leb_le. tauto.
Qed.

Lemma is_int_in_iff (lo hi : Z) (x : pyval) :
  Snaps.is_int_in lo hi x = true <-> Spec.int_within lo hi x.
Proof.
  unfold Spec.int_within. destruct x; simpl;
    try (split; [discriminate | intros (i & E & _); discriminate]).
  rewrite in_range_iff. split.
  - intros H. now exists i.
  - intros (j & E & H). now inversion E; subst.
Qed.

Lemma forallb_is_int_in (lo hi : Z) (n : list pyval) :
  forallb (Snaps.is_int_in lo hi) n = true <-> Forall (Spec.int_within lo hi) n.
Proof.
  rewrite forallb_forall, Forall_forall.
  split; intros H x Hx; apply is_int_in_iff; auto.
Qed.

Lemma bonus_branch_iff (lo hi : Z) (b : pyval) :
  match b with
  | PNone => false
  | PNum i => in_range lo hi (int_val i)
  | PList [PNum i] => in_range lo hi (int_val i)
  | PTuple [PNum i] => in_range lo hi (int_val i)
  | _ => false
  end = true <-> Spec.bonus_accepted lo hi b.
Proof.
  unfold Spec.bonus_accepted. split.
  - destruct b as [ | i | f | s | xs | xs | kvs]; try discriminate.
    + intros H. exists i. rewrite <- in_range_iff. auto.
    + destruct xs as [ | [ | i | | | | | ] [ | ? ?]]; try discriminate.
      intros H. exists i. rewrite <- in_range_iff. auto.
    + destruct xs as [ | [ | i | | | | | ] [ | ? ?]]; try discriminate.
      intros H. exists i. rewrite <- in_range_iff. auto.
  - intros (i & [E | [E | E]] & H); subst b; now apply in_range_iff.
Qed.

Lemma validate_numbers_unfold (g : string) (n : list pyval) (b : pyval) :
  Snaps.validate_numbers g n b =
  match Snaps.dict_get Snaps.GAME_RULES g with
  | None => false
  | Some rule =>
      Nat.eqb (List.length n) (Snaps.main_count rule)
      && forallb (Snaps.is_int_in (Snaps.main_lo rule) (Snaps.main_hi rule)) n
      && match b with
         | PNone => false
         | PNum i => in_range (Snaps.bonus_lo rule) (Snaps.bonus_hi rule) (int_val i)
         | PList [PNum i] => in_range (Snaps.bonus_lo rule) (Snaps.bonus_hi rule) (int_val i)
         | PTuple [PNum i] => in_range (Snaps.bonus_lo rule) (Snaps.bonus_hi rule) (int_val i)
         | _ => false
         end
  end.
Proof.
  unfold Snaps.validate_numbers, Snaps.main_count, Snaps.main_lo,
    Snaps.main_hi, Snaps.bonus_lo, Snaps.bonus_hi.
  destruct (Snaps.dict_get Snaps.GAME_RULES g) as [rule | ]; [ | reflexivity].
  destruct (Snaps.main rule) as [[mc lo] hi], (Snaps.bonus rule) as [[bc blo] bhi].
  simpl.
  destruct (Nat.eqb (List.length n) mc); simpl; [ | reflexivity].
  destruct (forallb (Snaps.is_int_in lo hi) n); reflexivity.
Qed.

Lemma validate_numbers_coded (g : string) (n : list pyval) (b : pyval) :
  Snaps.validate_numbers g n b = true <-> Spec.valid_as_coded g n b.
Proof.
  rewrite validate_numbers_unfold. unfold Spec.valid_as_coded.
  destruct (Snaps.dict_get Snaps.GAME_RULES g) as [rule | ].
  - rewrite !andb_true_iff, Nat.eqb_eq, forallb_is_int_in, bonus_branch_iff.
    split.
    + intros [[Hl Hf] Hb]. exists rule. auto.
    + intros (rule' & E & Hl & Hf & Hb). inversion E; subst. auto.
  - split; [discriminate | intros (rule & E & _); discriminate].
Qed.

(** C1 (as amended).  [validate_numbers] returns [True] exactly when the
    game is in the rule table, the list has the game's main-ball count,
    every element is an integer within the main range, and the bonus is an
    integer within the bonus range or a list or tuple holding exactly one
    such integer.  It returns [False] for an unknown game and for a missing
    bonus; being a total function on these inputs, it raises nothing. *)
Theorem validate_numbers_iff :
  forall (g : string) (n : list pyval) (b : pyval),
    (Snaps.validate_numbers g n b = true <-> Spec.valid_as_coded g n b)
    /\ (Snaps.dict_get Snaps.GAME_RULES g = None ->
        Snaps.validate_numbers g n b = false)
    /\ Snaps.validate_numbers g n PNone = false.
Proof.
  intros g n b. split; [apply validate_numbers_coded | ].
  rewrite !validate_numbers_unfold.
  destruct (Snaps.dict_get Snaps.GAME_RULES g) as [rule | ].
  - split; [discriminate | now rewrite andb_false_r].
  - split; reflexivity.
Qed.

(** C1, the claim as stated fails: a bonus given as the one-element list
    [[10]] is accepted, although a list is no integer within the bonus
    range. *)
Lemma validate_numbers_list_bonus :
  Snaps.validate_numbers "Powerball" (map PInt [1; 2; 3; 4; 5]) (PList [PInt 10])
    = true
  /\ ~ Spec.valid_as_specified "Powerball" (map PInt [1; 2; 3; 4; 5])
         (PList [PInt 10]).
Proof.
  split; [reflexivity | ].
  intros (rule & _ & _ & _ & i & E & _). discriminate.
Qed.

(** ** Deduplication *)

Lemma nums_eqb_eq (a b : list Z) : Snaps.nums_eqb a b = true <-> a = b.
Proof.
  revert b. induction a as [ | x a IH]; intros [ | y b]; simpl;
    try (split; [reflexivity || discriminate | reflexivity || discriminate]).
  rewrite andb_true_iff, Z.eqb_eq, IH.
  split; [intros [-> ->]; reflexivity | intros E; inversion E; auto].
Qed.

Lemma key_eqb_eq (a b : Snaps.key) : Snaps.key_eqb a b = true <-> a = b.
Proof.
  destruct a as [[g1 d1] n1], b as [[g2 d2] n2]. simpl.
  rewrite !andb_true_iff, !String.eqb_eq, nums_eqb_eq.
  split; [intros [[-> ->] ->]; reflexivity | intros E; inversion E; auto].
Qed.

Lemma key_eqb_neq (a b : Snaps.key) : Snaps.key_eqb a b = false <-> a <> b.
Proof.
  rewrite <- key_eqb_eq. destruct (Snaps.key_eqb a b); split; congruence.
Qed.

(** A key that is not in [seen] is appended. *)
Lemma upsert_new (seen : list (Snaps.key * Snaps.record)) k r :
  ~ In k (map fst seen) -> Snaps.upsert seen k r = (seen ++ [(k, r)])%list.
Proof.
  induction seen as [ | [k' r'] seen IH]; simpl; intros H; [reflexivity | ].
  destruct (Snaps.key_eqb k k') eqn:E.
  - apply key_eqb_eq in E. subst. tauto.
  - rewrite IH; tauto.
Qed.

(** A key that is in [seen] keeps its place, and its value changes only
    for a record of strictly higher rank. *)
Lemma upsert_old (s1 s2 : list (Snaps.key * Snaps.record)) k r r' :
  ~ In k (map fst s1) ->
  Snaps.upsert (s1 ++ (k, r') :: s2) k r =
  (s1 ++ (k, if Nat.ltb (Spec.rank_of r') (Spec.rank_of r) then r else r') :: s2)%list.
Proof.
  induction s1 as [ | [k1 r1] s1 IH]; simpl; intros H.
  - replace (Snaps.key_eqb k k) with true by (symmetry; now apply key_eqb_eq).
    unfold Spec.rank_of. now destruct (Nat.ltb _ _).
  - destruct (Snaps.key_eqb k k1) eqn:E.
    + apply key_eqb_eq in E. subst. tauto.
    + rewrite IH; tauto.
Qed.

Lemma best_in_snoc_other (l : list Snaps.record) (r x : Snaps.record) :
  Snaps.key_of x <> Snaps.key_of r ->
  Spec.best_in l r -> Spec.best_in (l ++ [x]) r.
Proof.
  intros Hk (b & a & -> & Hb & Ha).
  exists b, (a ++ [x])%list. split; [now rewrite <- app_assoc | ].
  split; [exact Hb | ].
  intros y Hy Ey. apply in_app_or in Hy. destruct Hy as [Hy | [<- | []]]; auto.
  contradiction.
Qed.

Lemma best_in_snoc_lower (l : list Snaps.record) (r x : Snaps.record) :
  (Spec.rank_of x <= Spec.rank_of r)%nat ->
  Spec.best_in l r -> Spec.best_in (l ++ [x]) r.
Proof.
  intros Hr (b & a & -> & Hb & Ha).
  exists b, (a ++ [x])%list. split; [now rewrite <- app_assoc | ].
  split; [exact Hb | ].
  intros y Hy Ey. apply in_app_or in Hy. destruct Hy as [Hy | [<- | []]]; auto.
Qed.

Lemma best_in_snoc_higher (l : list Snaps.record) (r x : Snaps.record) :
  Snaps.key_of x = Snaps.key_of r ->
  (Spec.rank_of r < Spec.rank_of x)%nat ->
  Spec.best_in l r -> Spec.best_in (l ++ [x]) x.
Proof.
  intros Hk Hr (b & a & -> & Hb & Ha).
  exists (b ++ r :: a)%list, []. split; [reflexivity | ].
  split; [ | intros y []].
  intros y Hy Ey. rewrite Hk in Ey.
  apply in_app_or in Hy. destruct Hy as [Hy | [<- | Hy]].
  - specialize (Hb y Hy Ey). lia.
  - exact Hr.
  - specialize (Ha y Hy Ey). lia.
Qed.

Lemma sumbool_of_bool_key (a b : Snaps.key) : {a = b} + {a <> b}.
Proof.
  destruct (Snaps.key_eqb a b) eqn:E.
  - left. now apply key_eqb_eq.
  - right. now apply key_eqb_neq.
Qed.

Lemma NoDup_app_snoc {A : Type} (l : list A) (a : A) :
  NoDup l -> ~ In a l -> NoDup (l ++ [a]).
Proof.
  induction l as [ | b l IH]; simpl; intros Hnd Hout.
  - constructor; [intros [] | constructor].
  - inversion Hnd; subst. constructor.
    + intros H. apply in_app_or in H. destruct H as [H | [<- | []]]; tauto.
    + apply IH; tauto.
Qed.

Lemma seen_ok_step (l : list Snaps.record) seen (x : Snaps.record) :
  Spec.seen_ok l seen ->
  Spec.seen_ok (l ++ [x]) (Snaps.upsert seen (Snaps.key_of x) x).
Proof.
  intros (Hnd & Hval & Hcov).
  destruct (in_dec sumbool_of_bool_key (Snaps.key_of x) (map fst seen))
    as [Hin | Hout].
  - (* the key is there *)
    apply in_map_iff in Hin. destruct Hin as ([k r'] & Ek & Hin). simpl in Ek. subst k.
    apply in_split in Hin. destruct Hin as (s1 & s2 & ->).
    rewrite map_app in Hnd. simpl in Hnd.
    assert (Hn1 : ~ In (Snaps.key_of x) (map fst s1)).
    { intros H. apply NoDup_remove_2 in Hnd. apply Hnd, in_or_app. now left. }
    assert (Hn2 : ~ In (Snaps.key_of x) (map fst s2)).
    { intros H. apply NoDup_remove_2 in Hnd. apply Hnd, in_or_app. now right. }
    rewrite upsert_old by exact Hn1.
    destruct (Hval (Snaps.key_of x) r') as [Ek' Hbest'];
      [apply in_or_app; right; now left | ].
    split; [ | split].
    + now rewrite map_app.
    + intros k r Hin. apply in_app_or in Hin.
      assert (Hother : In (k, r) s1 \/ In (k, r) s2 ->
                       Snaps.key_of r = k /\ Spec.best_in (l ++ [x]) r).
      { intros H.
        destruct (Hval k r) as [Ek Hb].
        { apply in_or_app. destruct H; [now left | right; now right]. }
        split; [exact Ek | ].
        apply best_in_snoc_other; [ | exact Hb].
        rewrite Ek. intros E. rewrite <- E in H.
        destruct H as [H | H]; [apply Hn1 | apply Hn2];
          apply in_map_iff; exists (Snaps.key_of x, r); (split; [reflexivity | exact H]). }
      destruct Hin as [Hin | [E | Hin]]; [now apply Hother; left | | now apply Hother; right].
      inversion E; subst k r; clear E.
      destruct (Nat.ltb (Spec.rank_of r') (Spec.rank_of x)) eqn:Hlt.
      * apply Nat.ltb_lt in Hlt. split; [reflexivity | ].
        now apply best_in_snoc_higher with (r := r').
      * apply Nat.ltb_ge in Hlt. split; [exact Ek' | ].
        now apply best_in_snoc_lower.
    + intros y Hy. rewrite map_app. simpl.
      apply in_app_or in Hy. destruct Hy as [Hy | [<- | []]].
      * specialize (Hcov y Hy). rewrite map_app in Hcov. exact Hcov.
      * apply in_or_app. right. now left.
  - (* the key is new *)
    rewrite upsert_new by exact Hout.
    split; [ | split].
    + rewrite map_app. simpl.
      apply NoDup_app_snoc; assumption.
    + intros k r Hin. apply in_app_or in Hin. destruct Hin as [Hin | [E | []]].
      * destruct (Hval k r Hin) as [Ek Hb]. split; [exact Ek | ].
        apply best_in_snoc_other; [ | exact Hb].
        rewrite Ek. intros E. apply Hout. rewrite E.
        apply in_map_iff. now exists (k, r).
      * inversion E; subst k r; clear E. split; [reflexivity | ].
        exists l, []. split; [reflexivity | ].
        split; [ | intros y []].
        intros y Hy Ey. exfalso. apply Hout. rewrite <- Ey. now apply Hcov.
    + intros y Hy. rewrite map_app. apply in_or_app.
      apply in_app_or in Hy. destruct Hy as [Hy | [<- | []]].
      * left. now apply Hcov.
      * right. now left.
Qed.

Lemma seen_ok_fold (records processed : list Snaps.record) seen :
  Spec.seen_ok processed seen ->
  Spec.seen_ok (processed ++ records)
    (fold_left (fun acc r => Snaps.upsert acc (Snaps.key_of r) r) records seen).
Proof.
  revert processed seen.
  induction records as [ | x records IH]; intros processed seen H; simpl.
  - now rewrite app_nil_r.
  - replace (processed ++ x :: records)%list
      with ((processed ++ [x]) ++ records)%list
      by (rewrite <- app_assoc; reflexivity).
    apply IH. now apply seen_ok_step.
Qed.

Lemma seen_ok_nil : Spec.seen_ok [] [].
Proof.
  split; [constructor | split]; intros; contradiction.
Qed.

Lemma seen_keys (processed : list Snaps.record) seen :
  Spec.seen_ok processed seen -> map Snaps.key_of (map snd seen) = map fst seen.
Proof.
  intros (_ & Hval & _). rewrite map_map.
  apply map_ext_in. intros [k r] Hin. simpl. now apply Hval.
Qed.

(** The keys of the result of [dedupe_keep_best] are pairwise distinct,
    every key of the input occurs among them, and the record kept for a key
    is the best one of that key. *)
Lemma dedupe_keep_best_facts :
  forall records : list Snaps.record,
    NoDup (map Snaps.key_of (Snaps.dedupe_keep_best records))
    /\ (forall x, In x records ->
        exists r, In r (Snaps.dedupe_keep_best records)
                  /\ Snaps.key_of r = Snaps.key_of x)
    /\ (forall r, In r (Snaps.dedupe_keep_best records) ->
        Spec.best_in records r)
    /\ (forall h j,
        Snaps.key_of h = Snaps.key_of j ->
        Snaps.extraction_method h = "html" ->
        Snaps.extraction_method j = "json" ->
        Snaps.dedupe_keep_best [h; j] = [j]
        /\ Snaps.dedupe_keep_best [j; h] = [j]).
Proof.
  intros records.
  pose proof (seen_ok_fold records [] [] seen_ok_nil) as Hok. simpl in Hok.
  pose proof (seen_keys _ _ Hok) as Hkeys.
  destruct Hok as (Hnd & Hval & Hcov).
  unfold Snaps.dedupe_keep_best.
  split; [ | split; [ | split]].
  - rewrite Hkeys. exact Hnd.
  - intros x Hx. specialize (Hcov x Hx).
    apply in_map_iff in Hcov. destruct Hcov as ([k r] & Ek & Hin).
    simpl in Ek. subst k.
    exists r. split; [ | now apply Hval].
    apply in_map_iff. now exists (Snaps.key_of x, r).
  - intros r Hr. apply in_map_iff in Hr. destruct Hr as ([k r0] & E & Hin).
    simpl in E. subst r0. now apply (Hval k r).
  - intros h j Ek Hh Hj. cbn [fold_left Snaps.upsert].
    assert (E1 : Snaps.key_eqb (Snaps.key_of j) (Snaps.key_of h) = true)
      by (apply key_eqb_eq; auto).
    assert (E2 : Snaps.key_eqb (Snaps.key_of h) (Snaps.key_of j) = true)
      by (apply key_eqb_eq; auto).
    rewrite E1, E2, Hh, Hj. split; reflexivity.
Qed.

(** ** The driver *)

Section DriverFacts.

Variable R : Type.
Variable extract_from_network_json : pyval -> option string -> outcome (list R).
Variable extract_from_html : string -> option string -> outcome (list R).
Variable extract_with_vision : string -> option string -> list R.

Local Abbreviation run_lane :=
  (Snaps.run_lane R extract_from_network_json extract_from_html
     extract_with_vision).
Local Abbreviation lane_yield :=
  (Snaps.lane_yield R extract_from_network_json extract_from_html
     extract_with_vision).
Local Abbreviation process_capture :=
  (Snaps.process_capture R extract_from_network_json extract_from_html
     extract_with_vision).

Lemma nonempty_some (o : outcome (list R)) (recs : list R) :
  Snaps.nonempty R o = Some recs -> recs <> [].
Proof.
  destruct o as [[ | r rs] | ]; simpl; intros E; inversion E; discriminate.
Qed.

Lemma scan_nets_ok (u : option string) (nets : list (outcome pyval)) :
  (forall l, In l (fst (Snaps.scan_nets R extract_from_network_json u nets)) ->
             l = Snaps.LaneA)
  /\ (forall recs,
        snd (Snaps.scan_nets R extract_from_network_json u nets) = Some recs ->
        recs <> []).
Proof.
  induction nets as [ | [body | ] nets [IHl IHr]]; simpl;
    try (split; [intros l [] | intros recs E; discriminate]).
  destruct (extract_from_network_json body u) as [[ | r rs] | ]; simpl.
  - destruct (Snaps.scan_nets R extract_from_network_json u nets) as [log res].
    simpl in *. split; [intros l [<- | H]; auto | exact IHr].
  - split; [intros l [<- | []]; reflexivity | ].
    intros recs E. inversion E. discriminate.
  - split; [intros l [<- | []]; reflexivity | intros recs E; discriminate].
Qed.

(** A lane invokes no lane but itself, and what it hands to the driver is
    never empty. *)
Lemma run_lane_ok (l : Snaps.lane) (c : Snaps.capture) :
  (forall l', In l' (fst (run_lane l c)) -> l' = l)
  /\ (forall recs, snd (run_lane l c) = Some recs -> recs <> []).
Proof.
  destruct l; simpl.
  - unfold Snaps.run_A0. destruct (Snaps.body_json c) as [[body | ] | ]; simpl;
      try (split; [intros l [] | intros recs E; discriminate]).
    split; [intros l [<- | []]; reflexivity | apply nonempty_some].
  - unfold Snaps.run_A. destruct (Snaps.network_json c) as [[nets | ] | ]; simpl;
      try (split; [intros l [] | intros recs E; discriminate]).
    apply scan_nets_ok.
  - unfold Snaps.run_B. destruct (Snaps.html_file c) as [[html | ] | ]; simpl;
      try (split; [intros l [] | intros recs E; discriminate]).
    split; [intros l [<- | []]; reflexivity | apply nonempty_some].
  - unfold Snaps.run_C. destruct (Snaps.full_png c) as [img | ];
      cbn [fst snd];
      try (split; [intros l [] | intros recs E; discriminate]).
    split; [intros l [<- | []]; reflexivity | apply nonempty_some].
Qed.

Lemma lane_yield_some (l : Snaps.lane) (c : Snaps.capture) (recs : list R) :
  snd (run_lane l c) = Some recs -> lane_yield l c = recs /\ recs <> [].
Proof.
  intros E. unfold Snaps.lane_yield. rewrite E.
  split; [reflexivity | now apply (run_lane_ok l c)].
Qed.

Lemma lane_yield_none (l : Snaps.lane) (c : Snaps.capture) :
  snd (run_lane l c) = None -> lane_yield l c = [].
Proof.
  intros E. unfold Snaps.lane_yield. now rewrite E.
Qed.

Lemma scan_nets_invoked (u : option string) (nets : list (outcome pyval))
    (recs : list R) :
  snd (Snaps.scan_nets R extract_from_network_json u nets) = Some recs ->
  In Snaps.LaneA (fst (Snaps.scan_nets R extract_from_network_json u nets)).
Proof.
  induction nets as [ | [body | ] nets IH]; simpl; try discriminate.
  destruct (extract_from_network_json body u) as [[ | r rs] | ]; simpl;
    try discriminate.
  - destruct (Snaps.scan_nets R extract_from_network_json u nets) as [log res].
    simpl. intros H. right. now apply IH.
  - intros _. now left.
Qed.

(** A lane that hands records to the driver was invoked. *)
Lemma run_lane_invoked (l : Snaps.lane) (c : Snaps.capture) (recs : list R) :
  snd (run_lane l c) = Some recs -> In l (fst (run_lane l c)).
Proof.
  destruct l; simpl.
  - unfold Snaps.run_A0. destruct (Snaps.body_json c) as [[body | ] | ]; simpl;
      try discriminate. intros _. now left.
  - unfold Snaps.run_A. destruct (Snaps.network_json c) as [[nets | ] | ]; simpl;
      try discriminate. apply scan_nets_invoked.
  - unfold Snaps.run_B. destruct (Snaps.html_file c) as [[html | ] | ]; simpl;
      try discriminate. intros _. now left.
  - unfold Snaps.run_C. destruct (Snaps.full_png c) as [img | ];
      cbn [fst snd]; try discriminate. intros _. now left.
Qed.

(** What one turn of the loop does: either the first lane that yields
    gives the records of the capture, and no lane after it is invoked, or no
    lane yields and the capture gives nothing. *)
Lemma process_capture_cases (c : Snaps.capture) :
  (exists l0,
      snd (process_capture c) = lane_yield l0 c
      /\ lane_yield l0 c <> []
      /\ (forall l', (Snaps.lane_index l' < Snaps.lane_index l0)%nat ->
                     lane_yield l' c = [])
      /\ In l0 (fst (process_capture c))
      /\ (forall l', In l' (fst (process_capture c)) ->
                     (Snaps.lane_index l' <= Snaps.lane_index l0)%nat))
  \/ (snd (process_capture c) = [] /\ forall l, lane_yield l c = []).
Proof.
  pose proof (run_lane_ok Snaps.LaneA0 c) as [L0 _].
  pose proof (run_lane_ok Snaps.LaneA c) as [L1 _].
  pose proof (run_lane_ok Snaps.LaneB c) as [L2 _].
  pose proof (run_lane_ok Snaps.LaneC c) as [L3 _].
  pose proof (lane_yield_some Snaps.LaneA0 c) as S0.
  pose proof (lane_yield_some Snaps.LaneA c) as S1.
  pose proof (lane_yield_some Snaps.LaneB c) as S2.
  pose proof (lane_yield_some Snaps.LaneC c) as S3.
  pose proof (lane_yield_none Snaps.LaneA0 c) as N0.
  pose proof (lane_yield_none Snaps.LaneA c) as N1.
  pose proof (lane_yield_none Snaps.LaneB c) as N2.
  pose proof (lane_yield_none Snaps.LaneC c) as N3.
  pose proof (run_lane_invoked Snaps.LaneA0 c) as I0.
  pose proof (run_lane_invoked Snaps.LaneA c) as I1.
  pose proof (run_lane_invoked Snaps.LaneB c) as I2.
  pose proof (run_lane_invoked Snaps.LaneC c) as I3.
  unfold Snaps.process_capture. simpl in *.
  destruct (Snaps.run_A0 R extract_from_network_json c) as [log0 [recs0 | ]];
    simpl in *.
  { left. exists Snaps.LaneA0. destruct (S0 _ eq_refl) as [-> Hne].
    repeat split; auto.
    - intros l' H. simpl in H. lia.
    - now apply (I0 recs0).
    - intros l' H. rewrite (L0 l' H). simpl. lia. }
  destruct (Snaps.run_A R extract_from_network_json c) as [log1 [recs1 | ]];
    simpl in *.
  { left. exists Snaps.LaneA. destruct (S1 _ eq_refl) as [-> Hne].
    repeat split; auto.
    - intros [ | | | ] H; simpl in H; try lia. now apply N0.
    - apply in_or_app. right. now apply (I1 recs1).
    - intros l' H. apply in_app_or in H.
      destruct H as [H | H]; [rewrite (L0 l' H) | rewrite (L1 l' H)]; simpl; lia. }
  destruct (Snaps.run_B R extract_from_html c) as [log2 [recs2 | ]]; simpl in *.
  { left. exists Snaps.LaneB. destruct (S2 _ eq_refl) as [-> Hne].
    repeat split; auto.
    - intros [ | | | ] H; simpl in H; try lia; [now apply N0 | now apply N1].
    - apply in_or_app. right. apply in_or_app. right. now apply (I2 recs2).
    - intros l' H. apply in_app_or in H. destruct H as [H | H];
        [rewrite (L0 l' H); simpl; lia | ].
      apply in_app_or in H.
      destruct H as [H | H]; [rewrite (L1 l' H) | rewrite (L2 l' H)]; simpl; lia. }
  destruct (Snaps.run_C R extract_with_vision c) as [log3 [recs3 | ]]; simpl in *.
  { left. exists Snaps.LaneC. destruct (S3 _ eq_refl) as [-> Hne].
    repeat split; auto.
    - intros [ | | | ] H; simpl in H; try lia;
        [now apply N0 | now apply N1 | now apply N2].
    - apply in_or_app. right. apply in_or_app. right. apply in_or_app. right.
      now apply (I3 recs3).
    - intros l' H. destruct l'; simpl; lia. }
  right. split; [reflexivity | ].
  intros [ | | | ]; auto.
Qed.


(** X11.  Every record that the loop of [main] collects comes from one
    lane, run on one capture that could be read. *)
Lemma collect_from_lanes (snaps : list (outcome Snaps.capture)) (r : R) :
  In r (Snaps.collect R extract_from_network_json extract_from_html
          extract_with_vision snaps) ->
  exists c l, In (Ret c) snaps /\ In r (lane_yield l c).
Proof.
  unfold Snaps.collect. rewrite in_flat_map.
  intros ([c | ] & Hs & Hr); [ | contradiction].
  exists c.
  destruct (process_capture_cases c) as [(l0 & E & _) | [E _]].
  - exists l0. split; [exact Hs | now rewrite <- E].
  - rewrite E in Hr. contradiction.
Qed.

End DriverFacts.

(** The witness of X11: the record of the first lane of the sample capture. *)
Lemma collect_from_lanes_witness :
  In 1%nat (Snaps.collect nat Sample.json_lane Sample.html_lane
              Sample.vision_lane [Ret Sample.snap])
  /\ exists c l,
       In (Ret c) [Ret Sample.snap]
       /\ In 1%nat (Snaps.lane_yield nat Sample.json_lane Sample.html_lane
                            Sample.vision_lane l c).
Proof.
  split; [vm_compute; auto | ].
  apply (collect_from_lanes nat Sample.json_lane Sample.html_lane
           Sample.vision_lane [Ret Sample.snap] 1%nat).
  vm_compute. auto.
Defined.

(** ** Record assembly *)

Lemma map_int_validated (lo hi : Z) (nums : list pyval) :
  Forall (Spec.int_within lo hi) nums ->
  exists zs,
    Snaps.map_int nums = Ret zs
    /\ List.length zs = List.length nums
    /\ Forall (fun z => lo <= z <= hi) zs.
Proof.
  induction 1 as [ | x nums (i & -> & Hi) _ (zs & E & Hl & Hf)]; simpl.
  - exists []. repeat split. constructor.
  - exists (int_val i :: zs). rewrite E. simpl.
    repeat split; [now rewrite Hl | now constructor].
Qed.

(** The shape of the numbers of a record assembled from a validated
    candidate. *)
Lemma to_record_shape (utcnow : datetime) (g iso : string) (nums : list pyval)
    (b jackpot : pyval) (u : option string) (method : string) (conf : pyval)
    (rule : Snaps.game_rule) :
  Snaps.dict_get Snaps.GAME_RULES g = Some rule ->
  Snaps.validate_numbers g nums b = true ->
  exists r mains bonus_ball,
    Snaps.to_record utcnow g iso nums b jackpot u method conf = Ret r
    /\ Snaps.numbers r = (mains ++ [bonus_ball])%list
    /\ List.length mains = Snaps.main_count rule
    /\ Forall (fun i => Snaps.main_lo rule <= int_val i <= Snaps.main_hi rule)
              mains
    /\ Snaps.bonus_lo rule <= int_val bonus_ball <= Snaps.bonus_hi rule.
Proof.
  intros Hrule Hv.
  apply validate_numbers_coded in Hv.
  destruct Hv as (rule' & E & Hl & Hf & i & Hb & Hi).
  rewrite Hrule in E. inversion E; subst rule'; clear E.
  destruct (map_int_validated _ _ _ Hf) as (zs & Ez & Hlz & Hfz).
  unfold Snaps.to_record. rewrite Ez. simpl.
  assert (Hnum :
    match match b with
          | PNum _ => b
          | PList (b0 :: _) => b0
          | PTuple (b0 :: _) => b0
          | _ => b
          end with
    | PNum j => [j]
    | _ => []
    end = [i]) by (destruct Hb as [-> | [-> | ->]]; reflexivity).
  rewrite Hnum.
  eexists. exists (map IInt zs), i. split; [reflexivity | ]. simpl.
  repeat split; try tauto.
  - rewrite length_map. congruence.
  - apply Forall_map. exact Hfz.
Qed.

(** C5 (as amended).  A record that [to_record] assembles from a candidate
    accepted by [validate_numbers] lists the game's main balls, each within
    the main range, followed by the bonus ball, which lies within the bonus
    range: its [numbers] hold [mainCount + 1] values. *)
Theorem to_record_numbers :
  forall (utcnow : datetime) (g iso : string) (nums : list pyval)
         (b jackpot : pyval) (u : option string) (method : string)
         (conf : pyval) (rule : Snaps.game_rule),
    Snaps.dict_get Snaps.GAME_RULES g = Some rule ->
    Snaps.validate_numbers g nums b = true ->
    exists r mains bonus_ball,
      Snaps.to_record utcnow g iso nums b jackpot u method conf = Ret r
      /\ Snaps.numbers r = (mains ++ [bonus_ball])%list
      /\ List.length mains = Snaps.main_count rule
      /\ Forall (fun i => Snaps.main_lo rule <= int_val i <= Snaps.main_hi rule)
                mains
      /\ Snaps.bonus_lo rule <= int_val bonus_ball <= Snaps.bonus_hi rule
      /\ List.length (Snaps.numbers r) = S (Snaps.main_count rule).
Proof.
  intros utcnow g iso nums b jackpot u method conf rule Hrule Hv.
  destruct (to_record_shape utcnow g iso nums b jackpot u method conf rule
              Hrule Hv) as (r & mains & bb & Hr & Hn & Hl & Hf & Hb).
  exists r, mains, bb. repeat split; try assumption; try tauto.
  rewrite Hn, length_app. simpl. lia.
Qed.

(** The witness of C5: the draw of 13 September 2025. *)
Lemma to_record_numbers_witness :
  exists r mains bonus_ball,
    Snaps.to_record Sample.reading "Powerball" "2025-09-13" Sample.mains
      (PInt 10) PNone Sample.example_url "json" PNone = Ret r
    /\ Snaps.numbers r = (mains ++ [bonus_ball])%list
    /\ List.length mains = 5%nat
    /\ Forall (fun i => 1 <= int_val i <= 69) mains
    /\ 1 <= int_val bonus_ball <= 26
    /\ List.length (Snaps.numbers r) = 6%nat.
Proof.
  apply (to_record_numbers Sample.reading "Powerball" "2025-09-13"
           Sample.mains (PInt 10) PNone Sample.example_url "json" PNone
           {| Snaps.main := (5%nat, 1, 69); Snaps.bonus := (1%nat, 1, 26);
              Snaps.bonus_name := "Powerball" |}).
  - reflexivity.
  - reflexivity.
Defined.

(** C5, the claim as stated fails: the record of a valid Powerball draw
    holds six numbers, while the main-ball count of the game is five. *)
Lemma to_record_holds_six_numbers :
  exists r,
    Snaps.validate_numbers "Powerball" Sample.mains (PInt 10) = true
    /\ Snaps.to_record Sample.reading "Powerball" "2025-09-13" Sample.mains
         (PInt 10) PNone Sample.example_url "json" PNone = Ret r
    /\ option_map Snaps.main_count
         (Snaps.dict_get Snaps.GAME_RULES (Snaps.game r)) = Some 5%nat
    /\ List.length (Snaps.numbers r) = 6%nat.
Proof.
  eexists. split; [reflexivity | ]. split; [reflexivity | ].
  split; reflexivity.
Qed.

Lemma to_record_restamp (t1 t2 : datetime) (g iso : string)
    (nums : list pyval) (b jackpot : pyval) (u : option string)
    (method : string) (conf : pyval) :
  Snaps.to_record t2 g iso nums b jackpot u method conf
  = Spec.omap (Spec.with_fetched_at (Spec.stamp_at t2))
      (Snaps.to_record t1 g iso nums b jackpot u method conf).
Proof.
  unfold Snaps.to_record. destruct (Snaps.map_int nums); reflexivity.
Qed.

(** ** The numbers column *)

(** C9.  A JSON body may give the bonus as [true]; [validate_numbers]
    accepts it as the integer 1 and [to_record] appends it as it is, so the
    CSV column reads ["1 12 23 34 45 True"] and cannot be parsed back. *)
Lemma csv_numbers_boolean_bonus :
  exists r,
    Snaps.validate_numbers "Powerball" Sample.mains (PBool true) = true
    /\ Snaps.to_record Sample.reading "Powerball" "2025-09-13" Sample.mains
         (PBool true) PNone Sample.example_url "json" PNone = Ret r
    /\ Snaps.csv_numbers r = "1 12 23 34 45 True"
    /\ read_numbers (Snaps.csv_numbers r) = None.
Proof.
  eexists. split; [reflexivity | ]. split; [reflexivity | ].
  split; reflexivity.
Qed.

(** ** Dates *)

Section SaneDateFacts.

Variable NOW : datetime.
Variable dateparse : string -> option datetime.

Lemma US_PER_DAY_pos : 0 < US_PER_DAY.
Proof. reflexivity. Qed.

Lemma instant_utc (dt : datetime) :
  instant (match tzinfo dt with
           | None => mkDatetime (on dt) (hour dt) (minute dt) (second dt)
                       (microsecond dt) (Some 0)
           | Some _ => dt
           end) = instant dt.
Proof.
  destruct dt as [d h m sec us [off | ]]; unfold instant; simpl; lia.
Qed.

Lemma sane_date_unfold (s : string) (dt : datetime) :
  dateparse s = Some dt ->
  Snaps.sane_date NOW dateparse s =
  if (year (on dt) <? Snaps.THIS_YEAR NOW - 1) || (Snaps.THIS_YEAR NOW <? year (on dt))
  then None
  else if ((instant NOW - instant dt) / US_PER_DAY <? 0)
          || (Snaps.LAST_N_DAYS <? (instant NOW - instant dt) / US_PER_DAY)
       then None
       else Some (date_isoformat (on dt)).
Proof.
  intros E. unfold Snaps.sane_date, delta_days. rewrite E, instant_utc.
  destruct dt as [d h m sec us [off | ]]; reflexivity.
Qed.

(** What [sane_date] accepts: the text parses, the year is this year or
    the last, the time parsed is not after [NOW] and less than
    [LAST_N_DAYS + 1] days before it, and the result is the date parsed. *)
Lemma sane_date_accepts (s iso : string) :
  Snaps.sane_date NOW dateparse s = Some iso ->
  exists dt,
    dateparse s = Some dt
    /\ iso = date_isoformat (on dt)
    /\ Snaps.THIS_YEAR NOW - 1 <= year (on dt) <= Snaps.THIS_YEAR NOW
    /\ instant dt <= instant NOW < instant dt + (Snaps.LAST_N_DAYS + 1) * US_PER_DAY.
Proof.
  destruct (dateparse s) as [dt | ] eqn:E;
    [ | unfold Snaps.sane_date; rewrite E; discriminate].
  rewrite (sane_date_unfold s dt E).
  destruct (_ || _) eqn:Hy; [discriminate | ].
  destruct ((_ <? 0) || _) eqn:Hd; [discriminate | ].
  intros H. inversion H; subst iso; clear H. exists dt.
  apply orb_false_iff in Hy, Hd. destruct Hy as [Hy1 Hy2], Hd as [Hd1 Hd2].
  apply Z.ltb_ge in Hy1, Hy2, Hd1, Hd2.
  repeat split; try lia.
  - pose proof (Z.mul_div_le (instant NOW - instant dt) US_PER_DAY US_PER_DAY_pos).
    pose proof US_PER_DAY_pos. nia.
  - pose proof (Z.mul_succ_div_gt (instant NOW - instant dt) US_PER_DAY US_PER_DAY_pos).
    unfold Snaps.LAST_N_DAYS in *. pose proof US_PER_DAY_pos. nia.
Qed.

End SaneDateFacts.

Lemma normalize_date_step (fuel : nat) (today : date) (a : ascii) (s : string) :
  Spec.no_date_shape (String a s) ->
  Classify.normalize_date_fuel (S fuel) today (Some (String a s))
  = Some (Ret (Text.prefix 10 (String a s))).
Proof.
  intros (H1 & H2 & H3 & H4).
  cbn [Classify.normalize_date_fuel]. now rewrite H1, H2, H3, H4.
Qed.

(** C6 (as amended).  For a non-empty text that has none of the recognised
    date shapes, [normalize_date] returns the first ten characters of the
    text. *)
Theorem normalize_date_fallback :
  forall (today : date) (s : string),
    s <> "" ->
    Spec.no_date_shape s ->
    Classify.normalize_date today (Some s) = Some (Ret (Text.prefix 10 s)).
Proof.
  intros today s Hne H. destruct s as [ | a s]; [congruence | ].
  unfold Classify.normalize_date. now apply normalize_date_step.
Qed.

(** The witness of C6. *)
Lemma normalize_date_fallback_witness :
  Classify.normalize_date (mkDate 2025 9 14) (Some Sample.no_date_text)
  = Some (Ret (Text.prefix 10 Sample.no_date_text)).
Proof.
  apply (normalize_date_fallback (mkDate 2025 9 14) Sample.no_date_text).
  - discriminate.
  - vm_compute. repeat split.
Defined.

(** C6, the claim as stated fails: a text with no date shape is not
    reported as invalid; its first ten characters come back as the date. *)
Lemma normalize_date_returns_prefix :
  Spec.no_date_shape "results are not available yet"
  /\ Classify.normalize_date (mkDate 2025 9 14)
       (Some "results are not available yet")
     = Some (Ret "results ar")
  /\ Text.prefix 10 "results are not available yet" = "results ar".
Proof.
  split; [vm_compute; repeat split | ].
  split; vm_compute; reflexivity.
Qed.

(** ** The rendered-HTML lane *)

Section HtmlLaneFacts.

Variable NOW : datetime.
Variable dateparse : string -> option datetime.
Variable utcnow : datetime.
Variable Soup : Type.
Variable BeautifulSoup : string -> Soup.
Variable find_all_text : Soup -> list string.
Variable get_text : Soup -> string.
Variable select_text : Soup -> string -> outcome (list string).
Variable HAVE_YAML : bool.
Variable ADAPTERS : list (string * list Snaps.adapter).
Variable parse_money_html : string -> option Z.
Variable parse_money_general : string -> option Z.

Local Abbreviation apply_adapter_html :=
  (Snaps.apply_adapter_html NOW dateparse utcnow Soup BeautifulSoup
     find_all_text get_text select_text HAVE_YAML ADAPTERS parse_money_html
     parse_money_general).
Local Abbreviation extract_from_html :=
  (Snaps.extract_from_html NOW dateparse utcnow Soup BeautifulSoup
     find_all_text get_text select_text HAVE_YAML ADAPTERS parse_money_html
     parse_money_general).

(** C8 (as amended).  When the soft-404 pattern matches the rendered text
    (one of the markers standing as a whole word, in any letter case), the
    HTML lane returns what the adapter rules return and nothing else: zero
    candidates whenever the adapter rules yield none, whatever numbers the
    page shows. *)
Theorem soft_404_short_circuit :
  forall (html : string) (url : option string),
    Re.search Re.flag_i Snaps.SOFT_404_RX (get_text (BeautifulSoup html)) <> None ->
    extract_from_html html url = apply_adapter_html html url
    /\ (apply_adapter_html html url = Ret [] ->
        extract_from_html html url = Ret []).
Proof.
  intros html url H.
  assert (E : extract_from_html html url = apply_adapter_html html url).
  { unfold Snaps.extract_from_html.
    destruct (apply_adapter_html html url) as [[ | r recs] | ];
      cbn [obind]; try reflexivity.
    destruct (Re.search Re.flag_i Snaps.SOFT_404_RX (get_text (BeautifulSoup html)));
      [reflexivity | congruence]. }
  split; [exact E | ]. intros Ha. now rewrite E.
Qed.

End HtmlLaneFacts.

(** The witness of C8: a soft-404 page of a host without adapter rules. *)
Lemma soft_404_short_circuit_witness :
  Snaps.extract_from_html Sample.noon (Sample.parse_as Sample.yesterday)
    Sample.reading string Sample.plain_soup Sample.plain_find_all
    Sample.plain_get_text Sample.plain_select false [] Sample.no_money
    Sample.no_money Sample.page_soft_404 Sample.example_url
  = Snaps.apply_adapter_html Sample.noon (Sample.parse_as Sample.yesterday)
      Sample.reading string Sample.plain_soup Sample.plain_find_all
      Sample.plain_get_text Sample.plain_select false [] Sample.no_money
      Sample.no_money Sample.page_soft_404 Sample.example_url
  /\ Snaps.extract_from_html Sample.noon (Sample.parse_as Sample.yesterday)
       Sample.reading string Sample.plain_soup Sample.plain_find_all
       Sample.plain_get_text Sample.plain_select false [] Sample.no_money
       Sample.no_money Sample.page_soft_404 Sample.example_url
     = Ret [].
Proof.
  pose proof (soft_404_short_circuit Sample.noon
                (Sample.parse_as Sample.yesterday) Sample.reading string
                Sample.plain_soup Sample.plain_find_all Sample.plain_get_text
                Sample.plain_select false [] Sample.no_money Sample.no_money
                Sample.page_soft_404 Sample.example_url) as H.
  destruct H as [H1 H2].
  - vm_compute. discriminate.
  - split; [exact H1 | apply H2; reflexivity].
Defined.

(** C8, the claim as stated fails: the adapter rules run before the
    soft-404 test.  With a rule for the host, a page whose text holds the
    word 404 still yields the record that the rule extracts. *)
Lemma adapter_precedes_soft_404 :
  exists r,
    Re.search Re.flag_i Snaps.SOFT_404_RX
      (Sample.plain_get_text (Sample.plain_soup Sample.page_with_404)) <> None
    /\ Snaps.extract_from_html Sample.noon (Sample.parse_as Sample.yesterday)
         Sample.reading string Sample.plain_soup Sample.plain_find_all
         Sample.plain_get_text Sample.plain_select true
         [("example.com", [Sample.powerball_rule])] Sample.no_money
         Sample.no_money Sample.page_with_404 Sample.example_url
       = Ret [r]
    /\ Snaps.numbers r = map IInt [1; 12; 23; 34; 45; 10]
    /\ Snaps.date r = "2025-09-13".
Proof.
  eexists. split; [vm_compute; discriminate | ].
  split; [vm_compute; reflexivity | ]. split; reflexivity.
Qed.

(** X6.  The soft-404 test asks for whole words: a page that holds 404
    inside a longer number is not taken for an error page, and the lane
    extracts its record. *)
Lemma soft_404_needs_word_boundary :
  Text.contains "404" Sample.page_with_14045 = true
  /\ Re.search Re.flag_i Snaps.SOFT_404_RX Sample.page_with_14045 = None
  /\ exists r,
       Snaps.extract_from_html Sample.noon (Sample.parse_as Sample.yesterday)
         Sample.reading string Sample.plain_soup Sample.plain_find_all
         Sample.plain_get_text Sample.plain_select false [] Sample.no_money
         Sample.no_money Sample.page_with_14045 Sample.example_url
       = Ret [r].
Proof.
  split; [vm_compute; reflexivity | ]. split; [vm_compute; reflexivity | ].
  eexists. vm_compute. reflexivity.
Qed.


(** ** Reading the numbers column back *)

Lemma chars_app (s t : string) :
  Text.chars (s ++ t) = (Text.chars s ++ Text.chars t)%list.
Proof.
  induction s as [ | a s IH]; simpl; [reflexivity | ].
  unfold Text.chars in *. simpl. now rewrite IH.
Qed.

Lemma text_chars (s : string) : Text.text (Text.chars s) = s.
Proof. apply string_of_list_ascii_of_string. Qed.

Lemma digit_not_space (c : ascii) :
  Text.is_digit c = true -> Text.is_space c = false /\ Text.is_c_space c = false.
Proof.
  unfold Text.is_digit, Text.is_space, Text.is_c_space, Text.between.
  rewrite andb_true_iff, !N.leb_le. intros [H1 H2].
  split; repeat (apply orb_false_iff; split);
    try (apply andb_false_iff; rewrite !N.leb_gt; lia);
    apply N.eqb_neq; lia.
Qed.

Lemma uint_chars_digits (d : Decimal.uint) :
  forallb Text.is_digit (Text.chars (DecimalString.NilEmpty.string_of_uint d)) = true.
Proof.
  induction d; simpl; auto.
Qed.

(** A piece of the column: it is not empty and holds no whitespace. *)
Lemma digits_grouped_digits (b : bool) (l : list ascii) :
  forallb Text.is_digit l = true ->
  Text.digits_grouped b l = match l with [] => b | _ => true end.
Proof.
  revert b. induction l as [ | c l IH]; simpl; intros b H; [reflexivity | ].
  apply andb_true_iff in H. destruct H as [Hc Hl].
  rewrite Hc, (IH true Hl). now destruct l.
Qed.

Lemma filter_all {A : Type} (p : A -> bool) (l : list A) :
  forallb p l = true -> filter p l = l.
Proof.
  induction l as [ | a l IH]; simpl; [reflexivity | ].
  intros H. apply andb_true_iff in H. destruct H as [Ha Hl].
  now rewrite Ha, IH.
Qed.

Lemma unsigned_of_uint (d : Decimal.uint) :
  d <> Decimal.Nil ->
  Text.unsigned_of_chars (Text.chars (DecimalString.NilEmpty.string_of_uint d))
  = Some (Z.of_uint d).
Proof.
  intros Hd. unfold Text.unsigned_of_chars.
  pose proof (uint_chars_digits d) as Hall.
  rewrite (digits_grouped_digits false _ Hall).
  rewrite (filter_all _ _ Hall), text_chars, DecimalString.NilEmpty.usu.
  destruct d; try reflexivity. congruence.
Qed.

Lemma lstrip_by_head (sp : ascii -> bool) (c : ascii) (l : list ascii) :
  sp c = false -> Text.lstrip_by sp (c :: l) = c :: l.
Proof. intros H. simpl. now rewrite H. Qed.

Lemma strip_by_ends (sp : ascii -> bool) (l : list ascii) :
  forallb (fun c => negb (sp c)) l = true -> Text.strip_by sp l = l.
Proof.
  intros H. unfold Text.strip_by.
  assert (Hl : forall m, forallb (fun c => negb (sp c)) m = true ->
                         Text.lstrip_by sp m = m).
  { intros [ | c m] Hm; [reflexivity | ]. simpl in Hm.
    apply andb_true_iff in Hm. destruct Hm as [Hc _].
    apply lstrip_by_head. now destruct (sp c). }
  rewrite (Hl l H), Hl, rev_involutive; [reflexivity | ].
  rewrite forallb_forall in *. intros c Hc. apply H. now apply in_rev.
Qed.

Lemma digits_no_space (sp : ascii -> bool) (l : list ascii) :
  (forall c, Text.is_digit c = true -> sp c = false) ->
  forallb Text.is_digit l = true ->
  forallb (fun c => negb (sp c)) l = true.
Proof.
  intros Hsp H. rewrite forallb_forall in *. intros c Hc.
  now rewrite (Hsp c (H c Hc)).
Qed.

Lemma to_uint_head (p : positive) :
  exists c l,
    Text.chars (DecimalString.NilEmpty.string_of_uint (Pos.to_uint p)) = c :: l
    /\ Text.is_digit c = true.
Proof.
  pose proof (uint_chars_digits (Pos.to_uint p)) as Hall.
  pose proof (DecimalPos.Unsigned.to_uint_nonnil p) as Hnil.
  destruct (Pos.to_uint p) eqn:E; try congruence; simpl in *;
    eexists; eexists; (split; [reflexivity | reflexivity]).
Qed.

(** [int(str(z)) == z] *)
Lemma int_of_str_of_Z (z : Z) : Text.int_of_str (Text.str_of_Z z) = Some z.
Proof.
  unfold Text.int_of_str, Text.str_of_Z, Text.int_of_chars.
  destruct z as [ | p | p]; [reflexivity | | ].
  - simpl Z.to_int. simpl DecimalString.NilEmpty.string_of_int.
    pose proof (uint_chars_digits (Pos.to_uint p)) as Hall.
    rewrite strip_by_ends
      by (apply digits_no_space; [intros c Hc; now apply digit_not_space | exact Hall]).
    destruct (to_uint_head p) as (c & l & E & Hc).
    rewrite E.
    assert (Hm : Ascii.eqb c "-" = false /\ Ascii.eqb c "+" = false).
    { split; apply Ascii.eqb_neq; intros ->; discriminate. }
    destruct Hm as [-> ->]. rewrite <- E.
    rewrite unsigned_of_uint by apply DecimalPos.Unsigned.to_uint_nonnil.
    f_equal. change (Z.of_uint (Pos.to_uint p)) with (Z.of_int (Z.to_int (Z.pos p))).
    apply DecimalZ.of_to.
  - simpl Z.to_int. simpl DecimalString.NilEmpty.string_of_int.
    pose proof (uint_chars_digits (Pos.to_uint p)) as Hall.
    change (Text.chars (String "-" (DecimalString.NilEmpty.string_of_uint (Pos.to_uint p))))
      with ("-"%char :: Text.chars (DecimalString.NilEmpty.string_of_uint (Pos.to_uint p))).
    rewrite strip_by_ends.
    + rewrite Ascii.eqb_refl.
      rewrite unsigned_of_uint by apply DecimalPos.Unsigned.to_uint_nonnil.
      simpl. f_equal.
      change (- Z.of_uint (Pos.to_uint p)) with (Z.of_int (Z.to_int (Z.neg p))).
      apply DecimalZ.of_to.
    + simpl. apply digits_no_space; [ | exact Hall].
      intros c Hc. now apply digit_not_space.
Qed.

(** [str(z)] is one piece for [split]: it is not empty and holds no
    whitespace. *)
Lemma str_of_Z_piece (z : Z) :
  exists c l,
    Text.chars (Text.str_of_Z z) = c :: l
    /\ forallb (fun x => negb (Text.is_space x)) (c :: l) = true.
Proof.
  unfold Text.str_of_Z. destruct z as [ | p | p].
  - exists "0"%char, []. split; reflexivity.
  - simpl Z.to_int. simpl DecimalString.NilEmpty.string_of_int.
    destruct (to_uint_head p) as (c & l & E & Hc).
    exists c, l. split; [exact E | ]. rewrite <- E.
    apply digits_no_space; [ | apply uint_chars_digits].
    intros x Hx. now apply digit_not_space.
  - simpl Z.to_int. simpl DecimalString.NilEmpty.string_of_int.
    eexists. eexists. split; [reflexivity | ].
    simpl. apply digits_no_space; [ | apply uint_chars_digits].
    intros x Hx. now apply digit_not_space.
Qed.

Lemma split_ws_aux_word (w cur rest : list ascii) :
  forallb (fun x => negb (Text.is_space x)) w = true ->
  Text.split_ws_aux cur (w ++ rest) = Text.split_ws_aux (rev w ++ cur) rest.
Proof.
  revert cur. induction w as [ | c w IH]; intros cur H; simpl; [reflexivity | ].
  simpl in H. apply andb_true_iff in H. destruct H as [Hc Hw].
  destruct (Text.is_space c); [discriminate | ].
  rewrite (IH (c :: cur) Hw). now rewrite <- app_assoc.
Qed.

Lemma rev_cons_nonempty (c : ascii) (l cur : list ascii) :
  exists x m, (rev (c :: l) ++ cur)%list = x :: m.
Proof.
  destruct (rev (c :: l) ++ cur)%list as [ | x m] eqn:E; [ | now exists x, m].
  apply (f_equal (@List.length ascii)) in E.
  rewrite length_app, length_rev in E. simpl in E. lia.
Qed.

Lemma split_ws_aux_last (c : ascii) (l : list ascii) :
  forallb (fun x => negb (Text.is_space x)) (c :: l) = true ->
  Text.split_ws_aux [] (c :: l) = [Text.text (c :: l)].
Proof.
  intros H. rewrite <- (app_nil_r (c :: l)) at 1.
  rewrite split_ws_aux_word by exact H.
  destruct (rev_cons_nonempty c l []) as (x & m & E).
  cbn [Text.split_ws_aux]. rewrite E, <- E, app_nil_r, rev_involutive.
  reflexivity.
Qed.

Lemma split_ws_aux_next (c : ascii) (l rest : list ascii) :
  forallb (fun x => negb (Text.is_space x)) (c :: l) = true ->
  Text.split_ws_aux [] ((c :: l) ++ " "%char :: rest)
  = Text.text (c :: l) :: Text.split_ws_aux [] rest.
Proof.
  intros H. rewrite split_ws_aux_word by exact H.
  destruct (rev_cons_nonempty c l []) as (x & m & E).
  cbn [Text.split_ws_aux]. change (Text.is_space " ") with true. cbn iota.
  rewrite E, <- E, app_nil_r, rev_involutive. reflexivity.
Qed.

Lemma split_ws_join (parts : list string) :
  Forall (fun p => exists c l,
            Text.chars p = c :: l
            /\ forallb (fun x => negb (Text.is_space x)) (c :: l) = true) parts ->
  Text.split_ws (Text.join " " parts) = parts.
Proof.
  unfold Text.split_ws.
  induction 1 as [ | p parts (c & l & Ep & Hp) Hrest IH]; [reflexivity | ].
  destruct parts as [ | q parts].
  - simpl Text.join. rewrite Ep, split_ws_aux_last by exact Hp.
    now rewrite <- Ep, text_chars.
  - change (Text.join " " (p :: q :: parts))
      with (p ++ " " ++ Text.join " " (q :: parts)).
    rewrite !chars_app, Ep. change (Text.chars " ") with [" "%char].
    change ([" "%char] ++ Text.chars (Text.join " " (q :: parts)))%list
      with (" "%char :: Text.chars (Text.join " " (q :: parts))).
    rewrite split_ws_aux_next by exact Hp.
    now rewrite IH, <- Ep, text_chars.
Qed.

Lemma read_numbers_join (zs : list Z) :
  read_numbers (Text.join " " (map Text.str_of_Z zs)) = Some zs.
Proof.
  unfold read_numbers. rewrite split_ws_join.
  - induction zs as [ | z zs IH]; [reflexivity | ].
    simpl. now rewrite int_of_str_of_Z, IH.
  - apply Forall_map, Forall_forall. intros z _. apply str_of_Z_piece.
Qed.

(** X1.  The round trip of the numbers column in [parse_and_classify]: every
    record holds plain integers, since [make_record] converts each number
    with [int], and reading the column back gives its list of numbers. *)
Theorem classify_csv_round_trip :
  forall r : Classify.record,
    read_numbers (Classify.csv_numbers r) = Some (Classify.numbers r).
Proof.
  intros r. apply read_numbers_join.
Qed.

Lemma str_of_int_piece (i : pyint) :
  exists c l,
    Text.chars (str_of_int i) = c :: l
    /\ forallb (fun x => negb (Text.is_space x)) (c :: l) = true.
Proof.
  destruct i as [z | [ | ]]; [apply str_of_Z_piece | | ];
    eexists; eexists; (split; [reflexivity | reflexivity]).
Qed.

Lemma read_numbers_snaps (ns : list pyint) :
  read_numbers (Text.join " " (map str_of_int ns))
  = all_some (map (fun i => match i with
                            | IInt z => Some z
                            | IBool _ => None
                            end) ns).
Proof.
  unfold read_numbers. rewrite split_ws_join.
  - rewrite map_map. f_equal. apply map_ext.
    intros [z | [ | ]]; [apply int_of_str_of_Z | reflexivity | reflexivity].
  - apply Forall_map, Forall_forall. intros i _. apply str_of_int_piece.
Qed.

(** X2.  The round trip in [extract_from_snaps]: the column of a record whose
    numbers are plain integers reads back as these numbers, and the column
    of a record that holds a boolean cannot be read back. *)
Theorem snaps_csv_round_trip :
  forall r : Snaps.record,
    ((forall i, In i (Snaps.numbers r) -> exists z, i = IInt z) ->
     read_numbers (Snaps.csv_numbers r) = Some (map int_val (Snaps.numbers r)))
    /\ ((exists b, In (IBool b) (Snaps.numbers r)) ->
        read_numbers (Snaps.csv_numbers r) = None).
Proof.
  intros r. unfold Snaps.csv_numbers. rewrite read_numbers_snaps.
  induction (Snaps.numbers r) as [ | i ns [IH1 IH2]]; simpl.
  - split; [reflexivity | intros (b & [])].
  - split.
    + intros H. destruct (H i (or_introl eq_refl)) as (z & ->).
      rewrite IH1; [reflexivity | ]. intros j Hj. apply H. now right.
    + intros (b & [-> | Hb]); [reflexivity | ].
      destruct i; [ | reflexivity]. rewrite IH2; [reflexivity | now exists b].
Qed.

(** ** What the HTML lane lets through *)

Lemma to_record_fields (utcnow : datetime) (g iso : string) (nums : list pyval)
    (b jackpot : pyval) (u : option string) (method : string) (conf : pyval)
    (r : Snaps.record) :
  Snaps.to_record utcnow g iso nums b jackpot u method conf = Ret r ->
  Snaps.game r = g /\ Snaps.date r = iso /\ Snaps.extraction_method r = method.
Proof.
  unfold Snaps.to_record. destruct (Snaps.map_int nums); simpl; [ | discriminate].
  intros E. inversion E. auto.
Qed.

Lemma gated_intro (NOW : datetime) (dateparse : string -> option datetime)
    (utcnow : datetime) (g iso s : string) (nums : list pyval)
    (b jackpot : pyval) (u : option string) (method : string) (conf : pyval)
    (r : Snaps.record) :
  Snaps.sane_date NOW dateparse s = Some iso ->
  Snaps.validate_numbers g nums b = true ->
  Snaps.to_record utcnow g iso nums b jackpot u method conf = Ret r ->
  Spec.gated NOW dateparse r.
Proof.
  intros Hd Hv Hr.
  destruct (to_record_fields _ _ _ _ _ _ _ _ _ _ Hr) as (Eg & Ed & _).
  split.
  - exists s. now rewrite Ed.
  - exists utcnow, nums, b, jackpot, u, method, conf. now rewrite Eg, Ed.
Qed.

Section HtmlLaneGates.

Variable NOW : datetime.
Variable dateparse : string -> option datetime.
Variable utcnow : datetime.
Variable Soup : Type.
Variable BeautifulSoup : string -> Soup.
Variable find_all_text : Soup -> list string.
Variable get_text : Soup -> string.
Variable select_text : Soup -> string -> outcome (list string).
Variable HAVE_YAML : bool.
Variable ADAPTERS : list (string * list Snaps.adapter).
Variable parse_money_html : string -> option Z.
Variable parse_money_general : string -> option Z.

Lemma sane_date_opt_some (o : option string) (iso : string) :
  Snaps.sane_date_opt NOW dateparse o = Some iso ->
  exists s, Snaps.sane_date NOW dateparse s = Some iso.
Proof.
  destruct o as [s | ]; simpl; [ | discriminate]. intros H. now exists s.
Qed.

Lemma adapt_scope_gated (rule : Snaps.adapter) (url : option string)
    (text : string) (r : Snaps.record) :
  Snaps.adapt_scope NOW dateparse utcnow parse_money_html parse_money_general
    rule url text = Ret (Some r) ->
  Spec.gated NOW dateparse r.
Proof.
  unfold Snaps.adapt_scope, obind. intros H.
  break_matches; inject_all.
  all: repeat match goal with
         | E : Snaps.sane_date_opt _ _ _ = Some _ |- _ =>
             apply sane_date_opt_some in E; destruct E
         end.
  all: eapply gated_intro; eassumption.
Qed.

Lemma scan_scopes_gated (rule : Snaps.adapter) (url : option string)
    (scopes : list string) (r : Snaps.record) :
  Snaps.scan_scopes NOW dateparse utcnow parse_money_html parse_money_general
    rule url scopes = Ret (Some r) ->
  Spec.gated NOW dateparse r.
Proof.
  induction scopes as [ | text scopes IH]; simpl; [discriminate | ].
  destruct (Snaps.adapt_scope NOW dateparse utcnow parse_money_html
              parse_money_general rule url text) as [[r' | ] | ] eqn:E;
    simpl; try discriminate.
  - intros H. inversion H; subst. now apply adapt_scope_gated in E.
  - exact IH.
Qed.

Lemma scan_rules_gated (soup : Soup) (blocks : list string)
    (url : option string) (rules : list Snaps.adapter)
    (recs : list Snaps.record) :
  Snaps.scan_rules NOW dateparse utcnow Soup select_text parse_money_html
    parse_money_general soup blocks url rules = Ret recs ->
  Forall (Spec.gated NOW dateparse) recs.
Proof.
  induction rules as [ | rule rules IH]; simpl.
  - intros H. inversion H. constructor.
  - destruct (if Snaps.truthy_str (Snaps.css_scope rule)
              then select_text soup (Snaps.or_empty (Snaps.css_scope rule))
              else Ret []) as [selected | ]; simpl; [ | discriminate].
    destruct (Snaps.scan_scopes NOW dateparse utcnow parse_money_html
                parse_money_general rule url _) as [[r | ] | ] eqn:E;
      simpl; try discriminate.
    + intros H. inversion H; subst. constructor; [ | constructor].
      now apply scan_scopes_gated in E.
    + exact IH.
Qed.

Lemma apply_adapter_html_gated (html : string) (url : option string)
    (recs : list Snaps.record) :
  Snaps.apply_adapter_html NOW dateparse utcnow Soup BeautifulSoup
    find_all_text get_text select_text HAVE_YAML ADAPTERS parse_money_html
    parse_money_general html url = Ret recs ->
  Forall (Spec.gated NOW dateparse) recs.
Proof.
  unfold Snaps.apply_adapter_html.
  destruct (negb HAVE_YAML); [intros H; inversion H; constructor | ].
  destruct url as [u | ]; [ | intros H; inversion H; constructor].
  destruct (Snaps.dict_get ADAPTERS (Snaps.host_of u)) as [[ | rule rules] | ];
    try (intros H; inversion H; constructor).
  apply scan_rules_gated.
Qed.

(** Every record that the HTML lane returns, from an adapter rule or from
    the scan of the page text, passed both checks: its date is a result of
    [sane_date] and its numbers were accepted by [validate_numbers]. *)
Lemma extract_from_html_gated :
  forall (html : string) (url : option string) (recs : list Snaps.record),
    Snaps.extract_from_html NOW dateparse utcnow Soup BeautifulSoup
      find_all_text get_text select_text HAVE_YAML ADAPTERS parse_money_html
      parse_money_general html url = Ret recs ->
    Forall (Spec.gated NOW dateparse) recs.
Proof.
  intros html url recs. unfold Snaps.extract_from_html.
  destruct (Snaps.apply_adapter_html _ _ _ _ _ _ _ _ _ _ _ _ html url)
    as [[ | r0 recs0] | ] eqn:Ea; cbn [obind]; try discriminate.
  - unfold obind. intros H.
    break_matches; inject_all; try constructor; try constructor.
    all: repeat match goal with
           | E : Snaps.sane_date_opt _ _ _ = Some _ |- _ =>
               apply sane_date_opt_some in E; destruct E
           | E : negb _ = false |- _ => apply negb_false_iff in E
           end.
    all: eapply gated_intro; eassumption.
  - intros H. inversion H; subst. now apply apply_adapter_html_gated in Ea.
Qed.

(** X3.  What the two checks give for the records of the HTML lane: the date of
    a record is the ISO form of a parsed time that is not after [NOW] and
    less than [LAST_N_DAYS + 1] days before it, and its numbers are the main
    balls of its game, within the main range, followed by a bonus ball
    within the bonus range. *)
Theorem html_lane_records :
  forall (html : string) (url : option string) (recs : list Snaps.record)
         (r : Snaps.record),
    Snaps.extract_from_html NOW dateparse utcnow Soup BeautifulSoup
      find_all_text get_text select_text HAVE_YAML ADAPTERS parse_money_html
      parse_money_general html url = Ret recs ->
    In r recs ->
    (exists s dt,
        dateparse s = Some dt
        /\ Snaps.date r = date_isoformat (on dt)
        /\ instant dt <= instant NOW
           < instant dt + (Snaps.LAST_N_DAYS + 1) * US_PER_DAY)
    /\ (exists rule mains bonus_ball,
          Snaps.dict_get Snaps.GAME_RULES (Snaps.game r) = Some rule
          /\ Snaps.numbers r = (mains ++ [bonus_ball])%list
          /\ List.length mains = Snaps.main_count rule
          /\ Forall (fun i => Snaps.main_lo rule <= int_val i <= Snaps.main_hi rule)
                    mains
          /\ Snaps.bonus_lo rule <= int_val bonus_ball <= Snaps.bonus_hi rule).
Proof.
  intros html url recs r H Hin.
  apply extract_from_html_gated in H. rewrite Forall_forall in H.
  destruct (H r Hin) as [(s & Hs) (t & nums & b & j & u & m & c & Hv & Hr)].
  split.
  - apply sane_date_accepts in Hs. destruct Hs as (dt & E & Eiso & _ & Hw).
    exists s, dt. auto.
  - pose proof Hv as Hv'. apply validate_numbers_coded in Hv'.
    destruct Hv' as (rule & Erule & _).
    destruct (to_record_shape t (Snaps.game r) (Snaps.date r) nums b j u m c
                rule Erule Hv) as (r' & mains & bb & Hr' & Hn & Hl & Hf & Hb).
    rewrite Hr in Hr'. inversion Hr'; subst r'.
    exists rule, mains, bb. auto.
Qed.

End HtmlLaneGates.

(** The witness of X3: a run of the HTML lane on a page of plain text. *)
Lemma html_lane_records_witness :
  exists r,
    Snaps.extract_from_html Sample.noon (Sample.parse_as Sample.yesterday)
      Sample.reading string Sample.plain_soup Sample.plain_find_all
      Sample.plain_get_text Sample.plain_select false [] Sample.no_money
      Sample.no_money Sample.page_with_14045 Sample.example_url = Ret [r]
    /\ (exists s dt,
          Sample.parse_as Sample.yesterday s = Some dt
          /\ Snaps.date r = date_isoformat (on dt)
          /\ instant dt <= instant Sample.noon
             < instant dt + (Snaps.LAST_N_DAYS + 1) * US_PER_DAY)
    /\ (exists rule mains bonus_ball,
          Snaps.dict_get Snaps.GAME_RULES (Snaps.game r) = Some rule
          /\ Snaps.numbers r = (mains ++ [bonus_ball])%list
          /\ List.length mains = Snaps.main_count rule
          /\ Forall (fun i => Snaps.main_lo rule <= int_val i <= Snaps.main_hi rule)
                    mains
          /\ Snaps.bonus_lo rule <= int_val bonus_ball <= Snaps.bonus_hi rule).
Proof.
  eexists. split; [vm_compute; reflexivity | ].
  eapply (html_lane_records Sample.noon (Sample.parse_as Sample.yesterday)
            Sample.reading string Sample.plain_soup Sample.plain_find_all
            Sample.plain_get_text Sample.plain_select false [] Sample.no_money
            Sample.no_money Sample.page_with_14045 Sample.example_url).
  - vm_compute. reflexivity.
  - left. reflexivity.
Defined.

(** ** The matcher, and the recursion of [normalize_date] *)

Lemma advanced_refl (st : Re.mstate) : Spec.advanced st st.
Proof.
  split; [lia | split; [reflexivity | ]]. intros n a b H. now left.
Qed.

Lemma advanced_trans (st1 st2 st3 : Re.mstate) :
  Spec.advanced st1 st2 -> Spec.advanced st2 st3 -> Spec.advanced st1 st3.
Proof.
  intros (Hp1 & He1 & Hc1) (Hp2 & He2 & Hc2).
  split; [lia | split; [congruence | ]].
  intros n a b H. destruct (Hc2 n a b H) as [H2 | H2].
  - destruct (Hc1 n a b H2) as [H1 | H1]; [now left | right; lia].
  - right. lia.
Qed.

Lemma rep_cls_cont (fl : Re.flags) (c : Re.cls) (s : list ascii) :
  forall (lo : nat) (hi : option nat) (p : nat) (pv : option ascii)
         (k : nat -> option ascii -> list ascii -> option Re.mstate)
         (res : Re.mstate),
    Re.rep_cls fl c lo hi p pv s k = Some res ->
    exists p' pv' s',
      k p' pv' s' = Some res
      /\ (p <= p')%nat
      /\ (p' + List.length s' = p + List.length s)%nat.
Proof.
  induction s as [ | x s IH]; intros lo hi p pv k res H.
  - assert (Hstop : match lo with O => k p pv [] | S _ => None end = Some res).
    { destruct hi as [[ | h] | ]; exact H. }
    destruct lo; [ | discriminate]. exists p, pv, []. auto.
  - assert (Hcases :
      match lo with O => k p pv (x :: s) | S _ => None end = Some res
      \/ Re.rep_cls fl c (Nat.pred lo) (option_map Nat.pred hi) (S p) (Some x) s k
         = Some res).
    { simpl in H. destruct hi as [[ | h] | ].
      - now left.
      - destruct (Re.cls_matches fl c x); [ | now left].
        destruct (Re.rep_cls fl c (Nat.pred lo) (option_map Nat.pred (Some (S h)))
                    (S p) (Some x) s k) eqn:E; [right; congruence | now left].
      - destruct (Re.cls_matches fl c x); [ | now left].
        destruct (Re.rep_cls fl c (Nat.pred lo) (option_map Nat.pred None)
                    (S p) (Some x) s k) eqn:E; [right; congruence | now left]. }
    destruct Hcases as [Hstop | Hmore].
    + destruct lo; [ | discriminate]. exists p, pv, (x :: s). auto.
    + destruct (IH _ _ _ _ _ _ Hmore) as (p' & pv' & s' & Hk & Hp & Hl).
      exists p', pv', s'. simpl. repeat split; [exact Hk | lia | lia].
Qed.

(** Whatever the matcher returns was returned by its continuation, called
    on a state that lies ahead. *)
Lemma run_cont (fl : Re.flags) (r : Re.re) :
  forall (st : Re.mstate) (k : Re.mstate -> option Re.mstate) (res : Re.mstate),
    Re.run fl r st k = Some res ->
    exists st', k st' = Some res /\ Spec.advanced st st'.
Proof.
  induction r as [ | c | c lo hi | | | a IHa b IHb | a IHa b IHb | n a IHa];
    intros st k res H; simpl in H.
  - exists st. split; [exact H | apply advanced_refl].
  - destruct (Re.rest st) as [ | x s'] eqn:Er; [discriminate | ].
    destruct (Re.cls_matches fl c x); [ | discriminate].
    eexists. split; [exact H | ].
    unfold Spec.advanced, Spec.subject_end. simpl. rewrite Er. simpl.
    repeat split; try lia. intros n a b Hin. now left.
  - apply rep_cls_cont in H. destruct H as (p' & pv' & s' & Hk & Hp & Hl).
    eexists. split; [exact Hk | ].
    unfold Spec.advanced, Spec.subject_end. simpl.
    repeat split; try lia. intros n a b Hin. now left.
  - destruct (xorb _ _); [ | discriminate].
    exists st. split; [exact H | apply advanced_refl].
  - destruct (Nat.eqb _ _); [ | discriminate].
    exists st. split; [exact H | apply advanced_refl].
  - apply IHa in H. destruct H as (st1 & H & A1).
    apply IHb in H. destruct H as (st2 & H & A2).
    exists st2. split; [exact H | now apply advanced_trans with st1].
  - destruct (Re.run fl a st k) as [res' | ] eqn:E.
    + inversion H; subst res'. now apply IHa in E.
    + now apply IHb in H.
  - apply IHa in H. destruct H as (st1 & H & (Hp & He & Hc)).
    eexists. split; [exact H | ].
    unfold Spec.advanced, Spec.subject_end in *. simpl.
    repeat split; try lia.
    intros m a0 b0 [Hin | Hin].
    + inversion Hin; subst. right. lia.
    + destruct (Hc m a0 b0 Hin) as [H1 | H1]; [now left | right; lia].
Qed.

Lemma length_text (l : list ascii) : String.length (Text.text l) = List.length l.
Proof. induction l as [ | c l IH]; simpl; [reflexivity | now rewrite IH]. Qed.

Lemma length_chars (s : string) : List.length (Text.chars s) = String.length s.
Proof. induction s as [ | c s IH]; simpl; [reflexivity | now rewrite IH]. Qed.

Lemma lookup_cap_in (n : nat) (l : list (nat * (nat * nat))) (a b : nat) :
  Re.lookup_cap n l = Some (a, b) -> In (n, (a, b)) l.
Proof.
  induction l as [ | [i span] l IH]; simpl; [discriminate | ].
  destruct (Nat.eqb i n) eqn:E.
  - apply Nat.eqb_eq in E. intros H. inversion H; subst. now left.
  - intros H. right. now apply IH.
Qed.

(** A match of [search] comes from a run of the matcher that starts
    somewhere in the subject with no group closed. *)
Lemma search_from_found (fl : Re.flags) (r : Re.re) (subj : list ascii)
    (s : list ascii) :
  forall (p : nat) (pv : option ascii) (m : Re.mobj),
    (p + List.length s = List.length subj)%nat ->
    Re.search_from fl r subj p pv s = Some m ->
    exists p' pv' s' st,
      (p' + List.length s' = List.length subj)%nat
      /\ Re.run fl r {| Re.pos := p'; Re.prev := pv'; Re.rest := s'; Re.caps := [] |}
           Some = Some st
      /\ Re.m_caps m = Re.caps st
      /\ Re.subject m = subj.
Proof.
  induction s as [ | x s IH]; intros p pv m Hl H; simpl in H.
  - destruct (Re.run fl r _ Some) as [st | ] eqn:E; [ | discriminate].
    inversion H; subst. exists p, pv, [], st. auto.
  - destruct (Re.run fl r _ Some) as [st | ] eqn:E.
    + inversion H; subst. exists p, pv, (x :: s), st. auto.
    + apply IH in H; [exact H | simpl in Hl; lia].
Qed.

(** A pattern that begins with a literal character closes its groups after
    the first character of the match. *)
Lemma run_after_one (fl : Re.flags) (c : Re.cls) (L R : Re.re)
    (st res : Re.mstate) :
  Re.run fl (Re.Cat (Re.Cat (Re.One c) L) R) st Some = Some res ->
  forall n a b, In (n, (a, b)) (Re.caps res) ->
    In (n, (a, b)) (Re.caps st)
    \/ (S (Re.pos st) <= a /\ a <= b /\ b <= Spec.subject_end st)%nat.
Proof.
  intros H. cbn [Re.run] in H.
  destruct (Re.rest st) as [ | x s'] eqn:Er; [discriminate | ].
  destruct (Re.cls_matches fl c x); [ | discriminate].
  change (Re.run fl (Re.Cat L R)
            {| Re.pos := S (Re.pos st); Re.prev := Some x; Re.rest := s';
               Re.caps := Re.caps st |} Some = Some res) in H.
  apply run_cont in H. destruct H as (st' & Hk & (Hp & He & Hc)).
  inversion Hk; subst st'; clear Hk.
  intros n a b Hin. destruct (Hc n a b Hin) as [H1 | H1]; [now left | ].
  right. simpl in *. unfold Spec.subject_end in *. simpl in He.
  rewrite Er. simpl. lia.
Qed.

(** The date that the "Draw Date" pattern hands to the recursive call is
    shorter than the text in which it was found. *)
Lemma draw_date_group_shorter (s g : string) (m : Re.mobj) :
  Re.search Re.flag_i Classify.DRAW_DATE_RX s = Some m ->
  Re.group 1 m = Some g ->
  (String.length g < String.length s)%nat.
Proof.
  unfold Re.search. intros Hs Hg.
  apply search_from_found in Hs; [ | reflexivity].
  destruct Hs as (p' & pv' & s' & st & Hl & Hrun & Hcaps & Hsubj).
  unfold Re.group in Hg. rewrite Hcaps in Hg.
  destruct (Re.lookup_cap 1 (Re.caps st)) as [[a b] | ] eqn:Ec; [ | discriminate].
  inversion Hg; subst g; clear Hg.
  apply lookup_cap_in in Ec.
  pose proof (run_after_one _ _ _ _ _ _ Hrun 1%nat a b Ec) as [[] | (Ha & Hab & Hb)].
  unfold Spec.subject_end in Hb. simpl in Ha, Hb.
  rewrite length_text, Hsubj. unfold Text.slice.
  pose proof (firstn_le_length (b - a) (skipn a (Text.chars s))).
  rewrite <- length_chars. lia.
Qed.

Lemma normalize_date_fuel_enough (today : date) (fuel : nat) :
  forall any_text : option string,
    (String.length (Snaps.or_empty any_text) < fuel)%nat ->
    exists o, Classify.normalize_date_fuel fuel today any_text = Some o.
Proof.
  induction fuel as [ | fuel IH]; intros any_text Hf; [lia | ].
  destruct any_text as [[ | c s] | ]; cbn [Classify.normalize_date_fuel];
    try (eexists; reflexivity).
  destruct (Re.search Re.no_flags Classify.ISO_RX (String c s));
    [eexists; reflexivity | ].
  destruct (Re.search Re.no_flags Classify.MDY_RX (String c s));
    [eexists; reflexivity | ].
  destruct (Re.search Re.flag_i Classify.MONTH_RX (String c s));
    [eexists; reflexivity | ].
  destruct (Re.search Re.flag_i Classify.DRAW_DATE_RX (String c s)) as [m | ] eqn:Em;
    [ | eexists; reflexivity].
  apply IH. destruct (Re.group 1 m) as [g | ] eqn:Eg.
  - pose proof (draw_date_group_shorter _ _ _ Em Eg). simpl in *. lia.
  - simpl in *. lia.
Qed.

(** X5.  [normalize_date] returns for every input: the recursion on the
    "Draw Date" group ends, since the group is shorter than the text. *)
Theorem normalize_date_total :
  forall (today : date) (any_text : option string),
    exists o, Classify.normalize_date today any_text = Some o.
Proof.
  intros today any_text. unfold Classify.normalize_date.
  apply normalize_date_fuel_enough. lia.
Qed.


(* ===================================================================== *)
(** * The dataset, the dates and the numbers *)

Import Py Clock Calendar Order.

Lemma first_hint_some (ctx : string) (hints : list (string * list string)) (g : string) :
  Snaps.first_hint ctx hints = Some g ->
  exists hs h, In (g, hs) hints /\ In h hs /\ Text.contains h ctx = true.
Proof.
  induction hints as [ | [g' hs] hints IH]; simpl; [discriminate | ].
  destruct (existsb (fun h => Text.contains h ctx) hs) eqn:E.
  - intros H. inversion H; subst g'. apply existsb_exists in E.
    destruct E as (h & Hin & Hc). exists hs, h. auto.
  - intros H. destruct (IH H) as (hs' & h & Hin & Hh & Hc).
    exists hs', h. auto.
Qed.

Lemma first_hint_none (ctx : string) (hints : list (string * list string)) :
  Snaps.first_hint ctx hints = None <->
  forall g hs h, In (g, hs) hints -> In h hs -> Text.contains h ctx = false.
Proof.
  induction hints as [ | [g' hs] hints IH]; simpl.
  - split; [intros _ g hs h [] | reflexivity].
  - destruct (existsb (fun h => Text.contains h ctx) hs) eqn:E.
    + split; [discriminate | ]. intros H. exfalso.
      apply existsb_exists in E. destruct E as (h & Hin & Hc).
      rewrite (H g' hs h (or_introl eq_refl) Hin) in Hc. discriminate.
    + rewrite IH. split.
      * intros H g hs0 h [Eq | Hin] Hh.
        -- inversion Eq; subst.
           destruct (Text.contains h ctx) eqn:Ec; [ | reflexivity].
           assert (existsb (fun h => Text.contains h ctx) hs0 = true)
             by (apply existsb_exists; eauto). congruence.
        -- eapply H; eauto.
      * intros H g hs0 h Hin Hh. eapply H; eauto.
Qed.

(** X7.  [detect_game] answers with a game only when one of the hints of
    that game occurs in the context put in lower case, and each game it
    answers with has rules in [GAME_RULES].  It answers [None] exactly when
    no hint of any game occurs.  A context that holds the word powerball is
    Powerball whatever else it holds: the first entry of the table wins. *)
Theorem detect_game_hinted :
  forall (context_text url : option string),
    let ctx := Text.lower (Snaps.or_empty context_text ++ " " ++ Snaps.or_empty url) in
    (forall g, Snaps.detect_game context_text url = Some g ->
       (exists rule, Snaps.dict_get Snaps.GAME_RULES g = Some rule)
       /\ exists hs h, In (g, hs) Snaps.GAME_HINTS /\ In h hs
                       /\ Text.contains h ctx = true)
    /\ (Snaps.detect_game context_text url = None <->
        forall g hs h, In (g, hs) Snaps.GAME_HINTS -> In h hs ->
                       Text.contains h ctx = false)
    /\ (Text.contains "powerball" ctx = true ->
        Snaps.detect_game context_text url = Some "Powerball").
Proof.
  intros c u ctx. unfold Snaps.detect_game. fold ctx.
  split; [ | split].
  - intros g H. destruct (first_hint_some _ _ _ H) as (hs & h & Hin & Hh & Hc).
    split; [ | eauto].
    simpl in Hin.
    repeat (destruct Hin as [Hin | Hin]; [inversion Hin; subst; eexists; reflexivity | ]).
    contradiction.
  - apply first_hint_none.
  - intros H. cbn [Snaps.first_hint Snaps.GAME_HINTS existsb]. now rewrite H.
Qed.

(** html_text_blocks *)
Section Blocks.
Variable Soup : Type.
Variable find_all_text : Soup -> list string.
Variable get_text : Soup -> string.

(** X8.  No block of [html_text_blocks] is empty: each is the text of an
    element, longer than 40 characters, or the text of the whole page.
    Every element text longer than 40 characters is a block, and the text
    of the page is one whenever it is not empty. *)
Theorem html_text_blocks_page :
  forall soup : Soup,
    (forall b, In b (Snaps.html_text_blocks Soup find_all_text get_text soup) ->
       b <> ""
       /\ ((40 < String.length b)%nat /\ In b (find_all_text soup)
           \/ b = get_text soup))
    /\ (forall b, In b (find_all_text soup) -> (40 < String.length b)%nat ->
          In b (Snaps.html_text_blocks Soup find_all_text get_text soup))
    /\ (get_text soup <> "" ->
        In (get_text soup) (Snaps.html_text_blocks Soup find_all_text get_text soup)).
Proof.
  intros soup. unfold Snaps.html_text_blocks.
  set (blocks := filter (fun t => Nat.ltb 40 (String.length t)) (find_all_text soup)).
  assert (Hb : forall b, In b blocks <->
                 In b (find_all_text soup) /\ (40 < String.length b)%nat).
  { intros b. unfold blocks. rewrite filter_In, Nat.ltb_lt. tauto. }
  assert (Hne : forall b, (40 < String.length b)%nat -> b <> "").
  { intros b H E. subst b. simpl in H. lia. }
  destruct (negb (String.eqb (get_text soup) "")) eqn:Ee; simpl.
  - apply negb_true_iff, String.eqb_neq in Ee.
    destruct (forallb (fun b => negb (String.eqb (get_text soup) b)) blocks) eqn:Ef.
    + split; [ | split].
      * intros b Hin. apply in_app_or in Hin. destruct Hin as [Hin | [<- | []]].
        -- apply Hb in Hin. split; [apply Hne; tauto | left; tauto].
        -- split; [exact Ee | now right].
      * intros b H1 H2. apply in_or_app. left. apply Hb. tauto.
      * intros _. apply in_or_app. right. now left.
    + split; [ | split].
      * intros b Hin. apply Hb in Hin. split; [apply Hne; tauto | left; tauto].
      * intros b H1 H2. apply Hb. tauto.
      * intros _.
        destruct (forallb_forall (fun b => negb (String.eqb (get_text soup) b)) blocks)
          as [_ Hall].
        destruct (in_dec string_dec (get_text soup) blocks) as [Hin | Hnin];
          [exact Hin | ].
        rewrite Hall in Ef; [discriminate | ].
        intros x Hx. apply negb_true_iff, String.eqb_neq. intros E. subst x. auto.
  - apply negb_false_iff, String.eqb_eq in Ee.
    split; [ | split].
    + intros b Hin. apply Hb in Hin. split; [apply Hne; tauto | left; tauto].
    + intros b H1 H2. apply Hb. tauto.
    + intros H. contradiction.
Qed.
End Blocks.

(** host_of *)
Lemma before_char_app (sep : ascii) (h rest : list ascii) :
  forallb (fun c => negb (Ascii.eqb c sep)) h = true ->
  Text.before_char sep (h ++ sep :: rest) = h
  /\ Text.before_char sep h = h.
Proof.
  induction h as [ | c h IH]; simpl.
  - intros _. now rewrite Ascii.eqb_refl.
  - intros H. apply andb_true_iff in H. destruct H as [Hc Hh].
    apply negb_true_iff in Hc. rewrite Hc.
    destruct (IH Hh) as [-> ->]. auto.
Qed.

Lemma contains_char_false (c : ascii) (l : list ascii) :
  Text.contains_chars [c] l = false ->
  forallb (fun x => negb (Ascii.eqb x c)) l = true.
Proof.
  induction l as [ | x l IH]; simpl; [reflexivity | ].
  intros H. apply orb_false_iff in H. destruct H as [H1 H2].
  rewrite andb_true_r in H1. rewrite Ascii.eqb_sym, H1. simpl. auto.
Qed.

(** X9.  The host that [apply_adapter_html] looks up in the adapter store:
    for an address made of the scheme [http://] or [https://], a host without
    slash and a path, also an empty one or none, it is the host in lower
    case. *)
Theorem host_of_url :
  forall (secure : bool) (host path : string),
    Text.contains "/" host = false ->
    let scheme := if secure then "https://" else "http://" in
    Snaps.host_of (scheme ++ host ++ "/" ++ path) = Text.lower host
    /\ Snaps.host_of (scheme ++ host) = Text.lower host.
Proof.
  intros secure host path H scheme.
  apply contains_char_false in H.
  assert (E : forall rest, Snaps.host_of (scheme ++ rest)
                           = Text.lower (Text.text (Text.before_char "/" (Text.chars rest)))).
  { intros rest. unfold Snaps.host_of, scheme. destruct secure; reflexivity. }
  split.
  - rewrite E, chars_app. simpl.
    destruct (before_char_app "/" _ (Text.chars path) H) as [-> _].
    now rewrite text_chars.
  - rewrite E. destruct (before_char_app "/" _ [] H) as [_ ->].
    now rewrite text_chars.
Qed.

(** The witness of X9. *)
Lemma host_of_url_witness :
  Text.contains "/" "WWW.Powerball.com" = false
  /\ Snaps.host_of "https://WWW.Powerball.com/previous-results?gc=powerball"
     = "www.powerball.com"
  /\ Snaps.host_of "https://WWW.Powerball.com" = "www.powerball.com".
Proof.
  split; [reflexivity | ].
  apply (host_of_url true "WWW.Powerball.com" "previous-results?gc=powerball").
  reflexivity.
Defined.

(** sane_date *)

Lemma days_before_year_succ (y : Z) :
  days_before_year (y + 1)
  = days_before_year y + 365 + (if is_leap y then 1 else 0).
Proof.
  unfold days_before_year, is_leap.
  replace (y + 1 - 1) with y by lia.
  destruct (y mod 4 =? 0) eqn:E4; destruct (y mod 100 =? 0) eqn:E100;
    destruct (y mod 400 =? 0) eqn:E400; simpl;
    rewrite ?Z.eqb_eq, ?Z.eqb_neq in *;
    Z.div_mod_to_equations; lia.
Qed.

Lemma days_before_year_mono (a b : Z) :
  a <= b -> days_before_year a <= days_before_year b.
Proof.
  unfold days_before_year. intros H. Z.div_mod_to_equations. lia.
Qed.

Lemma day_of_year_bounds (d : date) :
  valid_date d ->
  1 <= days_before_month (year d) (month d) + day d
    <= 365 + (if is_leap (year d) then 1 else 0).
Proof.
  destruct d as [y m dd]. intros (_ & Hm & Hd). cbn [year month day] in *.
  assert (H : 0 <= days_before_month y m
              /\ days_before_month y m + days_in_month y m
                 <= 365 + (if is_leap y then 1 else 0)).
  { unfold days_before_month, days_in_month.
    assert (Hc : m = 1 \/ m = 2 \/ m = 3 \/ m = 4 \/ m = 5 \/ m = 6 \/ m = 7
                 \/ m = 8 \/ m = 9 \/ m = 10 \/ m = 11 \/ m = 12) by lia.
    destruct (is_leap y);
      destruct Hc as [-> | [-> | [-> | [-> | [-> | [-> | [-> | [-> | [-> | [-> | [-> | ->]]]]]]]]]]];
      vm_compute; split; discriminate. }
  lia.
Qed.

Lemma instant_day (t : datetime) :
  valid_datetime t -> utc_or_naive t ->
  toordinal (on t) * US_PER_DAY <= instant t < (toordinal (on t) + 1) * US_PER_DAY.
Proof.
  intros (_ & Hh & Hm & Hs & Hu) Hz. unfold instant, US_PER_DAY, US_PER_SECOND.
  destruct Hz as [-> | ->]; lia.
Qed.

Lemma toordinal_year (d1 d2 : date) :
  valid_date d1 -> valid_date d2 ->
  year d1 < year d2 ->
  toordinal d1 < toordinal d2 /\ (year d1 + 1 < year d2 -> toordinal d1 + 365 < toordinal d2).
Proof.
  intros V1 V2 Hy.
  pose proof (day_of_year_bounds d1 V1) as B1.
  pose proof (day_of_year_bounds d2 V2) as B2.
  pose proof (days_before_year_succ (year d1)) as S1.
  unfold toordinal. split.
  - pose proof (days_before_year_mono (year d1 + 1) (year d2)). lia.
  - intros Hy2.
    pose proof (days_before_year_mono (year d1 + 2) (year d2)).
    pose proof (days_before_year_succ (year d1 + 1)) as S2.
    replace (year d1 + 1 + 1) with (year d1 + 2) in S2 by lia.
    destruct (is_leap (year d1)), (is_leap (year d1 + 1)); lia.
Qed.

(** X10.  [sane_date] as a window of time.  When the clock [NOW] is in UTC
    and the parser reads the text as a moment without offset, or in UTC, the
    text is accepted exactly when that moment is not after [NOW] and less
    than [LAST_N_DAYS + 1] days before it; the answer is then its date in
    ISO form.  The test on the year never rejects a moment of the window. *)
Theorem sane_date_window :
  forall (NOW : datetime) (dateparse : string -> option datetime)
         (s : string) (dt : datetime),
    valid_datetime NOW -> tzinfo NOW = Some 0 ->
    dateparse s = Some dt ->
    valid_datetime dt -> utc_or_naive dt ->
    Snaps.sane_date NOW dateparse s
    = if (instant dt <=? instant NOW)
         && (instant NOW <? instant dt + (Snaps.LAST_N_DAYS + 1) * US_PER_DAY)
      then Some (date_isoformat (on dt))
      else None.
Proof.
  intros NOW dateparse s dt VN ZN E Vd Zd.
  rewrite (sane_date_unfold NOW dateparse s dt E).
  pose proof (instant_day NOW VN (or_intror ZN)) as IN.
  pose proof (instant_day dt Vd Zd) as Id.
  pose proof US_PER_DAY_pos as Hpos.
  destruct ((instant dt <=? instant NOW)
            && (instant NOW <? instant dt + (Snaps.LAST_N_DAYS + 1) * US_PER_DAY))
    eqn:W.
  - apply andb_true_iff in W. destruct W as [W1 W2].
    apply Z.leb_le in W1. apply Z.ltb_lt in W2.
    unfold Snaps.LAST_N_DAYS in *.
    assert (G : (year (on dt) <? Snaps.THIS_YEAR NOW - 1)
                || (Snaps.THIS_YEAR NOW <? year (on dt)) = false).
    { apply orb_false_iff. unfold Snaps.THIS_YEAR. split; apply Z.ltb_ge.
      - destruct (Z.le_gt_cases (year (on NOW) - 1) (year (on dt))) as [H | H];
          [exact H | exfalso].
        destruct VN as (VN & _), Vd as (Vd & _).
        assert (Hy : year (on dt) < year (on NOW)) by lia.
        destruct (toordinal_year _ _ Vd VN Hy) as [_ Hfar].
        assert (toordinal (on dt) + 365 < toordinal (on NOW)) by (apply Hfar; lia).
        unfold US_PER_DAY, US_PER_SECOND in *. lia.
      - destruct (Z.le_gt_cases (year (on dt)) (year (on NOW))) as [H | H];
          [exact H | exfalso].
        destruct VN as (VN & _), Vd as (Vd & _).
        destruct (toordinal_year _ _ VN Vd H) as [Hlt _].
        unfold US_PER_DAY, US_PER_SECOND in *. lia. }
    rewrite G.
    assert (D : ((instant NOW - instant dt) / US_PER_DAY <? 0)
                || (14 <? (instant NOW - instant dt) / US_PER_DAY) = false).
    { apply orb_false_iff. split; apply Z.ltb_ge.
      - apply Z.div_pos; lia.
      - assert ((instant NOW - instant dt) / US_PER_DAY < 15); [ | lia].
        apply Z.div_lt_upper_bound; lia. }
    now rewrite D.
  - destruct (_ || _); [reflexivity | ].
    assert (D : ((instant NOW - instant dt) / US_PER_DAY <? 0)
                || (Snaps.LAST_N_DAYS <? (instant NOW - instant dt) / US_PER_DAY) = true);
      [ | now rewrite D].
    apply andb_false_iff in W. apply orb_true_iff. unfold Snaps.LAST_N_DAYS in *.
    destruct W as [W | W].
    + left. apply Z.leb_gt in W. apply Z.ltb_lt.
      apply Z.div_lt_upper_bound; lia.
    + right. apply Z.ltb_ge in W. apply Z.ltb_lt.
      assert (15 <= (instant NOW - instant dt) / US_PER_DAY); [ | lia].
      apply Z.div_le_lower_bound; lia.
Qed.

(** The witness of X10: the draw of the day before, read at noon. *)
Lemma sane_date_window_witness :
  Snaps.sane_date Sample.noon (Sample.parse_as Sample.yesterday) "Sep 13, 2025"
  = Some "2025-09-13".
Proof.
  rewrite (sane_date_window Sample.noon (Sample.parse_as Sample.yesterday)
             "Sep 13, 2025" (mkDatetime Sample.yesterday 0 0 0 0 None)).
  - reflexivity.
  - vm_compute. repeat split; discriminate.
  - reflexivity.
  - reflexivity.
  - vm_compute. repeat split; discriminate.
  - left. reflexivity.
Defined.

(** Proofs *)

Lemma existsb_key (k : Snaps.key) (seen : list Snaps.key) :
  existsb (Snaps.key_eqb k) seen = true <-> In k seen.
Proof.
  rewrite existsb_exists. split.
  - intros (x & Hin & E). apply key_eqb_eq in E. now subst.
  - intros H. exists k. split; [exact H | now apply key_eqb_eq].
Qed.



Lemma subseq_refl {A : Type} (l : list A) : Seq.subseq l l.
Proof. induction l; [apply Seq.subseq_nil | now apply Seq.subseq_keep]. Qed.

Lemma subseq_snoc_skip {A : Type} (l l' : list A) (x : A) :
  Seq.subseq l l' -> Seq.subseq l (l' ++ [x]).
Proof.
  induction 1; simpl.
  - apply Seq.subseq_skip, Seq.subseq_nil.
  - now apply Seq.subseq_skip.
  - now apply Seq.subseq_keep.
Qed.

Lemma subseq_snoc_keep {A : Type} (l l' : list A) (x : A) :
  Seq.subseq l l' -> Seq.subseq (l ++ [x]) (l' ++ [x]).
Proof.
  induction 1; simpl.
  - apply Seq.subseq_keep, Seq.subseq_nil.
  - now apply Seq.subseq_skip.
  - now apply Seq.subseq_keep.
Qed.

Lemma subseq_in {A : Type} (l l' : list A) :
  Seq.subseq l l' -> forall x, In x l -> In x l'.
Proof.
  induction 1; intros y Hy; simpl in *; intuition.
Qed.

Lemma dedupe_inv_step (processed : list Classify.record)
    (st : list Snaps.key * list Classify.record) (r : Classify.record) :
  dedupe_inv processed st ->
  dedupe_inv (processed ++ [r]) (Dataset.dedupe_step st r).
Proof.
  destruct st as [seen unique]. intros (Hseen & Hnd & Hfirst & Hcov & Hsub).
  simpl in *. unfold Dataset.dedupe_step.
  destruct (existsb (Snaps.key_eqb (Dataset.key_of r)) seen) eqn:E.
  - apply existsb_key in E. apply Hseen in E.
    repeat split; simpl; auto.
    + apply Hseen.
    + apply Hseen.
    + intros x Hx. destruct (Hfirst x Hx) as (b & a & -> & Hb).
      exists b, (a ++ [r])%list. split; [ | exact Hb].
      now rewrite <- app_assoc.
    + intros x Hx. apply in_app_or in Hx. destruct Hx as [Hx | [<- | []]]; auto.
    + now apply subseq_snoc_skip.
  - assert (Hnew : ~ In (Dataset.key_of r) (map Dataset.key_of unique)).
    { intros H. apply Hseen in H. apply existsb_key in H. congruence. }
    repeat split; simpl.
    + intros [<- | H]; rewrite map_app, in_app_iff; simpl; [auto | ].
      left. now apply Hseen.
    + rewrite map_app, in_app_iff. simpl.
      intros [H | [H | []]]; [right; now apply Hseen | now left].
    + rewrite map_app. apply NoDup_app_snoc; auto.
    + intros x Hx. apply in_app_or in Hx. destruct Hx as [Hx | [<- | []]].
      * destruct (Hfirst x Hx) as (b & a & -> & Hb).
        exists b, (a ++ [r])%list. split; [ | exact Hb].
        now rewrite <- app_assoc.
      * exists processed, []. split; [reflexivity | ].
        intros y Hy Ek. apply Hnew. rewrite <- Ek. now apply Hcov.
    + intros x Hx. rewrite map_app, in_app_iff. apply in_app_or in Hx.
      destruct Hx as [Hx | [<- | []]]; [left; auto | right; now left].
    + now apply subseq_snoc_keep.
Qed.

Lemma dedupe_inv_fold (records processed : list Classify.record)
    (st : list Snaps.key * list Classify.record) :
  dedupe_inv processed st ->
  dedupe_inv (processed ++ records) (fold_left Dataset.dedupe_step records st).
Proof.
  revert processed st. induction records as [ | r records IH]; intros processed st H.
  - now rewrite app_nil_r.
  - simpl. replace (processed ++ r :: records)%list
      with ((processed ++ [r]) ++ records)%list by now rewrite <- app_assoc.
    apply IH. now apply dedupe_inv_step.
Qed.

(** X12.  The loop of [main] that drops duplicates: no two of the records
    it keeps share the key (game, date, numbers); every key of the input is
    still there; the record kept for a key is the first of the input with
    that key; and the records kept stand in the order of the input. *)
Theorem unique_records_first_seen :
  forall records : list Classify.record,
    NoDup (map Dataset.key_of (Dataset.unique_records records))
    /\ (forall x, In x records ->
          exists r, In r (Dataset.unique_records records)
                    /\ Dataset.key_of r = Dataset.key_of x)
    /\ (forall r, In r (Dataset.unique_records records) ->
          exists before after,
            records = (before ++ r :: after)%list
            /\ forall x, In x before -> Dataset.key_of x <> Dataset.key_of r)
    /\ Seq.subseq (Dataset.unique_records records) records.
Proof.
  intros records.
  assert (H0 : dedupe_inv [] ([], [])).
  { repeat split; simpl; try tauto; try constructor. }
  pose proof (dedupe_inv_fold records [] ([], []) H0) as (_ & Hnd & Hfirst & Hcov & Hsub).
  simpl in *. unfold Dataset.unique_records.
  repeat split; auto.
  intros x Hx. specialize (Hcov x Hx). apply in_map_iff in Hcov.
  destruct Hcov as (r & E & Hin). eauto.
Qed.

(** ** Sorting *)

Lemma str_compare_refl (a : string) : String.compare a a = Eq.
Proof. now apply OrderedTypeEx.String_as_OT.cmp_eq. Qed.

Lemma str_compare_lt_trans (a b c : string) :
  String.compare a b = Lt -> String.compare b c = Lt -> String.compare a c = Lt.
Proof.
  intros H1 H2. apply OrderedTypeEx.String_as_OT.cmp_lt.
  apply OrderedTypeEx.String_as_OT.cmp_lt in H1, H2.
  eapply OrderedTypeEx.String_as_OT.lt_trans; eauto.
Qed.

Lemma str_compare_gt (a b : string) :
  String.compare a b = Gt <-> String.compare b a = Lt.
Proof.
  rewrite (String.compare_antisym b a).
  destruct (String.compare a b); simpl; split; congruence.
Qed.

(** "not greater" is transitive on strings *)
Lemma str_compare_le_trans (a b c : string) :
  String.compare a b <> Gt -> String.compare b c <> Gt -> String.compare a c <> Gt.
Proof.
  intros H1 H2 H3. apply str_compare_gt in H3.
  destruct (String.compare a b) eqn:E1; [ | | congruence].
  - apply String.compare_eq_iff in E1. subst b.
    apply H2. now apply str_compare_gt.
  - destruct (String.compare b c) eqn:E2; [ | | congruence].
    + apply String.compare_eq_iff in E2. subst c.
      rewrite String.compare_antisym, E1 in H3. discriminate.
    + pose proof (str_compare_lt_trans _ _ _ E1 E2) as E.
      rewrite String.compare_antisym, E in H3. discriminate.
Qed.


Lemma key_ltb_cases (a b : string * string) :
  Dataset.key_ltb a b = true
  <-> String.compare (fst a) (fst b) = Lt
      \/ (fst a = fst b /\ String.compare (snd a) (snd b) = Lt).
Proof.
  unfold Dataset.key_ltb, String.ltb.
  destruct (String.compare (fst a) (fst b)) eqn:E.
  - apply String.compare_eq_iff in E.
    destruct (String.compare (snd a) (snd b)); split; try discriminate; auto.
    + intros [H | [_ H]]; discriminate.
    + intros [H | [_ H]]; discriminate.
  - split; auto.
  - split; [discriminate | ].
    intros [H | [H _]]; [discriminate | ].
    rewrite H, str_compare_refl in E. discriminate.
Qed.

Lemma key_le_cases (a b : string * string) :
  key_le a b
  <-> String.compare (fst a) (fst b) = Lt
      \/ (fst a = fst b /\ String.compare (snd a) (snd b) <> Gt).
Proof.
  unfold key_le. rewrite <- not_true_iff_false, key_ltb_cases.
  rewrite <- (str_compare_gt (fst a) (fst b)).
  rewrite <- (str_compare_gt (snd a) (snd b)).
  destruct (String.compare (fst a) (fst b)) eqn:E.
  - apply String.compare_eq_iff in E. split.
    + intros H. right. split; [exact E | ]. intros G. apply H. right. auto.
    + intros [H | [_ H]]; [discriminate | ].
      intros [G | [_ G]]; [discriminate | contradiction].
  - split; [auto | ]. intros _ [G | [G _]]; [discriminate | ].
    rewrite G, str_compare_refl in E. discriminate.
  - split.
    + intros H. exfalso. apply H. now left.
    + intros [H | [H _]]; [discriminate | ].
      rewrite H, str_compare_refl in E. discriminate.
Qed.

Lemma key_le_refl (a : string * string) : key_le a a.
Proof.
  apply key_le_cases. right. split; [reflexivity | ].
  rewrite str_compare_refl. discriminate.
Qed.

Lemma key_le_trans (a b c : string * string) :
  key_le a b -> key_le b c -> key_le a c.
Proof.
  rewrite !key_le_cases.
  intros [H1 | [E1 H1]] [H2 | [E2 H2]].
  - left. eapply str_compare_lt_trans; eauto.
  - left. now rewrite <- E2.
  - left. now rewrite E1.
  - right. split; [congruence | ]. eapply str_compare_le_trans; eauto.
Qed.

Lemma key_le_total (a b : string * string) :
  Dataset.key_ltb a b = true -> key_le a b.
Proof.
  rewrite key_ltb_cases, key_le_cases.
  intros [H | [E H]]; [now left | right].
  split; [exact E | congruence].
Qed.



Lemma key_ltb_irrefl (a : string * string) : Dataset.key_ltb a a = false.
Proof. apply key_le_refl. Qed.

Lemma has_key_eq (k : string * string) (r : Classify.record) :
  has_key k r = true <-> Dataset.sort_key r = k.
Proof.
  unfold has_key, Dataset.sort_key. destruct k as [d g]. simpl.
  rewrite andb_true_iff, !String.eqb_eq. split.
  - intros [-> ->]. reflexivity.
  - intros E. inversion E. auto.
Qed.

Lemma insert_desc_perm (r : Classify.record) (l : list Classify.record) :
  Permutation.Permutation (Dataset.insert_desc r l) (r :: l).
Proof.
  induction l as [ | x l IH]; simpl; [apply Permutation.Permutation_refl | ].
  destruct (Dataset.key_ltb _ _); [ | apply Permutation.Permutation_refl].
  eapply Permutation.perm_trans; [apply Permutation.perm_skip, IH | ].
  apply Permutation.perm_swap.
Qed.

Lemma insert_desc_in (r x : Classify.record) (l : list Classify.record) :
  In x (Dataset.insert_desc r l) -> x = r \/ In x l.
Proof.
  intros H. apply (Permutation.Permutation_in _ (insert_desc_perm r l)) in H.
  destruct H; auto.
Qed.

Lemma insert_desc_sorted (r : Classify.record) (l : list Classify.record) :
  descending l -> descending (Dataset.insert_desc r l).
Proof.
  unfold descending.
  induction l as [ | x l IH]; simpl; intros Hs.
  - constructor; [constructor | constructor].
  - inversion Hs as [ | ? ? Hl Hx]; subst.
    destruct (Dataset.key_ltb (Dataset.sort_key r) (Dataset.sort_key x)) eqn:E.
    + constructor; [now apply IH | ].
      apply Forall_forall. intros y Hy. apply insert_desc_in in Hy.
      destruct Hy as [-> | Hy].
      * now apply key_le_total.
      * rewrite Forall_forall in Hx. now apply Hx.
    + constructor; [exact Hs | ].
      constructor; [exact E | ].
      apply Forall_forall. intros y Hy. rewrite Forall_forall in Hx.
      specialize (Hx y Hy).
      apply (key_le_trans (Dataset.sort_key y) (Dataset.sort_key x) (Dataset.sort_key r));
        [exact Hx | exact E].
Qed.

Lemma insert_desc_stable (k : string * string) (r : Classify.record)
    (l : list Classify.record) :
  filter (has_key k) (Dataset.insert_desc r l) = filter (has_key k) (r :: l).
Proof.
  induction l as [ | x l IH]; [reflexivity | ].
  cbn [Dataset.insert_desc].
  destruct (Dataset.key_ltb (Dataset.sort_key r) (Dataset.sort_key x)) eqn:E;
    [ | reflexivity].
  cbn [filter] in *. rewrite IH.
  destruct (has_key k x) eqn:Hx, (has_key k r) eqn:Hr; try reflexivity.
  apply has_key_eq in Hx, Hr. rewrite Hx, Hr, key_ltb_irrefl in E. discriminate.
Qed.

Lemma sort_newest_first_facts :
  forall l : list Classify.record,
    Permutation.Permutation (Dataset.sort_newest_first l) l
    /\ descending (Dataset.sort_newest_first l)
    /\ (forall k, filter (has_key k) (Dataset.sort_newest_first l)
                  = filter (has_key k) l).
Proof.
  induction l as [ | r l (IHp & IHs & IHk)]; simpl.
  - split; [constructor | split; [constructor | reflexivity]].
  - split; [ | split].
    + eapply Permutation.perm_trans; [apply insert_desc_perm | ].
      now apply Permutation.perm_skip.
    + now apply insert_desc_sorted.
    + intros k. rewrite insert_desc_stable. cbn [filter]. now rewrite IHk.
Qed.

(** X13.  The sort of [main] moves records and neither drops nor adds
    one; in its result the keys (date, game) never go up; and the records
    of one key stay in the order they had. *)
Theorem sort_newest_first_stable :
  forall l : list Classify.record,
    Permutation.Permutation (Dataset.sort_newest_first l) l
    /\ descending (Dataset.sort_newest_first l)
    /\ (forall k, filter (has_key k) (Dataset.sort_newest_first l)
                  = filter (has_key k) l).
Proof. exact sort_newest_first_facts. Qed.

(** ** ISO dates sort in time order *)


Lemma dg_compare (a b : Z) :
  0 <= a <= 9 -> 0 <= b <= 9 -> Ascii.compare (dg a) (dg b) = Z.compare a b.
Proof.
  intros Ha Hb.
  assert (Ea : a = 0 \/ a = 1 \/ a = 2 \/ a = 3 \/ a = 4 \/ a = 5 \/ a = 6
               \/ a = 7 \/ a = 8 \/ a = 9) by lia.
  assert (Eb : b = 0 \/ b = 1 \/ b = 2 \/ b = 3 \/ b = 4 \/ b = 5 \/ b = 6
               \/ b = 7 \/ b = 8 \/ b = 9) by lia.
  destruct Ea as [-> | [-> | [-> | [-> | [-> | [-> | [-> | [-> | [-> | ->]]]]]]]]];
    destruct Eb as [-> | [-> | [-> | [-> | [-> | [-> | [-> | [-> | [-> | ->]]]]]]]]];
    reflexivity.
Qed.

Lemma compare_digits (l1 l2 : list Z) (s1 s2 : string) :
  List.length l1 = List.length l2 ->
  Forall (fun d => 0 <= d <= 9) l1 -> Forall (fun d => 0 <= d <= 9) l2 ->
  String.compare (str_of_digits l1 ++ s1) (str_of_digits l2 ++ s2)
  = match lex_compare l1 l2 with
    | Eq => String.compare s1 s2
    | c => c
    end.
Proof.
  revert l2. induction l1 as [ | a l1 IH]; intros [ | b l2] Hl H1 H2;
    try discriminate; [reflexivity | ].
  inversion H1; subst. inversion H2; subst. simpl.
  rewrite dg_compare by assumption.
  destruct (Z.compare a b); try reflexivity.
  apply IH; auto.
Qed.

Lemma all_from_spec (p : Z -> bool) (n : nat) :
  forall z, all_from p z n = true ->
  forall k, z <= k < z + Z.of_nat n -> p k = true.
Proof.
  induction n as [ | n IH]; intros z H k Hk; [lia | ].
  cbn [all_from] in H. apply andb_true_iff in H. destruct H as [H1 H2].
  destruct (Z.eq_dec k z) as [-> | Hne]; [exact H1 | ].
  apply (IH (z + 1) H2). lia.
Qed.

Lemma all_below (p : Z -> bool) (n : Z) :
  all_from p 0 (Z.to_nat n) = true -> forall z, 0 <= z < n -> p z = true.
Proof.
  intros H z Hz. apply (all_from_spec p (Z.to_nat n) 0 H). lia.
Qed.

Lemma fmt0_2_digits (z : Z) :
  0 <= z < 100 -> Text.fmt0 2 z = str_of_digits (digits2 z).
Proof.
  intros Hz. apply String.eqb_eq.
  apply (all_below
           (fun z => String.eqb (Text.fmt0 2 z) (str_of_digits (digits2 z))) 100);
    [vm_compute; reflexivity | exact Hz].
Qed.

Lemma fmt0_4_digits (z : Z) :
  0 <= z < 10000 -> Text.fmt0 4 z = str_of_digits (digits4 z).
Proof.
  intros Hz. apply String.eqb_eq.
  apply (all_below
           (fun z => String.eqb (Text.fmt0 4 z) (str_of_digits (digits4 z))) 10000);
    [vm_compute; reflexivity | exact Hz].
Qed.

Lemma digits2_range (z : Z) :
  0 <= z < 100 -> Forall (fun d => 0 <= d <= 9) (digits2 z).
Proof.
  intros Hz. unfold digits2. repeat constructor; Z.div_mod_to_equations; lia.
Qed.

Lemma digits4_range (z : Z) :
  0 <= z < 10000 -> Forall (fun d => 0 <= d <= 9) (digits4 z).
Proof.
  intros Hz. unfold digits4. repeat constructor; Z.div_mod_to_equations; lia.
Qed.

Lemma lex_digits2 (a b : Z) :
  0 <= a < 100 -> 0 <= b < 100 ->
  lex_compare (digits2 a) (digits2 b) = Z.compare a b.
Proof.
  intros Ha Hb. unfold digits2. simpl.
  destruct (Z.compare_spec (a / 10) (b / 10)) as [E | E | E];
    [ destruct (Z.compare_spec (a mod 10) (b mod 10)) as [F | F | F] | | ];
    symmetry; rewrite ?Z.compare_eq_iff, ?Z.compare_lt_iff, ?Z.compare_gt_iff;
    Z.div_mod_to_equations; lia.
Qed.

Lemma lex_digits4 (a b : Z) :
  0 <= a < 10000 -> 0 <= b < 10000 ->
  lex_compare (digits4 a) (digits4 b) = Z.compare a b.
Proof.
  intros Ha Hb. unfold digits4. simpl.
  destruct (Z.compare_spec (a / 1000) (b / 1000)) as [E1 | E1 | E1];
    [ destruct (Z.compare_spec ((a / 100) mod 10) ((b / 100) mod 10)) as [E2 | E2 | E2];
      [ destruct (Z.compare_spec ((a / 10) mod 10) ((b / 10) mod 10)) as [E3 | E3 | E3];
        [ destruct (Z.compare_spec (a mod 10) (b mod 10)) as [E4 | E4 | E4] | | ]
      | | ]
    | | ];
    symmetry; rewrite ?Z.compare_eq_iff, ?Z.compare_lt_iff, ?Z.compare_gt_iff;
    Z.div_mod_to_equations; lia.
Qed.



Lemma days_in_month_le (y m : Z) : days_in_month y m <= 31.
Proof.
  unfold days_in_month.
  destruct (m =? 2); [destruct (is_leap y); lia | ].
  destruct (_ || _); lia.
Qed.

Lemma append_empty (s : string) : (s ++ "")%string = s.
Proof. induction s as [ | c s IH]; simpl; [reflexivity | now rewrite IH]. Qed.

Lemma compare_digits_end (l1 l2 : list Z) :
  List.length l1 = List.length l2 ->
  Forall (fun d => 0 <= d <= 9) l1 -> Forall (fun d => 0 <= d <= 9) l2 ->
  String.compare (str_of_digits l1) (str_of_digits l2) = lex_compare l1 l2.
Proof.
  intros Hl H1 H2.
  pose proof (compare_digits l1 l2 "" "" Hl H1 H2) as H.
  rewrite !append_empty in H. rewrite H.
  destruct (lex_compare l1 l2); reflexivity.
Qed.

Lemma compare_hyphen (s1 s2 : string) :
  String.compare ("-" ++ s1) ("-" ++ s2) = String.compare s1 s2.
Proof. reflexivity. Qed.

Lemma isoformat_compare (a b : date) :
  valid_date a -> valid_date b ->
  String.compare (date_isoformat a) (date_isoformat b) = date_compare a b.
Proof.
  intros (Hy1 & Hm1 & Hd1) (Hy2 & Hm2 & Hd2).
  pose proof (days_in_month_le (year a) (month a)).
  pose proof (days_in_month_le (year b) (month b)).
  unfold date_isoformat, date_compare.
  rewrite !fmt0_4_digits, !fmt0_2_digits by lia.
  rewrite compare_digits; [ | reflexivity | apply digits4_range; lia
                            | apply digits4_range; lia].
  rewrite lex_digits4 by lia.
  destruct (Z.compare (year a) (year b)); try reflexivity.
  rewrite compare_hyphen.
  rewrite compare_digits; [ | reflexivity | apply digits2_range; lia
                            | apply digits2_range; lia].
  rewrite lex_digits2 by lia.
  destruct (Z.compare (month a) (month b)); try reflexivity.
  rewrite compare_hyphen.
  rewrite compare_digits_end; [ | reflexivity | apply digits2_range; lia
                                | apply digits2_range; lia].
  now rewrite lex_digits2 by lia.
Qed.

Lemma days_before_month_mono (y m1 m2 : Z) :
  1 <= m1 -> m1 < m2 -> m2 <= 12 ->
  days_before_month y m1 + days_in_month y m1 <= days_before_month y m2.
Proof.
  intros H1 H2 H3. unfold days_before_month, days_in_month.
  assert (Hc1 : m1 = 1 \/ m1 = 2 \/ m1 = 3 \/ m1 = 4 \/ m1 = 5 \/ m1 = 6
                \/ m1 = 7 \/ m1 = 8 \/ m1 = 9 \/ m1 = 10 \/ m1 = 11) by lia.
  assert (Hc2 : m2 = 2 \/ m2 = 3 \/ m2 = 4 \/ m2 = 5 \/ m2 = 6
                \/ m2 = 7 \/ m2 = 8 \/ m2 = 9 \/ m2 = 10 \/ m2 = 11 \/ m2 = 12) by lia.
  destruct (is_leap y);
    destruct Hc1 as [-> | [-> | [-> | [-> | [-> | [-> | [-> | [-> | [-> | [-> | ->]]]]]]]]]];
    destruct Hc2 as [-> | [-> | [-> | [-> | [-> | [-> | [-> | [-> | [-> | [-> | ->]]]]]]]]]];
    try lia; vm_compute; discriminate.
Qed.

(** Of two valid dates, the earlier in time has the smaller ordinal. *)
Lemma date_compare_ordinal (a b : date) :
  valid_date a -> valid_date b ->
  date_compare a b = Z.compare (toordinal a) (toordinal b).
Proof.
  intros Va Vb. symmetry. unfold date_compare.
  destruct (Z.compare_spec (year a) (year b)) as [Ey | Ey | Ey].
  - destruct Va as (_ & Hma & Hda), Vb as (_ & Hmb & Hdb).
    unfold toordinal. rewrite <- Ey in *.
    destruct (Z.compare_spec (month a) (month b)) as [Em | Em | Em].
    + rewrite <- Em.
      destruct (Z.compare_spec (day a) (day b));
        rewrite ?Z.compare_eq_iff, ?Z.compare_lt_iff, ?Z.compare_gt_iff; lia.
    + apply Z.compare_lt_iff.
      pose proof (days_before_month_mono (year a) (month a) (month b)). lia.
    + apply Z.compare_gt_iff.
      pose proof (days_before_month_mono (year a) (month b) (month a)). lia.
  - apply Z.compare_lt_iff. now apply toordinal_year.
  - apply Z.compare_gt_iff. now apply toordinal_year.
Qed.

Lemma strongly_sorted_pair {A : Type} (R : A -> A -> Prop)
    (before mid after : list A) (x y : A) :
  Sorted.StronglySorted R (before ++ x :: mid ++ y :: after) -> R x y.
Proof.
  induction before as [ | b before IH]; simpl; intros H.
  - inversion H as [ | ? ? _ Hall]; subst.
    rewrite Forall_forall in Hall. apply Hall.
    apply in_or_app. right. now left.
  - inversion H; subst. auto.
Qed.

(** X14.  In the records that [main] writes, a record that comes before
    another is not of an earlier day, as long as both dates are ISO dates
    of the calendar: the order of the texts is the order of the days. *)
Theorem dataset_newest_first :
  forall (records before mid after : list Classify.record)
         (r1 r2 : Classify.record) (d1 d2 : date),
    Dataset.dataset_records records = (before ++ r1 :: mid ++ r2 :: after)%list ->
    Classify.date r1 = date_isoformat d1 ->
    Classify.date r2 = date_isoformat d2 ->
    valid_date d1 -> valid_date d2 ->
    toordinal d2 <= toordinal d1.
Proof.
  intros records before mid after r1 r2 d1 d2 E E1 E2 V1 V2.
  destruct (sort_newest_first_facts (Dataset.unique_records records))
    as (_ & Hs & _).
  unfold descending, Dataset.dataset_records in *. rewrite E in Hs.
  apply strongly_sorted_pair in Hs.
  assert (Hc : String.compare (date_isoformat d1) (date_isoformat d2) <> Lt).
  { intros Hlt.
    assert (Dataset.key_ltb (Dataset.sort_key r1) (Dataset.sort_key r2) = true);
      [ | congruence].
    apply key_ltb_cases. left. unfold Dataset.sort_key. simpl.
    now rewrite E1, E2. }
  rewrite (isoformat_compare d1 d2 V1 V2) in Hc.
  rewrite (date_compare_ordinal d1 d2 V1 V2) in Hc.
  destruct (Z.compare_spec (toordinal d1) (toordinal d2)); [lia | congruence | lia].
Qed.

(** The witness of X14: three records read, one of them twice. *)
Lemma dataset_newest_first_witness :
  Dataset.dataset_records
    [ Classify.make_record "2025-09-10" "Powerball"
        (map PInt [1; 12; 23; 34; 45; 10]) PNone PNone None None;
      Classify.make_record "2025-09-13" "Powerball"
        (map PInt [2; 13; 24; 35; 46; 11]) PNone PNone None None;
      Classify.make_record "2025-09-10" "Powerball"
        (map PInt [1; 12; 23; 34; 45; 10]) PNone PNone None None ]
  = [ Classify.make_record "2025-09-13" "Powerball"
        (map PInt [2; 13; 24; 35; 46; 11]) PNone PNone None None;
      Classify.make_record "2025-09-10" "Powerball"
        (map PInt [1; 12; 23; 34; 45; 10]) PNone PNone None None ]
  /\ toordinal (mkDate 2025 9 10) <= toordinal (mkDate 2025 9 13).
Proof.
  split; [vm_compute; reflexivity | ].
  apply (dataset_newest_first
           [ Classify.make_record "2025-09-10" "Powerball"
               (map PInt [1; 12; 23; 34; 45; 10]) PNone PNone None None;
             Classify.make_record "2025-09-13" "Powerball"
               (map PInt [2; 13; 24; 35; 46; 11]) PNone PNone None None;
             Classify.make_record "2025-09-10" "Powerball"
               (map PInt [1; 12; 23; 34; 45; 10]) PNone PNone None None ]
           [] [] []
           (Classify.make_record "2025-09-13" "Powerball"
              (map PInt [2; 13; 24; 35; 46; 11]) PNone PNone None None)
           (Classify.make_record "2025-09-10" "Powerball"
              (map PInt [1; 12; 23; 34; 45; 10]) PNone PNone None None)
           (mkDate 2025 9 13) (mkDate 2025 9 10)).
  - vm_compute. reflexivity.
  - reflexivity.
  - reflexivity.
  - vm_compute. repeat split; discriminate.
  - vm_compute. repeat split; discriminate.
Defined.

(** ** What a match holds *)

Lemma chars_text (l : list ascii) : Text.chars (Text.text l) = l.
Proof.
  induction l as [ | c l IH]; [reflexivity | ].
  unfold Text.chars, Text.text in *. simpl. now rewrite IH.
Qed.

Lemma rep_cls_reads (fl : Re.flags) (c : Re.cls) (s : list ascii) :
  forall (lo : nat) (hi : option nat) (p : nat) (pv : option ascii)
         (k : nat -> option ascii -> list ascii -> option Re.mstate)
         (res : Re.mstate),
    Re.rep_cls fl c lo hi p pv s k = Some res ->
    exists l s' pv',
      s = (l ++ s')%list
      /\ k (p + List.length l)%nat pv' s' = Some res
      /\ Lang.lang fl (Re.Rep c lo hi) l.
Proof.
  induction s as [ | x s IH]; intros lo hi p pv k res H.
  - assert (Hstop : match lo with O => k p pv [] | S _ => None end = Some res).
    { destruct hi as [[ | h] | ]; exact H. }
    destruct lo; [ | discriminate]. exists [], [], pv.
    rewrite Nat.add_0_r. simpl. repeat split; auto.
    destruct hi; [lia | exact I].
  - assert (Hcases :
      match lo with O => k p pv (x :: s) | S _ => None end = Some res
      \/ (Re.cls_matches fl c x = true
          /\ hi <> Some O
          /\ Re.rep_cls fl c (Nat.pred lo) (option_map Nat.pred hi) (S p) (Some x) s k
             = Some res)).
    { simpl in H. destruct hi as [[ | h] | ].
      - now left.
      - destruct (Re.cls_matches fl c x); [ | now left].
        destruct (Re.rep_cls fl c (Nat.pred lo) (option_map Nat.pred (Some (S h)))
                    (S p) (Some x) s k) eqn:E; [ | now left].
        right. repeat split; [discriminate | congruence].
      - destruct (Re.cls_matches fl c x); [ | now left].
        destruct (Re.rep_cls fl c (Nat.pred lo) (option_map Nat.pred None)
                    (S p) (Some x) s k) eqn:E; [ | now left].
        right. repeat split; [discriminate | congruence]. }
    destruct Hcases as [Hstop | (Hx & Hhi & Hmore)].
    + destruct lo; [ | discriminate]. exists [], (x :: s), pv.
      rewrite Nat.add_0_r. simpl. repeat split; auto.
      destruct hi; [lia | exact I].
    + destruct (IH _ _ _ _ _ _ Hmore) as (l & s' & pv' & Es & Hk & Hall & Hlo & Hh).
      exists (x :: l), s', pv'. simpl.
      replace (p + S (List.length l))%nat with (S p + List.length l)%nat by lia.
      repeat split; [now rewrite Es | exact Hk | now rewrite Hx | lia | ].
      destruct hi as [[ | h] | ]; simpl in *; [congruence | lia | exact I].
Qed.

Lemma slice_read (subj : list ascii) (a : nat) (l s' : list ascii) :
  skipn a subj = (l ++ s')%list ->
  Text.slice a (a + List.length l) subj = l
  /\ skipn (a + List.length l) subj = s'.
Proof.
  intros E. unfold Text.slice.
  replace (a + List.length l - a)%nat with (List.length l) by lia.
  rewrite E. split.
  - rewrite firstn_app, Nat.sub_diag, firstn_all. simpl. apply app_nil_r.
  - rewrite Nat.add_comm, <- skipn_skipn, E.
    rewrite skipn_app, Nat.sub_diag, skipn_all. reflexivity.
Qed.

Lemma cap_ok_cat_l (fl : Re.flags) (subj : list ascii) (a b : Re.re)
    (c : nat * (nat * nat)) :
  Lang.cap_ok fl subj a c -> Lang.cap_ok fl subj (Re.Cat a b) c.
Proof.
  intros (body & Hin & Hl). exists body. split; [ | exact Hl].
  simpl. apply in_or_app. now left.
Qed.

Lemma cap_ok_cat_r (fl : Re.flags) (subj : list ascii) (a b : Re.re)
    (c : nat * (nat * nat)) :
  Lang.cap_ok fl subj b c -> Lang.cap_ok fl subj (Re.Cat a b) c.
Proof.
  intros (body & Hin & Hl). exists body. split; [ | exact Hl].
  simpl. apply in_or_app. now right.
Qed.

Lemma cap_ok_alt_l (fl : Re.flags) (subj : list ascii) (a b : Re.re)
    (c : nat * (nat * nat)) :
  Lang.cap_ok fl subj a c -> Lang.cap_ok fl subj (Re.Alt a b) c.
Proof.
  intros (body & Hin & Hl). exists body. split; [ | exact Hl].
  simpl. apply in_or_app. now left.
Qed.

Lemma cap_ok_alt_r (fl : Re.flags) (subj : list ascii) (a b : Re.re)
    (c : nat * (nat * nat)) :
  Lang.cap_ok fl subj b c -> Lang.cap_ok fl subj (Re.Alt a b) c.
Proof.
  intros (body & Hin & Hl). exists body. split; [ | exact Hl].
  simpl. apply in_or_app. now right.
Qed.

Lemma cap_ok_grp (fl : Re.flags) (subj : list ascii) (n : nat) (a : Re.re)
    (c : nat * (nat * nat)) :
  Lang.cap_ok fl subj a c -> Lang.cap_ok fl subj (Re.Grp n a) c.
Proof.
  intros (body & Hin & Hl). exists body. split; [ | exact Hl].
  simpl. apply in_or_app. now right.
Qed.

Lemma stepped_here (fl : Re.flags) (subj : list ascii) (r : Re.re)
    (st : Re.mstate) :
  Lang.at_subject subj st -> Lang.lang fl r [] ->
  (forall n, Lang.closes n r = false) ->
  Lang.stepped fl subj r st st.
Proof.
  intros Hat Hl Hc. split; [exact Hat | ]. split; [ | split; [ | split]].
  - exists []. simpl. rewrite Nat.add_0_r. auto.
  - auto.
  - intros c H. now left.
  - intros n H. rewrite Hc in H. discriminate.
Qed.

(** Whatever the matcher returns was returned by its continuation, called
    after a text of the pattern was read. *)
Lemma run_stepped (fl : Re.flags) (subj : list ascii) (r : Re.re) :
  forall (st : Re.mstate) (k : Re.mstate -> option Re.mstate) (res : Re.mstate),
    Lang.at_subject subj st ->
    Re.run fl r st k = Some res ->
    exists st', k st' = Some res /\ Lang.stepped fl subj r st st'.
Proof.
  induction r as [ | c | c lo hi | | | a IHa b IHb | a IHa b IHb | n a IHa];
    intros st k res Hat H; simpl in H.
  - exists st. split; [exact H | now apply stepped_here].
  - destruct (Re.rest st) as [ | x s'] eqn:Er; [discriminate | ].
    destruct (Re.cls_matches fl c x) eqn:Ex; [ | discriminate].
    eexists. split; [exact H | ].
    unfold Lang.at_subject in Hat. rewrite Er in Hat. symmetry in Hat.
    destruct (slice_read subj (Re.pos st) [x] s' Hat) as [_ Hs].
    change (List.length [x]) with 1%nat in Hs. rewrite Nat.add_1_r in Hs.
    split; [ | split; [ | split; [ | split]]]; cbn [Re.rest Re.pos Re.caps].
    + unfold Lang.at_subject. cbn [Re.rest Re.pos]. now rewrite Hs.
    + exists [x]. simpl. repeat split; [exact Er | lia | exists x; auto].
    + auto.
    + intros c0 Hc. now left.
    + discriminate.
  - apply rep_cls_reads in H. destruct H as (l & s' & pv' & Es & Hk & Hl).
    eexists. split; [exact Hk | ].
    unfold Lang.at_subject in Hat. rewrite Es in Hat. symmetry in Hat.
    destruct (slice_read subj (Re.pos st) l s' Hat) as [_ Hs].
    split; [ | split; [ | split; [ | split]]]; cbn [Re.rest Re.pos Re.caps].
    + unfold Lang.at_subject. cbn [Re.rest Re.pos]. now rewrite Hs.
    + exists l. auto.
    + auto.
    + intros c0 Hc. now left.
    + discriminate.
  - destruct (xorb _ _); [ | discriminate].
    exists st. split; [exact H | now apply stepped_here].
  - destruct (Nat.eqb _ _); [ | discriminate].
    exists st. split; [exact H | now apply stepped_here].
  - apply IHa in H; [ | exact Hat]. destruct H as (st1 & H & (At1 & R1 & M1 & C1 & G1)).
    apply IHb in H; [ | exact At1]. destruct H as (st2 & H & (At2 & R2 & M2 & C2 & G2)).
    exists st2. split; [exact H | ].
    destruct R1 as (l1 & E1 & P1 & L1), R2 as (l2 & E2 & P2 & L2).
    split; [exact At2 | split; [ | split; [ | split]]].
    + exists (l1 ++ l2)%list. rewrite E1, E2, P2, P1, length_app, <- app_assoc.
      repeat split; [lia | ]. exists l1, l2. auto.
    + auto.
    + intros c Hc. destruct (C2 c Hc) as [Hc1 | Hok]; [ | right; now apply cap_ok_cat_r].
      destruct (C1 c Hc1) as [Hc0 | Hok]; [now left | right; now apply cap_ok_cat_l].
    + intros n Hn. simpl in Hn. apply orb_true_iff in Hn. destruct Hn as [Hn | Hn].
      * destruct (G1 n Hn) as (span & Hin). exists span. auto.
      * now apply G2.
  - destruct (Re.run fl a st k) as [res' | ] eqn:E.
    + inversion H; subst res'. apply IHa in E; [ | exact Hat].
      destruct E as (st1 & Hk & (At1 & (l & E1 & P1 & L1) & M1 & C1 & G1)).
      exists st1. split; [exact Hk | ].
      split; [exact At1 | split; [ | split; [ | split]]].
      * exists l. simpl. auto.
      * exact M1.
      * intros c Hc. destruct (C1 c Hc); [now left | right; now apply cap_ok_alt_l].
      * intros n Hn. simpl in Hn. apply andb_true_iff in Hn. now apply G1.
    + apply IHb in H; [ | exact Hat].
      destruct H as (st1 & Hk & (At1 & (l & E1 & P1 & L1) & M1 & C1 & G1)).
      exists st1. split; [exact Hk | ].
      split; [exact At1 | split; [ | split; [ | split]]].
      * exists l. simpl. auto.
      * exact M1.
      * intros c Hc. destruct (C1 c Hc); [now left | right; now apply cap_ok_alt_r].
      * intros n Hn. simpl in Hn. apply andb_true_iff in Hn. now apply G1.
  - apply IHa in H; [ | exact Hat].
    destruct H as (st1 & Hk & (At1 & (l & E1 & P1 & L1) & M1 & C1 & G1)).
    eexists. split; [exact Hk | ].
    split; [exact At1 | split; [ | split; [ | split]]]; cbn [Re.rest Re.pos Re.caps].
    + exists l. auto.
    + intros c Hc. right. now apply M1.
    + intros c [Hc | Hc].
      * right. subst c. exists a. simpl. rewrite Nat.eqb_refl. split; [now left | ].
        unfold Lang.at_subject in Hat. rewrite E1 in Hat. symmetry in Hat.
        destruct (slice_read subj (Re.pos st) l (Re.rest st1) Hat) as [Hs _].
        now rewrite P1, Hs.
      * destruct (C1 c Hc); [now left | right; now apply cap_ok_grp].
    + intros m Hm. apply orb_true_iff in Hm. destruct Hm as [Hm | Hm].
      * apply Nat.eqb_eq in Hm. subst m. eexists. now left.
      * destruct (G1 m Hm) as (span & Hin). exists span. now right.
Qed.

Lemma search_from_at (fl : Re.flags) (r : Re.re) (subj : list ascii)
    (s : list ascii) :
  forall (p : nat) (pv : option ascii) (m : Re.mobj),
    s = skipn p subj ->
    Re.search_from fl r subj p pv s = Some m ->
    exists pv' st,
      Re.run fl r {| Re.pos := Re.m_start m; Re.prev := pv';
                     Re.rest := skipn (Re.m_start m) subj; Re.caps := [] |}
        Some = Some st
      /\ Re.m_end m = Re.pos st
      /\ Re.m_caps m = Re.caps st
      /\ Re.subject m = subj.
Proof.
  induction s as [ | x s IH]; intros p pv m Hs H; simpl in H.
  - destruct (Re.run fl r _ Some) as [st | ] eqn:E; [ | discriminate].
    inversion H; subst m; simpl. exists pv, st. rewrite <- Hs. auto.
  - destruct (Re.run fl r _ Some) as [st | ] eqn:E.
    + inversion H; subst m; simpl. exists pv, st. rewrite <- Hs. auto.
    + apply IH in H; [exact H | ].
      replace (S p) with (1 + p)%nat by lia.
      rewrite <- skipn_skipn, <- Hs. reflexivity.
Qed.

Lemma in_lookup_cap (n : nat) (l : list (nat * (nat * nat))) (span : nat * nat) :
  In (n, span) l -> exists span', Re.lookup_cap n l = Some span'.
Proof.
  induction l as [ | [i sp] l IH]; simpl; [contradiction | ].
  intros [E | H].
  - inversion E; subst. rewrite Nat.eqb_refl. eauto.
  - destruct (Nat.eqb i n); eauto.
Qed.

(** What [re.search] returns: the text of the match is a text of the
    pattern, the text of a group is a text of the group's body, and a group
    that every match closes has a text. *)
Lemma search_sound (fl : Re.flags) (r : Re.re) (s : string) (m : Re.mobj) :
  Re.search fl r s = Some m ->
  Lang.lang fl r (Text.chars (Re.group0 m))
  /\ (forall c, In c (Re.m_caps m) -> Lang.group_bodies (fst c) r <> [])
  /\ (forall n, Lang.closes n r = true -> Re.m_caps m <> [])
  /\ (forall n g, Re.group n m = Some g ->
        exists body, In body (Lang.group_bodies n r)
                     /\ Lang.lang fl body (Text.chars g))
  /\ (forall n, Lang.closes n r = true -> exists g, Re.group n m = Some g).
Proof.
  unfold Re.search. intros H.
  apply search_from_at in H; [ | reflexivity].
  destruct H as (pv' & st & Hrun & Hend & Hcaps & Hsubj).
  apply (run_stepped fl (Text.chars s)) in Hrun; [ | reflexivity].
  destruct Hrun as (st' & Hk & (Hat & (l & El & Pl & Ll) & _ & Hc & Hg)).
  inversion Hk; subst st'; clear Hk. cbn [Re.rest Re.pos Re.caps] in *.
  destruct (slice_read _ _ _ _ El) as [Hslice _].
  split; [ | split; [ | split; [ | split]]].
  - unfold Re.group0. rewrite Hsubj, Hend, Pl, Hslice, chars_text. exact Ll.
  - intros c Hin. rewrite Hcaps in Hin.
    destruct (Hc c Hin) as [[] | (body & Hb & _)]. intros E. now rewrite E in Hb.
  - intros n Hn. destruct (Hg n Hn) as (span & Hin). rewrite Hcaps.
    intros E. now rewrite E in Hin.
  - intros n g Hgr. unfold Re.group in Hgr. rewrite Hcaps in Hgr.
    destruct (Re.lookup_cap n (Re.caps st)) as [[a b] | ] eqn:Ec; [ | discriminate].
    inversion Hgr; subst g; clear Hgr.
    apply lookup_cap_in in Ec. destruct (Hc _ Ec) as [[] | (body & Hin & Hl)].
    exists body. split; [exact Hin | ]. rewrite chars_text, Hsubj. exact Hl.
  - intros n Hn. destruct (Hg n Hn) as (span & Hin).
    destruct (in_lookup_cap _ _ _ Hin) as ([a b] & E).
    unfold Re.group. rewrite Hcaps, E. eauto.
Qed.

(** ** The groups of the date patterns *)

Import Shape.

Lemma all_ascii (P : ascii -> Prop) :
  (forall b0 b1 b2 b3 b4 b5 b6 b7, P (Ascii b0 b1 b2 b3 b4 b5 b6 b7)) ->
  forall c, P c.
Proof. intros H [b0 b1 b2 b3 b4 b5 b6 b7]. apply H. Qed.

Lemma cls_digit (fl : Re.flags) (x : ascii) :
  Re.cls_matches fl Re.digit x = Text.is_digit x.
Proof.
  destruct fl as [[ | ] ds]; revert x; apply all_ascii;
    intros [ | ] [ | ] [ | ] [ | ] [ | ] [ | ] [ | ] [ | ]; reflexivity.
Qed.

Lemma is_digit_in (c : ascii) :
  Text.is_digit c = true -> In c digit_chars.
Proof.
  assert (H : forall x, Text.is_digit x = existsb (Ascii.eqb x) digit_chars).
  { apply all_ascii.
    intros [ | ] [ | ] [ | ] [ | ] [ | ] [ | ] [ | ] [ | ]; reflexivity. }
  rewrite H. intros E. apply existsb_exists in E.
  destruct E as (d & Hin & Ed). apply Ascii.eqb_eq in Ed. now subst.
Qed.

Lemma forallb_ext_in {A : Type} (p q : A -> bool) (l : list A) :
  (forall x, In x l -> p x = q x) -> forallb p l = forallb q l.
Proof.
  induction l as [ | a l IH]; simpl; intros H; [reflexivity | ].
  rewrite H by now left. rewrite IH; [reflexivity | ]. intros x Hx. apply H. now right.
Qed.

Lemma lang_digits (fl : Re.flags) (lo hi : nat) (g : string) :
  Lang.lang fl (Re.digits lo hi) (Text.chars g) -> digit_text lo hi g.
Proof.
  simpl. intros (Hall & Hlo & Hhi). split.
  - rewrite <- Hall. apply forallb_ext_in. intros x _. symmetry. apply cls_digit.
  - rewrite <- length_chars. lia.
Qed.

(** The text of a group that every match closes *)
Lemma group_of (fl : Re.flags) (r body : Re.re) (n : nat) (s : string)
    (m : Re.mobj) :
  Re.search fl r s = Some m ->
  Lang.closes n r = true ->
  Lang.group_bodies n r = [body] ->
  exists g, Re.group n m = Some g /\ Lang.lang fl body (Text.chars g).
Proof.
  intros Hs Hc Hb. destruct (search_sound _ _ _ _ Hs) as (_ & _ & _ & Hg & Hcl).
  destruct (Hcl n Hc) as (g & Eg). exists g. split; [exact Eg | ].
  destruct (Hg n g Eg) as (body' & Hin & Hl). rewrite Hb in Hin.
  destruct Hin as [<- | []]. exact Hl.
Qed.

Lemma digit_text_int (lo hi : nat) (g : string) :
  digit_text lo hi g -> (1 <= lo)%nat ->
  exists v, Text.int_of_str g = Some v /\ 0 <= v.
Proof.
  intros (Hall & Hlen) Hlo. unfold Text.int_of_str, Text.int_of_chars.
  rewrite strip_by_ends
    by (apply digits_no_space; [intros c Hc; now apply digit_not_space | exact Hall]).
  destruct (Text.chars g) as [ | c l] eqn:E.
  - rewrite <- length_chars, E in Hlen. simpl in Hlen. lia.
  - assert (Hc : Text.is_digit c = true) by (simpl in Hall; now apply andb_true_iff in Hall).
    assert (Hm : Ascii.eqb c "-" = false /\ Ascii.eqb c "+" = false).
    { split; apply Ascii.eqb_neq; intros ->; discriminate. }
    destruct Hm as [-> ->].
    unfold Text.unsigned_of_chars.
    rewrite (digits_grouped_digits false _ Hall), (filter_all _ _ Hall).
    destruct (DecimalString.NilEmpty.uint_of_string (Text.text (c :: l))) as [d | ] eqn:Ed.
    + eexists. split; [reflexivity | ].
      unfold Z.of_uint. apply N2Z.is_nonneg.
    + exfalso. clear - Hall Ed. revert Ed. generalize (c :: l) Hall. clear.
      induction l as [ | x l IH]; simpl; intros Hall; [discriminate | ].
      apply andb_true_iff in Hall. destruct Hall as [Hx Hl].
      destruct (DecimalString.NilEmpty.uint_of_string (Text.text l)) eqn:E;
        [ | now apply IH in Hl].
      apply is_digit_in in Hx. simpl in Hx.
      repeat (destruct Hx as [<- | Hx]; [discriminate | ]). contradiction.
Qed.

Lemma digit_text_chars (lo hi : nat) (g : string) :
  digit_text lo hi g ->
  Forall (fun c => In c digit_chars) (Text.chars g)
  /\ (lo <= List.length (Text.chars g) <= hi)%nat.
Proof.
  intros (Hall & Hlen). split; [ | now rewrite length_chars].
  apply Forall_forall. intros c Hc. apply is_digit_in.
  rewrite forallb_forall in Hall. now apply Hall.
Qed.

Lemma int_of_two_digits (g : string) :
  digit_text 1 2 g ->
  exists v, Text.int_of_str g = Some v /\ 0 <= v <= 99.
Proof.
  intros H. apply digit_text_chars in H. destruct H as [Hall Hlen].
  unfold Text.int_of_str.
  assert (C1 : forallb (fun a =>
                 match Text.int_of_chars [a] with
                 | Some v => (0 <=? v) && (v <=? 99)
                 | None => false
                 end) digit_chars = true) by (vm_compute; reflexivity).
  assert (C2 : forallb (fun a => forallb (fun b =>
                 match Text.int_of_chars [a; b] with
                 | Some v => (0 <=? v) && (v <=? 99)
                 | None => false
                 end) digit_chars) digit_chars = true) by (vm_compute; reflexivity).
  rewrite forallb_forall in C1, C2.
  destruct (Text.chars g) as [ | a [ | b [ | c l]]]; simpl in Hlen; try lia.
  - inversion Hall; subst. specialize (C1 a H1).
    destruct (Text.int_of_chars [a]) as [v | ]; [ | discriminate].
    exists v. split; [reflexivity | lia].
  - inversion Hall as [ | ? ? Ha Hb']; subst. inversion Hb' as [ | ? ? Hb _]; subst.
    specialize (C2 a Ha). rewrite forallb_forall in C2. specialize (C2 b Hb).
    destruct (Text.int_of_chars [a; b]) as [v | ]; [ | discriminate].
    exists v. split; [reflexivity | lia].
Qed.

Lemma fixed_two_digits (g : string) :
  digit_text 2 2 g -> exists v, 0 <= v <= 99 /\ Text.fmt0 2 v = g.
Proof.
  intros H. apply digit_text_chars in H. destruct H as [Hall Hlen].
  assert (C2 : forallb (fun a => forallb (fun b =>
                 match Text.int_of_chars [a; b] with
                 | Some v => (0 <=? v) && (v <=? 99)
                             && String.eqb (Text.fmt0 2 v) (Text.text [a; b])
                 | None => false
                 end) digit_chars) digit_chars = true) by (vm_compute; reflexivity).
  rewrite forallb_forall in C2.
  rewrite <- (text_chars g).
  destruct (Text.chars g) as [ | a [ | b [ | c l]]]; simpl in Hlen; try lia.
  inversion Hall as [ | ? ? Ha Hb']; subst. inversion Hb' as [ | ? ? Hb _]; subst.
  specialize (C2 a Ha). rewrite forallb_forall in C2. specialize (C2 b Hb).
  destruct (Text.int_of_chars [a; b]) as [v | ]; [ | discriminate].
  apply andb_true_iff in C2. destruct C2 as [Hr He].
  apply String.eqb_eq in He. exists v. split; [lia | exact He].
Qed.

Lemma fixed_four_digits (g : string) :
  digit_text 4 4 g -> exists y, 0 <= y <= 9999 /\ Text.fmt0 4 y = g.
Proof.
  intros H. apply digit_text_chars in H. destruct H as [Hall Hlen].
  assert (C : forallb (fun a => forallb (fun b => forallb (fun c => forallb (fun d =>
                 match Text.int_of_chars [a; b; c; d] with
                 | Some v => (0 <=? v) && (v <=? 9999)
                             && String.eqb (Text.fmt0 4 v) (Text.text [a; b; c; d])
                 | None => false
                 end) digit_chars) digit_chars) digit_chars) digit_chars = true)
    by (vm_compute; reflexivity).
  rewrite forallb_forall in C.
  rewrite <- (text_chars g).
  destruct (Text.chars g) as [ | a [ | b [ | c [ | d [ | e l]]]]]; simpl in Hlen; try lia.
  inversion Hall as [ | ? ? Ha H1]; subst. inversion H1 as [ | ? ? Hb H2]; subst.
  inversion H2 as [ | ? ? Hc H3]; subst. inversion H3 as [ | ? ? Hd _]; subst.
  specialize (C a Ha). rewrite forallb_forall in C. specialize (C b Hb).
  rewrite forallb_forall in C. specialize (C c Hc).
  rewrite forallb_forall in C. specialize (C d Hd).
  destruct (Text.int_of_chars [a; b; c; d]) as [v | ]; [ | discriminate].
  apply andb_true_iff in C. destruct C as [Hr He].
  apply String.eqb_eq in He. exists v. split; [lia | exact He].
Qed.

Lemma lang_lit_chars (fl : Re.flags) (cs l : list ascii) :
  Lang.lang fl (Re.lit_chars cs) l ->
  Forall2 (fun c x => Re.cls_matches fl (Re.Cls false [Re.AChar c]) x = true) cs l.
Proof.
  revert l. induction cs as [ | c cs IH]; intros l H.
  - simpl in H. subst l. constructor.
  - destruct cs as [ | c' cs'].
    + simpl in H. destruct H as (x & -> & Hx). repeat constructor. exact Hx.
    + change (Re.lit_chars (c :: c' :: cs'))
        with (Re.Cat (Re.chr c) (Re.lit_chars (c' :: cs'))) in H.
      simpl in H. destruct H as (l1 & l2 & -> & (x & -> & Hx) & H2).
      simpl. constructor; [exact Hx | now apply IH].
Qed.

Lemma lang_alts (fl : Re.flags) (rs : list Re.re) (l : list ascii) :
  rs <> [] -> Lang.lang fl (Re.alts rs) l -> exists r, In r rs /\ Lang.lang fl r l.
Proof.
  induction rs as [ | r rs IH]; intros Hne H; [congruence | ].
  destruct rs as [ | r' rs'].
  - exists r. split; [now left | exact H].
  - change (Re.alts (r :: r' :: rs')) with (Re.Alt r (Re.alts (r' :: rs'))) in H.
    simpl in H. destruct H as [H | H].
    + exists r. split; [now left | exact H].
    + destruct (IH ltac:(discriminate) H) as (r0 & Hin & Hl).
      exists r0. split; [now right | exact Hl].
Qed.


Lemma in_all_chars (x : ascii) : In x all_chars.
Proof.
  unfold all_chars. rewrite <- (ascii_nat_embedding x).
  apply in_map, in_seq. pose proof (nat_ascii_bounded x). lia.
Qed.

(** Under [re.I] a lower-case letter of the pattern reads that letter in
    either case. *)
Lemma letter_ignorecase (c x : ascii) :
  Text.is_lower c = true ->
  Re.cls_matches Re.flag_i (Re.Cls false [Re.AChar c]) x = true ->
  Text.lower_char x = c.
Proof.
  intros Hc Hx.
  assert (C : forallb (fun c => forallb (fun x =>
                implb (Text.is_lower c
                       && Re.cls_matches Re.flag_i (Re.Cls false [Re.AChar c]) x)
                      (Ascii.eqb (Text.lower_char x) c)) all_chars) all_chars = true)
    by (vm_compute; reflexivity).
  rewrite forallb_forall in C. specialize (C c (in_all_chars c)).
  rewrite forallb_forall in C. specialize (C x (in_all_chars x)).
  rewrite Hc, Hx in C. simpl in C. now apply Ascii.eqb_eq.
Qed.

Lemma lang_lit_lower (s : string) (l : list ascii) :
  forallb Text.is_lower (Text.chars s) = true ->
  Lang.lang Re.flag_i (Re.lit s) l ->
  Text.lower (Text.text l) = s.
Proof.
  intros Hs H. apply lang_lit_chars in H.
  unfold Text.lower. rewrite chars_text. rewrite <- (text_chars s). f_equal.
  revert Hs. induction H as [ | c x cs l Hx _ IH]; intros Hs; [reflexivity | ].
  simpl in Hs. apply andb_true_iff in Hs. destruct Hs as [Hc Hcs].
  simpl. rewrite (letter_ignorecase c x Hc Hx). f_equal. now apply IH.
Qed.

Lemma month_name_group (g : string) :
  Lang.lang Re.flag_i (Re.alts (map Re.lit Classify.MONTHS)) (Text.chars g) ->
  In (Text.lower g) Classify.MONTHS.
Proof.
  intros H. apply lang_alts in H; [ | discriminate].
  destruct H as (r & Hin & Hl). apply in_map_iff in Hin.
  destruct Hin as (mth & <- & Hm).
  apply lang_lit_lower in Hl.
  - rewrite text_chars in Hl. now rewrite Hl.
  - simpl in Hm.
    repeat (destruct Hm as [<- | Hm]; [reflexivity | ]). contradiction.
Qed.

(** ** [normalize_date] raises nothing *)

Lemma grp_of (fl : Re.flags) (r body : Re.re) (n : nat) (s : string)
    (m : Re.mobj) :
  Re.search fl r s = Some m ->
  Lang.closes n r = true ->
  Lang.group_bodies n r = [body] ->
  exists g, Classify.grp n m = Ret g /\ Lang.lang fl body (Text.chars g).
Proof.
  intros Hs Hc Hb. destruct (group_of _ _ _ _ _ _ Hs Hc Hb) as (g & Eg & Hl).
  exists g. unfold Classify.grp. now rewrite Eg.
Qed.

Lemma iso_result (s : string) (m : Re.mobj) :
  Re.search Re.no_flags Classify.ISO_RX s = Some m ->
  exists d,
    (g1 <- Classify.grp 1 m ;; g2 <- Classify.grp 2 m ;; g3 <- Classify.grp 3 m ;;
     Ret (g1 ++ "-" ++ g2 ++ "-" ++ g3)) = Ret d
    /\ iso_shaped d.
Proof.
  intros H.
  destruct (grp_of _ _ (Re.digits 4 4) 1 _ _ H eq_refl eq_refl) as (g1 & E1 & L1).
  destruct (grp_of _ _ (Re.digits 2 2) 2 _ _ H eq_refl eq_refl) as (g2 & E2 & L2).
  destruct (grp_of _ _ (Re.digits 2 2) 3 _ _ H eq_refl eq_refl) as (g3 & E3 & L3).
  apply lang_digits, fixed_four_digits in L1. destruct L1 as (y & Hy & <-).
  apply lang_digits, fixed_two_digits in L2. destruct L2 as (mo & Hm & <-).
  apply lang_digits, fixed_two_digits in L3. destruct L3 as (dd & Hd & <-).
  rewrite E1, E2, E3. simpl. eexists. split; [reflexivity | ].
  exists y, mo, dd. repeat split; lia.
Qed.

Lemma length_append (a b : string) :
  String.length (a ++ b) = (String.length a + String.length b)%nat.
Proof. induction a as [ | c a IH]; simpl; [reflexivity | now rewrite IH]. Qed.

Lemma mdy_result (s : string) (m : Re.mobj) :
  Re.search Re.no_flags Classify.MDY_RX s = Some m ->
  exists d,
    (mm <- Classify.grp 1 m ;; dd <- Classify.grp 2 m ;; yy <- Classify.grp 3 m ;;
     y <- Classify.int_of (if Nat.eqb (String.length yy) 4 then yy
                           else "20" ++ Text.zfill 2 yy) ;;
     mo <- Classify.int_of mm ;;
     d <- Classify.int_of dd ;;
     Ret (Text.fmt0 4 y ++ "-" ++ Text.fmt0 2 mo ++ "-" ++ Text.fmt0 2 d)) = Ret d
    /\ iso_shaped d.
Proof.
  intros H.
  destruct (grp_of _ _ (Re.digits 1 2) 1 _ _ H eq_refl eq_refl) as (g1 & E1 & L1).
  destruct (grp_of _ _ (Re.digits 1 2) 2 _ _ H eq_refl eq_refl) as (g2 & E2 & L2).
  destruct (grp_of _ _ (Re.digits 2 4) 3 _ _ H eq_refl eq_refl) as (g3 & E3 & L3).
  apply lang_digits, int_of_two_digits in L1. destruct L1 as (mo & Emo & Hmo).
  apply lang_digits, int_of_two_digits in L2. destruct L2 as (dd & Edd & Hdd).
  apply lang_digits in L3.
  rewrite E1, E2, E3. cbn [obind].
  set (yyyy := if Nat.eqb (String.length g3) 4 then g3 else "20" ++ Text.zfill 2 g3).
  assert (Hy : digit_text 1 6 yyyy).
  { destruct L3 as (Hall & Hlen). unfold yyyy.
    destruct (Nat.eqb (String.length g3) 4) eqn:E4.
    - split; [exact Hall | lia].
    - unfold Text.zfill.
      replace (2 - String.length g3)%nat with 0%nat by lia. simpl.
      split; [exact Hall | simpl; lia]. }
  destruct (digit_text_int _ _ _ Hy (le_n 1)) as (y & Ey & Hy0).
  unfold Classify.int_of. rewrite Ey, Emo, Edd. cbn [obind].
  eexists. split; [reflexivity | ].
  exists y, mo, dd. repeat split; lia.
Qed.

Lemma index_of_in (x : string) (l : list string) :
  In x l -> exists i, Classify.index_of x l = Some i /\ (i < List.length l)%nat.
Proof.
  induction l as [ | y l IH]; simpl; [contradiction | ].
  intros H. destruct (String.eqb y x) eqn:E.
  - exists O. split; [reflexivity | lia].
  - destruct H as [-> | H]; [rewrite String.eqb_refl in E; discriminate | ].
    destruct (IH H) as (i & Ei & Hi). exists (S i). rewrite Ei. split; [reflexivity | lia].
Qed.

Lemma month_result (s : string) (m : Re.mobj) :
  Re.search Re.flag_i Classify.MONTH_RX s = Some m ->
  exists d,
    (mon_txt <- Classify.grp 1 m ;; dd <- Classify.grp 2 m ;;
     yyyy <- Classify.grp 3 m ;;
     match Classify.index_of (Text.prefix 3 (Text.lower mon_txt)) Classify.MONTHS with
     | None => Raise
     | Some i =>
         y <- Classify.int_of yyyy ;; d <- Classify.int_of dd ;;
         Ret (Text.fmt0 4 y ++ "-" ++ Text.fmt0 2 (Z.of_nat i + 1) ++ "-"
                ++ Text.fmt0 2 d)
     end) = Ret d
    /\ iso_shaped d.
Proof.
  intros H.
  destruct (grp_of _ _ (Re.alts (map Re.lit Classify.MONTHS)) 1 _ _ H eq_refl eq_refl)
    as (g1 & E1 & L1).
  destruct (grp_of _ _ (Re.digits 1 2) 2 _ _ H eq_refl eq_refl) as (g2 & E2 & L2).
  destruct (grp_of _ _ (Re.digits 4 4) 3 _ _ H eq_refl eq_refl) as (g3 & E3 & L3).
  apply month_name_group in L1.
  apply lang_digits, int_of_two_digits in L2. destruct L2 as (dd & Edd & Hdd).
  apply lang_digits in L3.
  destruct (digit_text_int _ _ _ L3 ltac:(lia)) as (y & Ey & Hy0).
  rewrite E1, E2, E3. cbn [obind].
  assert (Hp : Text.prefix 3 (Text.lower g1) = Text.lower g1).
  { simpl in L1.
    repeat (destruct L1 as [<- | L1]; [reflexivity | ]). contradiction. }
  rewrite Hp. destruct (index_of_in _ _ L1) as (i & Ei & Hi). rewrite Ei.
  unfold Classify.int_of. rewrite Ey, Edd. cbn [obind].
  eexists. split; [reflexivity | ].
  exists y, (Z.of_nat i + 1), dd. simpl in Hi. repeat split; lia.
Qed.

(** ** Dates written with digits *)

Lemma digit_tests (x : ascii) :
  Text.is_digit x = true ->
  Text.is_word x = true
  /\ Ascii.eqb "-" x = false /\ Ascii.eqb "/" x = false.
Proof.
  intros H. apply is_digit_in in H. simpl in H.
  repeat (destruct H as [<- | H]; [repeat split | ]). contradiction.
Qed.

Section SymbolicRuns.

Local Arguments Ascii.eqb : simpl never.
Local Arguments Text.is_word : simpl never.
Local Arguments Text.is_digit : simpl never.

(** The tests on the characters that are known *)
Ltac known_chars :=
  repeat match goal with
         | |- context [Ascii.eqb (Ascii ?a0 ?a1 ?a2 ?a3 ?a4 ?a5 ?a6 ?a7)
                                 (Ascii ?b0 ?b1 ?b2 ?b3 ?b4 ?b5 ?b6 ?b7)] =>
             let v := eval vm_compute in
                        (Ascii.eqb (Ascii a0 a1 a2 a3 a4 a5 a6 a7)
                                   (Ascii b0 b1 b2 b3 b4 b5 b6 b7)) in
             change (Ascii.eqb (Ascii a0 a1 a2 a3 a4 a5 a6 a7)
                               (Ascii b0 b1 b2 b3 b4 b5 b6 b7)) with v
         | |- context [Text.is_word (Ascii ?a0 ?a1 ?a2 ?a3 ?a4 ?a5 ?a6 ?a7)] =>
             let v := eval vm_compute in
                        (Text.is_word (Ascii a0 a1 a2 a3 a4 a5 a6 a7)) in
             change (Text.is_word (Ascii a0 a1 a2 a3 a4 a5 a6 a7)) with v
         | |- context [Text.is_digit (Ascii ?a0 ?a1 ?a2 ?a3 ?a4 ?a5 ?a6 ?a7)] =>
             let v := eval vm_compute in
                        (Text.is_digit (Ascii a0 a1 a2 a3 a4 a5 a6 a7)) in
             change (Text.is_digit (Ascii a0 a1 a2 a3 a4 a5 a6 a7)) with v
         end.

(** The tests on the characters that are digits *)
Ltac digit_chars :=
  repeat match goal with
         | H : Text.is_digit ?x = true |- _ =>
             lazymatch goal with
             | _ : Text.is_word x = true |- _ => fail
             | _ => destruct (digit_tests x H) as (? & ? & ?)
             end
         end.

Ltac use_tests :=
  repeat match goal with
         | H : _ = true |- _ => rewrite H
         | H : _ = false |- _ => rewrite H
         end.

Ltac run_matcher := repeat (progress (cbn; known_chars; use_tests)).

Ltac split_digits H :=
  repeat match type of H with
         | Forall _ (_ :: _) =>
             let H1 := fresh "D" in
             let H2 := fresh "R" in
             inversion H as [ | ? ? H1 H2]; subst; clear H; rename H2 into H
         end.

Lemma us_date_search (mm dd yy : list ascii) :
  Forall (fun c => Text.is_digit c = true) mm -> (1 <= List.length mm <= 2)%nat ->
  Forall (fun c => Text.is_digit c = true) dd -> (1 <= List.length dd <= 2)%nat ->
  Forall (fun c => Text.is_digit c = true) yy -> (2 <= List.length yy <= 4)%nat ->
  let s := Text.text (mm ++ "/"%char :: dd ++ "/"%char :: yy) in
  Re.search Re.no_flags Classify.ISO_RX s = None
  /\ exists m,
       Re.search Re.no_flags Classify.MDY_RX s = Some m
       /\ Re.group 1 m = Some (Text.text mm)
       /\ Re.group 2 m = Some (Text.text dd)
       /\ Re.group 3 m = Some (Text.text yy).
Proof.
  intros Hm Lm Hd Ld Hy Ly.
  destruct mm as [ | m1 [ | m2 [ | ? ?]]]; simpl in Lm; try lia;
  destruct dd as [ | d1 [ | d2 [ | ? ?]]]; simpl in Ld; try lia;
  destruct yy as [ | y1 [ | y2 [ | y3 [ | y4 [ | ? ?]]]]]; simpl in Ly; try lia;
  split_digits Hm; split_digits Hd; split_digits Hy; digit_chars;
  unfold Re.search;
  (split; [run_matcher; reflexivity | ]);
  eexists; (split; [run_matcher; reflexivity | ]);
  repeat split.
Qed.

Lemma iso_date_search (yy mm dd : list ascii) :
  Forall (fun c => Text.is_digit c = true) yy -> List.length yy = 4%nat ->
  Forall (fun c => Text.is_digit c = true) mm -> List.length mm = 2%nat ->
  Forall (fun c => Text.is_digit c = true) dd -> List.length dd = 2%nat ->
  exists m,
    Re.search Re.no_flags Classify.ISO_RX
      (Text.text (yy ++ "-"%char :: mm ++ "-"%char :: dd)) = Some m
    /\ Re.group 1 m = Some (Text.text yy)
    /\ Re.group 2 m = Some (Text.text mm)
    /\ Re.group 3 m = Some (Text.text dd).
Proof.
  intros Hy Ly Hm Lm Hd Ld.
  destruct yy as [ | y1 [ | y2 [ | y3 [ | y4 [ | ? ?]]]]]; try discriminate Ly;
  destruct mm as [ | m1 [ | m2 [ | ? ?]]]; try discriminate Lm;
  destruct dd as [ | d1 [ | d2 [ | ? ?]]]; try discriminate Ld;
  split_digits Hm; split_digits Hd; split_digits Hy; digit_chars;
  unfold Re.search;
  eexists; (split; [run_matcher; reflexivity | ]);
  repeat split.
Qed.

End SymbolicRuns.

Lemma text_app (a b : list ascii) :
  Text.text (a ++ b) = Text.text a ++ Text.text b.
Proof. induction a as [ | c a IH]; simpl; [reflexivity | now rewrite IH]. Qed.

Lemma slash_ignorecase (x : ascii) :
  Re.cls_matches Re.flag_i (Re.Cls false [Re.AChar "/"]) x = true -> x = "/"%char.
Proof.
  intros Hx.
  assert (C : forallb (fun x =>
                implb (Re.cls_matches Re.flag_i (Re.Cls false [Re.AChar "/"]) x)
                      (Ascii.eqb x "/")) all_chars = true)
    by (vm_compute; reflexivity).
  rewrite forallb_forall in C. specialize (C x (in_all_chars x)).
  rewrite Hx in C. now apply Ascii.eqb_eq.
Qed.

Lemma digits_forall (fl : Re.flags) (lo hi : nat) (l : list ascii) :
  Lang.lang fl (Re.digits lo hi) l ->
  Forall (fun c => Text.is_digit c = true) l /\ (lo <= List.length l <= hi)%nat.
Proof.
  simpl. intros (Hall & Hlo & Hhi). split; [ | lia].
  apply Forall_forall. intros c Hc. rewrite forallb_forall in Hall.
  rewrite <- (cls_digit fl). now apply Hall.
Qed.

(** The branches of [normalize_date] on a text that is not empty *)
Lemma normalize_date_branches (today : date) (fuel : nat) (s : string) :
  s <> "" ->
  Classify.normalize_date_fuel (S fuel) today (Some s)
  = match Re.search Re.no_flags Classify.ISO_RX s with
    | Some m =>
        Some (g1 <- Classify.grp 1 m ;; g2 <- Classify.grp 2 m ;;
              g3 <- Classify.grp 3 m ;; Ret (g1 ++ "-" ++ g2 ++ "-" ++ g3))
    | None =>
    match Re.search Re.no_flags Classify.MDY_RX s with
    | Some m =>
        Some (mm <- Classify.grp 1 m ;; dd <- Classify.grp 2 m ;;
              yy <- Classify.grp 3 m ;;
              y <- Classify.int_of (if Nat.eqb (String.length yy) 4 then yy
                                    else "20" ++ Text.zfill 2 yy) ;;
              mo <- Classify.int_of mm ;; d <- Classify.int_of dd ;;
              Ret (Text.fmt0 4 y ++ "-" ++ Text.fmt0 2 mo ++ "-" ++ Text.fmt0 2 d))
    | None =>
    match Re.search Re.flag_i Classify.MONTH_RX s with
    | Some m =>
        Some (mon_txt <- Classify.grp 1 m ;; dd <- Classify.grp 2 m ;;
              yyyy <- Classify.grp 3 m ;;
              match Classify.index_of (Text.prefix 3 (Text.lower mon_txt))
                      Classify.MONTHS with
              | None => Raise
              | Some i =>
                  y <- Classify.int_of yyyy ;; d <- Classify.int_of dd ;;
                  Ret (Text.fmt0 4 y ++ "-" ++ Text.fmt0 2 (Z.of_nat i + 1) ++ "-"
                         ++ Text.fmt0 2 d)
              end)
    | None =>
    match Re.search Re.flag_i Classify.DRAW_DATE_RX s with
    | Some m => Classify.normalize_date_fuel fuel today (Re.group 1 m)
    | None => Some (Ret (Text.prefix 10 s))
    end end end end.
Proof.
  intros Hs. destruct s as [ | c s]; [congruence | reflexivity].
Qed.

Lemma us_date_result (today : date) (fuel : nat) (mm dd yy : list ascii) :
  Forall (fun c => Text.is_digit c = true) mm -> (1 <= List.length mm <= 2)%nat ->
  Forall (fun c => Text.is_digit c = true) dd -> (1 <= List.length dd <= 2)%nat ->
  Forall (fun c => Text.is_digit c = true) yy -> (2 <= List.length yy <= 4)%nat ->
  Classify.normalize_date_fuel (S fuel) today
    (Some (Text.text (mm ++ "/"%char :: dd ++ "/"%char :: yy)))
  = Some (y <- Classify.int_of (if Nat.eqb (List.length yy) 4 then Text.text yy
                                else "20" ++ Text.text yy) ;;
          mo <- Classify.int_of (Text.text mm) ;;
          d <- Classify.int_of (Text.text dd) ;;
          Ret (Text.fmt0 4 y ++ "-" ++ Text.fmt0 2 mo ++ "-" ++ Text.fmt0 2 d)).
Proof.
  intros Hm Lm Hd Ld Hy Ly.
  destruct (us_date_search mm dd yy Hm Lm Hd Ld Hy Ly) as (Eiso & m & Emdy & G1 & G2 & G3).
  rewrite normalize_date_branches.
  - rewrite Eiso, Emdy. unfold Classify.grp. rewrite G1, G2, G3. cbn [obind].
    rewrite length_text. unfold Text.zfill. rewrite length_text.
    replace (2 - List.length yy)%nat with 0%nat by lia. reflexivity.
  - destruct mm; [simpl in Lm; lia | simpl; discriminate].
Qed.

Lemma forall_digits_text (lo hi : nat) (l : list ascii) :
  Forall (fun c => Text.is_digit c = true) l -> (lo <= List.length l <= hi)%nat ->
  digit_text lo hi (Text.text l).
Proof.
  intros H Hl. split; [ | now rewrite length_text].
  rewrite chars_text. apply forallb_forall. now apply Forall_forall.
Qed.

Lemma us_text_result (today : date) (fuel : nat) (fl : Re.flags) (g : string) :
  (forall x, Re.cls_matches fl (Re.Cls false [Re.AChar "/"]) x = true -> x = "/"%char) ->
  Lang.lang fl (Re.seq [Re.digits 1 2; Re.chr "/"; Re.digits 1 2; Re.chr "/";
                        Re.digits 2 4]) (Text.chars g) ->
  exists d,
    Classify.normalize_date_fuel (S fuel) today (Some g) = Some (Ret d)
    /\ iso_shaped d.
Proof.
  intros Hslash L.
  rewrite <- (text_chars g). revert L. generalize (Text.chars g). clear g.
  intros l L. cbn [Re.seq Lang.lang Re.chr] in L.
  destruct L as (mm & r1 & -> & Lm & r2 & r3 & -> & (x1 & -> & Hx1)
                 & dd & r4 & -> & Ld & r5 & yy & -> & (x2 & -> & Hx2) & Ly).
  apply Hslash in Hx1, Hx2. subst x1 x2.
  apply digits_forall in Lm, Ld, Ly.
  destruct Lm as [Hm Lm], Ld as [Hd Ld], Ly as [Hy Ly].
  cbn [app]. rewrite us_date_result by assumption.
  pose proof (forall_digits_text _ _ _ Hm Lm) as Tm.
  pose proof (forall_digits_text _ _ _ Hd Ld) as Td.
  apply int_of_two_digits in Tm, Td.
  destruct Tm as (mo & Emo & Hmo), Td as (d & Ed & Hdd).
  assert (Ty : digit_text 1 6 (if Nat.eqb (List.length yy) 4 then Text.text yy
                               else "20" ++ Text.text yy)).
  { destruct (Nat.eqb (List.length yy) 4).
    - apply forall_digits_text; [exact Hy | lia].
    - change ("20" ++ Text.text yy) with (Text.text ("2"%char :: "0"%char :: yy)).
      apply forall_digits_text; [ | simpl; lia].
      repeat constructor. exact Hy. }
  destruct (digit_text_int _ _ _ Ty (le_n 1)) as (y & Ey & Hy0).
  unfold Classify.int_of. rewrite Ey, Emo, Ed. cbn [obind].
  eexists. split; [reflexivity | ].
  exists y, mo, d. repeat split; lia.
Qed.

Lemma draw_result (today : date) (fuel : nat) (s : string) (m : Re.mobj) :
  Re.search Re.flag_i Classify.DRAW_DATE_RX s = Some m ->
  exists d,
    Classify.normalize_date_fuel (S fuel) today (Re.group 1 m) = Some (Ret d)
    /\ iso_shaped d.
Proof.
  intros H.
  destruct (group_of _ _
              (Re.seq [Re.digits 1 2; Re.chr "/"; Re.digits 1 2; Re.chr "/";
                       Re.digits 2 4]) 1 _ _ H eq_refl eq_refl) as (g & -> & L).
  now apply (us_text_result today fuel Re.flag_i g slash_ignorecase).
Qed.

(** ** The result of [normalize_date] *)

Lemma normalize_date_classified :
  forall (today : date) (any_text : option string),
    exists d,
      Classify.normalize_date today any_text = Some (Ret d)
      /\ (Snaps.or_empty any_text = "" -> d = date_isoformat today)
      /\ (forall s, any_text = Some s -> s <> "" ->
            (Spec.no_date_shape s -> d = Text.prefix 10 s)
            /\ (~ Spec.no_date_shape s -> iso_shaped d)).
Proof.
  intros today [s | ];
    [ | exists (date_isoformat today);
        split; [reflexivity | split; [reflexivity | discriminate]]].
  destruct (string_dec s "") as [-> | Hne].
  { exists (date_isoformat today).
    split; [reflexivity | split; [reflexivity | ]].
    intros s' E Hs. inversion E; subst. congruence. }
  unfold Classify.normalize_date. cbn [Snaps.or_empty].
  rewrite (normalize_date_branches today _ s Hne).
  assert (Hlen : exists f, String.length s = S f).
  { destruct s; [congruence | simpl; eauto]. }
  destruct Hlen as (f & ->).
  unfold Spec.no_date_shape.
  destruct (Re.search Re.no_flags Classify.ISO_RX s) as [m | ] eqn:E1.
  { destruct (iso_result _ _ E1) as (d & -> & Hs). exists d.
    split; [reflexivity | split; [intros E; simpl in E; congruence | ]].
    intros s' E _. inversion E; subst s'.
    split; [intros (H1 & H2 & H3 & H4); congruence | intros _; exact Hs]. }
  destruct (Re.search Re.no_flags Classify.MDY_RX s) as [m | ] eqn:E2.
  { destruct (mdy_result _ _ E2) as (d & -> & Hs). exists d.
    split; [reflexivity | split; [intros E; simpl in E; congruence | ]].
    intros s' E _. inversion E; subst s'.
    split; [intros (H1 & H2 & H3 & H4); congruence | intros _; exact Hs]. }
  destruct (Re.search Re.flag_i Classify.MONTH_RX s) as [m | ] eqn:E3.
  { destruct (month_result _ _ E3) as (d & -> & Hs). exists d.
    split; [reflexivity | split; [intros E; simpl in E; congruence | ]].
    intros s' E _. inversion E; subst s'.
    split; [intros (H1 & H2 & H3 & H4); congruence | intros _; exact Hs]. }
  destruct (Re.search Re.flag_i Classify.DRAW_DATE_RX s) as [m | ] eqn:E4.
  { destruct (draw_result today f _ _ E4) as (d & -> & Hs). exists d.
    split; [reflexivity | split; [intros E; simpl in E; congruence | ]].
    intros s' E _. inversion E; subst s'.
    split; [intros (H1 & H2 & H3 & H4); congruence | intros _; exact Hs]. }
  exists (Text.prefix 10 s).
  split; [reflexivity | split; [intros E; simpl in E; congruence | ]].
  intros s' E _. inversion E; subst s'.
  split; [reflexivity | intros Hn; exfalso; apply Hn; auto].
Qed.

(** X15.  On ASCII text [normalize_date] raises nothing and always gives a
    text back.  For no text or the empty one it is the day of the run; for a
    text with none of the date shapes, its first ten characters; for every
    other text a date written with digits and hyphens: a year of four digits
    or more (a year given with three digits is read as 20 followed by them),
    a month and a day of two digits. *)
Theorem normalize_date_result :
  forall (today : date) (any_text : option string),
    is_ascii (Snaps.or_empty any_text) = true ->
    exists d,
      Classify.normalize_date today any_text = Some (Ret d)
      /\ (Snaps.or_empty any_text = "" -> d = date_isoformat today)
      /\ (forall s, any_text = Some s -> s <> "" ->
            (Spec.no_date_shape s -> d = Text.prefix 10 s)
            /\ (~ Spec.no_date_shape s -> iso_shaped d)).
Proof.
  intros today any_text _.
  destruct (normalize_date_classified today any_text) as (d & H).
  exists d. exact H.
Qed.

(** The witness of X15: a text without date shape and a date with the name
    of the month. *)
Lemma normalize_date_result_witness :
  is_ascii "Sep 13, 2025" = true
  /\ exists d,
       Classify.normalize_date (mkDate 2025 9 14) (Some "Sep 13, 2025")
       = Some (Ret d)
       /\ iso_shaped d.
Proof.
  split; [reflexivity | ].
  destruct (normalize_date_result (mkDate 2025 9 14) (Some "Sep 13, 2025") eq_refl)
    as (d & E & _ & H).
  exists d. split; [exact E | ].
  apply (H "Sep 13, 2025" eq_refl); [discriminate | ].
  intros (_ & _ & Hm & _). vm_compute in Hm. discriminate.
Defined.


(** ** Dates that [normalize_date] reads back *)


Lemma padded_ok_spec (w : nat) (z : Z) :
  padded_ok w z = true ->
  Forall (fun c => Text.is_digit c = true) (Text.chars (Text.fmt0 w z))
  /\ List.length (Text.chars (Text.fmt0 w z)) = w
  /\ Text.int_of_str (Text.fmt0 w z) = Some z.
Proof.
  unfold padded_ok. rewrite !andb_true_iff, Nat.eqb_eq, forallb_forall.
  intros [[Hd Hl] Hv]. split; [now apply Forall_forall | split].
  - now rewrite length_chars.
  - destruct (Text.int_of_str (Text.fmt0 w z)); [ | discriminate].
    apply Z.eqb_eq in Hv. now subst.
Qed.

Lemma fmt0_2_ok (z : Z) : 0 <= z < 100 -> padded_ok 2 z = true.
Proof. apply (all_below (padded_ok 2) 100). vm_compute. reflexivity. Qed.

Lemma fmt0_4_ok (z : Z) : 0 <= z < 10000 -> padded_ok 4 z = true.
Proof. apply (all_below (padded_ok 4) 10000). vm_compute. reflexivity. Qed.


Lemma plain_ok_spec (lo hi : nat) (z : Z) :
  plain_ok lo hi z = true ->
  Forall (fun c => Text.is_digit c = true) (Text.chars (Text.str_of_Z z))
  /\ (lo <= List.length (Text.chars (Text.str_of_Z z)) <= hi)%nat.
Proof.
  unfold plain_ok. rewrite !andb_true_iff, !Nat.leb_le, forallb_forall.
  intros [[Hd Hl] Hh]. split; [now apply Forall_forall | ].
  rewrite length_chars. lia.
Qed.

Lemma str_two_ok (z : Z) : 0 <= z < 100 -> plain_ok 1 2 z = true.
Proof. apply (all_below (plain_ok 1 2) 100). vm_compute. reflexivity. Qed.

Lemma str_four_ok (z : Z) :
  1000 <= z < 10000 ->
  plain_ok 4 4 z = true /\ Text.str_of_Z z = Text.fmt0 4 z.
Proof.
  intros Hz.
  assert (H : (Z.ltb z 1000
               || (plain_ok 4 4 z && String.eqb (Text.str_of_Z z) (Text.fmt0 4 z)))
              = true).
  { apply (all_below
             (fun z => Z.ltb z 1000
                       || (plain_ok 4 4 z
                           && String.eqb (Text.str_of_Z z) (Text.fmt0 4 z))) 10000);
      [vm_compute; reflexivity | lia]. }
  apply orb_true_iff in H. destruct H as [H | H]; [apply Z.ltb_lt in H; lia | ].
  apply andb_true_iff in H. destruct H as [H1 H2].
  now apply String.eqb_eq in H2.
Qed.

Lemma century_ok (z : Z) :
  0 <= z < 100 -> Text.int_of_str ("20" ++ Text.fmt0 2 z) = Some (2000 + z).
Proof.
  intros Hz.
  assert (H : match Text.int_of_str ("20" ++ Text.fmt0 2 z) with
              | Some v => Z.eqb v (2000 + z)
              | None => false
              end = true).
  { apply (all_below
             (fun z => match Text.int_of_str ("20" ++ Text.fmt0 2 z) with
                       | Some v => Z.eqb v (2000 + z)
                       | None => false
                       end) 100); [vm_compute; reflexivity | lia]. }
  destruct (Text.int_of_str ("20" ++ Text.fmt0 2 z)); [ | discriminate].
  apply Z.eqb_eq in H. now subst.
Qed.

Lemma text_date (a b c : string) (sep : ascii) :
  Text.text (Text.chars a ++ sep :: Text.chars b ++ sep :: Text.chars c)
  = a ++ String sep "" ++ b ++ String sep "" ++ c.
Proof.
  rewrite text_app. simpl. rewrite text_app. simpl. now rewrite !text_chars.
Qed.

(** X16.  [normalize_date] reads back what it writes: an ISO date comes
    back as it is; month/day/year with a year of four digits gives the same
    ISO date as the parts do; and a year of two digits is taken as a year
    of this century.  Nothing checks that the month and the day are of the
    calendar. *)
Theorem normalize_date_reads_dates :
  forall (today : date) (y m dd : Z),
    0 <= y <= 9999 -> 0 <= m <= 99 -> 0 <= dd <= 99 ->
    Classify.normalize_date today (Some (date_isoformat (mkDate y m dd)))
    = Some (Ret (date_isoformat (mkDate y m dd)))
    /\ (1000 <= y ->
        Classify.normalize_date today
          (Some (Text.str_of_Z m ++ "/" ++ Text.str_of_Z dd ++ "/" ++ Text.str_of_Z y))
        = Some (Ret (date_isoformat (mkDate y m dd))))
    /\ (y <= 99 ->
        Classify.normalize_date today
          (Some (Text.str_of_Z m ++ "/" ++ Text.str_of_Z dd ++ "/" ++ Text.fmt0 2 y))
        = Some (Ret (date_isoformat (mkDate (2000 + y) m dd)))).
Proof.
  intros today y m dd Hy Hm Hd.
  destruct (padded_ok_spec 4 y (fmt0_4_ok y ltac:(lia))) as (Dy & Ly & Iy).
  destruct (padded_ok_spec 2 m (fmt0_2_ok m ltac:(lia))) as (Dm & Lm & Im).
  destruct (padded_ok_spec 2 dd (fmt0_2_ok dd ltac:(lia))) as (Dd & Ld & Id).
  destruct (plain_ok_spec 1 2 m (str_two_ok m ltac:(lia))) as (Pm & Qm).
  destruct (plain_ok_spec 1 2 dd (str_two_ok dd ltac:(lia))) as (Pd & Qd).
  unfold Classify.normalize_date, date_isoformat. cbn [year month day Snaps.or_empty].
  split; [ | split].
  - destruct (iso_date_search _ _ _ Dy Ly Dm Lm Dd Ld) as (mo & Es & G1 & G2 & G3).
    rewrite text_date in Es.
    rewrite normalize_date_branches.
    + rewrite Es.
      unfold Classify.grp. rewrite G1, G2, G3. cbn [obind].
      now rewrite !text_chars.
    + intros E. apply (f_equal String.length) in E.
      rewrite length_append, <- length_chars, Ly in E. discriminate.
  - intros Hy4. destruct (str_four_ok y ltac:(lia)) as (Py & Ey).
    apply plain_ok_spec in Py. destruct Py as (Py & Qy).
    pose proof (us_date_result today
                  (String.length (Text.str_of_Z m ++ "/" ++ Text.str_of_Z dd ++ "/"
                                    ++ Text.str_of_Z y)) _ _ _ Pm Qm Pd Qd Py
                  ltac:(lia)) as H.
    rewrite text_date in H. rewrite H. replace (List.length (Text.chars (Text.str_of_Z y))) with 4%nat by lia.
    cbn [Nat.eqb]. rewrite !text_chars. unfold Classify.int_of.
    rewrite !int_of_str_of_Z. reflexivity.
  - intros Hy2.
    destruct (padded_ok_spec 2 y (fmt0_2_ok y ltac:(lia))) as (Dy2 & Ly2 & Iy2).
    pose proof (us_date_result today
                  (String.length (Text.str_of_Z m ++ "/" ++ Text.str_of_Z dd ++ "/"
                                    ++ Text.fmt0 2 y)) _ _ _ Pm Qm Pd Qd Dy2
                  ltac:(lia)) as H.
    rewrite text_date in H. rewrite H. rewrite Ly2. cbn [Nat.eqb]. rewrite !text_chars.
    unfold Classify.int_of. rewrite century_ok by lia.
    rewrite !int_of_str_of_Z. reflexivity.
Qed.

(** The witness of X16. *)
Lemma normalize_date_reads_dates_witness :
  Classify.normalize_date (mkDate 2025 9 14) (Some "2025-09-13")
  = Some (Ret "2025-09-13")
  /\ Classify.normalize_date (mkDate 2025 9 14) (Some "9/13/2025")
     = Some (Ret "2025-09-13").
Proof.
  destruct (normalize_date_reads_dates (mkDate 2025 9 14) 2025 9 13)
    as (H1 & H2 & _); [lia | lia | lia | ].
  split; [exact H1 | apply H2; lia].
Defined.

(** ** Substitution of single characters *)

Lemma search_from_start (fl : Re.flags) (r : Re.re) (subj : list ascii)
    (s : list ascii) :
  forall (p : nat) (pv : option ascii) (m : Re.mobj),
    Re.search_from fl r subj p pv s = Some m -> (p <= Re.m_start m)%nat.
Proof.
  induction s as [ | x s IH]; intros p pv m H; simpl in H.
  - destruct (Re.run fl r _ Some); [ | discriminate]. inversion H; subst; simpl. lia.
  - destruct (Re.run fl r _ Some).
    + inversion H; subst; simpl. lia.
    + apply IH in H. lia.
Qed.

Lemma skipn_nth (subj : list ascii) (p : nat) (x : ascii) (s : list ascii) :
  skipn p subj = x :: s ->
  nth_error subj p = Some x /\ skipn (S p) subj = s.
Proof.
  revert subj. induction p as [ | p IH]; intros [ | y subj] H; simpl in *;
    try discriminate.
  - inversion H. auto.
  - now apply IH.
Qed.

Lemma slice_step (subj : list ascii) (p q : nat) (x : ascii) (s : list ascii) :
  skipn p subj = x :: s -> (S p <= q)%nat ->
  Text.slice p q subj = x :: Text.slice (S p) q subj.
Proof.
  intros H Hq. unfold Text.slice. destruct (skipn_nth _ _ _ _ H) as [_ Hs].
  rewrite H, Hs. replace (q - p)%nat with (S (q - S p)) by lia. reflexivity.
Qed.

Lemma sub_pieces_step (subj : list ascii) (p : nat) (x : ascii) (s : list ascii)
    (ms : list Re.mobj) (repl : list ascii) :
  skipn p subj = x :: s ->
  match ms with
  | [] => True
  | m :: _ => (S p <= Re.m_start m)%nat
  end ->
  ReMore.sub_pieces subj p ms repl = x :: ReMore.sub_pieces subj (S p) ms repl.
Proof.
  intros H Hm. destruct ms as [ | m ms]; cbn [ReMore.sub_pieces].
  - destruct (skipn_nth _ _ _ _ H) as [_ Hs]. now rewrite H, Hs.
  - now rewrite (slice_step subj p (Re.m_start m) x s H Hm).
Qed.

Lemma slice_empty (subj : list ascii) (p : nat) : Text.slice p p subj = [].
Proof. unfold Text.slice. now rewrite Nat.sub_diag. Qed.

Lemma finditer_start (fuel : nat) (fl : Re.flags) (r : Re.re)
    (subj : list ascii) (p : nat) :
  match Re.finditer_fuel fuel fl r subj p with
  | [] => True
  | m :: _ => (p <= Re.m_start m)%nat
  end.
Proof.
  destruct fuel as [ | fuel]; simpl; [exact I | ].
  destruct (Re.search_from fl r subj p _ (skipn p subj)) as [m | ] eqn:E; [ | exact I].
  now apply search_from_start in E.
Qed.

Lemma finditer_unfold (fuel : nat) (fl : Re.flags) (r : Re.re)
    (subj : list ascii) (p : nat) :
  Re.finditer_fuel (S fuel) fl r subj p
  = match Re.search_from fl r subj p
            (match p with O => None | S q => nth_error subj q end)
            (skipn p subj) with
    | None => []
    | Some m =>
        m :: Re.finditer_fuel fuel fl r subj
               (if Nat.eqb (Re.m_end m) (Re.m_start m) then S (Re.m_end m)
                else Re.m_end m)
    end.
Proof. reflexivity. Qed.

(** Replacing every character of a class: the other characters stay. *)
Lemma sub_one_class (fl : Re.flags) (c : Re.cls) (repl : list ascii)
    (subj : list ascii) (s : list ascii) :
  forall (fuel p : nat),
    skipn p subj = s -> (List.length s < fuel)%nat ->
    ReMore.sub_pieces subj p (Re.finditer_fuel fuel fl (Re.One c) subj p) repl
    = flat_map (fun x => if Re.cls_matches fl c x then repl else [x]) s.
Proof.
  induction s as [ | x s IH]; intros fuel p Hs Hf.
  - destruct fuel as [ | fuel]; [simpl in Hf; lia | ].
    simpl. rewrite Hs. simpl. exact Hs.
  - destruct fuel as [ | fuel]; [simpl in Hf; lia | ].
    destruct (skipn_nth _ _ _ _ Hs) as [Hn Hs'].
    rewrite finditer_unfold, Hs. cbn [Re.search_from Re.run Re.rest].
    cbn [flat_map]. destruct (Re.cls_matches fl c x) eqn:Ex.
    + cbn [Re.m_end Re.m_start Re.pos ReMore.sub_pieces].
      replace (Nat.eqb (S p) p) with false by (symmetry; apply Nat.eqb_neq; lia).
      rewrite slice_empty. simpl app at 1.
      rewrite (IH fuel (S p) Hs'); [reflexivity | simpl in Hf; lia].
    + assert (E : match Re.search_from fl (Re.One c) subj (S p) (Some x) s with
                  | None => []
                  | Some m =>
                      m :: Re.finditer_fuel fuel fl (Re.One c) subj
                             (if Nat.eqb (Re.m_end m) (Re.m_start m)
                              then S (Re.m_end m) else Re.m_end m)
                  end = Re.finditer_fuel (S fuel) fl (Re.One c) subj (S p)).
      { rewrite finditer_unfold. now rewrite Hn, Hs'. }
      rewrite E. rewrite (sub_pieces_step subj p x s _ repl Hs).
      * cbn [app]. f_equal. apply IH; [exact Hs' | simpl in Hf; lia].
      * apply finditer_start.
Qed.

Lemma digits_only_filter (s : string) :
  Harvest.digits_only s = Text.text (filter Text.is_digit (Text.chars s)).
Proof.
  unfold Harvest.digits_only, ReMore.sub. f_equal.
  rewrite (sub_one_class _ _ _ _ (Text.chars s)); [ | reflexivity | rewrite length_chars; lia].
  induction (Text.chars s) as [ | x l IH]; [reflexivity | ].
  cbn [flat_map filter]. rewrite IH.
  change (Re.cls_matches Re.no_flags (Re.Cls true [Re.ADigit]) x)
    with (negb (Re.cls_matches Re.no_flags Re.digit x)).
  rewrite cls_digit. destruct (Text.is_digit x); reflexivity.
Qed.

(** ** [_coerce_int] *)

Lemma isdigit_filtered (l : list ascii) :
  Harvest.isdigit (Text.text (filter Text.is_digit l))
  = negb (forallb (fun c => negb (Text.is_digit c)) l).
Proof.
  unfold Harvest.isdigit. rewrite chars_text.
  assert (Hall : forallb Text.is_digit (filter Text.is_digit l) = true).
  { apply forallb_forall. intros c Hc. now apply filter_In in Hc. }
  rewrite Hall, andb_true_r. f_equal. clear Hall.
  induction l as [ | c l IH]; [reflexivity | ].
  simpl. destruct (Text.is_digit c); simpl; [reflexivity | exact IH].
Qed.

Lemma coerce_int_unfold (s : string) :
  Harvest._coerce_int (Some s)
  = if forallb (fun c => negb (Text.is_digit c)) (Text.chars s) then Ret None
    else if Nat.ltb Harvest.MAX_STR_DIGITS
              (List.length (filter Text.is_digit (Text.chars s)))
         then Raise
         else match Text.int_of_str
                      (Text.text (filter Text.is_digit (Text.chars s))) with
              | Some v => Ret (Some v)
              | None => Raise
              end.
Proof.
  unfold Harvest._coerce_int. rewrite digits_only_filter, isdigit_filtered.
  rewrite length_text. unfold Classify.int_of.
  destruct (forallb _ _); [reflexivity | ].
  destruct (Nat.ltb _ _); [reflexivity | ].
  destruct (Text.int_of_str _); reflexivity.
Qed.

Lemma str_of_Z_digits (z : Z) :
  0 <= z -> forallb Text.is_digit (Text.chars (Text.str_of_Z z)) = true.
Proof.
  intros Hz. destruct z as [ | p | p]; [reflexivity | | lia].
  apply uint_chars_digits.
Qed.

Lemma str_of_Z_neg (p : positive) :
  Text.str_of_Z (Z.neg p) = String "-" (Text.str_of_Z (Z.pos p)).
Proof. reflexivity. Qed.

Lemma filter_none {A : Type} (p : A -> bool) (l : list A) :
  forallb (fun x => negb (p x)) l = true -> filter p l = [].
Proof.
  induction l as [ | a l IH]; simpl; [reflexivity | ].
  intros H. apply andb_true_iff in H. destruct H as [Ha Hl].
  destruct (p a); [discriminate | auto].
Qed.

(** X17.  [_coerce_int] reads the digits of a text and nothing else.  It
    gives [None] for no text and for a text without digit, and only then.
    It raises exactly when the text holds more than 4300 digits, the most
    that [int] reads.  The number is never negative, so the sign of a
    written number is lost; and what stands between the digits, a comma or
    a point as well, does not change the result. *)
Theorem coerce_int_digits :
  Harvest._coerce_int None = Ret None
  /\ (forall s,
        Harvest._coerce_int (Some s) = Ret None
        <-> forallb (fun c => negb (Text.is_digit c)) (Text.chars s) = true)
  /\ (forall s,
        Harvest._coerce_int (Some s) = Raise
        <-> (Harvest.MAX_STR_DIGITS
             < List.length (filter Text.is_digit (Text.chars s)))%nat)
  /\ (forall s n, Harvest._coerce_int (Some s) = Ret (Some n) -> 0 <= n)
  /\ (forall z,
        (String.length (Text.str_of_Z (Z.abs z)) <= Harvest.MAX_STR_DIGITS)%nat ->
        Harvest._coerce_int (Some (Text.str_of_Z z)) = Ret (Some (Z.abs z)))
  /\ (forall a sep b,
        forallb (fun c => negb (Text.is_digit c)) (Text.chars sep) = true ->
        Harvest._coerce_int (Some (a ++ sep ++ b))
        = Harvest._coerce_int (Some (a ++ b))).
Proof.
  assert (Hint : forall l, forallb (fun c => negb (Text.is_digit c)) l = false ->
                   exists v, Text.int_of_str (Text.text (filter Text.is_digit l)) = Some v
                             /\ 0 <= v).
  { intros l Hl. apply (digit_text_int 1 (List.length (filter Text.is_digit l))); [ | lia].
    split.
    - rewrite chars_text. apply forallb_forall. intros c Hc. now apply filter_In in Hc.
    - rewrite length_text. split; [ | lia].
      destruct (filter Text.is_digit l) eqn:E; [ | simpl; lia].
      exfalso. clear - Hl E. induction l as [ | c l IH]; [discriminate | ].
      simpl in *. destruct (Text.is_digit c); [discriminate | auto]. }
  split; [reflexivity | split; [ | split; [ | split; [ | split]]]].
  - intros s. rewrite coerce_int_unfold.
    destruct (forallb _ (Text.chars s)) eqn:E; [tauto | ].
    destruct (Nat.ltb _ _); [split; discriminate | ].
    destruct (Hint _ E) as (v & -> & _). split; discriminate.
  - intros s. rewrite coerce_int_unfold.
    destruct (forallb _ (Text.chars s)) eqn:E.
    + rewrite (filter_none _ _ E). unfold Harvest.MAX_STR_DIGITS. simpl.
      split; [discriminate | lia].
    + destruct (Nat.ltb _ _) eqn:L.
      * apply Nat.ltb_lt in L. tauto.
      * apply Nat.ltb_ge in L. destruct (Hint _ E) as (v & -> & _).
        split; [discriminate | lia].
  - intros s n. rewrite coerce_int_unfold.
    destruct (forallb _ (Text.chars s)) eqn:E; [discriminate | ].
    destruct (Nat.ltb _ _); [discriminate | ].
    destruct (Hint _ E) as (v & -> & Hv). intros H. inversion H; subst. exact Hv.
  - intros z Hlen. rewrite coerce_int_unfold.
    assert (Hpos : forall y, 0 <= y ->
              (String.length (Text.str_of_Z y) <= Harvest.MAX_STR_DIGITS)%nat ->
              (if forallb (fun c => negb (Text.is_digit c)) (Text.chars (Text.str_of_Z y))
               then Ret None
               else if Nat.ltb Harvest.MAX_STR_DIGITS
                         (List.length
                            (filter Text.is_digit (Text.chars (Text.str_of_Z y))))
                    then Raise
                    else match Text.int_of_str
                                 (Text.text
                                    (filter Text.is_digit
                                       (Text.chars (Text.str_of_Z y)))) with
                         | Some v => Ret (Some v)
                         | None => Raise
                         end)
              = Ret (Some y)).
    { intros y Hy Hl. pose proof (str_of_Z_digits y Hy) as Hd.
      rewrite (filter_all _ _ Hd), text_chars, int_of_str_of_Z, length_chars.
      apply Nat.ltb_ge in Hl. rewrite Hl.
      destruct (Text.chars (Text.str_of_Z y)) as [ | c l] eqn:E.
      - destruct (str_of_Z_piece y) as (c & l & E' & _). congruence.
      - simpl in *. apply andb_true_iff in Hd. destruct Hd as [-> _]. reflexivity. }
    destruct z as [ | p | p].
    + apply (Hpos 0); [lia | exact Hlen].
    + apply (Hpos (Z.pos p)); [lia | exact Hlen].
    + rewrite str_of_Z_neg.
      change (Text.chars (String "-" ?s)) with ("-"%char :: Text.chars s).
      cbn [forallb filter]. change (Text.is_digit "-") with false. cbn [negb andb].
      apply (Hpos (Z.pos p)); [lia | exact Hlen].
  - intros a sep b Hsep. rewrite !coerce_int_unfold, !chars_app, !forallb_app.
    rewrite Hsep, !filter_app, (filter_none _ _ Hsep). reflexivity.
Qed.


(** ** [_sniff_date_from_text] *)


Lemma case_variants_complete (l : list ascii) :
  In l (case_variants (map Text.lower_char l)).
Proof.
  induction l as [ | x l IH]; cbn [case_variants map]; [now left | ].
  apply in_flat_map. exists x. split.
  - apply filter_In. split; [apply in_all_chars | apply Ascii.eqb_refl].
  - now apply in_map.
Qed.


Lemma month_variants_shapeless :
  forallb (fun mth => forallb shapeless3 (case_variants (Text.chars mth)))
    Classify.MONTHS = true.
Proof. vm_compute. reflexivity. Qed.

Lemma month_abbreviation_kept (today : date) (g : string) :
  In (Text.lower g) Classify.MONTHS ->
  Classify.normalize_date today (Some g) = Some (Ret g).
Proof.
  intros H.
  pose proof (proj1 (forallb_forall _ _) month_variants_shapeless _ H) as C.
  cbv beta in C.
  assert (Hin : In (Text.chars g) (case_variants (Text.chars (Text.lower g)))).
  { unfold Text.lower. rewrite chars_text. apply case_variants_complete. }
  pose proof (proj1 (forallb_forall _ _) C _ Hin) as C'. clear C Hin H.
  unfold shapeless3 in C'. rewrite text_chars in C'.
  apply andb_true_iff in C'. destruct C' as [Hl Hshape].
  apply Nat.eqb_eq in Hl.
  assert (Hne : g <> "").
  { intros ->. discriminate Hl. }
  unfold Classify.normalize_date. rewrite normalize_date_branches by exact Hne.
  destruct (Re.search Re.no_flags Classify.ISO_RX g); [discriminate Hshape | ].
  destruct (Re.search Re.no_flags Classify.MDY_RX g); [discriminate Hshape | ].
  destruct (Re.search Re.flag_i Classify.MONTH_RX g); [discriminate Hshape | ].
  destruct (Re.search Re.flag_i Classify.DRAW_DATE_RX g); [discriminate Hshape | ].
  f_equal. f_equal. unfold Text.prefix.
  rewrite firstn_all2 by lia. apply text_chars.
Qed.

Lemma hyphen_ignorecase (x : ascii) :
  Re.cls_matches Re.flag_i (Re.Cls false [Re.AChar "-"]) x = true -> x = "-"%char.
Proof.
  intros Hx.
  assert (C : forallb (fun x =>
                implb (Re.cls_matches Re.flag_i (Re.Cls false [Re.AChar "-"]) x)
                      (Ascii.eqb x "-")) all_chars = true)
    by (vm_compute; reflexivity).
  pose proof (proj1 (forallb_forall _ _) C x (in_all_chars x)) as C'.
  cbv beta in C'. rewrite Hx in C'. now apply Ascii.eqb_eq.
Qed.

(** An ISO date found by the third pattern comes back as it is. *)
Lemma sniff_iso_text (today : date) (g : string) :
  Lang.lang Re.flag_i Harvest.SNIFF_ISO_RX (Text.chars g) ->
  Classify.normalize_date today (Some g) = Some (Ret g) /\ iso_shaped g.
Proof.
  rewrite <- (text_chars g). generalize (Text.chars g). clear g.
  intros l L. rewrite chars_text in L.
  cbn [Harvest.SNIFF_ISO_RX Re.seq Lang.lang Re.chr] in L.
  destruct L as (b0 & r0 & -> & -> & yy & r1 & -> & Ly & r2 & r3 & ->
                 & (x1 & -> & Hx1) & mm & r4 & -> & Lm & r5 & r6 & ->
                 & (x2 & -> & Hx2) & dd & r7 & -> & Ld & ->).
  apply hyphen_ignorecase in Hx1, Hx2. subst x1 x2.
  apply digits_forall in Ly, Lm, Ld.
  destruct Ly as [Hy Ly], Lm as [Hm Lm], Ld as [Hd Ld].
  cbn [app]. rewrite app_nil_r.
  destruct (iso_date_search yy mm dd Hy ltac:(lia) Hm ltac:(lia) Hd ltac:(lia))
    as (m & Es & G1 & G2 & G3).
  assert (Etext : Text.text (yy ++ "-"%char :: mm ++ "-"%char :: dd)
                  = Text.text yy ++ "-" ++ Text.text mm ++ "-" ++ Text.text dd).
  { rewrite text_app. simpl. rewrite text_app. reflexivity. }
  split.
  - unfold Classify.normalize_date. rewrite normalize_date_branches.
    + rewrite Es. unfold Classify.grp. rewrite G1, G2, G3. cbn [obind].
      now rewrite Etext.
    + destruct yy; [simpl in Ly; lia | simpl; discriminate].
  - rewrite Etext.
    destruct (fixed_four_digits (Text.text yy)) as (y & Hy0 & <-);
      [apply forall_digits_text; [exact Hy | lia] | ].
    destruct (fixed_two_digits (Text.text mm)) as (mo & Hm0 & <-);
      [apply forall_digits_text; [exact Hm | lia] | ].
    destruct (fixed_two_digits (Text.text dd)) as (d & Hd0 & <-);
      [apply forall_digits_text; [exact Hd | lia] | ].
    exists y, mo, d. repeat split; lia.
Qed.

Lemma lastindex_none (fl : Re.flags) (r : Re.re) (s : string) (m : Re.mobj) :
  (forall n, Lang.group_bodies n r = []) ->
  Re.search fl r s = Some m -> Harvest.lastindex m = None.
Proof.
  intros Hb Hs. destruct (search_sound _ _ _ _ Hs) as (_ & Hc & _).
  unfold Harvest.lastindex. destruct (Re.m_caps m) as [ | c l]; [reflexivity | ].
  exfalso. apply (Hc c); [now left | apply Hb].
Qed.

Lemma lastindex_some (fl : Re.flags) (r : Re.re) (n : nat) (s : string)
    (m : Re.mobj) :
  Lang.closes n r = true ->
  Re.search fl r s = Some m -> exists i, Harvest.lastindex m = Some i.
Proof.
  intros Hn Hs. destruct (search_sound _ _ _ _ Hs) as (_ & _ & Hc & _).
  specialize (Hc n Hn). unfold Harvest.lastindex.
  destruct (Re.m_caps m) as [ | c l]; [congruence | simpl; eauto].
Qed.

Lemma no_groups_sniff_iso (n : nat) : Lang.group_bodies n Harvest.SNIFF_ISO_RX = [].
Proof. reflexivity. Qed.

(** X18.  On ASCII text [_sniff_date_from_text] raises nothing and always
    gives a text back.  After a Draw Date label it is an ISO date.
    Otherwise, when a date with the name of a month is found, the text given
    back is the three letters that begin that name, as they are written, and
    no date; otherwise a date in ISO form found in the text comes back as it
    is; and without any of these it is what [normalize_date] makes of the
    whole text. *)
Theorem sniff_date_cases :
  forall (today : date) (text : string),
    is_ascii text = true ->
    exists d,
      Harvest._sniff_date_from_text today text = Some (Ret d)
      /\ (Re.search Re.flag_i Harvest.SNIFF_DRAW_RX text <> None -> iso_shaped d)
      /\ (Re.search Re.flag_i Harvest.SNIFF_DRAW_RX text = None ->
          (forall m, Re.search Re.flag_i Harvest.SNIFF_MONTH_RX text = Some m ->
             Re.group 1 m = Some d /\ In (Text.lower d) Classify.MONTHS)
          /\ (Re.search Re.flag_i Harvest.SNIFF_MONTH_RX text = None ->
              (forall m, Re.search Re.flag_i Harvest.SNIFF_ISO_RX text = Some m ->
                 d = Re.group0 m /\ iso_shaped d)
              /\ (Re.search Re.flag_i Harvest.SNIFF_ISO_RX text = None ->
                  Classify.normalize_date today (Some text) = Some (Ret d)))).
Proof.
  intros today text _. revert today text.
  intros today text.
  unfold Harvest._sniff_date_from_text. cbn [Harvest.sniff_loop].
  destruct (Re.search Re.flag_i Harvest.SNIFF_DRAW_RX text) as [m1 | ] eqn:E1.
  { destruct (lastindex_some Re.flag_i Harvest.SNIFF_DRAW_RX 1 _ _ eq_refl E1) as (i & Ei).
    destruct (group_of _ _
                (Re.seq [Re.digits 1 2; Re.chr "/"; Re.digits 1 2; Re.chr "/";
                         Re.digits 2 4]) 1 _ _ E1 eq_refl eq_refl) as (g & Eg & L).
    destruct (us_text_result today (String.length g) Re.flag_i g slash_ignorecase L)
      as (d & Hd & Hs).
    exists d. unfold Harvest.date_of_match. rewrite Ei, Eg.
    split; [exact Hd | split; [intros _; exact Hs | congruence]]. }
  destruct (Re.search Re.flag_i Harvest.SNIFF_MONTH_RX text) as [m2 | ] eqn:E2.
  { destruct (lastindex_some Re.flag_i Harvest.SNIFF_MONTH_RX 1 _ _ eq_refl E2) as (i & Ei).
    destruct (group_of _ _ (Re.alts (map Re.lit Classify.MONTHS)) 1 _ _ E2
                eq_refl eq_refl) as (g & Eg & L).
    apply month_name_group in L.
    exists g. unfold Harvest.date_of_match. rewrite Ei, Eg.
    split; [now apply month_abbreviation_kept | split; [congruence | ]].
    intros _. split; [ | congruence].
    intros m Em. inversion Em; subst m. auto. }
  destruct (Re.search Re.flag_i Harvest.SNIFF_ISO_RX text) as [m3 | ] eqn:E3.
  { pose proof (lastindex_none _ _ _ _ no_groups_sniff_iso E3) as Ei.
    destruct (search_sound _ _ _ _ E3) as (L & _).
    destruct (sniff_iso_text today _ L) as (Hd & Hs).
    exists (Re.group0 m3). unfold Harvest.date_of_match. rewrite Ei.
    split; [exact Hd | split; [congruence | ]].
    intros _. split; [congruence | ]. intros _. split; [ | congruence].
    intros m Em. inversion Em; subst m. auto. }
  destruct (normalize_date_classified today (Some text)) as (d & Hd & _).
  exists d. split; [exact Hd | split; [congruence | ]].
  intros _. split; [congruence | ]. intros _. split; [congruence | auto].
Qed.

(** The witness of X18: a date with the name of the month and no label. *)
Lemma sniff_date_cases_witness :
  is_ascii "Drawn September 13, 2025" = true
  /\ exists d,
       Harvest._sniff_date_from_text (mkDate 2025 9 14) "Drawn September 13, 2025"
       = Some (Ret d)
       /\ In (Text.lower d) Classify.MONTHS.
Proof.
  split; [reflexivity | ].
  destruct (sniff_date_cases (mkDate 2025 9 14) "Drawn September 13, 2025" eq_refl)
    as (d & E & _ & H).
  exists d. split; [exact E | ].
  destruct H as [Hm _]; [vm_compute; reflexivity | ].
  eapply Hm. vm_compute. reflexivity.
Defined.

(** ** The number sets of the text parsers *)

Lemma lit_chars_no_groups (n : nat) (l : list ascii) :
  Lang.group_bodies n (Re.lit_chars l) = []
  /\ Lang.closes n (Re.lit_chars l) = false.
Proof.
  induction l as [ | c l [IH1 IH2]]; [split; reflexivity | ].
  destruct l as [ | c' l']; [split; reflexivity | ].
  cbn [Re.lit_chars Lang.group_bodies Lang.closes] in *.
  rewrite IH1, IH2. split; reflexivity.
Qed.

Lemma lit_no_groups (n : nat) (s : string) :
  Lang.group_bodies n (Re.lit s) = [] /\ Lang.closes n (Re.lit s) = false.
Proof. apply lit_chars_no_groups. Qed.

Lemma lazy_no_groups (n k : nat) (c : Re.cls) :
  Lang.group_bodies n (ReMore.lazy_upto k c) = []
  /\ Lang.closes n (ReMore.lazy_upto k c) = false.
Proof.
  induction k as [ | k [IH1 IH2]]; [split; reflexivity | ].
  simpl. rewrite IH1. split; reflexivity.
Qed.


Lemma six_numbers_five_and_bonus : Harvest.six_numbers Harvest.FIVE_AND_BONUS_RX.
Proof.
  intros n Hn.
  assert (E : (n = 1 \/ n = 2 \/ n = 3 \/ n = 4 \/ n = 5 \/ n = 6)%nat) by lia.
  destruct E as [-> | [-> | [-> | [-> | [-> | ->]]]]]; split; reflexivity.
Qed.

Lemma six_numbers_six_blank : Harvest.six_numbers Harvest.SIX_BLANK_RX.
Proof.
  intros n Hn.
  assert (E : (n = 1 \/ n = 2 \/ n = 3 \/ n = 4 \/ n = 5 \/ n = 6)%nat) by lia.
  destruct E as [-> | [-> | [-> | [-> | [-> | ->]]]]]; split; reflexivity.
Qed.

Lemma six_numbers_near_keyword (keyword : string) :
  Harvest.six_numbers (Harvest.NEAR_KEYWORD_RX keyword).
Proof.
  intros n Hn.
  destruct (lit_no_groups n keyword) as [L1 L2].
  destruct (lazy_no_groups n 40 Re.Dot) as [A1 A2].
  destruct (lazy_no_groups n 10 Re.Dot) as [B1 B2].
  unfold Harvest.NEAR_KEYWORD_RX.
  cbn [Re.seq Lang.closes Lang.group_bodies Harvest.num Harvest.comma_space Re.digits].
  rewrite L1, L2, A1, A2, B1, B2.
  assert (E : (n = 1 \/ n = 2 \/ n = 3 \/ n = 4 \/ n = 5 \/ n = 6)%nat) by lia.
  destruct E as [-> | [-> | [-> | [-> | [-> | ->]]]]]; split; reflexivity.
Qed.

Lemma six_groups_ok (fl : Re.flags) (r : Re.re) (s : string) (m : Re.mobj) :
  Harvest.six_numbers r ->
  Re.search fl r s = Some m ->
  exists nums,
    Harvest.six_groups m = Ret nums
    /\ List.length nums = 6%nat
    /\ Forall (fun v => 0 <= v <= 99) nums.
Proof.
  intros H6 Hs.
  assert (G : forall n, (1 <= n <= 6)%nat ->
                exists g v, Classify.grp n m = Ret g
                            /\ Classify.int_of g = Ret v /\ 0 <= v <= 99).
  { intros n Hn. destruct (H6 n Hn) as [Hc Hb].
    destruct (grp_of _ _ _ _ _ _ Hs Hc Hb) as (g & Eg & L).
    apply lang_digits, int_of_two_digits in L. destruct L as (v & Ev & Hv).
    exists g, v. unfold Classify.int_of. rewrite Ev. auto. }
  destruct (G 1%nat ltac:(lia)) as (g1 & v1 & E1 & I1 & H1).
  destruct (G 2%nat ltac:(lia)) as (g2 & v2 & E2 & I2 & H2).
  destruct (G 3%nat ltac:(lia)) as (g3 & v3 & E3 & I3 & H3).
  destruct (G 4%nat ltac:(lia)) as (g4 & v4 & E4 & I4 & H4).
  destruct (G 5%nat ltac:(lia)) as (g5 & v5 & E5 & I5 & H5).
  destruct (G 6%nat ltac:(lia)) as (g6 & v6 & E6 & I6 & H6').
  exists [v1; v2; v3; v4; v5; v6]. unfold Harvest.six_groups.
  rewrite E1, E2, E3, E4, E5, E6. cbn [obind].
  rewrite I1, I2, I3, I4, I5, I6. cbn [obind].
  split; [reflexivity | split; [reflexivity | ]].
  repeat constructor; lia.
Qed.

Lemma plausible_spec (count hi : Z) (nums : list Z) :
  Harvest.plausible count hi nums = true ->
  Forall (fun v => 1 <= v <= 75) (Harvest.py_firstn count nums)
  /\ 1 <= last nums 0 <= hi.
Proof.
  unfold Harvest.plausible. rewrite andb_true_iff, in_range_iff.
  intros [Hf Hl]. split; [ | exact Hl].
  apply Forall_forall. intros v Hv. apply in_range_iff.
  rewrite forallb_forall in Hf. now apply Hf.
Qed.


Lemma first_plausible_ok (count_main : Z) (pats : list Re.re) (s : string) :
  Forall Harvest.six_numbers pats ->
  exists r,
    Harvest.first_plausible count_main pats s = Ret r
    /\ forall nums, r = Some nums -> Harvest.number_set count_main 30 nums.
Proof.
  induction 1 as [ | pat pats H6 _ IH]; simpl.
  - exists None. split; [reflexivity | discriminate].
  - destruct (Re.search Re.no_flags pat s) as [m | ] eqn:E; [ | exact IH].
    destruct (six_groups_ok _ _ _ _ H6 E) as (nums & -> & Hl & Hr). cbn [obind].
    destruct (Harvest.plausible count_main 30 nums) eqn:P; [ | exact IH].
    exists (Some nums). split; [reflexivity | ].
    intros nums' E'. inversion E'; subst nums'.
    destruct (plausible_spec _ _ _ P). repeat split; auto; lia.
Qed.

(** X19.  [extract_numbers_generic] raises nothing: every group it asks
    for is there and is a number.  What it gives back is [None] or six
    numbers below 100, the first [count_main] of them from 1 to 75 and the
    last from 1 to 30. *)
Theorem extract_numbers_generic_result :
  forall (text : string) (count_main : Z),
    exists r,
      Harvest.extract_numbers_generic text count_main = Ret r
      /\ forall nums, r = Some nums -> Harvest.number_set count_main 30 nums.
Proof.
  intros text count_main. unfold Harvest.extract_numbers_generic.
  apply first_plausible_ok.
  constructor; [apply six_numbers_five_and_bonus | ].
  constructor; [apply six_numbers_six_blank | constructor].
Qed.

(** X20.  [_numbers_near_keyword] raises nothing, whatever the keyword.
    What it gives back is [None] or six numbers, the first five from 1 to
    75 and the last from 1 to 30. *)
Theorem numbers_near_keyword_result :
  forall (text keyword : string),
    exists r,
      Harvest._numbers_near_keyword text keyword = Ret r
      /\ forall nums, r = Some nums -> Harvest.number_set 5 30 nums.
Proof.
  intros text keyword. unfold Harvest._numbers_near_keyword.
  destruct (Re.search Re.flag_i (Harvest.NEAR_KEYWORD_RX keyword) _) as [m | ] eqn:E.
  - destruct (six_groups_ok _ _ _ _ (six_numbers_near_keyword keyword) E)
      as (nums & -> & Hl & Hr). cbn [obind].
    destruct (Harvest.plausible 5 30 nums) eqn:P.
    + exists (Some nums). split; [reflexivity | ].
      intros nums' E'. inversion E'; subst nums'.
      destruct (plausible_spec _ _ _ P). repeat split; auto; lia.
    + exists None. split; [reflexivity | discriminate].
  - exists None. split; [reflexivity | discriminate].
Qed.

(* ===================================================================== *)
(** * The lanes on dictionaries, two runs, and the date of a row *)
(** * The lanes, the window and the clock *)

Import Dyn.

(** Induction on a value and on the values inside it *)
Lemma pyval_nested_ind (P : pyval -> Prop) :
  P PNone ->
  (forall i, P (PNum i)) ->
  (forall f, P (PFloat f)) ->
  (forall s, P (PStr s)) ->
  (forall xs, Forall P xs -> P (PList xs)) ->
  (forall xs, Forall P xs -> P (PTuple xs)) ->
  (forall items, Forall (fun kv => P (snd kv)) items -> P (PDict items)) ->
  forall v, P v.
Proof.
  intros HN HI HF HS HL HT HD.
  fix IH 1. intros [ | i | f | s | xs | xs | items].
  - exact HN.
  - apply HI.
  - apply HF.
  - apply HS.
  - apply HL. induction xs as [ | x xs IHxs]; constructor; [apply IH | exact IHxs].
  - apply HT. induction xs as [ | x xs IHxs]; constructor; [apply IH | exact IHxs].
  - apply HD. induction items as [ | [k x] items IHi]; constructor;
      [apply IH | exact IHi].
Qed.

Section JsonLaneGates.

Variable NOW : datetime.
Variable dateparse : string -> option datetime.
Variable utcnow : datetime.
Variable json_loads : string -> option pyval.
Variable json_dumps : pyval -> string.
Variable repr_of : pyval -> string.
Variable parse_money_general : string -> option Z.

Local Abbreviation gated := (Spec.gated NOW dateparse).

Ltac gate :=
  unfold obind; intros H; break_matches; inject_all;
  repeat match goal with
         | E : negb _ = false |- _ => apply negb_false_iff in E
         end;
  try (eapply gated_intro; eassumption).

Lemma powerball_item_gated (it : dict) (url : option string) (r : Snaps.record) :
  Lanes.powerball_item NOW dateparse utcnow json_dumps repr_of
    parse_money_general it url = Ret (Some r) ->
  gated r.
Proof. unfold Lanes.powerball_item, Lanes.first_int. gate. Qed.

Lemma parse_powerball_recent_gated (items : list pyval) (url : option string) :
  forall recs,
    Lanes.parse_powerball_recent NOW dateparse utcnow json_dumps repr_of
      parse_money_general items url = Ret recs ->
    Forall gated recs.
Proof.
  induction items as [ | it items IH]; simpl; intros recs H.
  - inversion H. constructor.
  - destruct it as [ | | | | | | d]; try discriminate.
    destruct (Lanes.powerball_item _ _ _ _ _ _ d url) as [r | ] eqn:Er;
      [ | discriminate]. cbn [obind] in H.
    destruct (Lanes.parse_powerball_recent _ _ _ _ _ _ items url) as [out | ];
      [ | discriminate]. cbn [obind] in H. inversion H; subst recs.
    specialize (IH out eq_refl).
    destruct r as [r | ]; [constructor; [ | exact IH] | exact IH].
    now apply powerball_item_gated in Er.
Qed.

Lemma megamillions_item_gated (it : dict) (url : option string) (r : Snaps.record) :
  Lanes.megamillions_item NOW dateparse utcnow json_dumps repr_of
    parse_money_general it url = Ret (Some r) ->
  gated r.
Proof. unfold Lanes.megamillions_item, Lanes.first_int. gate. Qed.

Lemma megamillions_items_gated (items : list pyval) (url : option string) :
  forall recs,
    Lanes.megamillions_items NOW dateparse utcnow json_dumps repr_of
      parse_money_general items url = Ret recs ->
    Forall gated recs.
Proof.
  induction items as [ | it items IH]; simpl; intros recs H.
  - inversion H. constructor.
  - destruct it as [ | | | | | | d]; try discriminate.
    destruct (Lanes.megamillions_item _ _ _ _ _ _ d url) as [r | ] eqn:Er;
      [ | discriminate]. cbn [obind] in H.
    destruct (Lanes.megamillions_items _ _ _ _ _ _ items url) as [out | ];
      [ | discriminate]. cbn [obind] in H. inversion H; subst recs.
    specialize (IH out eq_refl).
    destruct r as [r | ]; [constructor; [ | exact IH] | exact IH].
    now apply megamillions_item_gated in Er.
Qed.

Lemma parse_megamillions_asmx_gated (obj : pyval) (url : option string)
    (recs : list Snaps.record) :
  Lanes.parse_megamillions_asmx NOW dateparse utcnow json_loads json_dumps
    repr_of parse_money_general obj url = Ret recs ->
  Forall gated recs.
Proof.
  unfold Lanes.parse_megamillions_asmx.
  destruct obj as [ | | | | | | d]; try (intros H; inversion H; constructor).
  destruct (Snaps.dict_get d "d") as [x | ]; [ | intros H; inversion H; constructor].
  destruct (Lanes.loads_val json_loads x) as [inner | ];
    [ | intros H; inversion H; constructor].
  apply megamillions_items_gated.
Qed.

Lemma rec_node_gated (o : dict) (url : option string) (recs : list Snaps.record) :
  Lanes.rec_node NOW dateparse utcnow json_dumps repr_of parse_money_general
    o url = Ret recs ->
  Forall gated recs.
Proof.
  unfold Lanes.rec_node, Lanes.first_int. unfold obind. intros H.
  break_matches; inject_all; try constructor; try constructor.
  all: repeat match goal with
         | E : negb _ = false |- _ => apply negb_false_iff in E
         end.
  all: eapply gated_intro; eassumption.
Qed.

Lemma rec_walk_gated (o : pyval) (url : option string) :
  forall recs,
    Lanes.rec_walk NOW dateparse utcnow json_dumps repr_of parse_money_general
      o url = Ret recs ->
    Forall gated recs.
Proof.
  induction o as [ | i | f | s | xs IH | xs IH | items IH] using pyval_nested_ind;
    intros recs H; cbn [Lanes.rec_walk] in H;
    try (inversion H; constructor).
  - revert recs H. induction IH as [ | x xs Hx _ IHxs]; intros recs H.
    + inversion H. constructor.
    + destruct (Lanes.rec_walk _ _ _ _ _ _ x url) as [a | ] eqn:Ea;
        [ | discriminate]. cbn [obind] in H.
      match type of H with
      | obind ?e _ = _ => destruct e as [b | ] eqn:Eb; [ | discriminate]
      end.
      cbn [obind] in H. inversion H; subst recs.
      apply Forall_app. split; [now apply Hx | now apply IHxs].
  - destruct (Lanes.rec_node _ _ _ _ _ _ items url) as [here | ] eqn:Eh;
      [ | discriminate]. cbn [obind] in H.
    match type of H with
    | obind ?e _ = _ => destruct e as [below | ] eqn:Eb; [ | discriminate]
    end.
    cbn [obind] in H. inversion H; subst recs.
    apply Forall_app. split; [now apply rec_node_gated in Eh | ].
    clear Eh H. revert below Eb.
    induction IH as [ | [k x] items Hx _ IHi]; intros below Eb.
    + inversion Eb. constructor.
    + simpl in Hx.
      destruct (Lanes.rec_walk _ _ _ _ _ _ x url) as [a | ] eqn:Ea;
        [ | discriminate]. cbn [obind] in Eb.
      match type of Eb with
      | obind ?e _ = _ => destruct e as [b | ] eqn:Eb'; [ | discriminate]
      end.
      cbn [obind] in Eb. inversion Eb; subst below.
      apply Forall_app. split; [now apply Hx | now apply IHi].
Qed.

Lemma extract_from_network_json_gated (njson : pyval) (url : option string)
    (recs : list Snaps.record) :
  Lanes.extract_from_network_json NOW dateparse utcnow json_loads json_dumps
    repr_of parse_money_general njson url = Ret recs ->
  Forall gated recs.
Proof.
  unfold Lanes.extract_from_network_json.
  destruct (Lanes.loads_val json_loads njson) as [data | ];
    [ | intros H; inversion H; constructor].
  destruct (Lanes.powerball_shaped data).
  - destruct data; try (intros H; inversion H; constructor).
    apply parse_powerball_recent_gated.
  - intros H.
    assert (W : forall r, Lanes.rec_walk NOW dateparse utcnow json_dumps repr_of
                            parse_money_general data url = Ret r ->
                          Forall gated r) by apply rec_walk_gated.
    destruct data as [ | | | | | | d]; try (now apply W).
    destruct (Snaps.dict_get d "d") as [[ | | | s | | | ] | ]; try (now apply W).
    destruct (json_loads s); [ | now apply W].
    destruct (Lanes.parse_megamillions_asmx _ _ _ _ _ _ _ _ url) as [out | ] eqn:Ep;
      [ | now apply W].
    inversion H; subst recs. now apply parse_megamillions_asmx_gated in Ep.
Qed.

End JsonLaneGates.

(** ** Dictionaries *)

Lemma get_set_same (d : dict) (k : string) (v : pyval) :
  get (set d k v) k = v.
Proof.
  unfold get, get_default.
  induction d as [ | [k' v'] d IH]; simpl.
  - now rewrite String.eqb_refl.
  - destruct (String.eqb k' k) eqn:E; simpl; rewrite E; [reflexivity | exact IH].
Qed.

Lemma get_set_other (d : dict) (k k' : string) (v default : pyval) :
  k <> k' -> get_default (set d k v) k' default = get_default d k' default.
Proof.
  intros Hne. unfold get_default.
  induction d as [ | [k0 v0] d IH]; simpl.
  - destruct (String.eqb k k') eqn:E; [apply String.eqb_eq in E; contradiction | ].
    reflexivity.
  - destruct (String.eqb k0 k) eqn:E; simpl.
    + apply String.eqb_eq in E. subst k0.
      destruct (String.eqb k k') eqn:E'; [apply String.eqb_eq in E'; contradiction | ].
      reflexivity.
    + destruct (String.eqb k0 k'); [reflexivity | exact IH].
Qed.

Section VisionLaneGates.

Variable NOW : datetime.
Variable dateparse : string -> option datetime.
Variable vision_output : string -> option pyval.

Lemma vision_item_date (r : pyval) (url : option string) (d : dict) :
  Lanes.vision_item NOW dateparse r url = Ret (Some d) ->
  exists s iso,
    Snaps.sane_date NOW dateparse s = Some iso /\ get d "date" = PStr iso.
Proof.
  unfold Lanes.vision_item. destruct r as [ | | | | | | d0]; try discriminate.
  unfold Lanes.sane_date_val.
  destruct (get_default d0 "date" (PStr "")) as [ | | | s | | | ]; try discriminate.
  destruct (Snaps.sane_date NOW dateparse s) as [iso | ] eqn:Es; [ | discriminate].
  unfold obind. intros H. break_matches; inject_all.
  all: exists s, iso; split; [exact Es | ].
  all: unfold get; rewrite !get_set_other by discriminate.
  all: apply get_set_same.
Qed.

Lemma vision_items_date (data : list pyval) (url : option string) :
  forall ok,
    Lanes.vision_items NOW dateparse data url = Ret ok ->
    Forall (fun d => exists s iso,
                Snaps.sane_date NOW dateparse s = Some iso
                /\ get d "date" = PStr iso) ok.
Proof.
  induction data as [ | r data IH]; simpl; intros ok H.
  - inversion H. constructor.
  - destruct (Lanes.vision_item NOW dateparse r url) as [x | ] eqn:Ex;
      [ | discriminate]. cbn [obind] in H.
    destruct (Lanes.vision_items NOW dateparse data url) as [rest | ];
      [ | discriminate]. cbn [obind] in H. inversion H; subst ok.
    specialize (IH rest eq_refl).
    destruct x as [d | ]; [constructor; [ | exact IH] | exact IH].
    now apply vision_item_date in Ex.
Qed.

Lemma extract_with_vision_date (img_path : string) (url : option string) :
  Forall (fun d => exists s iso,
              Snaps.sane_date NOW dateparse s = Some iso
              /\ get d "date" = PStr iso)
    (Lanes.extract_with_vision NOW dateparse vision_output img_path url).
Proof.
  unfold Lanes.extract_with_vision.
  destruct (vision_output img_path) as [[ | | | | data | | ] | ]; try constructor.
  destruct (Lanes.vision_items NOW dateparse data url) as [ok | ] eqn:E;
    [ | constructor].
  now apply vision_items_date in E.
Qed.

End VisionLaneGates.

(** ** What every record of a capture satisfies *)

Section DriverAll.

Variable R : Type.
Variable extract_from_network_json : pyval -> option string -> outcome (list R).
Variable extract_from_html : string -> option string -> outcome (list R).
Variable extract_with_vision : string -> option string -> list R.
Variable P : R -> Prop.

Hypothesis json_ok :
  forall body u recs, extract_from_network_json body u = Ret recs -> Forall P recs.
Hypothesis html_ok :
  forall html u recs, extract_from_html html u = Ret recs -> Forall P recs.
Hypothesis vision_ok :
  forall img u, Forall P (extract_with_vision img u).

Lemma nonempty_all (o : outcome (list R)) (recs : list R) :
  (forall l, o = Ret l -> Forall P l) ->
  Snaps.nonempty R o = Some recs -> Forall P recs.
Proof.
  intros H. destruct o as [[ | r rs] | ]; simpl; try discriminate.
  intros E. inversion E; subst recs. now apply H.
Qed.

Lemma scan_nets_all (u : option string) (nets : list (outcome pyval))
    (recs : list R) :
  snd (Snaps.scan_nets R extract_from_network_json u nets) = Some recs ->
  Forall P recs.
Proof.
  induction nets as [ | [body | ] nets IH]; simpl; try discriminate.
  destruct (extract_from_network_json body u) as [[ | r rs] | ] eqn:E; simpl;
    try discriminate.
  - destruct (Snaps.scan_nets R extract_from_network_json u nets) as [log res].
    simpl in *. exact IH.
  - intros H. inversion H; subst recs. now apply (json_ok body u).
Qed.

Lemma process_capture_all (c : Snaps.capture) :
  Forall P (snd (Snaps.process_capture R extract_from_network_json
                   extract_from_html extract_with_vision c)).
Proof.
  unfold Snaps.process_capture.
  destruct (Snaps.run_A0 R extract_from_network_json c) as [log0 [recs0 | ]] eqn:E0.
  { simpl. unfold Snaps.run_A0 in E0.
    destruct (Snaps.body_json c) as [[body | ] | ]; inversion E0.
    eapply nonempty_all; [ | eassumption]. apply json_ok. }
  destruct (Snaps.run_A R extract_from_network_json c) as [log1 [recs1 | ]] eqn:E1.
  { simpl. unfold Snaps.run_A in E1.
    destruct (Snaps.network_json c) as [[nets | ] | ]; inversion E1.
    apply (scan_nets_all (Snaps.url c) nets).
    now rewrite E1. }
  destruct (Snaps.run_B R extract_from_html c) as [log2 [recs2 | ]] eqn:E2.
  { simpl. unfold Snaps.run_B in E2.
    destruct (Snaps.html_file c) as [[html | ] | ]; inversion E2.
    eapply nonempty_all; [ | eassumption]. apply html_ok. }
  destruct (Snaps.run_C R extract_with_vision c) as [log3 [recs3 | ]] eqn:E3.
  { simpl. unfold Snaps.run_C in E3.
    destruct (Snaps.full_png c) as [img | ]; [ | discriminate].
    pose proof (vision_ok img (Snaps.url c)) as Hv.
    destruct (extract_with_vision img (Snaps.url c)) as [ | r rs];
      simpl in E3; inversion E3. exact Hv. }
  constructor.
Qed.

Lemma collect_all (snaps : list (outcome Snaps.capture)) :
  Forall P (Snaps.collect R extract_from_network_json extract_from_html
              extract_with_vision snaps).
Proof.
  unfold Snaps.collect. induction snaps as [ | [c | ] snaps IH]; simpl.
  - constructor.
  - apply Forall_app. split; [apply process_capture_all | exact IH].
  - exact IH.
Qed.

End DriverAll.

(** ** What the deduplication keeps *)

Lemma upsert_raw_values (seen : list ((pyval * pyval * list pyval) * dict))
    (k : pyval * pyval * list pyval) (r : dict) :
  forall seen',
    Lanes.upsert_raw seen k r = Ret seen' ->
    forall x, In x (map snd seen') -> In x (map snd seen) \/ x = r.
Proof.
  induction seen as [ | [k' r'] seen IH]; simpl; intros seen' H x Hx.
  - inversion H; subst seen'. simpl in Hx. destruct Hx as [<- | []]. now right.
  - destruct (Lanes.raw_key_eq k k').
    + destruct (Lanes.rank_val (get r "extraction_method")) as [new | ];
        [ | discriminate].
      destruct (Lanes.rank_val (get r' "extraction_method")) as [old | ];
        [ | discriminate].
      cbn [obind] in H. inversion H; subst seen'.
      destruct (Nat.ltb old new); simpl in Hx; destruct Hx as [<- | Hx]; auto.
    + destruct (Lanes.upsert_raw seen k r) as [rest' | ]; [ | discriminate].
      cbn [obind] in H. inversion H; subst seen'.
      simpl in Hx. destruct Hx as [Hx | Hx]; [auto | ].
      destruct (IH rest' eq_refl x Hx); auto.
Qed.

Lemma dedupe_loop_values (records : list dict) :
  forall seen seen',
    Lanes.dedupe_loop seen records = Ret seen' ->
    forall x, In x (map snd seen') -> In x (map snd seen) \/ In x records.
Proof.
  induction records as [ | r records IH]; simpl; intros seen seen' H x Hx.
  - inversion H; subst seen'. auto.
  - destruct (Lanes.raw_key r) as [k | ]; [ | discriminate]. cbn [obind] in H.
    destruct (Lanes.upsert_raw seen k r) as [seen1 | ] eqn:E1; [ | discriminate].
    cbn [obind] in H.
    destruct (IH seen1 seen' H x Hx) as [H1 | H1]; [ | auto].
    destruct (upsert_raw_values _ _ _ _ E1 x H1); [auto | subst; auto].
Qed.

(** The deduplication makes no record: what it returns was handed to it. *)
Lemma dedupe_dicts_incl (records out : list dict) :
  Lanes.dedupe_dicts records = Ret out -> forall x, In x out -> In x records.
Proof.
  unfold Lanes.dedupe_dicts.
  destruct (Lanes.dedupe_loop [] records) as [seen | ] eqn:E; [ | discriminate].
  cbn [obind]. intros H x Hx. inversion H; subst out.
  destruct (dedupe_loop_values _ _ _ E x Hx) as [[] | ]; assumption.
Qed.

(** ** The recency window, whichever lane *)

Section Window.

Variable NOW : datetime.
Variable dateparse : string -> option datetime.
Variable utcnow : datetime.
Variable json_loads : string -> option pyval.
Variable json_dumps : pyval -> string.
Variable repr_of : pyval -> string.
Variable Soup : Type.
Variable BeautifulSoup : string -> Soup.
Variable find_all_text : Soup -> list string.
Variable get_text : Soup -> string.
Variable select_text : Soup -> string -> outcome (list string).
Variable HAVE_YAML : bool.
Variable ADAPTERS : list (string * list Snaps.adapter).
Variable parse_money_html : string -> option Z.
Variable parse_money_general : string -> option Z.
Variable vision_output : string -> option pyval.

Local Abbreviation lane_json :=
  (Lanes.lane_json NOW dateparse utcnow json_loads json_dumps repr_of
     parse_money_general).
Local Abbreviation lane_html :=
  (Lanes.lane_html NOW dateparse utcnow Soup BeautifulSoup find_all_text
     get_text select_text HAVE_YAML ADAPTERS parse_money_html
     parse_money_general).
Local Abbreviation lane_vision :=
  (Lanes.lane_vision NOW dateparse vision_output).
Local Abbreviation main_records :=
  (Lanes.main_records NOW dateparse utcnow json_loads json_dumps repr_of Soup
     BeautifulSoup find_all_text get_text select_text HAVE_YAML ADAPTERS
     parse_money_html parse_money_general vision_output).
Local Abbreviation in_window := (LaneSpec.in_window NOW dateparse).

Lemma window_of_sane_date (d : dict) (s iso : string) :
  Snaps.sane_date NOW dateparse s = Some iso ->
  get d "date" = PStr iso ->
  in_window d.
Proof.
  intros Hs Hd. apply sane_date_accepts in Hs.
  destruct Hs as (dt & E & -> & _ & Hw). exists s, dt. auto.
Qed.

Lemma window_of_gated (r : Snaps.record) :
  Spec.gated NOW dateparse r -> in_window (Lanes.as_dict r).
Proof.
  intros [(s & Hs) _]. now apply (window_of_sane_date _ s (Snaps.date r)).
Qed.

Lemma lane_json_window (body : pyval) (url : option string) (recs : list dict) :
  lane_json body url = Ret recs -> Forall in_window recs.
Proof.
  unfold Lanes.lane_json.
  destruct (Lanes.extract_from_network_json _ _ _ _ _ _ _ body url) as [rs | ] eqn:E;
    [ | discriminate].
  cbn [obind]. intros H. inversion H; subst recs.
  apply extract_from_network_json_gated in E.
  apply Forall_map. eapply Forall_impl; [ | exact E].
  intros r. apply window_of_gated.
Qed.

Lemma lane_html_window (html : string) (url : option string) (recs : list dict) :
  lane_html html url = Ret recs -> Forall in_window recs.
Proof.
  unfold Lanes.lane_html.
  destruct (Snaps.extract_from_html _ _ _ _ _ _ _ _ _ _ _ _ html url) as [rs | ] eqn:E;
    [ | discriminate].
  cbn [obind]. intros H. inversion H; subst recs.
  apply extract_from_html_gated in E.
  apply Forall_map. eapply Forall_impl; [ | exact E].
  intros r. apply window_of_gated.
Qed.

Lemma lane_vision_window (img_path : string) (url : option string) :
  Forall in_window (lane_vision img_path url).
Proof.
  unfold Lanes.lane_vision.
  eapply Forall_impl; [ | apply extract_with_vision_date].
  intros d (s & iso & Hs & Hd). now apply (window_of_sane_date d s iso).
Qed.

(** C4.  [sane_date] gives no date for a text whose parsed time is after
    [NOW], or [LAST_N_DAYS + 1] days or more before it, and every lane takes
    the date of a record from [sane_date]: the date of every record of the
    JSON lane, of the HTML lane and of the vision lane, and of every record
    that [main] writes, is the day of a parsed time that is not after [NOW]
    and less than [LAST_N_DAYS + 1] days before it. *)
Theorem recency_window_every_lane :
  (forall s,
      (forall dt, dateparse s = Some dt ->
         instant NOW < instant dt
         \/ instant dt + (Snaps.LAST_N_DAYS + 1) * US_PER_DAY <= instant NOW) ->
      Snaps.sane_date NOW dateparse s = None)
  /\ (forall body url recs d,
        lane_json body url = Ret recs -> In d recs -> in_window d)
  /\ (forall html url recs d,
        lane_html html url = Ret recs -> In d recs -> in_window d)
  /\ (forall img_path url d, In d (lane_vision img_path url) -> in_window d)
  /\ (forall snaps out d,
        main_records snaps = Ret out -> In d out -> in_window d).
Proof.
  split; [ | split; [ | split; [ | split]]].
  - intros s H. destruct (Snaps.sane_date NOW dateparse s) as [iso | ] eqn:E;
      [ | reflexivity].
    apply sane_date_accepts in E. destruct E as (dt & Edt & _ & _ & Hw).
    specialize (H dt Edt). lia.
  - intros body url recs d H Hin. apply lane_json_window in H.
    rewrite Forall_forall in H. now apply H.
  - intros html url recs d H Hin. apply lane_html_window in H.
    rewrite Forall_forall in H. now apply H.
  - intros img url d Hin. pose proof (lane_vision_window img url) as H.
    rewrite Forall_forall in H. now apply H.
  - intros snaps out d H Hin. unfold Lanes.main_records, Lanes.collected in H.
    destruct (existsb _ snaps); [discriminate | ]. cbn [obind] in H.
    apply (dedupe_dicts_incl _ _ H) in Hin.
    pose proof (collect_all Dyn.dict lane_json lane_html lane_vision in_window
                  lane_json_window lane_html_window lane_vision_window) as Hall.
    specialize (Hall (map (fun s => match s with
                                    | Lanes.Sidecar c => Ret c
                                    | _ => Raise
                                    end) snaps)).
    rewrite Forall_forall in Hall. now apply Hall.
Qed.

End Window.

(** ** Two runs *)

Lemma get_unstamp (d : dict) (k : string) (default : pyval) :
  k <> "fetched_at" ->
  get_default (LaneSpec.unstamp d) k default = get_default d k default.
Proof.
  intros Hne. unfold get_default, LaneSpec.unstamp.
  induction d as [ | [k' v] d IH]; simpl; [reflexivity | ].
  destruct (String.eqb k' "fetched_at") eqn:E; simpl.
  - apply String.eqb_eq in E. subst k'.
    destruct (String.eqb "fetched_at" k) eqn:E'.
    + apply String.eqb_eq in E'. congruence.
    + exact IH.
  - destruct (String.eqb k' k); [reflexivity | exact IH].
Qed.

Lemma get_same_but_stamp (d1 d2 : dict) (k : string) (default : pyval) :
  LaneSpec.unstamp d1 = LaneSpec.unstamp d2 ->
  k <> "fetched_at" ->
  get_default d1 k default = get_default d2 k default.
Proof.
  intros E Hne. rewrite <- (get_unstamp d1), <- (get_unstamp d2) by exact Hne.
  now rewrite E.
Qed.

Lemma raw_key_same (d1 d2 : dict) :
  LaneSpec.unstamp d1 = LaneSpec.unstamp d2 -> Lanes.raw_key d1 = Lanes.raw_key d2.
Proof.
  intros E. unfold Lanes.raw_key, get.
  rewrite (get_same_but_stamp d1 d2 "numbers" PNone E) by discriminate.
  rewrite (get_same_but_stamp d1 d2 "game" PNone E) by discriminate.
  rewrite (get_same_but_stamp d1 d2 "date" PNone E) by discriminate.
  reflexivity.
Qed.

Lemma rank_same (d1 d2 : dict) :
  LaneSpec.unstamp d1 = LaneSpec.unstamp d2 ->
  Lanes.rank_val (get d1 "extraction_method")
  = Lanes.rank_val (get d2 "extraction_method").
Proof.
  intros E. unfold get.
  now rewrite (get_same_but_stamp d1 d2 "extraction_method" PNone E) by discriminate.
Qed.

(** Two states of the dictionary [seen] that hold the same keys and, but for
    the time stamps, the same records *)
Lemma upsert_raw_same (k : pyval * pyval * list pyval) (r1 r2 : dict) :
  LaneSpec.unstamp r1 = LaneSpec.unstamp r2 ->
  forall seen1 seen2,
    map fst seen1 = map fst seen2 ->
    map (fun x => LaneSpec.unstamp (snd x)) seen1
    = map (fun x => LaneSpec.unstamp (snd x)) seen2 ->
    match Lanes.upsert_raw seen1 k r1, Lanes.upsert_raw seen2 k r2 with
    | Ret s1, Ret s2 =>
        map fst s1 = map fst s2
        /\ map (fun x => LaneSpec.unstamp (snd x)) s1
           = map (fun x => LaneSpec.unstamp (snd x)) s2
    | Raise, Raise => True
    | _, _ => False
    end.
Proof.
  intros Er. induction seen1 as [ | [k1 x1] seen1 IH];
    intros [ | [k2 x2] seen2] Hk Hv; try discriminate; simpl in *.
  - rewrite Er. auto.
  - inversion Hk; subst k2. inversion Hv.
    destruct (Lanes.raw_key_eq k k1).
    + rewrite (rank_same r1 r2 Er), (rank_same x1 x2) by assumption.
      destruct (Lanes.rank_val (get r2 "extraction_method")) as [new | ];
        [ | exact I].
      destruct (Lanes.rank_val (get x2 "extraction_method")) as [old | ];
        [ | exact I].
      cbn [obind]. destruct (Nat.ltb old new); simpl; split; congruence.
    + specialize (IH seen2 ltac:(assumption) ltac:(assumption)).
      destruct (Lanes.upsert_raw seen1 k r1) as [s1 | ],
               (Lanes.upsert_raw seen2 k r2) as [s2 | ]; cbn [obind];
        try contradiction; [ | exact I].
      destruct IH as [IH1 IH2]. simpl. split; congruence.
Qed.

Lemma dedupe_loop_same (l1 : list dict) :
  forall l2 seen1 seen2,
    map LaneSpec.unstamp l1 = map LaneSpec.unstamp l2 ->
    map fst seen1 = map fst seen2 ->
    map (fun x => LaneSpec.unstamp (snd x)) seen1
    = map (fun x => LaneSpec.unstamp (snd x)) seen2 ->
    match Lanes.dedupe_loop seen1 l1, Lanes.dedupe_loop seen2 l2 with
    | Ret s1, Ret s2 =>
        map (fun x => LaneSpec.unstamp (snd x)) s1
        = map (fun x => LaneSpec.unstamp (snd x)) s2
    | Raise, Raise => True
    | _, _ => False
    end.
Proof.
  induction l1 as [ | r1 l1 IH]; intros [ | r2 l2] seen1 seen2 El Hk Hv;
    try discriminate; simpl in *.
  - exact Hv.
  - inversion El as [[Er El']].
    rewrite (raw_key_same r1 r2 Er).
    destruct (Lanes.raw_key r2) as [k | ]; [ | exact I]. cbn [obind].
    pose proof (upsert_raw_same k r1 r2 Er seen1 seen2 Hk Hv) as Hu.
    destruct (Lanes.upsert_raw seen1 k r1) as [s1 | ],
             (Lanes.upsert_raw seen2 k r2) as [s2 | ]; cbn [obind];
      try contradiction; [ | exact I].
    destruct Hu as [Hu1 Hu2]. now apply IH.
Qed.

(** The deduplication does not look at the time stamps. *)
Lemma dedupe_dicts_same (l1 l2 : list dict) :
  map LaneSpec.unstamp l1 = map LaneSpec.unstamp l2 ->
  LaneSpec.same_but_stamps (Lanes.dedupe_dicts l1) (Lanes.dedupe_dicts l2).
Proof.
  intros El. unfold LaneSpec.same_but_stamps, Lanes.dedupe_dicts.
  pose proof (dedupe_loop_same l1 l2 [] [] El eq_refl eq_refl) as H.
  destruct (Lanes.dedupe_loop [] l1) as [s1 | ],
           (Lanes.dedupe_loop [] l2) as [s2 | ]; cbn [obind Spec.omap];
    try contradiction; [ | reflexivity].
  rewrite !map_map. now rewrite H.
Qed.

(** The driver with two families of lanes that give the same records but
    for the time stamps *)
Section DriverTwice.

Variable json1 json2 : pyval -> option string -> outcome (list dict).
Variable html1 html2 : string -> option string -> outcome (list dict).
Variable vision1 vision2 : string -> option string -> list dict.

Hypothesis json_same :
  forall body u, LaneSpec.same_but_stamps (json1 body u) (json2 body u).
Hypothesis html_same :
  forall html u, LaneSpec.same_but_stamps (html1 html u) (html2 html u).
Hypothesis vision_same :
  forall img u, map LaneSpec.unstamp (vision1 img u)
                = map LaneSpec.unstamp (vision2 img u).

Lemma nonempty_same (o1 o2 : outcome (list dict)) :
  LaneSpec.same_but_stamps o1 o2 ->
  LaneSpec.same_option (Snaps.nonempty dict o1) (Snaps.nonempty dict o2).
Proof.
  unfold LaneSpec.same_but_stamps.
  destruct o1 as [[ | a l1] | ], o2 as [[ | b l2] | ]; simpl; try discriminate;
    try exact (fun _ => I).
  intros H. now inversion H.
Qed.

Lemma scan_nets_same (u : option string) (nets : list (outcome pyval)) :
  fst (Snaps.scan_nets dict json1 u nets) = fst (Snaps.scan_nets dict json2 u nets)
  /\ LaneSpec.same_option (snd (Snaps.scan_nets dict json1 u nets))
                 (snd (Snaps.scan_nets dict json2 u nets)).
Proof.
  induction nets as [ | [body | ] nets [IH1 IH2]]; simpl; try (split; [reflexivity | exact I]).
  pose proof (json_same body u) as H. unfold LaneSpec.same_but_stamps in H.
  destruct (json1 body u) as [[ | a l1] | ], (json2 body u) as [[ | b l2] | ];
    simpl in H; try discriminate; simpl.
  - destruct (Snaps.scan_nets dict json1 u nets) as [log1 res1],
             (Snaps.scan_nets dict json2 u nets) as [log2 res2].
    simpl in *. split; [now rewrite IH1 | exact IH2].
  - split; [reflexivity | now inversion H].
  - split; [reflexivity | exact I].
Qed.

Lemma process_capture_same (c : Snaps.capture) :
  map LaneSpec.unstamp (snd (Snaps.process_capture dict json1 html1 vision1 c))
  = map LaneSpec.unstamp (snd (Snaps.process_capture dict json2 html2 vision2 c)).
Proof.
  unfold Snaps.process_capture.
  assert (A0 : LaneSpec.same_option (snd (Snaps.run_A0 dict json1 c))
                           (snd (Snaps.run_A0 dict json2 c))).
  { unfold Snaps.run_A0. destruct (Snaps.body_json c) as [[body | ] | ];
      simpl; try exact I. apply nonempty_same, json_same. }
  assert (A1 : LaneSpec.same_option (snd (Snaps.run_A dict json1 c))
                           (snd (Snaps.run_A dict json2 c))).
  { unfold Snaps.run_A. destruct (Snaps.network_json c) as [[nets | ] | ];
      simpl; try exact I. apply scan_nets_same. }
  assert (A2 : LaneSpec.same_option (snd (Snaps.run_B dict html1 c))
                           (snd (Snaps.run_B dict html2 c))).
  { unfold Snaps.run_B. destruct (Snaps.html_file c) as [[html | ] | ];
      simpl; try exact I. apply nonempty_same, html_same. }
  assert (A3 : LaneSpec.same_option (snd (Snaps.run_C dict vision1 c))
                           (snd (Snaps.run_C dict vision2 c))).
  { unfold Snaps.run_C. destruct (Snaps.full_png c) as [img | ];
      cbn [snd]; try exact I.
    apply nonempty_same. unfold LaneSpec.same_but_stamps. simpl.
    now rewrite vision_same. }
  destruct (Snaps.run_A0 dict json1 c) as [l0 [r0 | ]],
           (Snaps.run_A0 dict json2 c) as [l0' [r0' | ]]; simpl in A0;
    try contradiction; [exact A0 | ].
  destruct (Snaps.run_A dict json1 c) as [l1 [r1 | ]],
           (Snaps.run_A dict json2 c) as [l1' [r1' | ]]; simpl in A1;
    try contradiction; [exact A1 | ].
  destruct (Snaps.run_B dict html1 c) as [l2 [r2 | ]],
           (Snaps.run_B dict html2 c) as [l2' [r2' | ]]; simpl in A2;
    try contradiction; [exact A2 | ].
  destruct (Snaps.run_C dict vision1 c) as [l3 [r3 | ]],
           (Snaps.run_C dict vision2 c) as [l3' [r3' | ]]; simpl in A3;
    try contradiction; [exact A3 | reflexivity].
Qed.

Lemma collect_same (snaps : list (outcome Snaps.capture)) :
  map LaneSpec.unstamp (Snaps.collect dict json1 html1 vision1 snaps)
  = map LaneSpec.unstamp (Snaps.collect dict json2 html2 vision2 snaps).
Proof.
  unfold Snaps.collect. induction snaps as [ | [c | ] snaps IH]; simpl;
    [reflexivity | | exact IH].
  now rewrite !map_app, process_capture_same, IH.
Qed.

End DriverTwice.

(** The lanes at two start times that accept the same date texts, with two
    readings of the clock *)
Section LanesTwice.

Variable NOW1 NOW2 : datetime.
Variable dateparse1 dateparse2 : string -> option datetime.
Variable t1 t2 : datetime.
Variable json_loads : string -> option pyval.
Variable json_dumps : pyval -> string.
Variable repr_of : pyval -> string.
Variable Soup : Type.
Variable BeautifulSoup : string -> Soup.
Variable find_all_text : Soup -> list string.
Variable get_text : Soup -> string.
Variable select_text : Soup -> string -> outcome (list string).
Variable HAVE_YAML : bool.
Variable ADAPTERS : list (string * list Snaps.adapter).
Variable parse_money_html : string -> option Z.
Variable parse_money_general : string -> option Z.
Variable vision_output : string -> option pyval.

Hypothesis same_dates :
  forall s, Snaps.sane_date NOW1 dateparse1 s = Snaps.sane_date NOW2 dateparse2 s.

Local Abbreviation restamped := (Spec.with_fetched_at (Spec.stamp_at t2)).

Ltac restamp2 :=
  unfold Snaps.sane_date_opt, obind, Spec.omap;
  repeat (rewrite <- ?same_dates;
          match goal with
          | |- context [Snaps.to_record t2 ?g ?i ?n ?b ?j ?u ?m ?c] =>
              rewrite (to_record_restamp t1 t2 g i n b j u m c);
              unfold Spec.omap;
              destruct (Snaps.to_record t1 g i n b j u m c)
          | |- context [match ?x with _ => _ end] =>
              lazymatch x with
              | context [match _ with _ => _ end] => fail
              | _ => destruct x eqn:?
              end
          end);
  rewrite <- ?same_dates;
  try reflexivity.

Lemma powerball_item_twice (it : dict) (url : option string) :
  Lanes.powerball_item NOW2 dateparse2 t2 json_dumps repr_of parse_money_general
    it url
  = Spec.omap (option_map restamped)
      (Lanes.powerball_item NOW1 dateparse1 t1 json_dumps repr_of
         parse_money_general it url).
Proof. unfold Lanes.powerball_item, Lanes.first_int. restamp2. Qed.

Lemma parse_powerball_recent_twice (items : list pyval) (url : option string) :
  Lanes.parse_powerball_recent NOW2 dateparse2 t2 json_dumps repr_of
    parse_money_general items url
  = Spec.omap (map restamped)
      (Lanes.parse_powerball_recent NOW1 dateparse1 t1 json_dumps repr_of
         parse_money_general items url).
Proof.
  induction items as [ | it items IH]; simpl; [reflexivity | ].
  destruct it as [ | | | | | | d]; try reflexivity.
  rewrite powerball_item_twice, IH.
  destruct (Lanes.powerball_item NOW1 _ t1 _ _ _ d url) as [[r | ] | ];
    cbn [obind Spec.omap option_map]; try reflexivity;
    destruct (Lanes.parse_powerball_recent NOW1 _ t1 _ _ _ items url);
    reflexivity.
Qed.

Lemma megamillions_item_twice (it : dict) (url : option string) :
  Lanes.megamillions_item NOW2 dateparse2 t2 json_dumps repr_of
    parse_money_general it url
  = Spec.omap (option_map restamped)
      (Lanes.megamillions_item NOW1 dateparse1 t1 json_dumps repr_of
         parse_money_general it url).
Proof. unfold Lanes.megamillions_item, Lanes.first_int. restamp2. Qed.

Lemma megamillions_items_twice (items : list pyval) (url : option string) :
  Lanes.megamillions_items NOW2 dateparse2 t2 json_dumps repr_of
    parse_money_general items url
  = Spec.omap (map restamped)
      (Lanes.megamillions_items NOW1 dateparse1 t1 json_dumps repr_of
         parse_money_general items url).
Proof.
  induction items as [ | it items IH]; simpl; [reflexivity | ].
  destruct it as [ | | | | | | d]; try reflexivity.
  rewrite megamillions_item_twice, IH.
  destruct (Lanes.megamillions_item NOW1 _ t1 _ _ _ d url) as [[r | ] | ];
    cbn [obind Spec.omap option_map]; try reflexivity;
    destruct (Lanes.megamillions_items NOW1 _ t1 _ _ _ items url);
    reflexivity.
Qed.

Lemma parse_megamillions_asmx_twice (obj : pyval) (url : option string) :
  Lanes.parse_megamillions_asmx NOW2 dateparse2 t2 json_loads json_dumps repr_of
    parse_money_general obj url
  = Spec.omap (map restamped)
      (Lanes.parse_megamillions_asmx NOW1 dateparse1 t1 json_loads json_dumps
         repr_of parse_money_general obj url).
Proof.
  unfold Lanes.parse_megamillions_asmx.
  destruct obj as [ | | | | | | d]; try reflexivity.
  destruct (Snaps.dict_get d "d") as [x | ]; [ | reflexivity].
  destruct (Lanes.loads_val json_loads x) as [inner | ]; [ | reflexivity].
  apply megamillions_items_twice.
Qed.

Lemma rec_node_twice (o : dict) (url : option string) :
  Lanes.rec_node NOW2 dateparse2 t2 json_dumps repr_of parse_money_general o url
  = Spec.omap (map restamped)
      (Lanes.rec_node NOW1 dateparse1 t1 json_dumps repr_of parse_money_general
         o url).
Proof. unfold Lanes.rec_node, Lanes.first_int. restamp2. Qed.

Lemma rec_walk_twice (o : pyval) (url : option string) :
  Lanes.rec_walk NOW2 dateparse2 t2 json_dumps repr_of parse_money_general o url
  = Spec.omap (map restamped)
      (Lanes.rec_walk NOW1 dateparse1 t1 json_dumps repr_of parse_money_general
         o url).
Proof.
  induction o as [ | i | f | s | xs IH | xs IH | items IH] using pyval_nested_ind;
    cbn [Lanes.rec_walk]; try reflexivity.
  - induction IH as [ | x xs Hx _ IHxs]; [reflexivity | ].
    rewrite Hx, IHxs.
    destruct (Lanes.rec_walk NOW1 _ t1 _ _ _ x url) as [a | ];
      cbn [obind Spec.omap]; [ | reflexivity].
    match goal with
    | |- obind (Spec.omap _ ?e) _ = _ => destruct e as [b | ]
    end; cbn [obind Spec.omap]; [ | reflexivity].
    now rewrite map_app.
  - rewrite rec_node_twice.
    destruct (Lanes.rec_node NOW1 _ t1 _ _ _ items url) as [here | ];
      cbn [obind Spec.omap]; [ | reflexivity].
    match goal with
    | |- obind ?e2 _ = Spec.omap _ (obind ?e1 _) =>
        assert (E : e2 = Spec.omap (map restamped) e1)
    end.
    { clear here. induction IH as [ | [k x] items Hx _ IHi]; [reflexivity | ].
      simpl in Hx. rewrite Hx, IHi.
      destruct (Lanes.rec_walk NOW1 _ t1 _ _ _ x url) as [a | ];
        cbn [obind Spec.omap]; [ | reflexivity].
      match goal with
      | |- obind (Spec.omap _ ?e) _ = _ => destruct e as [b | ]
      end; cbn [obind Spec.omap]; [ | reflexivity].
      now rewrite map_app. }
    rewrite E.
    match goal with
    | |- obind (Spec.omap _ ?e) _ = _ => destruct e as [below | ]
    end; cbn [obind Spec.omap]; [ | reflexivity].
    now rewrite map_app.
Qed.

Lemma extract_from_network_json_twice (njson : pyval) (url : option string) :
  Lanes.extract_from_network_json NOW2 dateparse2 t2 json_loads json_dumps
    repr_of parse_money_general njson url
  = Spec.omap (map restamped)
      (Lanes.extract_from_network_json NOW1 dateparse1 t1 json_loads json_dumps
         repr_of parse_money_general njson url).
Proof.
  unfold Lanes.extract_from_network_json.
  destruct (Lanes.loads_val json_loads njson) as [data | ]; [ | reflexivity].
  destruct (Lanes.powerball_shaped data).
  - destruct data; try reflexivity. apply parse_powerball_recent_twice.
  - pose proof (rec_walk_twice data url) as W.
    destruct data as [ | | | | | | d]; try exact W.
    destruct (Snaps.dict_get d "d") as [[ | | | s | | | ] | ]; try exact W.
    destruct (json_loads s); [ | exact W].
    rewrite parse_megamillions_asmx_twice.
    destruct (Lanes.parse_megamillions_asmx NOW1 _ t1 _ _ _ _ _ url);
      [reflexivity | exact W].
Qed.

Lemma adapt_scope_twice (rule : Snaps.adapter) (url : option string)
    (text : string) :
  Snaps.adapt_scope NOW2 dateparse2 t2 parse_money_html parse_money_general
    rule url text
  = Spec.omap (option_map restamped)
      (Snaps.adapt_scope NOW1 dateparse1 t1 parse_money_html parse_money_general
         rule url text).
Proof. unfold Snaps.adapt_scope. restamp2. Qed.

Lemma scan_scopes_twice (rule : Snaps.adapter) (url : option string)
    (scopes : list string) :
  Snaps.scan_scopes NOW2 dateparse2 t2 parse_money_html parse_money_general
    rule url scopes
  = Spec.omap (option_map restamped)
      (Snaps.scan_scopes NOW1 dateparse1 t1 parse_money_html parse_money_general
         rule url scopes).
Proof.
  induction scopes as [ | text scopes IH]; simpl; [reflexivity | ].
  rewrite adapt_scope_twice, IH.
  destruct (Snaps.adapt_scope NOW1 dateparse1 t1 parse_money_html
              parse_money_general rule url text) as [[r | ] | ]; reflexivity.
Qed.

Lemma scan_rules_twice (soup : Soup) (blocks : list string)
    (url : option string) (rules : list Snaps.adapter) :
  Snaps.scan_rules NOW2 dateparse2 t2 Soup select_text parse_money_html
    parse_money_general soup blocks url rules
  = Spec.omap (map restamped)
      (Snaps.scan_rules NOW1 dateparse1 t1 Soup select_text parse_money_html
         parse_money_general soup blocks url rules).
Proof.
  induction rules as [ | rule rules IH]; simpl; [reflexivity | ].
  destruct (if Snaps.truthy_str (Snaps.css_scope rule)
            then select_text soup (Snaps.or_empty (Snaps.css_scope rule))
            else Ret []) as [selected | ]; simpl; [ | reflexivity].
  rewrite scan_scopes_twice, IH.
  destruct (Snaps.scan_scopes NOW1 dateparse1 t1 parse_money_html
              parse_money_general rule url _) as [[r | ] | ]; reflexivity.
Qed.

Lemma apply_adapter_html_twice (html : string) (url : option string) :
  Snaps.apply_adapter_html NOW2 dateparse2 t2 Soup BeautifulSoup find_all_text
    get_text select_text HAVE_YAML ADAPTERS parse_money_html
    parse_money_general html url
  = Spec.omap (map restamped)
      (Snaps.apply_adapter_html NOW1 dateparse1 t1 Soup BeautifulSoup
         find_all_text get_text select_text HAVE_YAML ADAPTERS
         parse_money_html parse_money_general html url).
Proof.
  unfold Snaps.apply_adapter_html.
  destruct (negb HAVE_YAML); [reflexivity | ].
  destruct url as [u | ]; [ | reflexivity].
  destruct (Snaps.dict_get ADAPTERS (Snaps.host_of u)) as [[ | rule rules] | ];
    try reflexivity.
  apply scan_rules_twice.
Qed.

Lemma extract_from_html_twice (html : string) (url : option string) :
  Snaps.extract_from_html NOW2 dateparse2 t2 Soup BeautifulSoup find_all_text
    get_text select_text HAVE_YAML ADAPTERS parse_money_html
    parse_money_general html url
  = Spec.omap (map restamped)
      (Snaps.extract_from_html NOW1 dateparse1 t1 Soup BeautifulSoup
         find_all_text get_text select_text HAVE_YAML ADAPTERS
         parse_money_html parse_money_general html url).
Proof.
  unfold Snaps.extract_from_html.
  rewrite apply_adapter_html_twice.
  destruct (Snaps.apply_adapter_html NOW1 dateparse1 t1 _ _ _ _ _ _ _ _ _ html url)
    as [[ | r recs] | ]; cbn [obind Spec.omap map]; try reflexivity.
  restamp2.
Qed.

Lemma vision_items_twice (data : list pyval) (url : option string) :
  Lanes.vision_items NOW2 dateparse2 data url
  = Lanes.vision_items NOW1 dateparse1 data url.
Proof.
  induction data as [ | r data IH]; simpl; [reflexivity | ].
  rewrite IH. f_equal.
  unfold Lanes.vision_item, Lanes.sane_date_val.
  destruct r; try reflexivity.
  destruct (get_default items "date" (PStr "")); try reflexivity.
  now rewrite same_dates.
Qed.

Lemma unstamp_restamped (r : Snaps.record) :
  LaneSpec.unstamp (Lanes.as_dict (restamped r)) = LaneSpec.unstamp (Lanes.as_dict r).
Proof. reflexivity. Qed.

Lemma same_but_stamps_restamped (o1 o2 : outcome (list Snaps.record)) :
  o2 = Spec.omap (map restamped) o1 ->
  LaneSpec.same_but_stamps (recs <- o1 ;; Ret (map Lanes.as_dict recs))
                           (recs <- o2 ;; Ret (map Lanes.as_dict recs)).
Proof.
  intros ->. unfold LaneSpec.same_but_stamps.
  destruct o1 as [l | ]; cbn [obind Spec.omap]; [ | reflexivity].
  f_equal. rewrite !map_map. apply map_ext. intros r. symmetry. apply unstamp_restamped.
Qed.



End LanesTwice.




(** C4, the claim as stated fails.  The window of [sane_date] is counted
    from the parsed time, in whole days, not from the date written into the
    record.  On 14 September 2025 at noon a draw dated the afternoon of 30
    August, fifteen days before that date, is still accepted and becomes a
    record (dated at midnight it is rejected), and so does a draw dated 15 September in a zone ahead of UTC,
    a date in the future.  And [normalize_date] of [parse_and_classify] has
    no window at all: it returns a date of 2003. *)
Lemma dates_outside_window_recorded :
  toordinal (on Sample.noon) - toordinal (mkDate 2025 8 30) = Snaps.LAST_N_DAYS + 1
  /\ Snaps.sane_date Sample.noon (Runs.parse_to Runs.old_afternoon)
       "2025-08-30T13:00:00" = Some "2025-08-30"
  /\ Snaps.sane_date Sample.noon (Sample.parse_as Sample.fifteen_days_ago)
       "2025-08-30" = None
  /\ (exists d,
        Runs.run Sample.noon (Runs.parse_to Runs.old_afternoon) Sample.reading
          (Runs.loads_draw "2025-08-30T13:00:00") Runs.no_vision
          [Lanes.Sidecar Runs.body_capture] = Ret [d]
        /\ Dyn.get d "date" = PStr "2025-08-30")
  /\ toordinal (on Sample.noon) < toordinal (mkDate 2025 9 15)
  /\ Snaps.sane_date Sample.noon (Runs.parse_to Runs.tomorrow_far_east)
       "2025-09-15T01:00:00+14:00" = Some "2025-09-15"
  /\ (exists d,
        Runs.run Sample.noon (Runs.parse_to Runs.tomorrow_far_east)
          Sample.reading (Runs.loads_draw "2025-09-15T01:00:00+14:00")
          Runs.no_vision [Lanes.Sidecar Runs.body_capture] = Ret [d]
        /\ Dyn.get d "date" = PStr "2025-09-15")
  /\ Classify.normalize_date (mkDate 2025 9 14) (Some "Draw Date: 01/02/2003")
     = Some (Ret "2003-01-02").
Proof.
  split; [reflexivity | ].
  split; [vm_compute; reflexivity | ].
  split; [vm_compute; reflexivity | ].
  split; [eexists; split; vm_compute; reflexivity | ].
  split; [reflexivity | ].
  split; [vm_compute; reflexivity | ].
  split; [eexists; split; vm_compute; reflexivity | ].
  vm_compute; reflexivity.
Qed.

(** C2.  A draw that the vision script reports with its bonus ball wrapped
    in a list passes [validate_numbers], and the lane hands the dictionary
    on as it came, the list inside its numbers; the key that
    [dedupe_keep_best] builds from it has no hash, so the function raises
    and [main] writes nothing.  The same draw assembled by [to_record]
    holds the bonus ball as a number and is deduplicated. *)
Theorem dedupe_raises_on_wrapped_bonus :
  Snaps.validate_numbers "Powerball" Sample.mains (PList [PInt 10]) = true
  /\ Runs.gathered Sample.noon (Sample.parse_as Sample.yesterday)
       Sample.reading Runs.no_loads Runs.vision_wrapped_bonus
       [Lanes.Sidecar Runs.screenshot_capture]
     = Ret [ [ ("date", PStr "2025-09-13");
               ("game", PStr "Powerball");
               ("numbers", PList (Sample.mains ++ [PList [PInt 10]]));
               ("source_url", PStr "https://example.com/results");
               ("extraction_method", PStr "vision") ] ]
  /\ Runs.run Sample.noon (Sample.parse_as Sample.yesterday) Sample.reading
       Runs.no_loads Runs.vision_wrapped_bonus
       [Lanes.Sidecar Runs.screenshot_capture] = Raise
  /\ exists r,
       Snaps.to_record Sample.reading "Powerball" "2025-09-13" Sample.mains
         (PList [PInt 10]) PNone Sample.example_url "vision" PNone = Ret r
       /\ Snaps.numbers r = map IInt [1; 12; 23; 34; 45; 10]
       /\ Lanes.dedupe_dicts [Lanes.as_dict r] = Ret [Lanes.as_dict r].
Proof.
  split; [vm_compute; reflexivity | ].
  split; [vm_compute; reflexivity | ].
  split; [vm_compute; reflexivity | ].
  eexists. split; [vm_compute; reflexivity | ].
  split; vm_compute; reflexivity.
Qed.

(** ** Deduplication, in the words of the specification *)

Lemma same_key_iff (a b : Snaps.record) :
  LaneSpec.same_key a b <-> Snaps.key_of a = Snaps.key_of b.
Proof.
  unfold LaneSpec.same_key, Snaps.key_of. split.
  - intros (-> & -> & ->). reflexivity.
  - intros E. inversion E. auto.
Qed.

Lemma method_confidence_rank (method : string) :
  LaneSpec.method_confidence method = Snaps.rank method.
Proof.
  unfold LaneSpec.method_confidence, Snaps.rank.
  destruct (string_dec method "json") as [-> | H1]; [reflexivity | ].
  apply String.eqb_neq in H1. rewrite H1.
  destruct (string_dec method "html") as [-> | H2]; [reflexivity | ].
  apply String.eqb_neq in H2. rewrite H2.
  destruct (string_dec method "vision") as [-> | H3]; [reflexivity | ].
  apply String.eqb_neq in H3. now rewrite H3.
Qed.

Lemma first_of_highest_best_in (l : list Snaps.record) (r : Snaps.record) :
  Spec.best_in l r -> LaneSpec.first_of_highest l r.
Proof.
  intros (before & after & E & Hb & Ha). exists before, after.
  split; [exact E | ]. unfold Spec.rank_of in *.
  split; intros x Hx Hk; rewrite !method_confidence_rank;
    [apply Hb | apply Ha]; auto; now apply same_key_iff.
Qed.

Lemma hashable_numbers (ns : list pyint) :
  forallb Dyn.hashable (map PNum ns) = true.
Proof. induction ns as [ | n ns IH]; [reflexivity | exact IH]. Qed.

Lemma raw_key_as_dict (r : Snaps.record) :
  Lanes.raw_key (Lanes.as_dict r)
  = Ret (PStr (Snaps.game r), PStr (Snaps.date r), map PNum (Snaps.numbers r)).
Proof.
  unfold Lanes.raw_key, Lanes.as_dict. cbn.
  destruct (Snaps.numbers r) as [ | n ns] eqn:E; cbn; [reflexivity | ].
  now rewrite (hashable_numbers ns).
Qed.

Lemma keys_eq_numbers (a b : list pyint) :
  Dyn.keys_eq (map PNum a) (map PNum b)
  = Snaps.nums_eqb (map int_val a) (map int_val b).
Proof.
  revert b. induction a as [ | x a IH]; intros [ | y b]; try reflexivity.
  cbn. now rewrite IH.
Qed.

Lemma raw_key_eq_as_dict (a b : Snaps.record) :
  Lanes.raw_key_eq
    (PStr (Snaps.game a), PStr (Snaps.date a), map PNum (Snaps.numbers a))
    (PStr (Snaps.game b), PStr (Snaps.date b), map PNum (Snaps.numbers b))
  = Snaps.key_eqb (Snaps.key_of a) (Snaps.key_of b).
Proof.
  unfold Lanes.raw_key_eq, Snaps.key_eqb, Snaps.key_of. cbn.
  now rewrite keys_eq_numbers.
Qed.

Section DictsOfRecords.

(** The dictionary [seen] on dictionaries and on records: the values are
    the same records, and each key is the key of some record. *)
Local Abbreviation raw_of r :=
  (PStr (Snaps.game r), PStr (Snaps.date r), map PNum (Snaps.numbers r)).

Local Abbreviation alike :=
  (Forall2 (fun (raw : (pyval * pyval * list pyval) * Dyn.dict)
                (typed : Snaps.key * Snaps.record) =>
              snd raw = Lanes.as_dict (snd typed)
              /\ exists r0, fst raw = raw_of r0 /\ fst typed = Snaps.key_of r0)).

Lemma upsert_raw_as_dict raws seen (r : Snaps.record) :
  alike raws seen ->
  exists raws',
    Lanes.upsert_raw raws (raw_of r) (Lanes.as_dict r) = Ret raws'
    /\ alike raws' (Snaps.upsert seen (Snaps.key_of r) r).
Proof.
  induction 1 as [ | [rk rd] [k r'] raws seen (Ed & r0 & Ek & Ek') Hall IH].
  - eexists. split; [reflexivity | ].
    constructor; [ | constructor]. split; [reflexivity | ]. now exists r.
  - cbn [fst snd] in Ed, Ek, Ek'. subst rd rk k.
    cbn [Lanes.upsert_raw Snaps.upsert].
    rewrite raw_key_eq_as_dict.
    destruct (Snaps.key_eqb (Snaps.key_of r) (Snaps.key_of r0)).
    + change (Lanes.rank_val (Dyn.get (Lanes.as_dict r) "extraction_method"))
        with (Ret (Snaps.rank (Snaps.extraction_method r))).
      change (Lanes.rank_val (Dyn.get (Lanes.as_dict r') "extraction_method"))
        with (Ret (Snaps.rank (Snaps.extraction_method r'))).
      cbn [obind].
      destruct (Nat.ltb (Snaps.rank (Snaps.extraction_method r'))
                        (Snaps.rank (Snaps.extraction_method r)));
        eexists; (split; [reflexivity | ]);
        (constructor; [ | exact Hall]); (split; [reflexivity | ]); now exists r0.
    + destruct IH as (raws' & -> & IH). cbn [obind].
      eexists. split; [reflexivity | ].
      constructor; [ | exact IH]. split; [reflexivity | ]. now exists r0.
Qed.

Lemma dedupe_loop_as_dict (records : list Snaps.record) raws seen :
  alike raws seen ->
  exists raws',
    Lanes.dedupe_loop raws (map Lanes.as_dict records) = Ret raws'
    /\ alike raws'
         (fold_left (fun acc r => Snaps.upsert acc (Snaps.key_of r) r) records seen).
Proof.
  revert raws seen.
  induction records as [ | r records IH]; intros raws seen H; cbn [map Lanes.dedupe_loop fold_left].
  - now exists raws.
  - rewrite raw_key_as_dict. cbn [obind].
    destruct (upsert_raw_as_dict raws seen r H) as (raws' & -> & H').
    cbn [obind]. now apply IH.
Qed.

Lemma dedupe_dicts_as_dict (records : list Snaps.record) :
  Lanes.dedupe_dicts (map Lanes.as_dict records)
  = Ret (map Lanes.as_dict (Snaps.dedupe_keep_best records)).
Proof.
  unfold Lanes.dedupe_dicts, Snaps.dedupe_keep_best.
  destruct (dedupe_loop_as_dict records [] []) as (raws & -> & H);
    [constructor | ].
  cbn [obind]. f_equal. rewrite map_map.
  induction H as [ | raw typed raws seen (E & _) _ IH]; [reflexivity | ].
  cbn [map]. now rewrite E, IH.
Qed.

End DictsOfRecords.

(** X21.  On records as [to_record] builds them, [dedupe_keep_best] raises
    nothing and keeps exactly one record for each key (game, date,
    numbers): no two places of its result hold records of one key, and
    every record of the input has its key in the result.  The record kept
    is the first one of the highest confidence of its key, json above html
    above vision: the records of the key before it in the input are
    strictly lower, those after it are not higher.  So of an html and a
    json record of one key only the json one is left, in either order. *)
Theorem dedupe_keeps_first_of_highest :
  forall records : list Snaps.record,
    exists out,
      Lanes.dedupe_dicts (map Lanes.as_dict records) = Ret (map Lanes.as_dict out)
      /\ out = Snaps.dedupe_keep_best records
      /\ (forall i j a b,
            nth_error out i = Some a -> nth_error out j = Some b ->
            LaneSpec.same_key a b -> i = j)
      /\ (forall x, In x records ->
            exists r, In r out /\ LaneSpec.same_key r x)
      /\ (forall r, In r out -> LaneSpec.first_of_highest records r)
      /\ (forall h j,
            LaneSpec.same_key h j ->
            Snaps.extraction_method h = "html" ->
            Snaps.extraction_method j = "json" ->
            Lanes.dedupe_dicts (map Lanes.as_dict [h; j]) = Ret [Lanes.as_dict j]
            /\ Lanes.dedupe_dicts (map Lanes.as_dict [j; h]) = Ret [Lanes.as_dict j]).
Proof.
  intros records. exists (Snaps.dedupe_keep_best records).
  destruct (dedupe_keep_best_facts records) as (Hnd & Hcov & Hbest & Hpair).
  split; [apply dedupe_dicts_as_dict | ].
  split; [reflexivity | ].
  split; [ | split; [ | split]].
  - intros i j a b Ha Hb Hk. apply same_key_iff in Hk.
    apply (proj1 (NoDup_nth_error _) Hnd).
    + rewrite length_map. apply nth_error_Some. congruence.
    + rewrite (map_nth_error Snaps.key_of _ _ Ha), (map_nth_error Snaps.key_of _ _ Hb).
      now rewrite Hk.
  - intros x Hx. destruct (Hcov x Hx) as (r & Hr & Hk).
    exists r. split; [exact Hr | now apply same_key_iff].
  - intros r Hr. apply first_of_highest_best_in. now apply Hbest.
  - intros h j Hk Hh Hj. apply same_key_iff in Hk.
    destruct (Hpair h j Hk Hh Hj) as [E1 E2].
    rewrite !dedupe_dicts_as_dict, E1, E2. split; reflexivity.
Qed.

(** ** The date of today in [normalize_date] *)

Lemma us_text_nonempty (fl : Re.flags) (g : string) :
  Lang.lang fl (Re.seq [Re.digits 1 2; Re.chr "/"; Re.digits 1 2; Re.chr "/";
                        Re.digits 2 4]) (Text.chars g) ->
  g <> "".
Proof.
  intros L ->. cbn [Re.seq Lang.lang Re.chr Text.chars] in L.
  destruct L as (mm & r1 & E & Lm & _).
  apply digits_forall in Lm. destruct Lm as [_ Hlen].
  change (Text.chars "") with (@nil ascii) in E.
  symmetry in E. apply app_eq_nil in E. destruct E as [-> _].
  simpl in Hlen. lia.
Qed.

(** The date of today enters the result for an empty text only. *)
Lemma normalize_date_fuel_today (fuel : nat) (day1 day2 : date) (s : string) :
  s <> "" ->
  Classify.normalize_date_fuel fuel day1 (Some s)
  = Classify.normalize_date_fuel fuel day2 (Some s).
Proof.
  revert s. induction fuel as [ | fuel IH]; intros s Hne; [reflexivity | ].
  rewrite !normalize_date_branches by exact Hne.
  destruct (Re.search Re.no_flags Classify.ISO_RX s); [reflexivity | ].
  destruct (Re.search Re.no_flags Classify.MDY_RX s); [reflexivity | ].
  destruct (Re.search Re.flag_i Classify.MONTH_RX s); [reflexivity | ].
  destruct (Re.search Re.flag_i Classify.DRAW_DATE_RX s) as [m | ] eqn:E;
    [ | reflexivity].
  destruct (group_of _ _
              (Re.seq [Re.digits 1 2; Re.chr "/"; Re.digits 1 2; Re.chr "/";
                       Re.digits 2 4]) 1 _ _ E eq_refl eq_refl) as (g & -> & L).
  apply IH. now apply us_text_nonempty in L.
Qed.

Lemma normalize_date_today (day1 day2 : date) (s : string) :
  s <> "" ->
  Classify.normalize_date day1 (Some s) = Classify.normalize_date day2 (Some s).
Proof. intros H. now apply normalize_date_fuel_today. Qed.

Lemma iso_shaped_nonempty (d : string) : iso_shaped d -> d <> "".
Proof.
  intros (y & m & dd & _ & _ & _ & ->) E.
  destruct (Text.fmt0 4 y); discriminate E.
Qed.

Lemma prefix_nonempty (n : nat) (s : string) :
  s <> "" -> Text.prefix (S n) s <> "".
Proof.
  destruct s as [ | c s]; [congruence | ]. intros _. discriminate.
Qed.

(** What [normalize_date] makes of a text that is not empty is a text that
    is not empty, the same on every day. *)
Lemma normalize_date_of_text (s : string) :
  s <> "" ->
  exists d, d <> ""
            /\ forall day, Classify.normalize_date day (Some s) = Some (Ret d).
Proof.
  intros Hne.
  destruct (normalize_date_classified (mkDate 1 1 1) (Some s))
    as (d & Hd & _ & Hcases).
  exists d. split.
  - destruct (Hcases s eq_refl Hne) as [Hplain Hshape].
    unfold Spec.no_date_shape in *.
    destruct (Re.search Re.no_flags Classify.ISO_RX s);
      [apply iso_shaped_nonempty, Hshape; intros (H & _); discriminate H | ].
    destruct (Re.search Re.no_flags Classify.MDY_RX s);
      [apply iso_shaped_nonempty, Hshape; intros (_ & H & _); discriminate H | ].
    destruct (Re.search Re.flag_i Classify.MONTH_RX s);
      [apply iso_shaped_nonempty, Hshape; intros (_ & _ & H & _); discriminate H | ].
    destruct (Re.search Re.flag_i Classify.DRAW_DATE_RX s);
      [apply iso_shaped_nonempty, Hshape; intros (_ & _ & _ & H); discriminate H | ].
    rewrite Hplain by auto. now apply prefix_nonempty.
  - intros day. now rewrite (normalize_date_today day (mkDate 1 1 1) s Hne).
Qed.

Lemma month_nonempty (g : string) : In (Text.lower g) Classify.MONTHS -> g <> "".
Proof.
  intros H ->. vm_compute in H. intuition discriminate.
Qed.

(** So is what [_sniff_date_from_text] finds in such a text. *)
Lemma sniff_date_of_text (text : string) :
  text <> "" ->
  exists d, d <> ""
            /\ forall day, Harvest._sniff_date_from_text day text = Some (Ret d).
Proof.
  intros Hne. unfold Harvest._sniff_date_from_text. cbn [Harvest.sniff_loop].
  destruct (Re.search Re.flag_i Harvest.SNIFF_DRAW_RX text) as [m1 | ] eqn:E1.
  { destruct (lastindex_some Re.flag_i Harvest.SNIFF_DRAW_RX 1 _ _ eq_refl E1) as (i & Ei).
    destruct (group_of _ _
                (Re.seq [Re.digits 1 2; Re.chr "/"; Re.digits 1 2; Re.chr "/";
                         Re.digits 2 4]) 1 _ _ E1 eq_refl eq_refl) as (g & Eg & L).
    unfold Harvest.date_of_match. rewrite Ei, Eg.
    apply normalize_date_of_text. now apply us_text_nonempty in L. }
  destruct (Re.search Re.flag_i Harvest.SNIFF_MONTH_RX text) as [m2 | ] eqn:E2.
  { destruct (lastindex_some Re.flag_i Harvest.SNIFF_MONTH_RX 1 _ _ eq_refl E2) as (i & Ei).
    destruct (group_of _ _ (Re.alts (map Re.lit Classify.MONTHS)) 1 _ _ E2
                eq_refl eq_refl) as (g & Eg & L).
    apply month_name_group in L.
    unfold Harvest.date_of_match. rewrite Ei, Eg.
    apply normalize_date_of_text. now apply month_nonempty. }
  destruct (Re.search Re.flag_i Harvest.SNIFF_ISO_RX text) as [m3 | ] eqn:E3.
  { pose proof (lastindex_none _ _ _ _ no_groups_sniff_iso E3) as Ei.
    destruct (search_sound _ _ _ _ E3) as (L & _).
    unfold Harvest.date_of_match. rewrite Ei.
    exists (Re.group0 m3).
    split; [ | intros day; now apply sniff_iso_text].
    apply iso_shaped_nonempty.
    now apply (sniff_iso_text (mkDate 1 1 1)). }
  now apply normalize_date_of_text.
Qed.

Lemma str_of_int_nonempty (i : pyint) : str_of_int i <> "".
Proof.
  destruct (str_of_int_piece i) as (c & l & E & _). intros H.
  rewrite H in E. discriminate E.
Qed.

Section RowDates.

Variable json_dumps : pyval -> string.
Variable repr_of : pyval -> string.

(** The text of a dictionary begins with a brace, that of a float or of a
    container is not empty either. *)
Hypothesis dumps_text : forall row, json_dumps (PDict row) <> "".
Hypothesis repr_text : forall v, repr_of v <> "".

Lemma str_of_true (v : pyval) :
  Dyn.truthy v = true -> Dyn.str_of repr_of v <> "".
Proof.
  destruct v as [ | i | f | s | xs | xs | items]; cbn [Dyn.str_of];
    try (intros _; apply repr_text).
  - discriminate.
  - intros _. apply str_of_int_nonempty.
  - cbn [Dyn.truthy]. intros H ->. discriminate H.
Qed.

Lemma normalize_value_today (day1 day2 : date) (v : pyval) :
  Dyn.truthy v = true ->
  Rows.normalize_value repr_of day1 v = Rows.normalize_value repr_of day2 v.
Proof.
  intros H. unfold Rows.normalize_value. rewrite H.
  apply normalize_date_today. now apply str_of_true.
Qed.

Lemma known_date_true (keys row : Dyn.dict) (v : pyval) :
  Rows.known_date keys row = Some v -> Dyn.truthy v = true.
Proof.
  induction keys as [ | [k x] keys IH]; cbn [Rows.known_date]; [discriminate | ].
  destruct (existsb (String.eqb k) Rows.DATE_KEYS && Dyn.truthy (Dyn.get row k))
    eqn:E; [ | exact IH].
  intros H. inversion H; subst v. now apply andb_true_iff in E.
Qed.

Lemma dated_true (items : Dyn.dict) (v : pyval) :
  Rows.dated items = Some v -> Dyn.truthy v = true.
Proof.
  induction items as [ | [k x] items IH]; cbn [Rows.dated]; [discriminate | ].
  destruct (Text.contains "date" (Text.lower k) && Dyn.truthy x) eqn:E;
    [ | exact IH].
  intros H. inversion H; subst v. now apply andb_true_iff in E.
Qed.

Lemma extract_date_from_row_today (day1 day2 : date) (row : Dyn.dict) :
  Rows._extract_date_from_row json_dumps repr_of day1 row
  = Rows._extract_date_from_row json_dumps repr_of day2 row.
Proof.
  unfold Rows._extract_date_from_row.
  destruct (Rows.known_date row row) as [val | ] eqn:E1.
  { apply normalize_value_today. now apply known_date_true in E1. }
  destruct (Rows.dated row) as [v | ] eqn:E2.
  { apply normalize_value_today. now apply dated_true in E2. }
  destruct (sniff_date_of_text _ (dumps_text row)) as (d & _ & Hd).
  now rewrite !Hd.
Qed.

Lemma date_or_sniffed_today (day1 day2 : date) (date : pyval) (row : Dyn.dict) :
  Rows.date_or_sniffed json_dumps repr_of day1 date row
  = Rows.date_or_sniffed json_dumps repr_of day2 date row.
Proof.
  unfold Rows.date_or_sniffed.
  destruct (Dyn.truthy date) eqn:E; [now apply normalize_value_today | ].
  destruct (sniff_date_of_text _ (dumps_text row)) as (d & Hne & Hd).
  rewrite !Hd. apply normalize_value_today.
  cbn [Dyn.truthy]. destruct (String.eqb d "") eqn:Ed; [ | reflexivity].
  apply String.eqb_eq in Ed. contradiction.
Qed.

(** C10.  [normalize_date] answers with the date of today when it is given
    no text, [None] or the empty string, and only then: what it makes of any
    other text does not depend on the day.  The functions that date a row
    never give it an empty text: they pass a value that is true, or what
    [_sniff_date_from_text] finds in the JSON text of the row, so the date
    of a row, with or without a date in it, is the same on every day. *)
Theorem today_for_no_text_only :
  forall today : date,
    Classify.normalize_date today None = Some (Ret (date_isoformat today))
    /\ Classify.normalize_date today (Some "") = Some (Ret (date_isoformat today))
    /\ forall day : date,
         (forall s, s <> "" ->
            Classify.normalize_date today (Some s)
            = Classify.normalize_date day (Some s))
         /\ (forall text, text <> "" ->
               Harvest._sniff_date_from_text today text
               = Harvest._sniff_date_from_text day text)
         /\ (forall row,
               Rows._extract_date_from_row json_dumps repr_of today row
               = Rows._extract_date_from_row json_dumps repr_of day row)
         /\ (forall row,
               Rows.powerball_row_date json_dumps repr_of today row
               = Rows.powerball_row_date json_dumps repr_of day row)
         /\ (forall row,
               Rows.megamillions_row_date json_dumps repr_of today row
               = Rows.megamillions_row_date json_dumps repr_of day row).
Proof.
  intros today. split; [reflexivity | ]. split; [reflexivity | ].
  intros day. split; [intros s Hs; now apply normalize_date_today | ].
  split.
  { intros text Ht. destruct (sniff_date_of_text text Ht) as (d & _ & Hd).
    now rewrite !Hd. }
  split; [intros row; apply extract_date_from_row_today | ].
  split; intros row; apply date_or_sniffed_today.
Qed.

End RowDates.

(** The witness of C10: the row of a draw without date, on two days. *)
Lemma today_for_no_text_only_witness :
  (forall row, Runs.dumps_dateless_row (PDict row) <> "")
  /\ (forall v, Runs.any_text v <> "")
  /\ Rows._extract_date_from_row Runs.dumps_dateless_row Runs.any_text
       (mkDate 2025 9 14) Runs.dateless_row
     = Rows._extract_date_from_row Runs.dumps_dateless_row Runs.any_text
         (mkDate 2025 9 15) Runs.dateless_row.
Proof.
  split; [intros row; discriminate | ].
  split; [intros v; discriminate | ].
  apply (today_for_no_text_only Runs.dumps_dateless_row Runs.any_text
           (fun row => ltac:(discriminate)) (fun v => ltac:(discriminate))
           (mkDate 2025 9 14)).
Defined.

(** C10, the claim as stated fails: a row that holds no date is not given
    the date of today.  Its date is sniffed from the JSON text of the row,
    which has no date shape, so the first ten characters of that text come
    back, on 14 September 2025 as on any day. *)
Lemma dateless_row_not_dated_today :
  Rows.known_date Runs.dateless_row Runs.dateless_row = None
  /\ Rows.dated Runs.dateless_row = None
  /\ Rows._extract_date_from_row Runs.dumps_dateless_row Runs.any_text
       (mkDate 2025 9 14) Runs.dateless_row
     = Some (Ret (Text.prefix 10 Runs.dateless_row_text))
  /\ Rows.powerball_row_date Runs.dumps_dateless_row Runs.any_text
       (mkDate 2025 9 14) Runs.dateless_row
     = Some (Ret (Text.prefix 10 Runs.dateless_row_text))
  /\ Text.prefix 10 Runs.dateless_row_text = "{" ++ Runs.quote ++ "winning_"
  /\ Text.prefix 10 Runs.dateless_row_text <> date_isoformat (mkDate 2025 9 14).
Proof.
  split; [reflexivity | ]. split; [reflexivity | ].
  split; [vm_compute; reflexivity | ].
  split; [vm_compute; reflexivity | ].
  split; [vm_compute; reflexivity | ].
  vm_compute. discriminate.
Qed.
